(* ===== verification/_CoqProject ===== *)
-Q . S2P
Prelude.v
RustStr.v
Config.v
Tlv.v
Serializer.v
Encrypt.v
Transport.v
Reading.v
Usb.v
NetAddr.v
Parser.v
Daemon.v
DaemonFile.v
DaemonForward.v
DaemonListeners.v
DaemonTask.v
DaemonShell.v
AuthTlv.v
RsaAuth.v
DaemonMain.v
HostMaps.v
HostChannels.v
HostSession.v
Handshake.v
HostTask.v
HostFile.v
HostApp.v
HostForward.v
HostBridge.v
HostUsbSession.v
HostMonitor.v
HostHotplug.v
HostWatcher.v
HostCommand.v
HostShell.v
HostDeveco.v
HostDiscover.v
HostClient.v
HostConsole.v
HostMain.v
Interop.v
EndToEnd.v
InteropRport.v
InteropSetup.v
InteropFport.v
