(* ===== verification/Prelude.v ===== *)
(** * Muka Rust HDC: a verification development

    The repository is a Rust implementation of the OpenHarmony device connector: a host
    program [hdc] (server and client, [src/hdc]), a daemon [hdcd] for the device
    ([src/hdcd]) and the protocol they share ([src/crates/hdc-protocol]).

    ** The parts and how they interact

    A client hands a command line to the server over a channel.  The server finds the
    device, and the handler of the command talks to the device's daemon over a session, on
    TCP or USB: messages ([TaskMessage]) are packed, perhaps encrypted, framed and sent;
    the reader task of the session hands what comes back to the queue of the handler that
    waits for the channel, or to the client.  The daemon authenticates, dispatches each
    message to a handler and answers on the same session.

    ** What models what

    Shared:
    - [Prelude]: results with panics, the state and error monad [M], its reasoning rule
      [wp], tasks as state machines ([run], [exec]), bytes, slices and machine integers.
    - [RustStr]: what the code uses of [str]: UTF-8, trimming, splitting, parsing numbers,
      paths.  [NetAddr]: [SocketAddr] parsing of the standard library.
    - [Config], [Tlv], [Serializer]: [config.rs] and [serializer.rs].
    - [Encrypt]: [encrypt.rs]; AES-GCM is the class [Aead] with its laws.
    - [Transport], [Reading]: [hdcd/transfer/tcp.rs], [hdc/transfer/tcp.rs] and the frame
      readers of [server.rs]; a stream is a list of reads of any size.

    Daemon ([src/hdcd/src]):
    - [Daemon]: the state shared by the handlers and their replies ([task.rs]).
    - [DaemonFile]: [file.rs], [app.rs], [flashd.rs].
    - [DaemonForward]: [forward.rs]; the tasks of a listener and of a connection are state
      machines ([listener_step], [conn_step]).  [DaemonListeners]: the messages, the closes and
      the listener tasks as one transition system ([sys_step]), in which a task runs between its
      spawn and its entry in the map.
    - [DaemonTask]: the dispatcher of [task.rs], the unity commands, and the loop of an
      interactive shell ([shell.rs]).  [DaemonShell]: that loop with the task and the threads
      it talks to over channels.
    - [AuthTlv], [RsaAuth], [DaemonMain]: the handshake buffer, the key exchange
      ([hdc/auth.rs] and [main.rs]) and the task of a connection ([handle_client]).

    Host ([src/hdc/src]):
    - [Usb]: [usb.rs] and [transfer/usb.rs]; libusb's answers are data.
    - [Parser]: [parser.rs].
    - [HostMaps], [HostChannels]: the tables of [server.rs] ([ConnectMap], [TcpMap],
      [UsbMap], [ForwardMap]) and the specification of the client channels they implement.
    - [HostSession], [Handshake]: [start_tcp_daemon_session], its reader and heartbeat, and
      both ends of the handshake together.
    - [HostUsbSession], [HostMonitor], [HostHotplug], [HostWatcher]: [start_usb_session] with
      its reader and writer, the monitor that starts the sessions, what wakes it, and the
      threads that do, for libusb and Windows ([usb_hotplug_windows.rs]).
    - [HostTask], [HostFile], [HostApp], [HostForward], [HostBridge]: the handlers of
      [file], [install], flashing, [fport] and [rport], and the connections of a rule.
    - [HostCommand]: the dispatcher of the server, [dispatch_task], and the task of a
      client, [handle_client].  [HostShell]: the relay of an interactive shell and of
      [track-jpid], as a state machine.  [HostDeveco]: connections of the IDE.
    - [HostClient]: [client.rs], with starting and killing a server.  [HostConsole]: the modes
      of the console around an interactive shell.  [HostDiscover]: [net_discover.rs].
      [HostMain]: [main.rs] and [run_server_mode].

    Together:
    - [EndToEnd]: a shell command through client, server and daemon.  [Interop]: transfers.
    - [InteropSetup], [InteropFport]: the set-up of an [rport] and of an [fport] rule, where each
      side is given what the other one sends.
    - [InteropRport]: a connection of an [rport]: the device's task, the listener's dispatcher
      and the host's bridge as one transition system ([moves]), with an executable form
      ([move]).

    A function of the code is a Rocq function of the same name; [io::Result] is [Result];
    functions that change state are in [M].  A loop of the code that waits for input has a
    list of what it will meet as an argument; a task that runs beside others is a step
    function with the conditions that enable its steps, and its theorems hold for every
    interleaving.  Code that is not in the repository is a class: [Aead], [Rsa], [Os],
    [HostFs], [HostSys], [HostDisk], [HostNet], [ClientEnv], [Zip], [UnixConsole], [WindowsConsole],
    [WindowsMessages], [HashIter] (the order of a [HashMap]); each has an instance that shows its laws can hold.

    ** What the theorems show

    - Data: every structure and packet is read back as it was written, every input is read
      without a panic, and what is read is well formed ([Serializer]); frames are opened by
      the other end's cipher in any order and no nonce is used twice ([Encrypt]); messages
      survive a session in order, however the stream is cut ([Transport], [Usb]).
    - Sessions: both ends of the handshake agree ([Handshake]); the tasks of a session end
      and leave nothing behind ([DaemonMain], [HostSession], [HostUsbSession]); the monitor
      never runs two sessions of a device and keeps its waiting times ([HostMonitor]), and
      loses no change of the devices ([HostHotplug]), with either watcher ([HostWatcher]).
    - Handlers: transfers store and send exactly the content ([DaemonFile], [HostFile]),
      interleaved ones do not disturb each other; installing and flashing follow the
      protocol ([HostApp]); forwarded bytes arrive in order and nowhere else
      ([DaemonForward], [HostBridge]), also from the device's socket to the host's and back
      ([InteropRport]); an [rport] rule exists on both sides or on none ([InteropSetup]).
    - Commands: a client's requests are served in order, however its stream is cut
      ([HostCommand], [HostDeveco]); a command the server answers, and a shell command the
      daemon runs, reach the terminal unchanged ([HostClient], [EndToEnd]); the two tasks of
      an interactive shell relay both directions in order ([HostShell]), and so do the
      daemon's, without losing what is in their channels ([DaemonShell]); discovery finds
      exactly the daemons that answered ([HostDiscover]); a client without a server starts
      one that listens where it connects ([HostMain]).
    - Tables: the channels implement their specification ([HostChannels]); rules are
      removed exactly ([HostMaps]).
    - Confinement: names in archives and of apps cannot leave the directory.
    - Panics: an index into a slice or a list is partial ([index], [slice_from]), and no message makes the daemon's
      dispatcher panic ([DaemonTask]).
    - Divergences: large files are corrupted by [file recv] ([HostFile]), an [fport] to a
      TCP device is dead ([HostBridge]), host and daemon of this repository do not agree on
      transfers ([Interop]) and on [fport] ([InteropFport]), a connection of an [rport] is freed
      by neither side ([InteropRport]), an absolute path of [file send] gets the current
      directory put in front ([HostClient]), the console of Windows is left in raw mode
      ([HostConsole]), a short write to a USB device goes unnoticed ([Usb]), and a listener that ends
      before it is entered stays registered ([DaemonListeners]).

    ** Bounds and fuel

    Machine integers are [Z] with their wrap-around written out ([wrap]).  Loops that read
    a stream have as fuel the bytes and reads that are left, one more than there can be
    turns; loops that wait have the length of the list of what they meet; the
    authentication has the ten rounds of the code.  Running out of fuel is a panic, and the
    theorems show that it does not happen; only [wait] without a device has no end, and the end of
    its list of polls stands for a call that has not returned ([HostCommand.wait_for]).  A USB device
    whose list of transfers is at its end is gone: an idle device is one whose list goes on.  A message is sendable when it fits in the
    frame the receiver accepts ([sendable]); theorems about sending assume that.

    ** Not modelled

    Logging, the event thread of libusb and the calls that make a window (the system's only),
    functions nothing calls ([usb_send_and_wait], [forward_simple_command],
    [read_loopback_output]) and constants nothing reads.  The tasks of different clients
    are not interleaved with each other: what another task does to the tables between two
    steps is covered where a component is a step function.  Time is not a clock: which
    waits time out is an argument, except for the waiting times of the monitor.  Directories
    are not part of a disk, which is a map from paths to contents. *)

From stdpp Require Export base numbers list strings gmap.
From Stdlib Require Export ZArith Lia.

#[global] Open Scope Z_scope.

(** ** Rust results

    [io::Result<T>] with the third outcome a Rust function has: a panic
    (slice index out of range, slice not on a character boundary,
    remainder by zero).  Error values keep the [ErrorKind] and the text. *)

Inductive ErrorKind :=
  | InvalidData | InvalidInput | NotFound | ConnectionAborted | OtherError
  | TimedOut | BrokenPipe | Unsupported | AddrInUse | ConnectionRefused | UnexpectedEof
  | Interrupted | NotConnected | PermissionDenied.

#[global] Instance ErrorKind_eq_dec : EqDecision ErrorKind.
Proof. solve_decision. Defined.

(** A byte string: every element is a [u8] (see [bytes_ok]).  [Vec<u8>],
    [&[u8]] and the UTF-8 contents of [String] and [&str] are all byte
    strings. *)
Abbreviation bytes := (list Z).

Record Error := mkError { err_kind : ErrorKind; err_msg : bytes }.

#[global] Instance Error_eq_dec : EqDecision Error.
Proof. solve_decision. Defined.

Inductive Result (A : Type) :=
  | Ok (a : A)
  | Err (e : Error)
  | Panic.
Arguments Ok {A} a.
Arguments Err {A} e.
Arguments Panic {A}.

#[global] Instance Result_eq_dec {A} `{EqDecision A} : EqDecision (Result A).
Proof. solve_decision. Defined.

#[global] Instance Result_ret : MRet Result := fun A a => Ok a.
#[global] Instance Result_bind : MBind Result := fun A B f r =>
  match r with Ok a => f a | Err e => Err e | Panic => Panic end.

Definition is_ok {A} (r : Result A) : bool :=
  match r with Ok _ => true | _ => false end.

(** A string literal of the source, as bytes. *)
Definition lit (s : string) : bytes :=
  map (fun a => Z.of_N (Ascii.N_of_ascii a)) (String.list_ascii_of_string s).

(** [Error::new(kind, "text")]. *)
Definition err {A} (k : ErrorKind) (s : string) : Result A := Err (mkError k (lit s)).

(** ** Machine integers

    A [w]-bit unsigned integer is a [Z] in [[0, 2^w)].  [wrap w] is the
    [as] cast to that width. *)
Definition wrap (w v : Z) : Z := v mod 2 ^ w.
Definition uint (w v : Z) : Prop := 0 <= v < 2 ^ w.
Abbreviation u8 v := (uint 8 v).
Abbreviation u16 v := (uint 16 v).
Abbreviation u32 v := (uint 32 v).
Abbreviation u64 v := (uint 64 v).

Definition bytes_ok (bs : bytes) : Prop := Forall (fun b => u8 b) bs.

#[global] Instance uint_dec w v : Decision (uint w v).
Proof. unfold uint. apply _. Defined.
#[global] Instance bytes_ok_dec bs : Decision (bytes_ok bs).
Proof. unfold bytes_ok. apply _. Defined.

(** The length of a buffer, as the [usize] it is. *)
Definition len {A} (l : list A) : Z := Z.of_nat (length l).

(** ** Stateful code

    A handler that threads a state and may fail: [M S A] runs on a state and
    gives a result with the new state, which an early return by [?] keeps as
    it was at that point. *)
Definition M (S A : Type) : Type := S -> Result A * S.
#[global] Instance M_ret {S} : MRet (M S) := fun A a s => (Ok a, s).
#[global] Instance M_bind {S} : MBind (M S) := fun A B f m s =>
  match m s with
  | (Ok a, s') => f a s'
  | (Err e, s') => (Err e, s')
  | (Panic, s') => (Panic, s')
  end.
(** A computation without state inside one with state. *)
Definition lift {S A} (r : Result A) : M S A := fun s => (r, s).
Definition throw {S A} (k : ErrorKind) (msg : string) : M S A := lift (err k msg).
Definition get {S} : M S S := fun s => (Ok s, s).
Definition put {S} (s : S) : M S unit := fun _ => (Ok tt, s).
Definition modify {S} (f : S -> S) : M S unit := fun s => (Ok tt, f s).
(** [let _ = m;] and [if let Err(e) = m]: the outcome as a value. *)
Definition try_ {S A} (m : M S A) : M S (Result A) := fun s =>
  match m s with
  | (Panic, s') => (Panic, s')
  | (r, s') => (Ok r, s')
  end.

(** A computation on a part of the state. *)
Definition zoom {S T A} (get : S -> T) (set : T -> S -> S) (m : M T A) : M S A := fun s =>
  let '(r, t) := m (get s) in (r, set t s).

(** ** Tactics of the development *)

(** Tests on machine integers are decided by [lia] once the widths are unfolded. *)

(** Unfold the width predicates so that [lia] sees the bounds. *)
Ltac widths := unfold uint, wrap, len in *; change (2 ^ 8) with 256 in *;
  change (2 ^ 16) with 65536 in *; change (2 ^ 32) with 4294967296 in *;
  change (2 ^ 64) with 18446744073709551616 in *.
Ltac ulia := widths; lia.

(** Case on the boolean test that blocks the goal, with the arithmetic fact. *)
Ltac bool_cases :=
  repeat match goal with
  | H : (_ && _)%bool = true |- _ => apply andb_prop in H; destruct H
  | H : (_ =? _) = true |- _ => apply Z.eqb_eq in H
  | H : (_ =? _) = false |- _ => apply Z.eqb_neq in H
  | H : (_ <? _) = true |- _ => apply Z.ltb_lt in H
  | H : (_ <? _) = false |- _ => apply Z.ltb_ge in H
  | H : (_ <=? _) = true |- _ => apply Z.leb_le in H
  | H : (_ <=? _) = false |- _ => apply Z.leb_gt in H
  end.
Ltac case_if :=
  match goal with
  | |- context [if ?b then _ else _] => destruct b eqn:?
  | H : context [if ?b then _ else _] |- _ => destruct b eqn:?
  end; bool_cases.

(** Rewrite the tests of the goal with arithmetic facts of the context. *)
Ltac test_true :=
  match goal with
  | |- context [?a <? ?b] => rewrite (proj2 (Z.ltb_lt a b)) by lia
  | |- context [?a <=? ?b] => rewrite (proj2 (Z.leb_le a b)) by lia
  | |- context [?a =? ?b] => rewrite (proj2 (Z.eqb_eq a b)) by lia
  end.
Ltac test_false :=
  match goal with
  | |- context [?a <? ?b] => rewrite (proj2 (Z.ltb_ge a b)) by lia
  | |- context [?a <=? ?b] => rewrite (proj2 (Z.leb_gt a b)) by lia
  | |- context [?a =? ?b] => rewrite (proj2 (Z.eqb_neq a b)) by lia
  end.
Ltac tests := repeat (test_true || test_false).

(** ** Generic facts *)

Create HintDb hdc.
Create Rewrite HintDb hdc.
#[export] Hint Extern 2 (_ <= _)%Z => lia : hdc.

Lemma Ok_inj {A} (a b : A) : Ok a = Ok b -> a = b.
Proof. by intros [= ->]. Qed.
Lemma bind_Ok {A B} (a : A) (f : A -> Result B) : (Ok a ≫= f) = f a.
Proof. done. Qed.
Lemma bind_Ok_inv {A B} (r : Result A) (f : A -> Result B) b :
  (r ≫= f) = Ok b -> exists a, r = Ok a /\ f a = Ok b.
Proof. destruct r; simpl; intros H; try discriminate. eauto. Qed.

Lemma M_bind_eq {S A B} (m : M S A) (f : A -> M S B) s :
  (m ≫= f) s = match m s with
               | (Ok a, s') => f a s' | (Err e, s') => (Err e, s') | (Panic, s') => (Panic, s')
               end.
Proof. done. Qed.
Lemma M_bind_Ok {S A B} (m : M S A) (f : A -> M S B) s a s' :
  m s = (Ok a, s') -> (m ≫= f) s = f a s'.
Proof. intros E. by rewrite M_bind_eq, E. Qed.
Lemma M_bind_lift {S A B} (a : A) (f : A -> M S B) s : (lift (Ok a) ≫= f) s = f a s.
Proof. done. Qed.
Lemma M_bind_Err {S A B} (m : M S A) (f : A -> M S B) s e s' :
  m s = (Err e, s') -> (m ≫= f) s = (Err e, s').
Proof. intros E. by rewrite M_bind_eq, E. Qed.
Lemma M_bind_inv {S A B} (m : M S A) (f : A -> M S B) s b s'' :
  (m ≫= f) s = (Ok b, s'') -> exists a s', m s = (Ok a, s') /\ f a s' = (Ok b, s'').
Proof. rewrite M_bind_eq. destruct (m s) as [[a|e|] s']; intros; eauto; congruence. Qed.

Lemma bind_no_panic {A B} (r : Result A) (f : A -> Result B) :
  r <> Panic -> (forall a, r = Ok a -> f a <> Panic) -> (r ≫= f) <> Panic.
Proof. destruct r; simpl; intros; eauto; congruence. Qed.

(** Peel the binds of a hypothesis [_ = Ok _]. *)
Ltac bind_inv :=
  repeat match goal with
  | H : (_ ≫= _) = Ok _ |- _ =>
      apply bind_Ok_inv in H; let a := fresh "a" in let E := fresh "E" in
      destruct H as (a & E & H); simpl in H
  | a : (_ * _)%type |- _ => destruct a; simpl in *
  end.

Lemma len_nonneg {A} (l : list A) : 0 <= len l.
Proof. unfold len. lia. Qed.
Lemma len_nil {A} : len (@nil A) = 0.
Proof. reflexivity. Qed.
Lemma len_cons {A} (x : A) l : len (x :: l) = 1 + len l.
Proof. unfold len. simpl. lia. Qed.
Lemma len_app {A} (l k : list A) : len (l ++ k) = len l + len k.
Proof. unfold len. rewrite length_app. lia. Qed.
Lemma len_zero {A} (l : list A) : len l = 0 <-> l = [].
Proof. unfold len. destruct l; simpl; [done|]. split; [lia|done]. Qed.
Lemma len_pos {A} (l : list A) : l <> [] -> 0 < len l.
Proof. rewrite <- len_zero. pose proof (len_nonneg l). lia. Qed.
#[export] Hint Rewrite @len_nil @len_cons @len_app : hdc.
#[export] Hint Resolve len_nonneg : hdc.

Lemma bytes_ok_app a b : bytes_ok (a ++ b) <-> bytes_ok a /\ bytes_ok b.
Proof. apply Forall_app. Qed.
Lemma bytes_ok_cons x b : bytes_ok (x :: b) <-> u8 x /\ bytes_ok b.
Proof. unfold bytes_ok. rewrite Forall_cons. done. Qed.
Lemma bytes_ok_nil : bytes_ok [].
Proof. constructor. Qed.
Lemma bytes_ok_take n b : bytes_ok b -> bytes_ok (take n b).
Proof. apply Forall_take. Qed.
Lemma bytes_ok_drop n b : bytes_ok b -> bytes_ok (drop n b).
Proof. apply Forall_drop. Qed.
#[export] Hint Resolve bytes_ok_nil bytes_ok_take bytes_ok_drop : hdc.

Lemma wrap_range w v : 0 <= w -> uint w (wrap w v).
Proof. intros. apply Z.mod_pos_bound. lia. Qed.
Lemma wrap_small w v : uint w v -> wrap w v = v.
Proof. apply Z.mod_small. Qed.
Lemma lor_range w a b : 0 <= w -> uint w a -> uint w b -> uint w (Z.lor a b).
Proof.
  intros Hw Ha Hb.
  replace (Z.lor a b) with (Z.lor a b mod 2 ^ w); [by apply wrap_range|].
  rewrite <- Z.land_ones, Z.land_lor_distr_l, !Z.land_ones, !Z.mod_small by done. done.
Qed.
Lemma lit_ok s : bytes_ok (lit s).
Proof.
  unfold lit. apply Forall_map, Forall_true. intros a.
  pose proof (Ascii.N_ascii_bounded a). ulia.
Qed.
#[export] Hint Resolve wrap_range lit_ok : hdc.

(** ** Slices

    [&bs[a..b]] panics unless [a <= b <= bs.len()]; [&bs[a..]] unless
    [a <= bs.len()]. *)
Definition slice_raw (a b : Z) (bs : bytes) : bytes :=
  take (Z.to_nat (b - a)) (drop (Z.to_nat a) bs).
Definition slice (a b : Z) (bs : bytes) : Result bytes :=
  if (a <=? b) && (b <=? len bs) then Ok (slice_raw a b bs) else Panic.
Definition slice_from (a : Z) (bs : bytes) : Result bytes :=
  if a <=? len bs then Ok (drop (Z.to_nat a) bs) else Panic.

(** [v[i]] panics unless [i < v.len()]. *)
Definition index {A} (i : nat) (v : list A) : Result A := match v !! i with Some x => Ok x | None => Panic end.
Lemma index_within {A} i (v : list A) (d : A) : (i < length v)%nat -> index i v = Ok (nth i v d).
Proof. intros H. unfold index. rewrite nth_lookup. by destruct (lookup_lt_is_Some_2 v i H) as [x ->]. Qed.

(** The bytes from offset [a] on, none when [a] is past the end: what a
    cursor at [a] still has to read. *)
Definition rest_from (a : Z) (bs : bytes) : bytes :=
  if a <? len bs then drop (Z.to_nat a) bs else [].

Lemma rest_from_0 bs : rest_from 0 bs = bs.
Proof. unfold rest_from. destruct bs; [done|]. rewrite len_cons.
  pose proof (len_nonneg bs). tests. done. Qed.
Lemma rest_from_nil a bs : 0 <= a -> rest_from a bs = [] <-> len bs <= a.
Proof.
  intros. unfold rest_from. case_if; [|split; [lia|done]].
  split; [|lia]. intros E. apply (f_equal length) in E.
  rewrite length_drop in E. simpl in E. unfold len in *. lia.
Qed.
Lemma rest_from_app a bs x y :
  0 <= a -> rest_from a bs = x ++ y -> rest_from (a + len x) bs = y.
Proof.
  intros Ha E. destruct (decide (len bs <= a)) as [Hl|Hl].
  - rewrite (proj2 (rest_from_nil a bs Ha) Hl) in E.
    destruct x, y; try discriminate. rewrite len_nil, Z.add_0_r.
    by apply rest_from_nil.
  - unfold rest_from in *. rewrite (proj2 (Z.ltb_lt a (len bs))) in E by lia.
    assert (Hlen : (length bs - Z.to_nat a = length x + length y)%nat).
    { rewrite <- length_drop, E, length_app. done. }
    unfold len in *. case_if.
    + replace (Z.to_nat (a + Z.of_nat (length x)))
        with (Z.to_nat a + length x)%nat by lia.
      rewrite <- drop_drop, E, drop_app_length. done.
    + destruct y; [done|]. simpl in Hlen. lia.
Qed.
Lemma rest_from_len a bs x :
  0 <= a <= len bs -> rest_from a bs = x -> len x = len bs - a.
Proof.
  intros Ha <-. unfold rest_from, len in *. case_if; [|simpl; lia].
  rewrite length_drop. lia.
Qed.
Lemma rest_from_ok a bs : bytes_ok bs -> bytes_ok (rest_from a bs).
Proof. unfold rest_from. case_if; auto with hdc. Qed.
#[export] Hint Resolve rest_from_ok : hdc.

Lemma slice_raw_app a bs x y :
  0 <= a -> rest_from a bs = x ++ y -> slice_raw a (a + len x) bs = x.
Proof.
  intros Ha E. unfold slice_raw, rest_from, len in *. case_if.
  - rewrite E, take_app_length'; [done|lia].
  - destruct x; [|done]. simpl. rewrite Z.add_0_r, Z.sub_diag. done.
Qed.
Lemma slice_raw_length a b bs :
  0 <= a <= b -> b <= len bs -> len (slice_raw a b bs) = b - a.
Proof. unfold slice_raw, len. intros. rewrite length_take, length_drop. lia. Qed.
Lemma slice_raw_ok a b bs : bytes_ok bs -> bytes_ok (slice_raw a b bs).
Proof. unfold slice_raw. auto with hdc. Qed.
#[export] Hint Resolve slice_raw_ok : hdc.

(** A buffer put together from parts, cut at the seams. *)
Lemma slice_raw_prefix (a b : bytes) n : n = len a -> slice_raw 0 n (a ++ b) = a.
Proof.
  intros ->. unfold slice_raw, len. rewrite Z.sub_0_r, Nat2Z.id. simpl.
  by rewrite drop_0, take_app_length.
Qed.
Lemma slice_prefix (a b : bytes) n : n = len a -> slice 0 n (a ++ b) = Ok a.
Proof.
  intros ->. unfold slice. rewrite len_app. pose proof (len_nonneg a). pose proof (len_nonneg b).
  tests. simpl. unfold slice_raw, len. rewrite Z.sub_0_r, Nat2Z.id. simpl.
  by rewrite drop_0, take_app_length.
Qed.
Lemma slice_middle (a b c : bytes) i j :
  i = len a -> j = len a + len b -> slice i j (a ++ b ++ c) = Ok b.
Proof.
  intros -> ->. unfold slice. rewrite !len_app. pose proof (len_nonneg a).
  pose proof (len_nonneg b). pose proof (len_nonneg c). tests. simpl.
  unfold slice_raw, len. rewrite Nat2Z.id, drop_app_length.
  rewrite take_app_length' by lia. done.
Qed.
Lemma slice_no_panic a b bs : 0 <= a <= b -> b <= len bs -> slice a b bs = Ok (slice_raw a b bs).
Proof. intros. unfold slice. by tests. Qed.

Lemma long_enough (a b : bytes) n : n <= len a -> (len (a ++ b) <? n) = false.
Proof. intros. rewrite len_app. pose proof (len_nonneg b). apply Z.ltb_ge. lia. Qed.

(** ** Big-endian integers

    [to_be_bytes] of a [u16], [u32] or [u64] (with [n] = 2, 4, 8) and
    [from_be_bytes]; [to_le_bytes] is the reverse order. *)
Fixpoint to_be_bytes (n : nat) (v : Z) : bytes :=
  match n with
  | O => []
  | S n' => to_be_bytes n' (Z.shiftr v 8) ++ [Z.land v 255]
  end.
Definition from_be_bytes (bs : bytes) : Z :=
  foldl (fun acc b => Z.lor (Z.shiftl acc 8) b) 0 bs.
Definition to_le_bytes (n : nat) (v : Z) : bytes := reverse (to_be_bytes n v).

Lemma land_255 v : Z.land v 255 = v mod 256.
Proof. change 255 with (Z.ones 8). rewrite Z.land_ones by lia. done. Qed.
Lemma shiftr_8 v : Z.shiftr v 8 = v / 256.
Proof. rewrite Z.shiftr_div_pow2 by lia. done. Qed.
Lemma shiftl_or_add a b k : 0 <= k -> 0 <= b < 2 ^ k ->
  Z.lor (Z.shiftl a k) b = a * 2 ^ k + b.
Proof.
  intros Hk Hb. rewrite <- Z.shiftl_mul_pow2 by lia. symmetry.
  rewrite <- Z.lxor_lor, <- Z.add_nocarry_lxor; [done| |];
    apply Z.bits_inj'; intros i Hi; rewrite Z.land_spec, Z.bits_0;
    destruct (decide (i < k));
    (rewrite Z.shiftl_spec_low by lia; done) ||
    (rewrite <- (Z.mod_small b (2 ^ k)) by lia;
     rewrite Z.mod_pow2_bits_high by lia; apply andb_false_r).
Qed.

Lemma length_to_be_bytes n v : length (to_be_bytes n v) = n.
Proof. revert v; induction n; intros; simpl; [done|].
  rewrite length_app, IHn. simpl. lia. Qed.
Lemma len_to_be_bytes n v : len (to_be_bytes n v) = Z.of_nat n.
Proof. unfold len. by rewrite length_to_be_bytes. Qed.
Lemma to_be_bytes_ok n v : bytes_ok (to_be_bytes n v).
Proof.
  revert v; induction n; intros; simpl; [constructor|].
  apply bytes_ok_app. split; [done|]. apply bytes_ok_cons.
  split; [|constructor]. rewrite land_255. pose proof (Z.mod_pos_bound v 256). ulia.
Qed.
#[export] Hint Rewrite len_to_be_bytes : hdc.
#[export] Hint Resolve to_be_bytes_ok : hdc.

Lemma from_be_bytes_snoc bs b :
  u8 b -> from_be_bytes (bs ++ [b]) = from_be_bytes bs * 256 + b.
Proof. intros. unfold from_be_bytes. rewrite foldl_snoc, shiftl_or_add; [done|lia|ulia]. Qed.

Lemma from_to_be_bytes n v :
  from_be_bytes (to_be_bytes n v) = v mod 2 ^ (8 * Z.of_nat n).
Proof.
  revert v; induction n as [|n IH]; intros v.
  { simpl. rewrite Z.mod_1_r. done. }
  cbn [to_be_bytes]. rewrite land_255, shiftr_8, from_be_bytes_snoc, IH.
  2:{ pose proof (Z.mod_pos_bound v 256). ulia. }
  replace (8 * Z.of_nat (S n)) with (8 + 8 * Z.of_nat n) by lia.
  rewrite Z.pow_add_r by lia. change (2 ^ 8) with 256.
  rewrite Z.rem_mul_r by lia. lia.
Qed.
Lemma from_to_be_bytes_id n v :
  uint (8 * Z.of_nat n) v -> from_be_bytes (to_be_bytes n v) = v.
Proof. intros. rewrite from_to_be_bytes. by apply Z.mod_small. Qed.

Lemma from_be_bytes_range bs :
  bytes_ok bs -> uint (8 * len bs) (from_be_bytes bs).
Proof.
  induction bs as [|b bs IH] using rev_ind; intros Hok; [by vm_compute|].
  apply bytes_ok_app in Hok as [Hbs Hb]. apply bytes_ok_cons in Hb as [Hb _].
  rewrite from_be_bytes_snoc by done. specialize (IH Hbs).
  rewrite len_app, len_cons, len_nil. unfold uint in *.
  replace (8 * (len bs + (1 + 0))) with (8 * len bs + 8) by lia.
  pose proof (len_nonneg bs). rewrite Z.pow_add_r by lia. change (2 ^ 8) with 256 in *. lia.
Qed.
Lemma to_from_be_bytes bs :
  bytes_ok bs -> to_be_bytes (length bs) (from_be_bytes bs) = bs.
Proof.
  induction bs as [|b bs IH] using rev_ind; intros Hok; [done|].
  apply bytes_ok_app in Hok as [Hbs Hb]. apply bytes_ok_cons in Hb as [Hb _].
  rewrite length_app, Nat.add_comm, from_be_bytes_snoc by done. simpl.
  rewrite land_255, shiftr_8, Z.div_add_l by lia.
  rewrite (Z.add_comm (_ * _)), Z.mod_add by lia.
  rewrite (Z.div_small b), (Z.mod_small b), Z.add_0_r, IH; ulia || done.
Qed.

(** ** What a computation establishes

    [wp m Q E s]: run on [s], [m] does not panic, a value it returns satisfies [Q]
    and an error [E], each with the state it is returned in. *)
Definition wp {S A} (m : M S A) (Q : A -> S -> Prop) (E : Error -> S -> Prop) (s : S) : Prop :=
  match m s with (Ok a, s') => Q a s' | (Err e, s') => E e s' | (Panic, _) => False end.

Section Wp.
Context {S : Type}.
Implicit Types s : S.

Lemma wp_mono {A} (m : M S A) (Q Q' : A -> S -> Prop) (E E' : Error -> S -> Prop) s :
  wp m Q E s -> (forall a s', Q a s' -> Q' a s') -> (forall e s', E e s' -> E' e s') -> wp m Q' E' s.
Proof. unfold wp. intros H HQ HE. destruct (m s) as [[a|e|] s']; auto. Qed.
Lemma wp_bind {A B} (m : M S A) (f : A -> M S B) Q E s :
  wp m (fun a s' => wp (f a) Q E s') E s -> wp (m ≫= f) Q E s.
Proof. unfold wp. rewrite M_bind_eq. by destruct (m s) as [[a|e|] s']. Qed.
Lemma wp_ret {A} (a : A) (Q : A -> S -> Prop) E s : Q a s -> wp (mret a) Q E s.
Proof. done. Qed.
Lemma wp_lift {A} (r : Result A) (Q : A -> S -> Prop) E s :
  r <> Panic -> (forall a, r = Ok a -> Q a s) -> (forall e, r = Err e -> E e s) -> wp (lift r) Q E s.
Proof. unfold wp, lift. destruct r; auto. Qed.
Lemma wp_get (Q : S -> S -> Prop) E s : Q s s -> wp get Q E s.
Proof. done. Qed.
Lemma wp_modify (f : S -> S) (Q : unit -> S -> Prop) E s : Q tt (f s) -> wp (modify f) Q E s.
Proof. done. Qed.
Lemma wp_try {A} (m : M S A) (Q : Result A -> S -> Prop) E s :
  wp m (fun a => Q (Ok a)) (fun e => Q (Err e)) s -> wp (try_ m) Q E s.
Proof. unfold wp, try_. by destruct (m s) as [[a|e|] s']. Qed.
Lemma wp_zoom {T A} (g : S -> T) (st : T -> S -> S) (m : M T A) (Q : A -> S -> Prop) E s :
  wp m (fun a t => Q a (st t s)) (fun e t => E e (st t s)) (g s) -> wp (zoom g st m) Q E s.
Proof. unfold wp, zoom. by destruct (m (g s)) as [[a|e|] t]. Qed.
Lemma wp_total {A} (m : M S A) s : (m s).1 <> Panic -> wp m (fun _ _ => True) (fun _ _ => True) s.
Proof. unfold wp. by destruct (m s) as [[a|e|] s']. Qed.
Lemma wp_value {A} (m : M S A) Q s :
  wp m Q (fun _ _ => False) s -> exists a s', m s = (Ok a, s') /\ Q a s'.
Proof. unfold wp. destruct (m s) as [[a|e|] s']; [eauto|done|done]. Qed.
Lemma wp_no_panic {A} (m : M S A) Q E s : wp m Q E s -> (m s).1 <> Panic.
Proof. unfold wp. by destruct (m s) as [[a|e|] s']. Qed.
End Wp.

(** A computation that never panics. *)
Definition total {S A} (m : M S A) : Prop := forall s, (m s).1 <> Panic.
Lemma total_bind {S A B} (m : M S A) (f : A -> M S B) : total m -> (forall a, total (f a)) -> total (m ≫= f).
Proof. intros Hm Hf s. rewrite M_bind_eq. specialize (Hm s). destruct (m s) as [[a|e|] s']; [apply Hf|done|done]. Qed.
Lemma total_ret {S A} (a : A) : total (S := S) (mret a).
Proof. done. Qed.
Lemma total_lift {S A} (r : Result A) : r <> Panic -> total (S := S) (lift r).
Proof. by intros H s. Qed.
Lemma total_try {S A} (m : M S A) : total m -> total (try_ m).
Proof. intros H s. specialize (H s). unfold try_. by destruct (m s) as [[a|e|] s']. Qed.
Lemma total_zoom {S T A} (g : S -> T) (st : T -> S -> S) (m : M T A) : total m -> total (zoom g st m).
Proof. intros H s. specialize (H (g s)). unfold zoom. by destruct (m (g s)). Qed.
Create HintDb total.
#[export] Hint Resolve total_ret total_try total_zoom : total.

(** ** Tasks as state machines

    A task has a local state and steps that may fail, change the shared state and
    are enabled or not by the local state.  Its runs carry the events that
    happened, in order; [exec] plays a list of events. *)
Section Machine.
Context {S L E : Type} (enabled : E -> L -> bool) (step : E -> L -> M S L).

Inductive run (l0 : L) (s0 : S) : list E -> L -> S -> Prop :=
  | run_nil : run l0 s0 [] l0 s0
  | run_snoc es l s e l' s' :
      run l0 s0 es l s -> enabled e l = true -> step e l s = (Ok l', s') ->
      run l0 s0 (es ++ [e]) l' s'.

Fixpoint exec (es : list E) (l : L) (s : S) : option (L * S) :=
  match es with
  | [] => Some (l, s)
  | e :: t =>
      if enabled e l then
        match step e l s with (Ok l', s') => exec t l' s' | _ => None end
      else None
  end.

Lemma run_exec es1 es l0 s0 l s l' s' :
  run l0 s0 es1 l s -> exec es l s = Some (l', s') -> run l0 s0 (es1 ++ es) l' s'.
Proof.
  revert es1 l s; induction es as [|e es IH]; intros es1 l s H Ex; simpl in Ex.
  - injection Ex as <- <-. by rewrite app_nil_r.
  - destruct (enabled e l) eqn:He; [|done]. destruct (step e l s) as [[l1| |] s1] eqn:Es; try done.
    replace (es1 ++ e :: es) with ((es1 ++ [e]) ++ es) by (by rewrite <- app_assoc).
    eapply IH; [by eapply run_snoc|done].
Qed.
Lemma exec_run es l s l' s' : exec es l s = Some (l', s') -> run l s es l' s'.
Proof. apply (run_exec [] es l s l s). constructor. Qed.
Lemma exec_app es1 es2 l s l1 s1 : exec es1 l s = Some (l1, s1) -> exec (es1 ++ es2) l s = exec es2 l1 s1.
Proof.
  revert l s; induction es1 as [|e es1 IH]; intros l s; cbn [exec app]; [by intros [= -> ->]|].
  destruct (enabled e l); [|done]. destruct (step e l s) as [[l'| |] s']; [apply IH|done..].
Qed.
End Machine.
