(* ===== verification/RustStr.v ===== *)
(** * Strings of the Rust standard library

    What the program uses of [str], [String] and the integer parsers: UTF-8
    validation ([String::from_utf8]) and lossy decoding
    ([String::from_utf8_lossy]), slicing with its character-boundary panic,
    splitting, trimming, joining, decimal formatting and parsing.  A string is
    the byte string of its UTF-8 encoding. *)

From S2P Require Import Prelude.

(** ** UTF-8 *)

Definition in_rng (lo hi b : Z) : bool := (lo <=? b) && (b <=? hi).
Definition is_cont (b : Z) : bool := in_rng 128 191 b.

(** The number of bytes of the character a lead byte starts; 0 for a byte that
    starts none. *)
Definition utf8_char_width (b : Z) : Z :=
  if b <? 128 then 1 else if in_rng 194 223 b then 2
  else if in_rng 224 239 b then 3 else if in_rng 240 244 b then 4 else 0.

(** Which second bytes a three- or four-byte lead allows (no overlong forms,
    no surrogates, nothing above U+10FFFF). *)
Definition second3_ok (b0 b1 : Z) : bool :=
  if b0 =? 224 then in_rng 160 191 b1
  else if b0 =? 237 then in_rng 128 159 b1 else is_cont b1.
Definition second4_ok (b0 b1 : Z) : bool :=
  if b0 =? 240 then in_rng 144 191 b1
  else if b0 =? 244 then in_rng 128 143 b1 else is_cont b1.

(** [Utf8Error]: the offset up to which the input is valid and the length of
    the bad sequence ([None]: the input ends inside a character). *)
Record Utf8Error := mkUtf8Error { valid_up_to : Z; error_len : option Z }.

(** [core::str::validations::run_utf8_validation]. *)
Fixpoint run_utf8_validation (idx : Z) (bs : bytes) : option Utf8Error :=
  match bs with
  | [] => None
  | b0 :: t0 =>
      let bad l := Some (mkUtf8Error idx l) in
      match utf8_char_width b0 with
      | 1 => run_utf8_validation (idx + 1) t0
      | 2 => match t0 with
             | [] => bad None
             | b1 :: t1 => if is_cont b1 then run_utf8_validation (idx + 2) t1 else bad (Some 1)
             end
      | 3 => match t0 with
             | [] => bad None
             | b1 :: t1 =>
                 if second3_ok b0 b1 then
                   match t1 with
                   | [] => bad None
                   | b2 :: t2 => if is_cont b2 then run_utf8_validation (idx + 3) t2 else bad (Some 2)
                   end
                 else bad (Some 1)
             end
      | 4 => match t0 with
             | [] => bad None
             | b1 :: t1 =>
                 if second4_ok b0 b1 then
                   match t1 with
                   | [] => bad None
                   | b2 :: t2 =>
                       if is_cont b2 then
                         match t2 with
                         | [] => bad None
                         | b3 :: t3 => if is_cont b3 then run_utf8_validation (idx + 4) t3 else bad (Some 3)
                         end
                       else bad (Some 2)
                   end
                 else bad (Some 1)
             end
      | _ => bad (Some 1)
      end
  end.

Definition utf8_valid (bs : bytes) : bool :=
  match run_utf8_validation 0 bs with None => true | Some _ => false end.

Arguments utf8_valid : simpl never.

(** [String::from_utf8], whose error is displayed as [fmt_utf8_error] (below). *)
Definition from_utf8 (bs : bytes) : Utf8Error + bytes :=
  match run_utf8_validation 0 bs with Some e => inl e | None => inr bs end.

(** [String::from_utf8_lossy]: every maximal bad sequence becomes U+FFFD. *)
Definition replacement : bytes := [239; 191; 189].
Fixpoint from_utf8_lossy (bs : bytes) : bytes :=
  match bs with
  | [] => []
  | b0 :: t0 =>
      match utf8_char_width b0 with
      | 1 => b0 :: from_utf8_lossy t0
      | 2 => match t0 with
             | [] => replacement
             | b1 :: t1 => if is_cont b1 then b0 :: b1 :: from_utf8_lossy t1
                           else replacement ++ from_utf8_lossy t0
             end
      | 3 => match t0 with
             | [] => replacement
             | b1 :: t1 =>
                 if second3_ok b0 b1 then
                   match t1 with
                   | [] => replacement
                   | b2 :: t2 => if is_cont b2 then b0 :: b1 :: b2 :: from_utf8_lossy t2
                                 else replacement ++ from_utf8_lossy t1
                   end
                 else replacement ++ from_utf8_lossy t0
             end
      | 4 => match t0 with
             | [] => replacement
             | b1 :: t1 =>
                 if second4_ok b0 b1 then
                   match t1 with
                   | [] => replacement
                   | b2 :: t2 =>
                       if is_cont b2 then
                         match t2 with
                         | [] => replacement
                         | b3 :: t3 => if is_cont b3 then b0 :: b1 :: b2 :: b3 :: from_utf8_lossy t3
                                       else replacement ++ from_utf8_lossy t2
                         end
                       else replacement ++ from_utf8_lossy t1
                   end
                 else replacement ++ from_utf8_lossy t0
             end
      | _ => replacement ++ from_utf8_lossy t0
      end
  end.

(** ** Decimal integers *)

(** [format!("{}", v)] of an unsigned integer; twenty digits hold a [u64]. *)
Fixpoint fmt_dec_go (fuel : nat) (v : Z) : bytes :=
  match fuel with
  | O => []
  | S f => if v <? 10 then [48 + v] else fmt_dec_go f (v / 10) ++ [48 + v mod 10]
  end.
Definition fmt_dec (v : Z) : bytes := fmt_dec_go 20 v.

(** [Display] of [Utf8Error]. *)
Definition fmt_utf8_error (e : Utf8Error) : bytes :=
  match error_len e with
  | Some n => lit "invalid utf-8 sequence of " ++ fmt_dec n ++ lit " bytes from index " ++
              fmt_dec (valid_up_to e)
  | None => lit "incomplete utf-8 byte sequence from index " ++ fmt_dec (valid_up_to e)
  end.

Inductive IntError := IntEmpty | IntInvalidDigit | IntPosOverflow.
#[global] Instance IntError_eq_dec : EqDecision IntError.
Proof. solve_decision. Defined.

Definition fmt_int_error (e : IntError) : bytes :=
  match e with
  | IntEmpty => lit "cannot parse integer from empty string"
  | IntInvalidDigit => lit "invalid digit found in string"
  | IntPosOverflow => lit "number too large to fit in target type"
  end.

Definition is_ascii_digit (b : Z) : bool := in_rng 48 57 b.

Fixpoint parse_digits (w acc : Z) (s : bytes) : IntError + Z :=
  match s with
  | [] => inr acc
  | c :: t =>
      if negb (is_ascii_digit c) then inl IntInvalidDigit
      else if 2 ^ w <=? acc * 10 then inl IntPosOverflow
      else if 2 ^ w <=? acc * 10 + (c - 48) then inl IntPosOverflow
      else parse_digits w (acc * 10 + (c - 48)) t
  end.

(** [str::parse::<uN>()]: an optional [+], then at least one digit. *)
Definition parse_uint (w : Z) (s : bytes) : IntError + Z :=
  match s with
  | [] => inl IntEmpty
  | [c] => if (c =? 43) || (c =? 45) then inl IntInvalidDigit else parse_digits w 0 s
  | c :: t => if c =? 43 then parse_digits w 0 t else parse_digits w 0 s
  end.

(** ** Prefixes, suffixes, splitting *)

Definition beq (a b : bytes) : bool := bool_decide (a = b).
Definition starts_with (p s : bytes) : bool := beq (take (length p) s) p.
Definition ends_with (p s : bytes) : bool := starts_with (reverse p) (reverse s).
Definition strip_prefix (p s : bytes) : option bytes :=
  if starts_with p s then Some (drop (length p) s) else None.
Definition strip_suffix (p s : bytes) : option bytes :=
  if ends_with p s then Some (take (length s - length p) s) else None.
Fixpoint contains (p s : bytes) : bool :=
  starts_with p s || match s with [] => false | _ :: t => contains p t end.

(** [s.split(c)] for an ASCII character [c]: always at least one piece. *)
Fixpoint split_on (c : Z) (s : bytes) : list bytes :=
  match s with
  | [] => [[]]
  | b :: t =>
      if b =? c then [] :: split_on c t
      else match split_on c t with
           | p :: ps => (b :: p) :: ps
           | [] => [[b]]
           end
  end.

(** [s.split_once(c)], [s.rsplit_once(c)]. *)
Fixpoint split_once (c : Z) (s : bytes) : option (bytes * bytes) :=
  match s with
  | [] => None
  | b :: t => if b =? c then Some ([], t)
              else match split_once c t with
                   | Some (x, y) => Some (b :: x, y)
                   | None => None
                   end
  end.
Definition rsplit_once (c : Z) (s : bytes) : option (bytes * bytes) :=
  match split_once c (reverse s) with
  | Some (x, y) => Some (reverse y, reverse x)
  | None => None
  end.

(** [parts.join(sep)]. *)
Fixpoint join (sep : bytes) (parts : list bytes) : bytes :=
  match parts with
  | [] => []
  | [p] => p
  | p :: ps => p ++ sep ++ join sep ps
  end.

(** ** Characters and white space *)

(** The characters of a string: each lead byte with the continuation bytes
    that follow it. *)
Fixpoint chars (s : bytes) : list bytes :=
  match s with
  | [] => []
  | b :: t =>
      match chars t with
      | (b' :: c) :: cs => if is_cont b' then (b :: b' :: c) :: cs else [b] :: (b' :: c) :: cs
      | cs => [b] :: cs
      end
  end.

(** [char::is_whitespace] (the Unicode [White_Space] set), on the encoding. *)
Definition is_ws (c : bytes) : bool :=
  match c with
  | [b] => in_rng 9 13 b || (b =? 32)
  | [a; b] => (a =? 194) && ((b =? 133) || (b =? 160))
  | [a; b; d] =>
      ((a =? 225) && (b =? 154) && (d =? 128)) ||
      ((a =? 226) && (b =? 128) && (in_rng 128 138 d || (d =? 168) || (d =? 169) || (d =? 175))) ||
      ((a =? 226) && (b =? 129) && (d =? 159)) ||
      ((a =? 227) && (b =? 128) && (d =? 128))
  | _ => false
  end.

Fixpoint drop_while {A} (p : A -> bool) (l : list A) : list A :=
  match l with
  | [] => []
  | x :: t => if p x then drop_while p t else l
  end.
Definition drop_while_end {A} (p : A -> bool) (l : list A) : list A :=
  reverse (drop_while p (reverse l)).

Definition trim_start (s : bytes) : bytes := concat (drop_while is_ws (chars s)).
Definition trim_end (s : bytes) : bytes := concat (drop_while_end is_ws (chars s)).
Definition trim (s : bytes) : bytes := trim_end (trim_start s).

(** [trim_start_matches(c)], [trim_end_matches(c)] for an ASCII character. *)
Definition trim_start_matches (c : Z) (s : bytes) : bytes := drop_while (fun b => b =? c) s.
Definition trim_end_matches (c : Z) (s : bytes) : bytes := drop_while_end (fun b => b =? c) s.

(** [s.split_whitespace()]: the maximal runs without white space. *)
Fixpoint split_ws_go (cur : bytes) (cs : list bytes) : list bytes :=
  match cs with
  | [] => if bool_decide (cur = []) then [] else [cur]
  | c :: t =>
      if is_ws c then
        if bool_decide (cur = []) then split_ws_go [] t else cur :: split_ws_go [] t
      else split_ws_go (cur ++ c) t
  end.
Definition split_whitespace (s : bytes) : list bytes := split_ws_go [] (chars s).

Definition to_ascii_lowercase (s : bytes) : bytes :=
  map (fun b => if in_rng 65 90 b then b + 32 else b) s.

(** ** Paths *)

(** [Path::file_name]: the last component, unless it is [..]; empty components
    and [.] do not count. *)
Definition path_file_name (p : bytes) : option bytes :=
  match last (filter (fun c => c <> [] /\ c <> lit ".") (split_on 47 p)) with
  | Some c => if beq c (lit "..") then None else Some c
  | None => None
  end.
(** [Path::extension]: what follows the last dot of the name, unless the name starts
    with that dot. *)
Definition path_extension (p : bytes) : option bytes :=
  match path_file_name p with
  | Some name => match rsplit_once 46 name with
                 | Some ([], _) => None
                 | Some (_, ext) => Some ext
                 | None => None
                 end
  | None => None
  end.

(** ** Slices of [&str]

    [str::is_char_boundary]; a slice off a boundary panics. *)
Definition is_char_boundary (s : bytes) (i : Z) : bool :=
  (i =? 0) || (i =? len s) ||
  match s !! Z.to_nat i with
  | Some b => (0 <? i) && (i <? len s) && negb (is_cont b)
  | None => false
  end.
Definition str_slice (a b : Z) (s : bytes) : Result bytes :=
  if (a <=? b) && (b <=? len s) && is_char_boundary s a && is_char_boundary s b
  then Ok (slice_raw a b s) else Panic.
Definition str_from (a : Z) (s : bytes) : Result bytes := str_slice a (len s) s.

(** [format!("{:<n$}", s)]: pad with spaces to [n] characters. *)
Definition pad_right (n : nat) (s : bytes) : bytes :=
  s ++ replicate (n - length (chars s)) 32.

(** ** Facts about strings *)

(** Case on every test of a UTF-8 walk over the bytes of the goal. *)
Ltac utf8_cases :=
  repeat (case_match; simplify_eq/=; try done).

Lemma list_len_ind {A} (P : list A -> Prop) :
  (forall l, (forall k, (length k < length l)%nat -> P k) -> P l) -> forall l, P l.
Proof.
  intros H l. remember (length l) as n eqn:E. revert l E.
  induction n as [n IH] using lt_wf_ind. intros l ->. apply H. eauto.
Qed.

(** The verdict does not depend on where the input starts. *)
Lemma run_utf8_validation_idx bs : forall i j,
  run_utf8_validation i bs = None -> run_utf8_validation j bs = None.
Proof.
  induction bs as [bs IH] using list_len_ind. intros i j.
  destruct bs as [|b0 t0]; [done|]. simpl. utf8_cases; eapply IH; simpl; lia.
Qed.

Lemma from_utf8_valid bs : utf8_valid bs = true -> from_utf8 bs = inr bs.
Proof. unfold utf8_valid, from_utf8. by destruct (run_utf8_validation 0 bs). Qed.
Lemma from_utf8_inr bs s : from_utf8 bs = inr s -> s = bs /\ utf8_valid s = true.
Proof.
  unfold utf8_valid, from_utf8. destruct (run_utf8_validation 0 bs) eqn:E; [done|].
  intros [= <-]. by rewrite E.
Qed.

Lemma from_utf8_lossy_valid bs : utf8_valid bs = true -> from_utf8_lossy bs = bs.
Proof.
  unfold utf8_valid. destruct (run_utf8_validation 0 bs) eqn:E; [done|]. intros _.
  revert E. generalize 0 as i.
  induction bs as [bs IH] using list_len_ind. intros i.
  destruct bs as [|b0 t0]; [done|]. simpl.
  utf8_cases; intros; (erewrite IH; [done | simpl; lia | eassumption]).
Qed.

Lemma utf8_valid_cons b bs : b < 128 -> utf8_valid (b :: bs) = utf8_valid bs.
Proof.
  intros Hb. unfold utf8_valid. simpl.
  unfold utf8_char_width. rewrite (proj2 (Z.ltb_lt b 128)) by lia.
  destruct (run_utf8_validation (0 + 1) bs) eqn:E1, (run_utf8_validation 0 bs) eqn:E2; try done.
  - by rewrite (run_utf8_validation_idx _ _ (0 + 1) E2) in E1.
  - by rewrite (run_utf8_validation_idx _ _ 0 E1) in E2.
Qed.
Lemma utf8_valid_ascii bs : Forall (fun b => b < 128) bs -> utf8_valid bs = true.
Proof. induction 1; [done|]. rewrite utf8_valid_cons; done. Qed.

Lemma utf8_valid_app a b : utf8_valid a = true -> utf8_valid (a ++ b) = utf8_valid b.
Proof.
  unfold utf8_valid at 1. destruct (run_utf8_validation 0 a) eqn:E; [done|]. intros _.
  assert (H : forall i j, run_utf8_validation i a = None ->
    run_utf8_validation j (a ++ b) = None <-> run_utf8_validation 0 b = None).
  { clear E. induction a as [a IH] using list_len_ind. intros i j.
    destruct a as [|b0 t0].
    { intros _. split; apply run_utf8_validation_idx. }
    simpl. utf8_cases; intros; (eapply IH; [simpl; lia | eassumption]). }
  unfold utf8_valid. specialize (H 0 0 E) as [H1 H2].
  destruct (run_utf8_validation 0 (a ++ b)), (run_utf8_validation 0 b); try done;
    [by specialize (H2 eq_refl) | by specialize (H1 eq_refl)].
Qed.

(** Lossy decoding always gives a valid string. *)
Lemma from_utf8_lossy_is_valid bs : utf8_valid (from_utf8_lossy bs) = true.
Proof.
  induction bs as [bs IH] using list_len_ind.
  destruct bs as [|b0 t0]; [done|]. simpl. repeat case_match; subst;
  lazymatch goal with
  | |- utf8_valid replacement = _ => done
  | |- utf8_valid (?a :: from_utf8_lossy ?t) = _ =>
      change (utf8_valid ([a] ++ from_utf8_lossy t) = true)
  | |- utf8_valid (?a :: ?b :: from_utf8_lossy ?t) = _ =>
      change (utf8_valid ([a; b] ++ from_utf8_lossy t) = true)
  | |- utf8_valid (?a :: ?b :: ?c :: from_utf8_lossy ?t) = _ =>
      change (utf8_valid ([a; b; c] ++ from_utf8_lossy t) = true)
  | |- utf8_valid (?a :: ?b :: ?c :: ?d :: from_utf8_lossy ?t) = _ =>
      change (utf8_valid ([a; b; c; d] ++ from_utf8_lossy t) = true)
  end;
  (rewrite utf8_valid_app; [apply IH; simpl; lia |]);
  unfold utf8_valid; simpl;
  repeat match goal with H : ?f _ = _ |- context [?f] => rewrite !H; clear H
         | H : ?f _ _ = _ |- context [?f] => rewrite !H; clear H end; done.
Qed.

(** ** Integers as text *)

Definition digits (s : bytes) : Prop := Forall (fun b => 48 <= b <= 57) s.

Lemma fmt_dec_go_digits f v : 0 <= v -> digits (fmt_dec_go f v).
Proof.
  revert v; induction f as [|f IH]; intros v Hv; simpl; [constructor|].
  case_if; [repeat constructor; lia|]. apply Forall_app. split.
  - apply IH. apply Z.div_pos; lia.
  - pose proof (Z.mod_pos_bound v 10). repeat constructor; lia.
Qed.
Lemma fmt_dec_digits v : 0 <= v -> digits (fmt_dec v).
Proof. apply fmt_dec_go_digits. Qed.
Lemma fmt_dec_go_nonempty f v : (0 < f)%nat -> fmt_dec_go f v <> [].
Proof. destruct f; [lia|]. simpl. case_if; [done|]. intros _ [_ E]%app_nil. done. Qed.
Lemma fmt_dec_nonempty v : fmt_dec v <> [].
Proof. apply fmt_dec_go_nonempty. lia. Qed.

(** A value below [10^k] has at most [k] digits. *)
Lemma fmt_dec_go_length f v k :
  0 <= v < 10 ^ Z.of_nat k -> (0 < k)%nat -> (length (fmt_dec_go f v) <= k)%nat.
Proof.
  revert v k; induction f as [|f IH]; intros v k Hv Hk; simpl; [lia|].
  case_if; [simpl; lia|]. rewrite length_app. simpl.
  destruct k as [|k]; [lia|]. destruct k as [|k].
  { change (10 ^ Z.of_nat 1) with 10 in Hv. lia. }
  assert (length (fmt_dec_go f (v / 10)) <= S k)%nat; [|lia].
  apply IH; [|lia]. split; [apply Z.div_pos; lia|].
  apply Z.div_lt_upper_bound; [lia|].
  replace (Z.of_nat (S (S k))) with (1 + Z.of_nat (S k)) in Hv by lia.
  rewrite Z.pow_add_r in Hv by lia. lia.
Qed.

Lemma parse_digits_app w acc s c :
  digits s -> 48 <= c <= 57 ->
  parse_digits w acc (s ++ [c]) =
  match parse_digits w acc s with
  | inr v => if 2 ^ w <=? v * 10 then inl IntPosOverflow
             else if 2 ^ w <=? v * 10 + (c - 48) then inl IntPosOverflow
             else inr (v * 10 + (c - 48))
  | inl e => inl e
  end.
Proof.
  intros Hs Hc. revert acc. induction Hs as [|x s Hx Hs IH]; intros acc; simpl.
  - unfold is_ascii_digit, in_rng. tests. done.
  - unfold is_ascii_digit, in_rng. tests. simpl. rewrite IH. by repeat case_if.
Qed.
Lemma parse_digits_fmt w f v :
  0 <= v < 2 ^ w -> v < 10 ^ Z.of_nat f -> parse_digits w 0 (fmt_dec_go f v) = inr v.
Proof.
  revert v; induction f as [|f IH]; intros v Hv Hf.
  { simpl in Hf. simpl. f_equal. lia. }
  cbn [fmt_dec_go]. case_if.
  - cbn [parse_digits]. unfold is_ascii_digit, in_rng.
    tests. simpl. f_equal. lia.
  - pose proof (Z.mod_pos_bound v 10). pose proof (Z.div_mod v 10).
    assert (0 <= v / 10) by (apply Z.div_pos; lia).
    rewrite parse_digits_app by (try apply fmt_dec_go_digits; lia).
    rewrite IH; [|lia|].
    + tests. f_equal. lia.
    + apply Z.div_lt_upper_bound; [lia|].
      rewrite Nat2Z.inj_succ, Z.pow_succ_r in Hf by lia. done.
Qed.

Lemma digits_not_plus s : digits s -> forall c t, s = c :: t -> (c =? 43) = false /\ (c =? 45) = false.
Proof. intros H c t ->. inversion H; subst. split; apply Z.eqb_neq; lia. Qed.
Lemma parse_uint_digits w s : digits s -> s <> [] -> parse_uint w s = parse_digits w 0 s.
Proof.
  intros H Hne. destruct s as [|c [|c' t]]; [done|..];
    destruct (digits_not_plus _ H _ _ eq_refl) as [E1 E2];
    cbn [parse_uint]; rewrite E1; [rewrite E2|]; done.
Qed.

(** Printing then parsing gives the number back. *)
Lemma parse_fmt_dec w v : 0 <= v < 2 ^ w -> v < 10 ^ 20 -> parse_uint w (fmt_dec v) = inr v.
Proof.
  intros. rewrite parse_uint_digits;
    [by apply parse_digits_fmt | apply fmt_dec_digits; lia | apply fmt_dec_nonempty].
Qed.

Lemma parse_digits_range w acc s v : 0 <= acc < 2 ^ w -> parse_digits w acc s = inr v -> 0 <= v < 2 ^ w.
Proof.
  revert acc; induction s as [|c s IH]; intros acc Ha E; simpl in E; [by injection E as <-|].
  unfold is_ascii_digit, in_rng in E. repeat case_if; try done. apply IH in E; lia.
Qed.
Lemma parse_uint_range w s v : 0 <= w -> parse_uint w s = inr v -> 0 <= v < 2 ^ w.
Proof.
  intros Hw. pose proof (Z.pow_pos_nonneg 2 w ltac:(lia) Hw). unfold parse_uint.
  repeat case_match; intros; try done; (eapply parse_digits_range; [|done]); lia.
Qed.

(** ** Splitting and joining *)

Lemma split_on_cons c s : exists p ps, split_on c s = p :: ps.
Proof. destruct s as [|b t]; simpl; [eauto|]. case_if; [eauto|]. case_match; eauto. Qed.
Lemma split_on_free c s : c ∉ s -> split_on c s = [s].
Proof.
  induction s as [|b t IH]; intros H; simpl; [done|].
  apply not_elem_of_cons in H as [H1 H2]. rewrite (proj2 (Z.eqb_neq b c)) by congruence.
  by rewrite IH.
Qed.
Lemma split_on_app c a s : c ∉ a -> split_on c (a ++ c :: s) = a :: split_on c s.
Proof.
  induction a as [|b t IH]; intros H; simpl; [by rewrite Z.eqb_refl|].
  apply not_elem_of_cons in H as [H1 H2]. rewrite (proj2 (Z.eqb_neq b c)) by congruence.
  by rewrite IH.
Qed.
Lemma split_join c parts :
  parts <> [] -> Forall (fun p => c ∉ p) parts -> split_on c (join [c] parts) = parts.
Proof.
  intros Hne H. induction H as [|p ps Hp Hps IH]; [done|].
  destruct ps as [|q qs]; simpl; [by apply split_on_free|].
  rewrite split_on_app by done. f_equal. by apply IH.
Qed.
Lemma join_split c s : join [c] (split_on c s) = s.
Proof.
  induction s as [|b t IH]; [done|]. simpl.
  destruct (split_on_cons c t) as (p & ps & E). rewrite E in *.
  case_if.
  - simpl in *. f_equal; [lia|exact IH].
  - destruct ps; simpl in *; f_equal; exact IH.
Qed.

Lemma split_once_app c a s : c ∉ a -> split_once c (a ++ c :: s) = Some (a, s).
Proof.
  induction a as [|b t IH]; intros H; simpl; [by rewrite Z.eqb_refl|].
  apply not_elem_of_cons in H as [H1 H2]. rewrite (proj2 (Z.eqb_neq b c)) by congruence.
  by rewrite IH.
Qed.

Lemma split_once_free c s : c ∉ s -> split_once c s = None.
Proof.
  induction s as [|b t IH]; intros H; simpl; [done|].
  apply not_elem_of_cons in H as [H1 H2]. rewrite (proj2 (Z.eqb_neq b c)) by congruence.
  by rewrite IH.
Qed.

Lemma starts_with_app p s : starts_with p (p ++ s) = true.
Proof. unfold starts_with, beq. rewrite take_app_length. by apply bool_decide_eq_true. Qed.
Lemma starts_with_spec p s : starts_with p s = true <-> exists t, s = p ++ t.
Proof.
  split; [|intros [t ->]; apply starts_with_app].
  unfold starts_with, beq. intros H%bool_decide_eq_true.
  exists (drop (length p) s). rewrite <- H at 1. by rewrite take_drop.
Qed.

(** ** Characters *)
Lemma contains_spec p s : contains p s = true <-> exists x y, s = x ++ p ++ y.
Proof.
  split.
  - induction s as [|b s IH]; cbn [contains]; rewrite orb_true_iff, starts_with_spec.
    + intros [[t E]|E]; [|done]. by exists [], t.
    + intros [[t E]|E]; [by exists [], t|]. destruct (IH E) as (x & y & ->). by exists (b :: x), y.
  - intros (x & y & ->). induction x as [|b x IH]; cbn [app].
    + destruct (p ++ y) eqn:E; cbn [contains]; rewrite <- E, starts_with_app; done.
    + cbn [contains]. by rewrite IH, orb_true_r.
Qed.
(** A text without [c] that occurs in two parts around a [c] is in one of them. *)
Lemma contains_around p c a b :
  p <> [] -> c ∉ p -> contains p (a ++ c :: b) = contains p a || contains p b.
Proof.
  intros Hn Hc. apply eq_true_iff_eq. rewrite orb_true_iff, !contains_spec. split.
  - intros (x & y & E). apply app_eq_inv in E as [(k & -> & E)|(k & -> & E)].
    + apply app_eq_inv in E as [(k' & -> & E)|(k' & -> & E)].
      * destruct k' as [|z k']; [|injection E as <- _; set_solver].
        rewrite app_nil_r. left. exists x, []. by rewrite app_nil_r.
      * left. by exists x, k'.
    + right. destruct k as [|z k]; simpl in E.
      * destruct p; [done|]. injection E as <- _. set_solver.
      * injection E as _ ->. by exists k, y.
  - intros [(x & y & ->)|(x & y & ->)].
    + exists x, (y ++ c :: b). by rewrite <- !app_assoc.
    + exists (a ++ c :: x), y. by rewrite <- app_assoc.
Qed.
Lemma contains_after p c b : p <> [] -> c ∉ p -> contains p (c :: b) = contains p b.
Proof. intros Hn Hc. rewrite (contains_around p c [] b Hn Hc : contains p (c :: b) = _). by destruct p. Qed.

Lemma concat_chars s : concat (chars s) = s.
Proof.
  induction s as [|b t IH]; [done|]. simpl.
  destruct (chars t) as [|[|b' c] cs]; simpl in *; try (by rewrite IH).
  case_if; simpl; by rewrite IH.
Qed.

Definition ascii (s : bytes) : Prop := Forall (fun b => 0 <= b < 128) s.
Lemma chars_ascii s : ascii s -> chars s = map (fun b => [b]) s.
Proof.
  induction 1 as [|b t Hb Ht IH]; [done|]. simpl. rewrite IH.
  destruct Ht as [|b' t' Hb' Ht]; [done|]. simpl.
  unfold is_cont, in_rng. tests. done.
Qed.
Lemma digits_ascii s : digits s -> ascii s.
Proof. intros H. eapply Forall_impl; [exact H|]. simpl. lia. Qed.
Lemma ascii_utf8 s : ascii s -> utf8_valid s = true.
Proof. intros H. apply utf8_valid_ascii. eapply Forall_impl; [exact H|]. simpl. lia. Qed.

Lemma drop_while_end_spaces {A} (p : A -> bool) (l : list A) n x :
  p x = true -> drop_while_end p (l ++ replicate n x) = drop_while_end p l.
Proof.
  intros Hx. unfold drop_while_end. rewrite reverse_app, reverse_replicate.
  induction n; simpl; [done|]. by rewrite Hx.
Qed.
Lemma drop_while_end_keep {A} (p : A -> bool) (l : list A) x :
  p x = false -> drop_while_end p (l ++ [x]) = l ++ [x].
Proof.
  intros Hx. unfold drop_while_end. rewrite reverse_snoc. simpl. rewrite Hx.
  by rewrite reverse_cons, reverse_involutive.
Qed.

(** Padding with spaces is undone by [trim_end], for ASCII text that does not
    end in white space. *)
Definition no_trailing_ws (s : bytes) : Prop :=
  forall l b, s = l ++ [b] -> is_ws [b] = false.
Lemma concat_singletons (s : bytes) : concat (map (fun b => [b]) s) = s.
Proof. induction s; simpl; congruence. Qed.
Lemma trim_end_ascii_pad s n :
  ascii s -> no_trailing_ws s -> trim_end (s ++ replicate n 32) = s.
Proof.
  intros Hs Hw. unfold trim_end. rewrite chars_ascii.
  2:{ apply Forall_app. split; [done|]. apply Forall_replicate. lia. }
  rewrite map_app. change (map (λ b, [b]) (replicate n 32)) with ((λ b, [b]) <$> replicate n 32).
  rewrite fmap_replicate, drop_while_end_spaces by done.
  destruct s as [|b l _] using rev_ind; [done|].
  rewrite map_app. simpl. rewrite drop_while_end_keep by (by eapply Hw).
  change [[b]] with (map (fun b => [b]) [b]). rewrite <- map_app. apply concat_singletons.
Qed.
(** A character boundary cuts the list of characters. *)
Lemma chars_app s t : (match t with [] => True | b :: _ => is_cont b = false end) -> chars (s ++ t) = chars s ++ chars t.
Proof.
  intros Ht. induction s as [|b s IH]; [done|]. cbn [app chars]. rewrite IH. destruct (chars s) as [|[|b' c] cs] eqn:Es; cbn [app]; try done.
  - pose proof (concat_chars s) as Hs. rewrite Es in Hs. cbn in Hs. subst s. destruct t as [|b' t]; [done|].
    assert (exists c cs, chars (b' :: t) = (b' :: c) :: cs) as (c & cs & E) by (cbn [chars]; repeat case_match; eauto).
    cbn [app]. by rewrite E, Ht.
  - by case_if.
Qed.
Lemma drop_while_all {A} (p : A -> bool) l r : Forall (fun x => p x = true) r ->
  drop_while p (l ++ r) = drop_while p l ++ r \/ drop_while p (l ++ r) = [] /\ drop_while p l = [].
Proof.
  intros Hr. induction l as [|x l IH]; cbn.
  - right. split; [|done]. induction Hr as [|x r Hx Hr IH]; cbn; [done|]. by rewrite Hx.
  - destruct (p x); [done|]. by left.
Qed.
Lemma chars_spaces n : chars (replicate n 32) = replicate n [32].
Proof. rewrite chars_ascii by (apply Forall_replicate; lia). by induction n; cbn; f_equal. Qed.
(** [trim] does not see spaces around the text. *)
Lemma trim_padded a b s : utf8_valid s = true -> trim (replicate a 32 ++ s ++ replicate b 32) = trim s.
Proof.
  intros Hs. assert (Hc : forall t, chars (t ++ replicate b 32) = chars t ++ replicate b [32]).
  { intros t. rewrite chars_app by (by destruct b). by rewrite chars_spaces. }
  assert (Hw : forall n, Forall (fun x => is_ws x = true) (replicate n [32])) by (intros n; by apply Forall_replicate).
  assert (Hst : match s ++ replicate b 32 with [] => True | x :: _ => is_cont x = false end).
  { destruct s as [|x s]; cbn; [by destruct b|]. revert Hs. unfold utf8_valid. simpl. unfold is_cont, in_rng, utf8_char_width, in_rng.
    destruct (Z.leb_spec 128 x), (Z.leb_spec x 191); try done. simpl. tests. simpl. done. }
  unfold trim, trim_start. rewrite chars_app, chars_spaces, Hc by done.
  assert (Ha : drop_while is_ws (replicate a [32] ++ chars s ++ replicate b [32]) = drop_while is_ws (chars s ++ replicate b [32])) by (by induction a).
  rewrite Ha. destruct (drop_while_all is_ws (chars s) (replicate b [32]) (Hw b)) as [->|[-> ->]]; [|done].
  rewrite concat_app. replace (concat (replicate b [32])) with (replicate b 32) by (clear; induction b as [|b IH]; [done|]; cbn; by rewrite IH).
  unfold trim_end. rewrite Hc, drop_while_end_spaces by done. done.
Qed.
Lemma trim_end_matches_pad c s n : last s <> Some c -> trim_end_matches c (s ++ replicate n c) = s.
Proof.
  intros Hl. unfold trim_end_matches. rewrite drop_while_end_spaces by apply Z.eqb_refl.
  destruct s as [|b l _] using rev_ind; [done|]. rewrite last_snoc in Hl. apply drop_while_end_keep, Z.eqb_neq. congruence.
Qed.
Lemma pad_right_ascii n s : ascii s -> pad_right n s = s ++ replicate (n - length s) 32.
Proof. intros H. unfold pad_right. by rewrite (chars_ascii s H), length_map. Qed.
Lemma digits_no_trailing_ws s : digits s -> no_trailing_ws s.
Proof.
  intros H l b ->. apply Forall_app in H as [_ H]. inversion H; subst.
  simpl. unfold in_rng. tests. done.
Qed.

(** ** Slices between characters *)

(** The text starts with a character (it is not the inside of one). *)
Definition starts_char (s : bytes) : Prop := match s with [] => True | b :: _ => is_cont b = false end.
Lemma starts_char_valid s : utf8_valid s = true -> starts_char s.
Proof.
  destruct s as [|b s]; [done|]. unfold utf8_valid. simpl. unfold is_cont, in_rng, utf8_char_width, in_rng.
  destruct (Z.leb_spec 128 b), (Z.leb_spec b 191); try done. simpl. tests. simpl. done.
Qed.
Lemma starts_char_ascii s t : ascii s -> starts_char t -> starts_char (s ++ t).
Proof.
  destruct s as [|b s]; [done|]. intros H _. inversion H; subst. simpl. unfold is_cont, in_rng. by tests.
Qed.
Lemma boundary_at pre s : starts_char s -> is_char_boundary (pre ++ s) (len pre) = true.
Proof.
  intros H. unfold is_char_boundary. destruct (Z.eqb_spec (len pre) 0) as [|Hn]; [done|]. simpl.
  destruct s as [|b s]; [rewrite app_nil_r; by rewrite Z.eqb_refl|].
  replace (Z.to_nat (len pre)) with (length pre) by (unfold len; lia).
  rewrite list_lookup_middle by done. simpl in H. rewrite H. pose proof (len_nonneg pre) as Hp.
  rewrite len_app, len_cons. pose proof (len_nonneg s). tests. by rewrite orb_true_r.
Qed.
Lemma str_slice_mid pre mid post a b :
  a = len pre -> b = len pre + len mid -> starts_char (mid ++ post) -> starts_char post ->
  str_slice a b (pre ++ mid ++ post) = Ok mid.
Proof.
  intros -> -> Hm Hp. unfold str_slice. rewrite (boundary_at pre (mid ++ post)) by done.
  assert (E : is_char_boundary (pre ++ mid ++ post) (len pre + len mid) = true).
  { rewrite <- len_app, app_assoc. by apply boundary_at. }
  rewrite E. rewrite !len_app. pose proof (len_nonneg mid). pose proof (len_nonneg post). tests. simpl. f_equal.
  unfold slice_raw, len. rewrite !Nat2Z.id, drop_app_length.
  replace (Z.to_nat _) with (length mid) by lia. apply take_app_length.
Qed.
Lemma str_from_app pre s a : a = len pre -> starts_char s -> str_from a (pre ++ s) = Ok s.
Proof.
  intros -> Hs. unfold str_from. rewrite <- (app_nil_r s) at 2. apply str_slice_mid; [done| |by rewrite app_nil_r|done].
  by rewrite len_app.
Qed.

(** A slice of a suffix is a slice of the whole. *)
Lemma boundary_drop s k i :
  0 <= k -> 0 <= i -> k + i <= len s -> is_char_boundary s k = true ->
  is_char_boundary (drop (Z.to_nat k) s) i = is_char_boundary s (k + i).
Proof.
  intros Hk Hi Hl Hb. unfold is_char_boundary in *.
  assert (El : len (drop (Z.to_nat k) s) = len s - k) by (unfold len in *; rewrite length_drop; lia).
  rewrite El, lookup_drop. replace (Z.to_nat k + Z.to_nat i)%nat with (Z.to_nat (k + i)) by lia.
  destruct (Z.eqb_spec i 0) as [->|Hi0].
  - rewrite Z.add_0_r. symmetry. exact Hb.
  - rewrite (proj2 (Z.eqb_neq (k + i) 0)) by lia.
    replace (i =? len s - k) with (k + i =? len s) by (apply Bool.eq_iff_eq_true; rewrite !Z.eqb_eq; lia).
    destruct (s !! Z.to_nat (k + i)); [|done].
    by replace (i <? len s - k) with (k + i <? len s) by (apply Bool.eq_iff_eq_true; rewrite !Z.ltb_lt; lia);
      rewrite (proj2 (Z.ltb_lt 0 i)), (proj2 (Z.ltb_lt 0 (k + i))) by lia.
Qed.
Lemma str_slice_drop s k a b :
  0 <= k -> 0 <= a -> a <= b -> k + b <= len s -> is_char_boundary s k = true ->
  str_slice a b (drop (Z.to_nat k) s) = str_slice (k + a) (k + b) s.
Proof.
  intros Hk Ha Hab Hl Hb. unfold str_slice. rewrite !boundary_drop by (lia || done).
  assert (El : len (drop (Z.to_nat k) s) = len s - k) by (unfold len in *; rewrite length_drop; lia).
  rewrite El. rewrite (proj2 (Z.leb_le a b)), (proj2 (Z.leb_le b (len s - k))), (proj2 (Z.leb_le (k + a) (k + b))),
    (proj2 (Z.leb_le (k + b) (len s))) by lia.
  case_if; [|done]. f_equal. unfold slice_raw. rewrite drop_drop. f_equal; [lia|]. f_equal. lia.
Qed.
Lemma str_slice_inv a b s t :
  str_slice a b s = Ok t -> a <= b <= len s /\ is_char_boundary s a = true /\ is_char_boundary s b = true /\ t = slice_raw a b s.
Proof. unfold str_slice. case_if; [|done]. intros [= <-]. by bool_cases. Qed.

(** Every cut of an ASCII text is at a character. *)
Lemma str_slice_ascii a b s : ascii s -> 0 <= a <= b -> b <= len s -> str_slice a b s = Ok (slice_raw a b s).
Proof.
  intros Hs Ha Hb. assert (Hbd : forall i, 0 <= i <= len s -> is_char_boundary s i = true).
  { intros i Hi. unfold is_char_boundary. destruct (Z.eqb_spec i 0), (Z.eqb_spec i (len s)); try done. cbn [orb].
    destruct (s !! Z.to_nat i) as [b0|] eqn:E.
    - pose proof (Forall_lookup_1 _ _ _ _ Hs E) as H0. cbn in H0. unfold is_cont, in_rng. by tests.
    - apply lookup_ge_None in E. unfold len in *. lia. }
  unfold str_slice. rewrite !Hbd by lia. by tests.
Qed.
Lemma ascii_slice_raw a b s : ascii s -> ascii (slice_raw a b s).
Proof. intros H. by apply Forall_take, Forall_drop. Qed.
Lemma ascii_bytes_ok s : ascii s -> bytes_ok s.
Proof. intros H. eapply Forall_impl; [exact H|]. intros b Hb. cbn in Hb. ulia. Qed.

(** ** Paths *)

Lemma join_snoc c l x : l <> [] -> join [c] (l ++ [x]) = join [c] l ++ c :: x.
Proof.
  induction l as [|p l IH]; [done|]. intros _. destruct l as [|q l]; [done|].
  cbn [app join] in *. rewrite IH by done. by rewrite <- !app_assoc.
Qed.
(** The last piece of a split, and what is in front of it. *)
Lemma split_last c s : exists l x, split_on c s = l ++ [x] /\
  (l = [] -> s = x) /\ (l <> [] -> exists pre, s = pre ++ c :: x).
Proof.
  destruct (split_on_cons c s) as (p & ps & E).
  assert (Hne : split_on c s <> []) by (by rewrite E). clear E p ps.
  destruct (exists_last Hne) as (l & x & E). exists l, x. split; [done|].
  pose proof (join_split c s) as Ej. rewrite E in Ej. split.
  - by intros ->.
  - intros Hl. exists (join [c] l). by rewrite <- (join_snoc c l x Hl).
Qed.

(** No component of a split path has a slash. *)
Lemma split_on_no_sep c s : Forall (fun p => c ∉ p) (split_on c s).
Proof.
  induction s as [|b s IH]; simpl; [constructor; [apply not_elem_of_nil|constructor]|].
  case_if; [constructor; [apply not_elem_of_nil|done]|].
  destruct (split_on c s) as [|p ps]; [constructor; [|constructor]|].
  - rewrite list_elem_of_singleton. congruence.
  - apply Forall_cons in IH as [Hp Hps]. constructor; [|done].
    rewrite elem_of_cons. intros [?|?]; congruence.
Qed.
Lemma path_file_name_ok p n : path_file_name p = Some n ->
  (47 ∉ n) /\ n <> [] /\ n <> lit "." /\ n <> lit "..".
Proof.
  unfold path_file_name. destruct (last _) as [c|] eqn:E; [|done].
  destruct (beq c (lit "..")) eqn:Eb; [done|]. intros [= <-].
  apply last_Some in E as [l E].
  assert (Hin : c ∈ filter (fun c => c <> [] /\ c <> lit ".") (split_on 47 p)).
  { rewrite E. apply elem_of_app. right. apply list_elem_of_here. }
  apply list_elem_of_filter in Hin as [[H1 H2] Hin].
  split; [exact (proj1 (Forall_forall _ _) (split_on_no_sep 47 p) c Hin)|].
  split_and!; [done..|]. unfold beq in Eb. by apply bool_decide_eq_false in Eb.
Qed.

(** A path that ends in letters of a name has a file name. *)
Lemma path_file_name_suffix p q :
  47 ∉ q -> 2 < len q -> (exists t, p = t ++ q) -> is_Some (path_file_name p).
Proof.
  intros Hq Hl [t ->]. unfold path_file_name.
  destruct (split_last 47 (t ++ q)) as (l & x & -> & E1 & E2).
  assert (Hx : 2 < len x).
  { destruct l as [|y l].
    - rewrite <- E1 by done. rewrite len_app. pose proof (len_nonneg t). lia.
    - destruct E2 as [pre E2]; [done|].
      apply app_eq_inv in E2 as [(k & -> & E2)|(k & -> & ->)].
      + destruct k as [|z k]; cbn in E2; [|injection E2 as _ ->; rewrite len_app; pose proof (len_nonneg k); lia].
        exfalso. apply Hq. rewrite <- E2. by left.
      + exfalso. apply Hq. apply elem_of_app. right. by left. }
  rewrite filter_app, filter_cons, decide_True, filter_nil, last_snoc by (split; intros ->; by vm_compute in Hx).
  unfold beq. rewrite bool_decide_eq_false_2 by (intros ->; by vm_compute in Hx). eauto.
Qed.
