(* ===== verification/Config.v ===== *)
(** * Protocol constants and command definitions

    [src/crates/hdc-protocol/src/config.rs]: the wire constants, the
    enumerations with their discriminants and their [TryFrom] conversions, the
    message type [TaskMessage], and the version string. *)

From S2P Require Import Prelude RustStr.

(** ** Constants *)

Definition PACKET_FLAG : bytes := lit "HW".
Definition USB_PACKET_FLAG : bytes := lit "UB".
Definition USB_OPTION_HEADER : Z := 1.
Definition USB_OPTION_RESET : Z := 2.
Definition VER_PROTOCOL : Z := 1.
Definition ENABLE_IO_CHECK : bool := false.
Definition PAYLOAD_VCODE : Z := 9.
Definition HDC_BUF_MAX_SIZE : Z := 2147483647.
Definition HANDSHAKE_MESSAGE : bytes := lit "OHOS HDC".
Definition BANNER_SIZE : Z := 12.
Definition KEY_MAX_SIZE : Z := 32.
Definition MAX_SIZE_IOBUF : Z := 511 * 1024.
Definition FEATURE_ENCRYPT_TCP : bytes := lit "encrypt_tcp".
Definition FEATURE_HEARTBEAT : bytes := lit "heartbeat".
Definition AUTH_TYPE_SSL_TLS_PSK : Z := 6.
Definition SERVER_DEFAULT_PORT : Z := 8710.
Definition LOCAL_HOST : bytes := lit "127.0.0.1".
Definition INSTALL_TMP_DIR : bytes := lit "/data/local/tmp/".
Definition HDC_HOST_DAEMON_BUF_SEPARATOR : Z := 12.
Definition HDC_VERSION_NUMBER : Z := 807404800.

(** [get_version]: the nibbles of [HDC_VERSION_NUMBER]; every shift is on a
    [u32], so the left shifts drop the high bits. *)
Definition get_version : bytes :=
  let major := Z.land (Z.shiftr HDC_VERSION_NUMBER 28) 255 in
  let minor := Z.land (Z.shiftr (wrap 32 (Z.shiftl HDC_VERSION_NUMBER 4)) 24) 255 in
  let version := Z.land (Z.shiftr (wrap 32 (Z.shiftl HDC_VERSION_NUMBER 12)) 24) 255 in
  let fix_ := Z.shiftr (wrap 32 (Z.shiftl HDC_VERSION_NUMBER 20)) 28 + 97 in
  lit "Ver: " ++ fmt_dec major ++ lit "." ++ fmt_dec minor ++ lit "." ++
  fmt_dec version ++ [fix_].

(** ** Commands *)

Inductive HdcCommand :=
  | KernelHelp
  | KernelHandshake
  | KernelChannelClose
  | KernelTargetDiscover
  | KernelTargetList
  | KernelTargetAny
  | KernelTargetConnect
  | KernelTargetDisconnect
  | KernelEcho
  | KernelEchoRaw
  | KernelEnableKeepalive
  | KernelWakeupSlavetask
  | KernelCheckServer
  | KernelCheckDevice
  | KernelWaitFor
  | KernelServerKill
  | KernelServerStart
  | KernelTargetReconnect
  | ClientVersion
  | SslHandshake
  | ClientKeyGenerate
  | UnityCommandHead
  | UnityExecute
  | UnityRemount
  | UnityReboot
  | UnityRunmode
  | UnityHilog
  | UnityTerminate
  | UnityRootrun
  | JdwpList
  | JdwpTrack
  | UnityCommandTail
  | UnityBugreportInit
  | UnityBugreportData
  | UnityExecuteEx
  | ShellInit
  | ShellData
  | ForwardInit
  | ForwardCheck
  | ForwardCheckResult
  | ForwardActiveSlave
  | ForwardActiveMaster
  | ForwardData
  | ForwardFreeContext
  | ForwardList
  | ForwardRemove
  | ForwardSuccess
  | ForwardRportInit
  | ForwardRportList
  | ForwardRportRemove
  | FileInit
  | FileCheck
  | FileBegin
  | FileData
  | FileFinish
  | AppSideload
  | FileMode
  | DirMode
  | FileRecvInit
  | AppInit
  | AppCheck
  | AppBegin
  | AppData
  | AppFinish
  | AppUninstall
  | FlashdUpdateInit
  | FlashdFlashInit
  | FlashdCheck
  | FlashdBegin
  | FlashdData
  | FlashdFinish
  | FlashdErase
  | FlashdFormat
  | FlashdProgress
  | HeartbeatMsg
  | SpawnSub.

(** [as_u32]: the discriminant. *)
Definition as_u32 (c : HdcCommand) : Z :=
  match c with
  | KernelHelp => 0
  | KernelHandshake => 1
  | KernelChannelClose => 2
  | KernelTargetDiscover => 4
  | KernelTargetList => 5
  | KernelTargetAny => 6
  | KernelTargetConnect => 7
  | KernelTargetDisconnect => 8
  | KernelEcho => 9
  | KernelEchoRaw => 10
  | KernelEnableKeepalive => 11
  | KernelWakeupSlavetask => 12
  | KernelCheckServer => 13
  | KernelCheckDevice => 14
  | KernelWaitFor => 15
  | KernelServerKill => 16
  | KernelServerStart => 17
  | KernelTargetReconnect => 18
  | ClientVersion => 19
  | SslHandshake => 20
  | ClientKeyGenerate => 21
  | UnityCommandHead => 1000
  | UnityExecute => 1001
  | UnityRemount => 1002
  | UnityReboot => 1003
  | UnityRunmode => 1004
  | UnityHilog => 1005
  | UnityTerminate => 1006
  | UnityRootrun => 1007
  | JdwpList => 1008
  | JdwpTrack => 1009
  | UnityCommandTail => 1010
  | UnityBugreportInit => 1011
  | UnityBugreportData => 1012
  | UnityExecuteEx => 1200
  | ShellInit => 2000
  | ShellData => 2001
  | ForwardInit => 2500
  | ForwardCheck => 2501
  | ForwardCheckResult => 2502
  | ForwardActiveSlave => 2503
  | ForwardActiveMaster => 2504
  | ForwardData => 2505
  | ForwardFreeContext => 2506
  | ForwardList => 2507
  | ForwardRemove => 2508
  | ForwardSuccess => 2509
  | ForwardRportInit => 2510
  | ForwardRportList => 2511
  | ForwardRportRemove => 2512
  | FileInit => 3000
  | FileCheck => 3001
  | FileBegin => 3002
  | FileData => 3003
  | FileFinish => 3004
  | AppSideload => 3005
  | FileMode => 3006
  | DirMode => 3007
  | FileRecvInit => 3008
  | AppInit => 3500
  | AppCheck => 3501
  | AppBegin => 3502
  | AppData => 3503
  | AppFinish => 3504
  | AppUninstall => 3505
  | FlashdUpdateInit => 4000
  | FlashdFlashInit => 4001
  | FlashdCheck => 4002
  | FlashdBegin => 4003
  | FlashdData => 4004
  | FlashdFinish => 4005
  | FlashdErase => 4006
  | FlashdFormat => 4007
  | FlashdProgress => 4008
  | HeartbeatMsg => 5000
  | SpawnSub => 6000
  end.

(** [HdcCommand::try_from(u32)]. *)
Definition HdcCommand_try_from (cmd : Z) : option HdcCommand :=
  match cmd with
  | 0 => Some KernelHelp
  | 1 => Some KernelHandshake
  | 2 => Some KernelChannelClose
  | 4 => Some KernelTargetDiscover
  | 5 => Some KernelTargetList
  | 6 => Some KernelTargetAny
  | 7 => Some KernelTargetConnect
  | 8 => Some KernelTargetDisconnect
  | 9 => Some KernelEcho
  | 10 => Some KernelEchoRaw
  | 11 => Some KernelEnableKeepalive
  | 12 => Some KernelWakeupSlavetask
  | 13 => Some KernelCheckServer
  | 14 => Some KernelCheckDevice
  | 15 => Some KernelWaitFor
  | 16 => Some KernelServerKill
  | 17 => Some KernelServerStart
  | 18 => Some KernelTargetReconnect
  | 19 => Some ClientVersion
  | 20 => Some SslHandshake
  | 21 => Some ClientKeyGenerate
  | 1000 => Some UnityCommandHead
  | 1001 => Some UnityExecute
  | 1002 => Some UnityRemount
  | 1003 => Some UnityReboot
  | 1004 => Some UnityRunmode
  | 1005 => Some UnityHilog
  | 1006 => Some UnityTerminate
  | 1007 => Some UnityRootrun
  | 1008 => Some JdwpList
  | 1009 => Some JdwpTrack
  | 1010 => Some UnityCommandTail
  | 1011 => Some UnityBugreportInit
  | 1012 => Some UnityBugreportData
  | 1200 => Some UnityExecuteEx
  | 2000 => Some ShellInit
  | 2001 => Some ShellData
  | 2500 => Some ForwardInit
  | 2501 => Some ForwardCheck
  | 2502 => Some ForwardCheckResult
  | 2503 => Some ForwardActiveSlave
  | 2504 => Some ForwardActiveMaster
  | 2505 => Some ForwardData
  | 2506 => Some ForwardFreeContext
  | 2507 => Some ForwardList
  | 2508 => Some ForwardRemove
  | 2509 => Some ForwardSuccess
  | 2510 => Some ForwardRportInit
  | 2511 => Some ForwardRportList
  | 2512 => Some ForwardRportRemove
  | 3000 => Some FileInit
  | 3001 => Some FileCheck
  | 3002 => Some FileBegin
  | 3003 => Some FileData
  | 3004 => Some FileFinish
  | 3005 => Some AppSideload
  | 3006 => Some FileMode
  | 3007 => Some DirMode
  | 3008 => Some FileRecvInit
  | 3500 => Some AppInit
  | 3501 => Some AppCheck
  | 3502 => Some AppBegin
  | 3503 => Some AppData
  | 3504 => Some AppFinish
  | 3505 => Some AppUninstall
  | 4000 => Some FlashdUpdateInit
  | 4001 => Some FlashdFlashInit
  | 4002 => Some FlashdCheck
  | 4003 => Some FlashdBegin
  | 4004 => Some FlashdData
  | 4005 => Some FlashdFinish
  | 4006 => Some FlashdErase
  | 4007 => Some FlashdFormat
  | 4008 => Some FlashdProgress
  | 5000 => Some HeartbeatMsg
  | 6000 => Some SpawnSub
  | _ => None
  end.

Lemma try_from_as_u32 c : HdcCommand_try_from (as_u32 c) = Some c.
Proof. by destruct c. Qed.

Lemma as_u32_inj c d : as_u32 c = as_u32 d -> c = d.
Proof.
  intros E. pose proof (try_from_as_u32 c) as H. rewrite E, try_from_as_u32 in H.
  by inversion H.
Qed.

#[global] Instance HdcCommand_eq_dec : EqDecision HdcCommand.
Proof.
  intros c d. destruct (decide (as_u32 c = as_u32 d)) as [E|E].
  - left. by apply as_u32_inj.
  - right. by intros ->.
Defined.

(** [command == other]. *)
Definition cmd_eqb (c d : HdcCommand) : bool := as_u32 c =? as_u32 d.

Lemma cmd_eqb_spec c d : cmd_eqb c d = true <-> c = d.
Proof.
  unfold cmd_eqb. rewrite Z.eqb_eq. split; [apply as_u32_inj | by intros ->].
Qed.

Lemma as_u32_range c : u32 (as_u32 c).
Proof. destruct c; split; vm_compute; congruence. Qed.

(** ** Other enumerations *)

(** [CompressType] and its [TryFrom<u8>]. *)
(** [{:?}] of a command: the name of the variant. *)
Definition debug_name (c : HdcCommand) : bytes :=
  lit (match c with
  | KernelHelp => "KernelHelp" | KernelHandshake => "KernelHandshake"
  | KernelChannelClose => "KernelChannelClose" | KernelTargetDiscover => "KernelTargetDiscover"
  | KernelTargetList => "KernelTargetList" | KernelTargetAny => "KernelTargetAny"
  | KernelTargetConnect => "KernelTargetConnect" | KernelTargetDisconnect => "KernelTargetDisconnect"
  | KernelEcho => "KernelEcho" | KernelEchoRaw => "KernelEchoRaw"
  | KernelEnableKeepalive => "KernelEnableKeepalive" | KernelWakeupSlavetask => "KernelWakeupSlavetask"
  | KernelCheckServer => "KernelCheckServer" | KernelCheckDevice => "KernelCheckDevice"
  | KernelWaitFor => "KernelWaitFor" | KernelServerKill => "KernelServerKill"
  | KernelServerStart => "KernelServerStart" | KernelTargetReconnect => "KernelTargetReconnect"
  | ClientVersion => "ClientVersion" | SslHandshake => "SslHandshake"
  | ClientKeyGenerate => "ClientKeyGenerate" | UnityCommandHead => "UnityCommandHead"
  | UnityExecute => "UnityExecute" | UnityRemount => "UnityRemount" | UnityReboot => "UnityReboot"
  | UnityRunmode => "UnityRunmode" | UnityHilog => "UnityHilog" | UnityTerminate => "UnityTerminate"
  | UnityRootrun => "UnityRootrun" | JdwpList => "JdwpList" | JdwpTrack => "JdwpTrack"
  | UnityCommandTail => "UnityCommandTail" | UnityBugreportInit => "UnityBugreportInit"
  | UnityBugreportData => "UnityBugreportData" | UnityExecuteEx => "UnityExecuteEx"
  | ShellInit => "ShellInit" | ShellData => "ShellData" | ForwardInit => "ForwardInit"
  | ForwardCheck => "ForwardCheck" | ForwardCheckResult => "ForwardCheckResult"
  | ForwardActiveSlave => "ForwardActiveSlave" | ForwardActiveMaster => "ForwardActiveMaster"
  | ForwardData => "ForwardData" | ForwardFreeContext => "ForwardFreeContext" | ForwardList => "ForwardList"
  | ForwardRemove => "ForwardRemove" | ForwardSuccess => "ForwardSuccess"
  | ForwardRportInit => "ForwardRportInit" | ForwardRportList => "ForwardRportList"
  | ForwardRportRemove => "ForwardRportRemove" | FileInit => "FileInit" | FileCheck => "FileCheck"
  | FileBegin => "FileBegin" | FileData => "FileData" | FileFinish => "FileFinish"
  | AppSideload => "AppSideload" | FileMode => "FileMode" | DirMode => "DirMode"
  | FileRecvInit => "FileRecvInit" | AppInit => "AppInit" | AppCheck => "AppCheck" | AppBegin => "AppBegin"
  | AppData => "AppData" | AppFinish => "AppFinish" | AppUninstall => "AppUninstall"
  | FlashdUpdateInit => "FlashdUpdateInit" | FlashdFlashInit => "FlashdFlashInit"
  | FlashdCheck => "FlashdCheck" | FlashdBegin => "FlashdBegin" | FlashdData => "FlashdData"
  | FlashdFinish => "FlashdFinish" | FlashdErase => "FlashdErase" | FlashdFormat => "FlashdFormat"
  | FlashdProgress => "FlashdProgress" | HeartbeatMsg => "HeartbeatMsg" | SpawnSub => "SpawnSub"
  end).

Module CompressType.
Inductive t := NoCompress | Lz4 | Lz77 | Lzma | Brotli.
Definition as_u8 (c : t) : Z :=
  match c with NoCompress => 0 | Lz4 => 1 | Lz77 => 2 | Lzma => 3 | Brotli => 4 end.
Definition try_from (cmd : Z) : option t :=
  match cmd with
  | 0 => Some NoCompress
  | 1 => Some Lz4
  | 2 => Some Lz77
  | 3 => Some Lzma
  | 4 => Some Brotli
  | _ => None
  end.
End CompressType.

(** [AppModeType] and its [TryFrom<u8>]. *)
Module AppModeType.
Inductive t := Install | UnInstall.
Definition as_u8 (c : t) : Z := match c with Install => 1 | UnInstall => 2 end.
Definition try_from (cmd : Z) : option t :=
  match cmd with 1 => Some Install | 2 => Some UnInstall | _ => None end.
End AppModeType.

Inductive ConnectType :=
  | Usb (addr : bytes) | Tcp | Uart | Bt | Bridge | HostUsb (addr : bytes).
#[global] Instance ConnectType_eq_dec : EqDecision ConnectType.
Proof. solve_decision. Defined.

Inductive ConnStatus := Ready | Connected | Offline | Unauthorized.
#[global] Instance ConnStatus_eq_dec : EqDecision ConnStatus.
Proof. solve_decision. Defined.

(** [AuthType as u8]. *)
Module AuthType.
Inductive t := NoAuth | Token | Signature | Publickey | AuthOk | AuthFail.
Definition as_u8 (a : t) : Z :=
  match a with
  | NoAuth => 0 | Token => 1 | Signature => 2 | Publickey => 3 | AuthOk => 4 | AuthFail => 5
  end.
End AuthType.

(** [MessageLevel as u8]. *)
Module MessageLevel.
Inductive t := LFail | LInfo | LOk.
Definition as_u8 (l : t) : Z := match l with LFail => 0 | LInfo => 1 | LOk => 2 end.
End MessageLevel.

(** ** Messages *)

Record TaskMessage := mkTaskMessage {
  channel_id : Z;
  command : HdcCommand;
  payload : bytes
}.
#[global] Instance TaskMessage_eq_dec : EqDecision TaskMessage.
Proof. solve_decision. Defined.

(** The value a [TaskMessage] of the program has: a [u32] channel and a byte
    payload. *)
Definition msg_wf (m : TaskMessage) : Prop := u32 (channel_id m) /\ bytes_ok (payload m).

(** ** Properties *)

(** [try_from] accepts exactly the discriminants: it inverts [as_u32]. *)
Lemma try_from_spec v c : HdcCommand_try_from v = Some c <-> v = as_u32 c.
Proof.
  split; [|intros ->; apply try_from_as_u32].
  unfold HdcCommand_try_from. repeat (case_match; try discriminate);
    intros [= <-]; reflexivity.
Qed.
