(* ===== verification/Tlv.v ===== *)
(** * Varints and the TLV encoding

    [src/crates/hdc-protocol/src/serializer.rs], lines 14 to 183: base-128
    varints, field tags, the field writers and readers, and the loop every
    [deserialize] of a TLV structure runs.  A writer appends to a buffer; here
    it returns the bytes it appends.  A reader takes the whole input and the
    offset and returns the value with the new offset. *)

From S2P Require Import Prelude RustStr.

(** ** Varints *)

(** The loop of [write_varint_u32] and [write_varint_u64]: seven bits a byte,
    least significant first, bit 7 set on every byte but the last. *)
Fixpoint write_varint_loop (fuel : nat) (v : Z) : bytes :=
  match fuel with
  | O => []
  | S f =>
      let b := Z.land v 127 in
      let v' := Z.shiftr v 7 in
      if v' =? 0 then [b] else Z.lor b 128 :: write_varint_loop f v'
  end.
(** Five bytes hold 35 bits, ten hold 70: more fuel changes nothing
    ([write_varint_fuel]). *)
Definition write_varint_u32 (value : Z) : bytes := write_varint_loop 5 value.
Definition write_varint_u64 (value : Z) : bytes := write_varint_loop 10 value.

(** The loop of [read_varint_u32] ([w] = 32) and [read_varint_u64] ([w] = 64)
    on the bytes that are left; the shifted bits are truncated to [w] bits. *)
Fixpoint read_varint_loop (w shift value offset : Z) (rest : bytes) : Result (Z * Z) :=
  match rest with
  | [] => err InvalidData "truncated varint"
  | b :: t =>
      let offset := offset + 1 in
      let value := Z.lor value (wrap w (Z.shiftl (Z.land b 127) shift)) in
      if Z.land b 128 =? 0 then Ok (value, offset)
      else
        let shift := shift + 7 in
        if w <=? shift then err InvalidData "varint overflow"
        else read_varint_loop w shift value offset t
  end.
Definition read_varint_u32 (bs : bytes) (offset : Z) : Result (Z * Z) :=
  read_varint_loop 32 0 0 offset (rest_from offset bs).
Definition read_varint_u64 (bs : bytes) (offset : Z) : Result (Z * Z) :=
  read_varint_loop 64 0 0 offset (rest_from offset bs).

(** ** Tags and fields *)

Definition WIRE_VARINT : Z := 0.
Definition WIRE_FIXED64 : Z := 1.
Definition WIRE_LENGTH_DELIMITED : Z := 2.
Definition WIRE_FIXED32 : Z := 5.

Definition make_tag (field_number wire_type : Z) : Z :=
  Z.lor (wrap 32 (Z.shiftl field_number 3)) wire_type.
Definition read_tag_wire_type (tag_key : Z) : Z * Z :=
  (Z.shiftr tag_key 3, Z.land tag_key 7).
Arguments read_tag_wire_type : simpl never.
Definition write_tag (field_number wire_type : Z) : bytes :=
  write_varint_u32 (make_tag field_number wire_type).

Definition write_u32_field (field_number value : Z) : bytes :=
  if value =? 0 then [] else write_tag field_number WIRE_VARINT ++ write_varint_u32 value.
Definition write_u64_field (field_number value : Z) : bytes :=
  if value =? 0 then [] else write_tag field_number WIRE_VARINT ++ write_varint_u64 value.
Definition write_bool_field (field_number : Z) (value : bool) : bytes :=
  if negb value then [] else write_tag field_number WIRE_VARINT ++ [1].
Definition write_string_field (field_number : Z) (value : bytes) : bytes :=
  match value with
  | [] => []
  | _ => write_tag field_number WIRE_LENGTH_DELIMITED ++
         write_varint_u32 (wrap 32 (len value)) ++ value
  end.
(** [if v != 0 { write_tag(..); buf.push(v); }]: a [u8] written as one raw byte. *)
Definition write_raw_u8_field (field_number value : Z) : bytes :=
  if value =? 0 then [] else write_tag field_number WIRE_VARINT ++ [value].

Arguments write_varint_u32 : simpl never.
Arguments write_varint_u64 : simpl never.
Arguments write_tag : simpl never.
Arguments write_u32_field : simpl never.
Arguments write_u64_field : simpl never.
Arguments write_bool_field : simpl never.
Arguments write_string_field : simpl never.
Arguments write_raw_u8_field : simpl never.

Definition read_u32_field (wire_type : Z) (bs : bytes) (offset : Z) : Result (Z * Z) :=
  if negb (wire_type =? WIRE_VARINT) then err InvalidData "expected varint for u32"
  else read_varint_u32 bs offset.
Definition read_u64_field (wire_type : Z) (bs : bytes) (offset : Z) : Result (Z * Z) :=
  if negb (wire_type =? WIRE_VARINT) then err InvalidData "expected varint for u64"
  else read_varint_u64 bs offset.
Definition read_bool_field (wire_type : Z) (bs : bytes) (offset : Z) : Result (bool * Z) :=
  if negb (wire_type =? WIRE_VARINT) then err InvalidData "expected varint for bool"
  else '(v, offset) ← read_varint_u32 bs offset; Ok (negb (v =? 0), offset).
(** The [u8] fields are read as a [u32] varint and cast. *)
Definition read_u8_field (msg : string) (wire_type : Z) (bs : bytes) (offset : Z) : Result (Z * Z) :=
  if negb (wire_type =? WIRE_VARINT) then err InvalidData msg
  else '(v, offset) ← read_varint_u32 bs offset; Ok (wrap 8 v, offset).
Definition read_string_field (wire_type : Z) (bs : bytes) (offset : Z) : Result (bytes * Z) :=
  if negb (wire_type =? WIRE_LENGTH_DELIMITED) then
    err InvalidData "expected length-delimited for string"
  else
    '(n, offset) ← read_varint_u32 bs offset;
    if len bs <? offset + n then err InvalidData "truncated string field"
    else
      raw ← slice offset (offset + n) bs;
      match from_utf8 raw with
      | inl e => Err (mkError InvalidData (lit "invalid utf8: " ++ fmt_utf8_error e))
      | inr s => Ok (s, offset + n)
      end.

(** The arm every [deserialize] has for a field number it does not know; the
    offset may run past the end, which ends the loop. *)
Definition skip_field (wire_type : Z) (bs : bytes) (offset : Z) : Result Z :=
  if wire_type =? WIRE_VARINT then
    '(_, offset) ← read_varint_u64 bs offset; Ok offset
  else if wire_type =? WIRE_FIXED64 then Ok (offset + 8)
  else if wire_type =? WIRE_LENGTH_DELIMITED then
    '(n, offset) ← read_varint_u32 bs offset; Ok (offset + n)
  else if wire_type =? WIRE_FIXED32 then Ok (offset + 4)
  else err InvalidData "unknown wire type".

(** ** The deserialisation loop

    [while offset < bytes.len() { tag; match field_number { .. } }], where
    [step field_number wire_type bytes offset result] is the [match] of one
    structure.  Every iteration reads at least the tag byte, so one more unit
    of fuel than there are bytes left is enough ([tlv_loop_fuel]). *)
Definition field_step (S : Type) : Type := Z -> Z -> bytes -> Z -> S -> Result (S * Z).

Fixpoint tlv_loop {A} (step : field_step A) (fuel : nat) (bs : bytes) (offset : Z) (a : A)
  : option (Result A) :=
  match fuel with
  | O => None
  | S f =>
      if offset <? len bs then
        match read_varint_u32 bs offset with
        | Ok (tag_key, offset) =>
            let '(field_number, wire_type) := read_tag_wire_type tag_key in
            match step field_number wire_type bs offset a with
            | Ok (a, offset) => tlv_loop step f bs offset a
            | Err e => Some (Err e)
            | Panic => Some Panic
            end
        | Err e => Some (Err e)
        | Panic => Some Panic
        end
      else Some (Ok a)
  end.
Definition tlv_run {A} (step : field_step A) (bs : bytes) (offset : Z) (a : A) : Result A :=
  match tlv_loop step (S (Z.to_nat (len bs - offset))) bs offset a with
  | Some r => r
  | None => Panic
  end.

(** ** Varint facts *)

Lemma land_127 v : Z.land v 127 = v mod 128.
Proof. change 127 with (Z.ones 7). by rewrite Z.land_ones by lia. Qed.
Lemma shiftr_7 v : Z.shiftr v 7 = v / 128.
Proof. by rewrite Z.shiftr_div_pow2 by lia. Qed.
Lemma lor_128 b : 0 <= b < 128 -> Z.lor b 128 = b + 128.
Proof. intros. rewrite Z.lor_comm. change 128 with (Z.shiftl 1 7).
  rewrite shiftl_or_add; [|lia|done]. rewrite Z.shiftl_mul_pow2 by lia. lia. Qed.
Lemma land_128_low b : 0 <= b < 128 -> Z.land b 128 = 0.
Proof.
  intros. apply Z.bits_inj'. intros i Hi. rewrite Z.land_spec, Z.bits_0.
  destruct (decide (i < 7)).
  - change 128 with (2 ^ 7). rewrite (Z.pow2_bits_false 7 i) by lia. apply andb_false_r.
  - rewrite <- (Z.mod_small b (2 ^ 7)) by lia.
    by rewrite Z.mod_pow2_bits_high by lia.
Qed.
Lemma land_128_high b : 0 <= b < 128 -> Z.land (b + 128) 128 = 128.
Proof.
  intros. rewrite <- lor_128 by done. rewrite Z.land_lor_distr_l, land_128_low by done. done.
Qed.
Lemma mod_128_high b : 0 <= b < 128 -> (b + 128) mod 128 = b.
Proof. intros. replace (b + 128) with (b + 1 * 128) by lia. rewrite Z.mod_add by lia.
  by apply Z.mod_small. Qed.
Lemma lor_disjoint a b k : 0 <= k -> 0 <= a < 2 ^ k -> Z.lor a (b * 2 ^ k) = a + b * 2 ^ k.
Proof.
  intros. rewrite <- (Z.shiftl_mul_pow2 b) by lia. rewrite Z.lor_comm, shiftl_or_add by lia.
  rewrite Z.shiftl_mul_pow2 by lia. lia.
Qed.

Lemma write_varint_nonempty f v : (0 < f)%nat -> 0 < len (write_varint_loop f v).
Proof.
  destruct f; [lia|]. intros _. simpl. case_if; rewrite len_cons;
    [|pose proof (len_nonneg (write_varint_loop f (Z.shiftr v 7)))]; unfold len; simpl; lia.
Qed.

(** Fuel beyond the size of the value changes nothing. *)
Lemma write_varint_fuel f g v :
  0 <= v < 2 ^ (7 * Z.of_nat f) -> (0 < f <= g)%nat ->
  write_varint_loop g v = write_varint_loop f v.
Proof.
  revert g v; induction f as [|f IH]; intros g v Hv Hg; [lia|].
  destruct g as [|g]; [lia|]. cbn [write_varint_loop]. rewrite shiftr_7.
  replace (7 * Z.of_nat (S f)) with (7 + 7 * Z.of_nat f) in Hv by lia.
  rewrite Z.pow_add_r in Hv by lia. change (2 ^ 7) with 128 in Hv.
  case_if; [done|]. f_equal. destruct f as [|f].
  - exfalso. rewrite Z.div_small in *; simpl in *; lia.
  - apply IH; [|lia]. split; [apply Z.div_pos; lia|]. apply Z.div_lt_upper_bound; lia.
Qed.

Lemma write_varint_ok f v : 0 <= v -> bytes_ok (write_varint_loop f v).
Proof.
  revert v; induction f as [|f IH]; intros v Hv; simpl; [constructor|].
  pose proof (Z.mod_pos_bound v 128). rewrite land_127, shiftr_7.
  case_if; apply bytes_ok_cons; (split; [|try constructor]).
  - ulia.
  - rewrite lor_128 by lia. ulia.
  - apply IH. apply Z.div_pos; lia.
Qed.

(** Reading what was written, in the middle of a value: [acc] holds the bits
    read so far. *)
Lemma read_write_varint_loop f w v shift acc offset rest :
  0 <= v < 2 ^ (7 * Z.of_nat f) -> (0 < f)%nat ->
  0 <= shift -> 0 <= acc < 2 ^ shift -> v * 2 ^ shift < 2 ^ w -> 0 <= w ->
  read_varint_loop w shift acc offset (write_varint_loop f v ++ rest) =
  Ok (acc + v * 2 ^ shift, offset + len (write_varint_loop f v)).
Proof.
  revert v shift acc offset; induction f as [|f IH];
    intros v shift acc offset Hv Hf Hs Hacc Hw Hw0; [lia|].
  assert (0 < 2 ^ shift) by lia.
  pose proof (Z.mod_pos_bound v 128 ltac:(lia)) as Hm.
  pose proof (Z.div_mod v 128 ltac:(lia)) as Hdm.
  assert (0 <= v / 128) by (apply Z.div_pos; lia).
  cbn [write_varint_loop]. rewrite land_127, shiftr_7.
  assert (Hcast : Z.lor acc (wrap w (Z.shiftl (v mod 128) shift)) = acc + v mod 128 * 2 ^ shift).
  { rewrite Z.shiftl_mul_pow2, wrap_small by (unfold uint; nia). by apply lor_disjoint. }
  case_if; cbn [app read_varint_loop]; rewrite land_127.
  - rewrite (Z.mod_small (v mod 128)), Hcast, land_128_low by lia. simpl.
    do 2 f_equal. nia.
  - rewrite lor_128, mod_128_high, Hcast, land_128_high by lia.
    rewrite (proj2 (Z.eqb_neq 128 0)) by lia.
    assert (2 ^ shift * 128 <= v * 2 ^ shift) by nia.
    assert (shift + 7 < w).
    { apply (Z.pow_lt_mono_r_iff 2); [lia|lia|]. rewrite Z.pow_add_r by lia.
      change (2 ^ 7) with 128. lia. }
    rewrite (proj2 (Z.leb_gt w (shift + 7))) by lia.
    destruct f as [|f].
    { exfalso. change (7 * Z.of_nat 1) with 7 in Hv. change (2 ^ 7) with 128 in Hv.
      rewrite Z.div_small in *; lia. }
    rewrite IH.
    + rewrite Z.pow_add_r, len_cons by lia. change (2 ^ 7) with 128. do 2 f_equal; nia.
    + split; [done|]. apply Z.div_lt_upper_bound; [lia|].
      rewrite <- (Z.pow_add_r 2 7) by lia. replace (7 + 7 * Z.of_nat (S f)) with (7 * Z.of_nat (S (S f))) by lia.
      lia.
    + lia.
    + lia.
    + rewrite Z.pow_add_r by lia. change (2 ^ 7) with 128. nia.
    + rewrite Z.pow_add_r by lia. change (2 ^ 7) with 128. nia.
    + lia.
Qed.

(** The offset a reader returns is past the byte it read; the value fits. *)
Lemma read_varint_loop_post w shift value offset rest v o :
  0 <= w -> uint w value -> read_varint_loop w shift value offset rest = Ok (v, o) ->
  offset < o <= offset + len rest /\ uint w v.
Proof.
  revert shift value offset; induction rest as [|b t IH];
    intros shift value offset Hw Hv E; [done|]. simpl in E.
  assert (Hor : uint w (Z.lor value (wrap w (Z.shiftl (Z.land b 127) shift)))).
  { apply lor_range; auto with hdc. }
  pose proof (len_nonneg t). rewrite len_cons. case_if.
  - simplify_eq. split; [lia|done].
  - case_if; [done|]. apply IH in E; [|done..]. split; [lia|tauto].
Qed.

Lemma write_varint_u32_ok v : 0 <= v -> bytes_ok (write_varint_u32 v).
Proof. apply write_varint_ok. Qed.
Lemma write_varint_u64_ok v : 0 <= v -> bytes_ok (write_varint_u64 v).
Proof. apply write_varint_ok. Qed.

Lemma write_tag_ok fn wt : 0 <= wt -> bytes_ok (write_tag fn wt).
Proof.
  intros. apply write_varint_u32_ok. unfold make_tag. apply Z.lor_nonneg. split; [|done].
  apply Z.mod_pos_bound. done.
Qed.
Lemma write_u32_field_ok fn v : 0 <= v -> bytes_ok (write_u32_field fn v).
Proof.
  intros. unfold write_u32_field. case_if; [constructor|]. apply bytes_ok_app.
  split; [by apply write_tag_ok|by apply write_varint_u32_ok].
Qed.
Lemma write_raw_u8_field_ok fn v : u8 v -> bytes_ok (write_raw_u8_field fn v).
Proof.
  intros. unfold write_raw_u8_field. case_if; [constructor|]. apply bytes_ok_app.
  split; [by apply write_tag_ok|]. apply bytes_ok_cons. split; [done|constructor].
Qed.

(** A cursor standing in front of an encoded value reads it back and stops
    right behind it, whatever follows. *)
Lemma read_varint_u32_at bs offset v rest :
  u32 v -> rest_from offset bs = write_varint_u32 v ++ rest ->
  read_varint_u32 bs offset = Ok (v, offset + len (write_varint_u32 v)).
Proof.
  intros Hv E. unfold read_varint_u32. rewrite E. unfold write_varint_u32.
  rewrite read_write_varint_loop; ulia || (do 2 f_equal; lia).
Qed.
Lemma read_varint_u64_at bs offset v rest :
  u64 v -> rest_from offset bs = write_varint_u64 v ++ rest ->
  read_varint_u64 bs offset = Ok (v, offset + len (write_varint_u64 v)).
Proof.
  intros Hv E. unfold read_varint_u64. rewrite E. unfold write_varint_u64.
  rewrite read_write_varint_loop; ulia || (do 2 f_equal; lia).
Qed.
(** A raw byte below 128 is its own varint. *)
Lemma read_raw_byte_at bs offset v rest :
  0 <= v < 128 -> rest_from offset bs = v :: rest ->
  read_varint_u32 bs offset = Ok (v, offset + 1).
Proof.
  intros Hv E. unfold read_varint_u32. rewrite E. simpl.
  rewrite land_127, land_128_low, (Z.mod_small v 128) by lia. simpl.
  rewrite Z.shiftl_0_r, wrap_small by ulia. done.
Qed.

Lemma read_varint_u32_post bs offset v o :
  0 <= offset -> read_varint_u32 bs offset = Ok (v, o) ->
  offset < o <= Z.max offset (len bs) /\ u32 v.
Proof.
  intros Ho H. apply read_varint_loop_post in H; [|lia|ulia]. destruct H as [H ?].
  split; [|done]. destruct (decide (offset <= len bs)).
  - rewrite (rest_from_len offset bs _ ltac:(lia) eq_refl) in H. lia.
  - rewrite (proj2 (rest_from_nil offset bs Ho)) in H by lia. rewrite len_nil in H. lia.
Qed.
Lemma read_varint_u64_post bs offset v o :
  0 <= offset -> read_varint_u64 bs offset = Ok (v, o) ->
  offset < o <= Z.max offset (len bs) /\ u64 v.
Proof.
  intros Ho H. apply read_varint_loop_post in H; [|lia|ulia]. destruct H as [H ?].
  split; [|done]. destruct (decide (offset <= len bs)).
  - rewrite (rest_from_len offset bs _ ltac:(lia) eq_refl) in H. lia.
  - rewrite (proj2 (rest_from_nil offset bs Ho)) in H by lia. rewrite len_nil in H. lia.
Qed.
Lemma read_varint_loop_no_panic w shift value offset rest :
  read_varint_loop w shift value offset rest <> Panic.
Proof.
  revert shift value offset; induction rest; intros; simpl; [done|].
  case_if; [done|]. case_if; [done|]. apply IHrest.
Qed.

(** ** Tags *)

Lemma make_tag_val fn wt : 0 <= fn < 2 ^ 29 -> 0 <= wt < 8 -> make_tag fn wt = fn * 8 + wt.
Proof.
  intros. unfold make_tag. rewrite wrap_small.
  - rewrite shiftl_or_add; lia.
  - rewrite Z.shiftl_mul_pow2 by lia. ulia.
Qed.
Lemma read_make_tag fn wt :
  0 <= fn < 2 ^ 29 -> 0 <= wt < 8 -> read_tag_wire_type (make_tag fn wt) = (fn, wt).
Proof.
  intros. rewrite make_tag_val by done. unfold read_tag_wire_type.
  rewrite Z.shiftr_div_pow2 by lia. change (2 ^ 3) with 8.
  change 7 with (Z.ones 3). rewrite Z.land_ones by lia. change (2 ^ 3) with 8.
  rewrite Z.div_add_l, (Z.div_small wt) by lia.
  rewrite (Z.add_comm (fn * 8)), Z.mod_add, Z.mod_small by lia. f_equal. lia.
Qed.

(** ** The loop *)

Section Loop.
Context {A : Type} (step : field_step A).

(** What the loop needs of the [match] of a structure: it never moves the
    cursor back, and it never panics. *)
Class StepOk := {
  step_progress : forall fn wt bs offset a a' o, 0 <= offset ->
    step fn wt bs offset a = Ok (a', o) -> offset <= o;
  step_no_panic : forall fn wt bs offset a, 0 <= offset -> step fn wt bs offset a <> Panic
}.
Context {HS : StepOk}.

Lemma tlv_loop_fuel f g bs offset a :
  0 <= offset -> (Z.to_nat (len bs - offset) < f)%nat -> (f <= g)%nat ->
  tlv_loop step g bs offset a = tlv_loop step f bs offset a.
Proof.
  revert g offset a; induction f as [|f IH]; intros g offset a Ho Hf Hg; [lia|].
  destruct g as [|g]; [lia|]. cbn [tlv_loop]. case_if; [|done].
  destruct (read_varint_u32 bs offset) as [[tag o]| |] eqn:E; try done.
  apply read_varint_u32_post in E; [|done]. destruct E as [E _].
  destruct (read_tag_wire_type tag) as [fn wt].
  destruct (step fn wt bs o a) as [[a' o']| |] eqn:Es; try done.
  apply step_progress in Es; [|lia]. apply IH; lia.
Qed.

(** One iteration of the loop. *)
Lemma tlv_run_unfold bs offset a :
  0 <= offset ->
  tlv_run step bs offset a =
  if offset <? len bs then
    '(tag, o) ← read_varint_u32 bs offset;
    '(a', o') ← step (read_tag_wire_type tag).1 (read_tag_wire_type tag).2 bs o a;
    tlv_run step bs o' a'
  else Ok a.
Proof.
  intros Ho. unfold tlv_run at 1. cbn [tlv_loop]. case_if; [|done].
  destruct (read_varint_u32 bs offset) as [[tag o]| |] eqn:E; try done.
  apply read_varint_u32_post in E; [|done]. destruct E as [E _]. unfold mbind, Result_bind.
  destruct (read_tag_wire_type tag) as [fn wt]. cbn [fst snd].
  destruct (step fn wt bs o a) as [[a' o']| |] eqn:Es; try done.
  apply step_progress in Es; [|lia]. unfold tlv_run.
  rewrite (tlv_loop_fuel (S (Z.to_nat (len bs - o')))) by lia. done.
Qed.

(** Induction along the iterations of the loop. *)
Lemma tlv_run_ind bs (P : Z -> A -> Result A -> Prop) :
  (forall offset a, 0 <= offset -> len bs <= offset -> P offset a (Ok a)) ->
  (forall offset a e, 0 <= offset < len bs -> P offset a (Err e)) ->
  (forall offset a tag o a' o' r, 0 <= offset < o ->
    read_varint_u32 bs offset = Ok (tag, o) ->
    step (read_tag_wire_type tag).1 (read_tag_wire_type tag).2 bs o a = Ok (a', o') ->
    P o' a' r -> P offset a r) ->
  forall offset a, 0 <= offset -> P offset a (tlv_run step bs offset a).
Proof.
  intros Hend Herr Hstep offset. remember (Z.to_nat (len bs - offset)) as n eqn:En.
  revert offset En. induction n as [n IH] using lt_wf_ind. intros offset En a Ho.
  pose proof (tlv_run_unfold bs offset a Ho) as U. case_if.
  2:{ rewrite U. apply Hend; lia. }
  destruct (read_varint_u32 bs offset) as [[tag o]|e|] eqn:E; simpl in U.
  - pose proof (read_varint_u32_post _ _ _ _ Ho E) as [Ho' _].
    destruct (step _ _ bs o a) as [[a' o']|e|] eqn:Es; simpl in U.
    + assert (o <= o') by (eapply step_progress; [|exact Es]; lia).
      rewrite U. eapply Hstep; [|exact E|exact Es|]; [lia|]. eapply IH; [|reflexivity|]; lia.
    + rewrite U. apply Herr. lia.
    + exfalso. eapply step_no_panic; [|exact Es]. lia.
  - rewrite U. apply Herr. lia.
  - exfalso. by apply read_varint_loop_no_panic in E.
Qed.

Lemma tlv_run_no_panic bs offset a : 0 <= offset -> tlv_run step bs offset a <> Panic.
Proof. revert offset a. by apply (tlv_run_ind bs (fun _ _ r => r <> Panic)). Qed.

(** A property every step preserves holds of the result. *)
Lemma tlv_run_invariant (P : A -> Prop) bs offset a r :
  (forall fn wt o b b' o', 0 <= o -> P b -> step fn wt bs o b = Ok (b', o') -> P b') ->
  0 <= offset -> P a -> tlv_run step bs offset a = Ok r -> P r.
Proof.
  intros HP Ho Ha Hr. revert Ha r Hr. revert offset a Ho.
  apply (tlv_run_ind bs (fun _ a res => P a -> forall r, res = Ok r -> P r)).
  - intros offset a _ _ Ha r [= <-]. done.
  - done.
  - intros offset a tag o a' o' res Ho E Es IH Ha. apply IH.
    eapply HP; [|exact Ha|exact Es]. lia.
Qed.

(** [consumes enc a a']: in front of [enc], whatever follows, the loop turns
    [a] into [a'] and goes on behind [enc]. *)
Definition consumes (enc : bytes) (a a' : A) : Prop :=
  forall bs offset rest, 0 <= offset -> rest_from offset bs = enc ++ rest ->
  tlv_run step bs offset a = tlv_run step bs (offset + len enc) a'.

Lemma consumes_nil a : consumes [] a a.
Proof. intros bs offset rest _ _. by rewrite len_nil, Z.add_0_r. Qed.
Lemma consumes_app x y a b c : consumes x a b -> consumes y b c -> consumes (x ++ y) a c.
Proof.
  intros Hx Hy bs offset rest Ho E. rewrite <- app_assoc in E.
  rewrite (Hx bs offset _ Ho E), (Hy bs (offset + len x) rest), len_app.
  - f_equal. lia.
  - pose proof (len_nonneg x). lia.
  - by apply rest_from_app.
Qed.
Lemma consumes_run enc a a' : consumes enc a a' -> tlv_run step enc 0 a = Ok a'.
Proof.
  intros H. rewrite (H enc 0 []), Z.add_0_l by (rewrite ?rest_from_0, ?app_nil_r; done || lia).
  rewrite tlv_run_unfold by apply len_nonneg. by rewrite Z.ltb_irrefl.
Qed.

(** A tag with its body, when the [match] arm reads the body. *)
Lemma consumes_field fn wt body a a' :
  0 <= fn < 2 ^ 29 -> 0 <= wt < 8 ->
  (forall bs offset rest, 0 <= offset -> rest_from offset bs = body ++ rest ->
    step fn wt bs offset a = Ok (a', offset + len body)) ->
  consumes (write_tag fn wt ++ body) a a'.
Proof.
  intros Hfn Hwt H bs offset rest Ho E. rewrite <- app_assoc in E.
  assert (Hlt : offset < len bs).
  { destruct (decide (len bs <= offset)) as [Hl|]; [|lia].
    rewrite (proj2 (rest_from_nil offset bs Ho) Hl) in E.
    pose proof (write_varint_nonempty 5 (make_tag fn wt) ltac:(lia)) as Hne.
    symmetry in E. apply app_nil in E as [E _]. unfold write_tag, write_varint_u32 in E.
    rewrite E in Hne. done. }
  rewrite tlv_run_unfold by done. rewrite (proj2 (Z.ltb_lt offset (len bs))) by done.
  assert (u32 (make_tag fn wt)) by (rewrite make_tag_val by done; ulia).
  rewrite (read_varint_u32_at bs offset (make_tag fn wt) _ ltac:(done) E).
  unfold mbind, Result_bind. rewrite read_make_tag by done. cbn [fst snd].
  pose proof (len_nonneg (write_varint_u32 (make_tag fn wt))) as Hw.
  rewrite (H bs (offset + len (write_varint_u32 (make_tag fn wt))) rest);
    [|lia|by apply rest_from_app].
  f_equal. unfold write_tag. rewrite len_app. lia.
Qed.
End Loop.

(** ** Fields read back *)

Lemma read_u32_field_at bs offset v rest :
  u32 v -> 0 <= offset -> rest_from offset bs = write_varint_u32 v ++ rest ->
  read_u32_field WIRE_VARINT bs offset = Ok (v, offset + len (write_varint_u32 v)).
Proof. intros Hv _ E. unfold read_u32_field. simpl. by eapply read_varint_u32_at. Qed.
Lemma read_u64_field_at bs offset v rest :
  u64 v -> 0 <= offset -> rest_from offset bs = write_varint_u64 v ++ rest ->
  read_u64_field WIRE_VARINT bs offset = Ok (v, offset + len (write_varint_u64 v)).
Proof. intros Hv _ E. unfold read_u64_field. simpl. by eapply read_varint_u64_at. Qed.
Lemma read_bool_field_at bs offset rest :
  0 <= offset -> rest_from offset bs = [1] ++ rest ->
  read_bool_field WIRE_VARINT bs offset = Ok (true, offset + len [1]).
Proof.
  intros _ E. unfold read_bool_field. simpl.
  rewrite (read_raw_byte_at bs offset 1 rest ltac:(lia) E). done.
Qed.
Lemma read_u8_field_at msg bs offset v rest :
  0 <= v < 128 -> 0 <= offset -> rest_from offset bs = [v] ++ rest ->
  read_u8_field msg WIRE_VARINT bs offset = Ok (v, offset + len [v]).
Proof.
  intros Hv _ E. unfold read_u8_field. simpl.
  rewrite (read_raw_byte_at bs offset v rest Hv E). simpl.
  rewrite wrap_small by ulia. done.
Qed.
Lemma read_string_field_at bs offset v rest :
  utf8_valid v = true -> u32 (len v) -> 0 <= offset ->
  rest_from offset bs = (write_varint_u32 (wrap 32 (len v)) ++ v) ++ rest ->
  read_string_field WIRE_LENGTH_DELIMITED bs offset =
  Ok (v, offset + len (write_varint_u32 (wrap 32 (len v)) ++ v)).
Proof.
  intros Hu Hl Ho E. rewrite (wrap_small 32 (len v)) in * by done.
  rewrite <- app_assoc in E. unfold read_string_field. simpl.
  rewrite (read_varint_u32_at bs offset (len v) _ Hl E). simpl.
  apply rest_from_app in E as E2; [|done].
  set (o := offset + len (write_varint_u32 (len v))) in *.
  assert (Ho' : 0 <= o) by (pose proof (len_nonneg (write_varint_u32 (len v))); lia).
  assert (Hle : o + len v <= len bs).
  { destruct (decide (len bs <= o)) as [Hge|].
    - rewrite (proj2 (rest_from_nil o bs Ho') Hge) in E2.
      symmetry in E2. apply app_nil in E2 as [-> ->]. rewrite app_nil_r in E.
      destruct (decide (len bs <= offset)) as [Hge'|].
      + rewrite (proj2 (rest_from_nil offset bs Ho) Hge') in E.
        pose proof (write_varint_nonempty 5 (len (@nil Z)) ltac:(lia)) as Hne.
        unfold write_varint_u32 in E. rewrite <- E in Hne. done.
      + rewrite len_nil. apply rest_from_len in E; [|lia]. unfold o. lia.
    - apply rest_from_len in E2; [|lia]. rewrite len_app in E2.
      pose proof (len_nonneg rest). lia. }
  pose proof (len_nonneg v).
  rewrite (proj2 (Z.ltb_ge (len bs) (o + len v))) by lia. unfold slice. tests. simpl.
  rewrite (slice_raw_app o bs v rest Ho' E2), from_utf8_valid by done.
  rewrite len_app. do 2 f_equal. lia.
Qed.

(** Progress and absence of panics of the readers, used for every structure. *)
Lemma read_u32_field_post wt bs offset v o :
  0 <= offset -> read_u32_field wt bs offset = Ok (v, o) -> offset <= o /\ u32 v.
Proof. unfold read_u32_field. case_if; [done|]. intros ? H%read_varint_u32_post; [|done]. intuition lia. Qed.
Lemma read_u64_field_post wt bs offset v o :
  0 <= offset -> read_u64_field wt bs offset = Ok (v, o) -> offset <= o /\ u64 v.
Proof. unfold read_u64_field. case_if; [done|]. intros ? H%read_varint_u64_post; [|done]. intuition lia. Qed.
Lemma read_bool_field_post wt bs offset v o :
  0 <= offset -> read_bool_field wt bs offset = Ok (v, o) -> offset <= o.
Proof.
  unfold read_bool_field. case_if; [done|]. intros ? H. bind_inv. simplify_eq.
  apply read_varint_u32_post in E; [lia|done].
Qed.
Lemma read_u8_field_post msg wt bs offset v o :
  0 <= offset -> read_u8_field msg wt bs offset = Ok (v, o) -> offset <= o /\ u8 v.
Proof.
  unfold read_u8_field. case_if; [done|]. intros ? H. bind_inv. simplify_eq.
  apply read_varint_u32_post in E; [|done]. split; [lia|]. auto with hdc.
Qed.
Lemma read_string_field_post wt bs offset v o :
  0 <= offset -> read_string_field wt bs offset = Ok (v, o) ->
  offset <= o /\ utf8_valid v = true /\ u32 (len v).
Proof.
  unfold read_string_field. case_if; [done|]. intros ? H. bind_inv. case_if; [done|]. bind_inv.
  apply read_varint_u32_post in E; [|done]. destruct E as [E Hz].
  destruct (from_utf8 a) eqn:Eu; [done|]. simplify_eq.
  apply from_utf8_inr in Eu as [-> Hv]. unfold slice in E0.
  case_if; [|done]. simplify_eq. rewrite slice_raw_length by ulia.
  replace (z0 + z - z0) with z by lia. split; [ulia|done].
Qed.
Lemma skip_field_post wt bs offset o :
  0 <= offset -> skip_field wt bs offset = Ok o -> offset <= o.
Proof.
  unfold skip_field. intros Ho H. repeat case_if; bind_inv; simplify_eq; try lia.
  - apply read_varint_u64_post in E; lia.
  - apply read_varint_u32_post in E; [|lia]. ulia.
Qed.

Lemma read_varint_u32_no_panic bs offset : read_varint_u32 bs offset <> Panic.
Proof. apply read_varint_loop_no_panic. Qed.
Lemma read_varint_u64_no_panic bs offset : read_varint_u64 bs offset <> Panic.
Proof. apply read_varint_loop_no_panic. Qed.
Lemma read_u32_field_no_panic wt bs offset : read_u32_field wt bs offset <> Panic.
Proof. unfold read_u32_field. case_if; [done|]. apply read_varint_u32_no_panic. Qed.
Lemma read_u64_field_no_panic wt bs offset : read_u64_field wt bs offset <> Panic.
Proof. unfold read_u64_field. case_if; [done|]. apply read_varint_u64_no_panic. Qed.
Lemma read_bool_field_no_panic wt bs offset : read_bool_field wt bs offset <> Panic.
Proof.
  unfold read_bool_field. case_if; [done|]. apply bind_no_panic; [apply read_varint_u32_no_panic|].
  by intros [??] _.
Qed.
Lemma read_u8_field_no_panic msg wt bs offset : read_u8_field msg wt bs offset <> Panic.
Proof.
  unfold read_u8_field. case_if; [done|]. apply bind_no_panic; [apply read_varint_u32_no_panic|].
  by intros [??] _.
Qed.
Lemma read_string_field_no_panic wt bs offset :
  0 <= offset -> read_string_field wt bs offset <> Panic.
Proof.
  intros Ho. unfold read_string_field. case_if; [done|].
  apply bind_no_panic; [apply read_varint_u32_no_panic|]. intros [n o] E.
  apply read_varint_u32_post in E; [|done]. case_if; [done|]. unfold slice.
  rewrite (proj2 (Z.leb_le o (o + n))) by ulia. tests. simpl.
  by destruct (from_utf8 _).
Qed.
Lemma skip_field_no_panic wt bs offset : skip_field wt bs offset <> Panic.
Proof.
  unfold skip_field. repeat case_if; try done;
    (apply bind_no_panic; [apply read_varint_u64_no_panic || apply read_varint_u32_no_panic|]);
    by intros [??] _.
Qed.
#[export] Hint Resolve read_varint_u32_no_panic read_varint_u64_no_panic
  read_u32_field_no_panic read_u64_field_no_panic read_bool_field_no_panic
  read_u8_field_no_panic read_string_field_no_panic skip_field_no_panic : hdc.

(** ** Written fields are consumed

    For each kind of field: the writer's bytes make the loop store the value,
    when the structure's arm for that number is the matching reader.  [set v]
    is the structure with the field set to [v]; a default value writes
    nothing, so it must be what the structure already holds. *)
Section Fields.
Context {A : Type} (step : field_step A) {HS : StepOk step}.
Context (fn : Z) (Hfn : 0 <= fn < 2 ^ 29).

Lemma consumes_string v a (set : bytes -> A) :
  utf8_valid v = true -> u32 (len v) -> (v = [] -> set v = a) ->
  (forall bs o, step fn WIRE_LENGTH_DELIMITED bs o a =
    '(v, o) ← read_string_field WIRE_LENGTH_DELIMITED bs o; Ok (set v, o)) ->
  consumes step (write_string_field fn v) a (set v).
Proof using HS Hfn.
  intros Hu Hl Hd Hs. destruct v as [|b t] eqn:E.
  { rewrite Hd by done. apply consumes_nil. }
  rewrite <- E in *. unfold write_string_field. rewrite E at 1.
  apply (consumes_field step); [done|done|]. intros bs o rest Ho Hr.
  rewrite Hs, (read_string_field_at bs o v rest) by done. done.
Qed.
Lemma consumes_u32 v a (set : Z -> A) :
  u32 v -> (v = 0 -> set v = a) ->
  (forall bs o, step fn WIRE_VARINT bs o a =
    '(v, o) ← read_u32_field WIRE_VARINT bs o; Ok (set v, o)) ->
  consumes step (write_u32_field fn v) a (set v).
Proof using HS Hfn.
  intros Hv Hd Hs. unfold write_u32_field. case_if.
  { rewrite Hd by done. apply consumes_nil. }
  apply (consumes_field step); [done|done|]. intros bs o rest Ho Hr.
  rewrite Hs, (read_u32_field_at bs o v rest) by done. done.
Qed.
(** The source guards some of these calls with a second [!= 0] test. *)
Lemma consumes_u32_guarded v a (set : Z -> A) :
  u32 v -> (v = 0 -> set v = a) ->
  (forall bs o, step fn WIRE_VARINT bs o a =
    '(v, o) ← read_u32_field WIRE_VARINT bs o; Ok (set v, o)) ->
  consumes step (if negb (v =? 0) then write_u32_field fn v else []) a (set v).
Proof using HS Hfn.
  intros Hv Hd Hs. destruct (v =? 0) eqn:E; bool_cases; simpl.
  - rewrite Hd by done. apply consumes_nil.
  - by apply consumes_u32.
Qed.
Lemma consumes_u64 v a (set : Z -> A) :
  u64 v -> (v = 0 -> set v = a) ->
  (forall bs o, step fn WIRE_VARINT bs o a =
    '(v, o) ← read_u64_field WIRE_VARINT bs o; Ok (set v, o)) ->
  consumes step (write_u64_field fn v) a (set v).
Proof using HS Hfn.
  intros Hv Hd Hs. unfold write_u64_field. case_if.
  { rewrite Hd by done. apply consumes_nil. }
  apply (consumes_field step); [done|done|]. intros bs o rest Ho Hr.
  rewrite Hs, (read_u64_field_at bs o v rest) by done. done.
Qed.
Lemma consumes_bool v a (set : bool -> A) :
  (v = false -> set v = a) ->
  (forall bs o, step fn WIRE_VARINT bs o a =
    '(v, o) ← read_bool_field WIRE_VARINT bs o; Ok (set v, o)) ->
  consumes step (write_bool_field fn v) a (set v).
Proof using HS Hfn.
  intros Hd Hs. unfold write_bool_field. destruct v; simpl.
  2:{ rewrite Hd by done. apply consumes_nil. }
  apply (consumes_field step); [done|done|]. intros bs o rest Ho Hr.
  rewrite Hs, (read_bool_field_at bs o rest) by done. done.
Qed.
Lemma consumes_raw_u8 msg v a (set : Z -> A) :
  0 <= v < 128 ->
  (forall bs o, step fn WIRE_VARINT bs o a =
    '(v, o) ← read_u8_field msg WIRE_VARINT bs o; Ok (set v, o)) ->
  consumes step (write_tag fn WIRE_VARINT ++ [v]) a (set v).
Proof using HS Hfn.
  intros Hv Hs. apply (consumes_field step); [done|done|]. intros bs o rest Ho Hr.
  rewrite Hs, (read_u8_field_at msg bs o v rest) by done. done.
Qed.
Lemma consumes_raw_u8_opt msg v a (set : Z -> A) :
  0 <= v < 128 -> (v = 0 -> set v = a) ->
  (forall bs o, step fn WIRE_VARINT bs o a =
    '(v, o) ← read_u8_field msg WIRE_VARINT bs o; Ok (set v, o)) ->
  consumes step (write_raw_u8_field fn v) a (set v).
Proof using HS Hfn.
  intros Hv Hd Hs. unfold write_raw_u8_field. case_if.
  - rewrite Hd by done. apply consumes_nil.
  - by eapply consumes_raw_u8.
Qed.

(** The bodies a field of each wire type can have. *)
Inductive wire_body : Z -> bytes -> Prop :=
  | body_varint v : u64 v -> wire_body WIRE_VARINT (write_varint_u64 v)
  | body_fixed64 b : len b = 8 -> wire_body WIRE_FIXED64 b
  | body_delimited b : u32 (len b) ->
      wire_body WIRE_LENGTH_DELIMITED (write_varint_u32 (len b) ++ b)
  | body_fixed32 b : len b = 4 -> wire_body WIRE_FIXED32 b.

(** A field the structure does not know leaves it as it is. *)
Lemma consumes_unknown wt body a :
  wire_body wt body ->
  (forall bs o, step fn wt bs o a = o ← skip_field wt bs o; Ok (a, o)) ->
  consumes step (write_tag fn wt ++ body) a a.
Proof using HS Hfn.
  intros Hb Hs. apply (consumes_field step); [done|by destruct Hb|]. intros bs o rest Ho Hr.
  rewrite Hs. destruct Hb as [v Hv|b Hb|b Hb|b Hb]; unfold skip_field; simpl.
  - rewrite (read_varint_u64_at bs o v rest Hv Hr). done.
  - by rewrite Hb.
  - rewrite <- app_assoc in Hr. rewrite (read_varint_u32_at bs o _ _ Hb Hr). simpl.
    rewrite len_app. do 2 f_equal. lia.
  - by rewrite Hb.
Qed.
End Fields.
