(* ===== verification/Serializer.v ===== *)
(** * Serialisation of the protocol structures

    [src/crates/hdc-protocol/src/serializer.rs]: the fixed-size heads, the TLV
    structures, and the packets built from them.  The traits [HdcSerialize]
    and [HdcDeserialize] are type classes; each structure is a module with its
    record, its instances, its well-formedness and the lemma that its bytes
    are read back. *)

From S2P Require Import Prelude RustStr Config Tlv.

Class HdcSerialize (A : Type) := HdcSerialize_serialize : A -> bytes.
Class HdcDeserialize (A : Type) := HdcDeserialize_deserialize : bytes -> Result A.

(** The law a serialised type promises its clients: on the values [ok] accepts,
    reading what was written gives the value back. *)
Class RoundTrip (A : Type) (ok : A -> Prop) `{HdcSerialize A, HdcDeserialize A} :=
  round_trip : forall a, ok a ->
    HdcDeserialize_deserialize (HdcSerialize_serialize a) = Ok a.

(** [bytes[i]] behind a length check. *)
Definition at_ (bs : bytes) (i : nat) : Z := nth i bs 0.

(** A valid string whose length is a [u32]. *)
Definition str_ok (s : bytes) : Prop := utf8_valid s = true /\ u32 (len s).

(** ** Fixed-size heads *)

Module PayloadHead.
Record t := mk {
  flag : Z * Z; reserve : Z * Z; protocol_ver : Z; head_size : Z; data_size : Z
}.
#[global] Instance eq_dec : EqDecision t.
Proof. solve_decision. Defined.
Definition serialize (h : t) : bytes :=
  [(flag h).1; (flag h).2] ++ [(reserve h).1; (reserve h).2] ++ [protocol_ver h] ++
  to_be_bytes 2 (head_size h) ++ to_be_bytes 4 (data_size h).
Definition deserialize (bs : bytes) : Result t :=
  if len bs <? 11 then err InvalidData "PayloadHead too short"
  else Ok (mk (at_ bs 0, at_ bs 1) (at_ bs 2, at_ bs 3) (at_ bs 4)
             (from_be_bytes [at_ bs 5; at_ bs 6])
             (from_be_bytes [at_ bs 7; at_ bs 8; at_ bs 9; at_ bs 10])).
#[global] Instance HdcSerialize : HdcSerialize t := serialize.
#[global] Instance HdcDeserialize : HdcDeserialize t := deserialize.
Definition wf (h : t) : Prop :=
  u8 (flag h).1 /\ u8 (flag h).2 /\ u8 (reserve h).1 /\ u8 (reserve h).2 /\
  u8 (protocol_ver h) /\ u16 (head_size h) /\ u32 (data_size h).
End PayloadHead.

Module UsbHead.
Record t := mk { flag : Z * Z; option_ : Z; session_id : Z; data_size : Z }.
#[global] Instance eq_dec : EqDecision t.
Proof. solve_decision. Defined.
Definition serialize (h : t) : bytes :=
  [(flag h).1; (flag h).2] ++ [option_ h] ++
  to_be_bytes 4 (session_id h) ++ to_be_bytes 4 (data_size h).
Definition deserialize (bs : bytes) : Result t :=
  if len bs <? 11 then err InvalidData "UsbHead too short"
  else Ok (mk (at_ bs 0, at_ bs 1) (at_ bs 2)
             (from_be_bytes [at_ bs 3; at_ bs 4; at_ bs 5; at_ bs 6])
             (from_be_bytes [at_ bs 7; at_ bs 8; at_ bs 9; at_ bs 10])).
#[global] Instance HdcSerialize : HdcSerialize t := serialize.
#[global] Instance HdcDeserialize : HdcDeserialize t := deserialize.
Definition wf (h : t) : Prop :=
  u8 (flag h).1 /\ u8 (flag h).2 /\ u8 (option_ h) /\ u32 (session_id h) /\ u32 (data_size h).
End UsbHead.

Module UartHead.
Record t := mk {
  flag : Z * Z; option_ : Z; session_id : Z; data_size : Z; package_index : Z;
  data_checksum : Z; head_checksum : Z
}.
#[global] Instance eq_dec : EqDecision t.
Proof. solve_decision. Defined.
Definition serialize (h : t) : bytes :=
  [(flag h).1; (flag h).2] ++ to_be_bytes 2 (option_ h) ++
  to_be_bytes 4 (session_id h) ++ to_be_bytes 4 (data_size h) ++
  to_be_bytes 4 (package_index h) ++ to_be_bytes 4 (data_checksum h) ++
  to_be_bytes 4 (head_checksum h).
Definition deserialize (bs : bytes) : Result t :=
  if len bs <? 24 then err InvalidData "UartHead too short"
  else Ok (mk (at_ bs 0, at_ bs 1) (from_be_bytes [at_ bs 2; at_ bs 3])
             (from_be_bytes [at_ bs 4; at_ bs 5; at_ bs 6; at_ bs 7])
             (from_be_bytes [at_ bs 8; at_ bs 9; at_ bs 10; at_ bs 11])
             (from_be_bytes [at_ bs 12; at_ bs 13; at_ bs 14; at_ bs 15])
             (from_be_bytes [at_ bs 16; at_ bs 17; at_ bs 18; at_ bs 19])
             (from_be_bytes [at_ bs 20; at_ bs 21; at_ bs 22; at_ bs 23])).
#[global] Instance HdcSerialize : HdcSerialize t := serialize.
#[global] Instance HdcDeserialize : HdcDeserialize t := deserialize.
Definition wf (h : t) : Prop :=
  u8 (flag h).1 /\ u8 (flag h).2 /\ u16 (option_ h) /\ u32 (session_id h) /\
  u32 (data_size h) /\ u32 (package_index h) /\ u32 (data_checksum h) /\ u32 (head_checksum h).
End UartHead.

(** ** Proof tactics for the TLV structures *)

Ltac field_post :=
  repeat match goal with
  | H : read_string_field _ _ _ = Ok _ |- _ => apply read_string_field_post in H; [|lia]
  | H : read_u32_field _ _ _ = Ok _ |- _ => apply read_u32_field_post in H; [|lia]
  | H : read_u64_field _ _ _ = Ok _ |- _ => apply read_u64_field_post in H; [|lia]
  | H : read_u8_field _ _ _ _ = Ok _ |- _ => apply read_u8_field_post in H; [|lia]
  | H : read_bool_field _ _ _ = Ok _ |- _ => apply read_bool_field_post in H; [|lia]
  | H : skip_field _ _ _ = Ok _ |- _ => apply skip_field_post in H; [|lia]
  end.
Ltac step_ok_tac step :=
  split;
  [ intros fn wt bs o r r' o' Ho H; unfold step in H;
    repeat case_match; bind_inv; simplify_eq; field_post; tauto
  | intros fn wt bs o r Ho; unfold step;
    repeat case_match; (apply bind_no_panic; [auto with hdc|]);
    (intros [??] _ || intros ? _); done ].
Ltac step_wf_tac step wf :=
  intros Ho Hwf H; unfold step in H; unfold wf, str_ok in *;
  repeat case_match; bind_inv; simplify_eq; field_post; simpl; tauto.
(** The side conditions of the [consumes_*] lemmas. *)
Ltac field_side := first [ done | intros ->; reflexivity | reflexivity | ulia ].

(** ** [SessionHandShake]

    The handshake of a session; [auth_type] is written even when zero. *)
Module SessionHandShake.

Record t := mk {
  banner : bytes;
  auth_type : Z;
  session_id : Z;
  connect_key : bytes;
  buf : bytes;
  version : bytes
}.

#[global] Instance eq_dec : EqDecision t.
Proof. solve_decision. Defined.

Definition default : t := mk [] 0 0 [] [] [].

Definition serialize (r : t) : bytes :=
  write_string_field 1 (banner r) ++
  (write_tag 2 WIRE_VARINT ++ [auth_type r]) ++
  (if negb (session_id r =? 0) then write_u32_field 3 (session_id r) else []) ++
  write_string_field 4 (connect_key r) ++
  write_string_field 5 (buf r) ++
  write_string_field 6 (version r).

(** The [match field_number] of [deserialize]. *)
Definition step : field_step t := fun field_number wt bs o r =>
  match field_number with
  | 1 => '(v, o) ← read_string_field wt bs o;
      Ok (mk v (auth_type r) (session_id r) (connect_key r) (buf r) (version r), o)
  | 2 => '(v, o) ← read_u8_field "bad wire type for auth_type" wt bs o;
      Ok (mk (banner r) v (session_id r) (connect_key r) (buf r) (version r), o)
  | 3 => '(v, o) ← read_u32_field wt bs o;
      Ok (mk (banner r) (auth_type r) v (connect_key r) (buf r) (version r), o)
  | 4 => '(v, o) ← read_string_field wt bs o;
      Ok (mk (banner r) (auth_type r) (session_id r) v (buf r) (version r), o)
  | 5 => '(v, o) ← read_string_field wt bs o;
      Ok (mk (banner r) (auth_type r) (session_id r) (connect_key r) v (version r), o)
  | 6 => '(v, o) ← read_string_field wt bs o;
      Ok (mk (banner r) (auth_type r) (session_id r) (connect_key r) (buf r) v, o)
  | _ => o ← skip_field wt bs o; Ok (r, o)
  end.

Definition deserialize (bs : bytes) : Result t := tlv_run step bs 0 default.
#[global] Instance HdcSerialize : HdcSerialize t := serialize.
#[global] Instance HdcDeserialize : HdcDeserialize t := deserialize.

(** The values of the type: integers of their width, valid strings whose length
    fits the 32-bit length prefix. *)
Definition wf (r : t) : Prop :=
  str_ok (banner r) /\
  u8 (auth_type r) /\
  u32 (session_id r) /\
  str_ok (connect_key r) /\
  str_ok (buf r) /\
  str_ok (version r).

(** The raw bytes that are their own varint. *)
Definition raw_ok (r : t) : Prop := auth_type r < 128.

#[global] Instance step_ok : StepOk step.
Proof. step_ok_tac step. Qed.

(** The bytes [serialize] writes make the loop rebuild the value. *)
Lemma handshake_consumes r : wf r -> raw_ok r -> consumes step (serialize r) default r.
Proof.
  destruct r as [x0 x1 x2 x3 x4 x5]. 
  cbv [wf raw_ok str_ok serialize default banner auth_type session_id connect_key buf version]. intros.
  destruct_and?.
  eapply consumes_app; [apply (consumes_string step 1 ltac:(lia) x0 _ (fun v => mk v 0 0 [] [] [])); field_side|].
  eapply consumes_app; [apply (consumes_raw_u8 step 2 ltac:(lia) "bad wire type for auth_type" x1 _ (fun v => mk x0 v 0 [] [] [])); field_side|].
  eapply consumes_app; [apply (consumes_u32_guarded step 3 ltac:(lia) x2 _ (fun v => mk x0 x1 v [] [] [])); field_side|].
  eapply consumes_app; [apply (consumes_string step 4 ltac:(lia) x3 _ (fun v => mk x0 x1 x2 v [] [])); field_side|].
  eapply consumes_app; [apply (consumes_string step 5 ltac:(lia) x4 _ (fun v => mk x0 x1 x2 x3 v [])); field_side|].
  apply (consumes_string step 6 ltac:(lia) x5 _ (fun v => mk x0 x1 x2 x3 x4 v)); field_side.
Qed.

Lemma handshake_step_wf fn wt bs o r r' o' : 0 <= o -> wf r -> step fn wt bs o r = Ok (r', o') -> wf r'.
Proof. step_wf_tac step wf. Qed.

End SessionHandShake.

(** ** [PayloadProtect]

    The protected header of a packet. *)
Module PayloadProtect.

Record t := mk {
  channel_id : Z;
  command_flag : Z;
  check_sum : Z;
  v_code : Z
}.

#[global] Instance eq_dec : EqDecision t.
Proof. solve_decision. Defined.

Definition default : t := mk 0 0 0 0.

Definition serialize (r : t) : bytes :=
  (if negb (channel_id r =? 0) then write_u32_field 1 (channel_id r) else []) ++
  (if negb (command_flag r =? 0) then write_u32_field 2 (command_flag r) else []) ++
  write_raw_u8_field 3 (check_sum r) ++
  write_raw_u8_field 4 (v_code r).

(** The [match field_number] of [deserialize]. *)
Definition step : field_step t := fun field_number wt bs o r =>
  match field_number with
  | 1 => '(v, o) ← read_u32_field wt bs o;
      Ok (mk v (command_flag r) (check_sum r) (v_code r), o)
  | 2 => '(v, o) ← read_u32_field wt bs o;
      Ok (mk (channel_id r) v (check_sum r) (v_code r), o)
  | 3 => '(v, o) ← read_u8_field "bad wire type for check_sum" wt bs o;
      Ok (mk (channel_id r) (command_flag r) v (v_code r), o)
  | 4 => '(v, o) ← read_u8_field "bad wire type for v_code" wt bs o;
      Ok (mk (channel_id r) (command_flag r) (check_sum r) v, o)
  | _ => o ← skip_field wt bs o; Ok (r, o)
  end.

Definition deserialize (bs : bytes) : Result t := tlv_run step bs 0 default.
#[global] Instance HdcSerialize : HdcSerialize t := serialize.
#[global] Instance HdcDeserialize : HdcDeserialize t := deserialize.

(** The values of the type: integers of their width, valid strings whose length
    fits the 32-bit length prefix. *)
Definition wf (r : t) : Prop :=
  u32 (channel_id r) /\
  u32 (command_flag r) /\
  u8 (check_sum r) /\
  u8 (v_code r).

(** The raw bytes that are their own varint. *)
Definition raw_ok (r : t) : Prop := check_sum r < 128 /\ v_code r < 128.

#[global] Instance step_ok : StepOk step.
Proof. step_ok_tac step. Qed.

(** The bytes [serialize] writes make the loop rebuild the value. *)
Lemma protect_consumes r : wf r -> raw_ok r -> consumes step (serialize r) default r.
Proof.
  destruct r as [x0 x1 x2 x3]. 
  cbv [wf raw_ok str_ok serialize default channel_id command_flag check_sum v_code]. intros.
  destruct_and?.
  eapply consumes_app; [apply (consumes_u32_guarded step 1 ltac:(lia) x0 _ (fun v => mk v 0 0 0)); field_side|].
  eapply consumes_app; [apply (consumes_u32_guarded step 2 ltac:(lia) x1 _ (fun v => mk x0 v 0 0)); field_side|].
  eapply consumes_app; [apply (consumes_raw_u8_opt step 3 ltac:(lia) "bad wire type for check_sum" x2 _ (fun v => mk x0 x1 v 0)); field_side|].
  apply (consumes_raw_u8_opt step 4 ltac:(lia) "bad wire type for v_code" x3 _ (fun v => mk x0 x1 x2 v)); field_side.
Qed.

Lemma protect_step_wf fn wt bs o r r' o' : 0 <= o -> wf r -> step fn wt bs o r = Ok (r', o') -> wf r'.
Proof. step_wf_tac step wf. Qed.

End PayloadProtect.

(** ** [TransferConfig]

    The description of a file or package transfer. *)
Module TransferConfig.

Record t := mk {
  file_size : Z;
  atime : Z;
  mtime : Z;
  options : bytes;
  path : bytes;
  optional_name : bytes;
  update_if_new : bool;
  compress_type : Z;
  hold_timestamp : bool;
  function_name : bytes;
  client_cwd : bytes;
  reserve1 : bytes;
  reserve2 : bytes
}.

#[global] Instance eq_dec : EqDecision t.
Proof. solve_decision. Defined.

Definition default : t := mk 0 0 0 [] [] [] false 0 false [] [] [] [].

Definition serialize (r : t) : bytes :=
  write_u64_field 1 (file_size r) ++
  write_u64_field 2 (atime r) ++
  write_u64_field 3 (mtime r) ++
  write_string_field 4 (options r) ++
  write_string_field 5 (path r) ++
  write_string_field 6 (optional_name r) ++
  write_bool_field 7 (update_if_new r) ++
  write_raw_u8_field 8 (compress_type r) ++
  write_bool_field 9 (hold_timestamp r) ++
  write_string_field 10 (function_name r) ++
  write_string_field 11 (client_cwd r) ++
  write_string_field 12 (reserve1 r) ++
  write_string_field 13 (reserve2 r).

(** The [match field_number] of [deserialize]. *)
Definition step : field_step t := fun field_number wt bs o r =>
  match field_number with
  | 1 => '(v, o) ← read_u64_field wt bs o;
      Ok (mk v (atime r) (mtime r) (options r) (path r) (optional_name r) (update_if_new r)
        (compress_type r) (hold_timestamp r) (function_name r) (client_cwd r) (reserve1 r)
        (reserve2 r), o)
  | 2 => '(v, o) ← read_u64_field wt bs o;
      Ok (mk (file_size r) v (mtime r) (options r) (path r) (optional_name r)
        (update_if_new r) (compress_type r) (hold_timestamp r) (function_name r)
        (client_cwd r) (reserve1 r) (reserve2 r), o)
  | 3 => '(v, o) ← read_u64_field wt bs o;
      Ok (mk (file_size r) (atime r) v (options r) (path r) (optional_name r)
        (update_if_new r) (compress_type r) (hold_timestamp r) (function_name r)
        (client_cwd r) (reserve1 r) (reserve2 r), o)
  | 4 => '(v, o) ← read_string_field wt bs o;
      Ok (mk (file_size r) (atime r) (mtime r) v (path r) (optional_name r)
        (update_if_new r) (compress_type r) (hold_timestamp r) (function_name r)
        (client_cwd r) (reserve1 r) (reserve2 r), o)
  | 5 => '(v, o) ← read_string_field wt bs o;
      Ok (mk (file_size r) (atime r) (mtime r) (options r) v (optional_name r)
        (update_if_new r) (compress_type r) (hold_timestamp r) (function_name r)
        (client_cwd r) (reserve1 r) (reserve2 r), o)
  | 6 => '(v, o) ← read_string_field wt bs o;
      Ok (mk (file_size r) (atime r) (mtime r) (options r) (path r) v (update_if_new r)
        (compress_type r) (hold_timestamp r) (function_name r) (client_cwd r) (reserve1 r)
        (reserve2 r), o)
  | 7 => '(v, o) ← read_bool_field wt bs o;
      Ok (mk (file_size r) (atime r) (mtime r) (options r) (path r) (optional_name r) v
        (compress_type r) (hold_timestamp r) (function_name r) (client_cwd r) (reserve1 r)
        (reserve2 r), o)
  | 8 => '(v, o) ← read_u8_field "bad wire type for compress_type" wt bs o;
      Ok (mk (file_size r) (atime r) (mtime r) (options r) (path r) (optional_name r)
        (update_if_new r) v (hold_timestamp r) (function_name r) (client_cwd r) (reserve1 r)
        (reserve2 r), o)
  | 9 => '(v, o) ← read_bool_field wt bs o;
      Ok (mk (file_size r) (atime r) (mtime r) (options r) (path r) (optional_name r)
        (update_if_new r) (compress_type r) v (function_name r) (client_cwd r) (reserve1 r)
        (reserve2 r), o)
  | 10 => '(v, o) ← read_string_field wt bs o;
      Ok (mk (file_size r) (atime r) (mtime r) (options r) (path r) (optional_name r)
        (update_if_new r) (compress_type r) (hold_timestamp r) v (client_cwd r) (reserve1 r)
        (reserve2 r), o)
  | 11 => '(v, o) ← read_string_field wt bs o;
      Ok (mk (file_size r) (atime r) (mtime r) (options r) (path r) (optional_name r)
        (update_if_new r) (compress_type r) (hold_timestamp r) (function_name r) v
        (reserve1 r) (reserve2 r), o)
  | 12 => '(v, o) ← read_string_field wt bs o;
      Ok (mk (file_size r) (atime r) (mtime r) (options r) (path r) (optional_name r)
        (update_if_new r) (compress_type r) (hold_timestamp r) (function_name r)
        (client_cwd r) v (reserve2 r), o)
  | 13 => '(v, o) ← read_string_field wt bs o;
      Ok (mk (file_size r) (atime r) (mtime r) (options r) (path r) (optional_name r)
        (update_if_new r) (compress_type r) (hold_timestamp r) (function_name r)
        (client_cwd r) (reserve1 r) v, o)
  | _ => o ← skip_field wt bs o; Ok (r, o)
  end.

Definition deserialize (bs : bytes) : Result t := tlv_run step bs 0 default.
#[global] Instance HdcSerialize : HdcSerialize t := serialize.
#[global] Instance HdcDeserialize : HdcDeserialize t := deserialize.

(** The values of the type: integers of their width, valid strings whose length
    fits the 32-bit length prefix. *)
Definition wf (r : t) : Prop :=
  u64 (file_size r) /\
  u64 (atime r) /\
  u64 (mtime r) /\
  str_ok (options r) /\
  str_ok (path r) /\
  str_ok (optional_name r) /\
  u8 (compress_type r) /\
  str_ok (function_name r) /\
  str_ok (client_cwd r) /\
  str_ok (reserve1 r) /\
  str_ok (reserve2 r).

(** The raw bytes that are their own varint. *)
Definition raw_ok (r : t) : Prop := compress_type r < 128.

#[global] Instance step_ok : StepOk step.
Proof. step_ok_tac step. Qed.

(** The bytes [serialize] writes make the loop rebuild the value. *)
Lemma config_consumes r : wf r -> raw_ok r -> consumes step (serialize r) default r.
Proof.
  destruct r as [x0 x1 x2 x3 x4 x5 x6 x7 x8 x9 x10 x11 x12]. 
  cbv [wf raw_ok str_ok serialize default file_size atime mtime options path optional_name update_if_new compress_type hold_timestamp function_name client_cwd reserve1 reserve2]. intros.
  destruct_and?.
  eapply consumes_app; [apply (consumes_u64 step 1 ltac:(lia) x0 _ (fun v => mk v 0 0 [] [] [] false 0 false [] [] [] [])); field_side|].
  eapply consumes_app; [apply (consumes_u64 step 2 ltac:(lia) x1 _ (fun v => mk x0 v 0 [] [] [] false 0 false [] [] [] [])); field_side|].
  eapply consumes_app; [apply (consumes_u64 step 3 ltac:(lia) x2 _ (fun v => mk x0 x1 v [] [] [] false 0 false [] [] [] [])); field_side|].
  eapply consumes_app; [apply (consumes_string step 4 ltac:(lia) x3 _ (fun v => mk x0 x1 x2 v [] [] false 0 false [] [] [] [])); field_side|].
  eapply consumes_app; [apply (consumes_string step 5 ltac:(lia) x4 _ (fun v => mk x0 x1 x2 x3 v [] false 0 false [] [] [] [])); field_side|].
  eapply consumes_app; [apply (consumes_string step 6 ltac:(lia) x5 _ (fun v => mk x0 x1 x2 x3 x4 v false 0 false [] [] [] [])); field_side|].
  eapply consumes_app; [apply (consumes_bool step 7 ltac:(lia) x6 _ (fun v => mk x0 x1 x2 x3 x4 x5 v 0 false [] [] [] [])); field_side|].
  eapply consumes_app; [apply (consumes_raw_u8_opt step 8 ltac:(lia) "bad wire type for compress_type" x7 _ (fun v => mk x0 x1 x2 x3 x4 x5 x6 v false [] [] [] [])); field_side|].
  eapply consumes_app; [apply (consumes_bool step 9 ltac:(lia) x8 _ (fun v => mk x0 x1 x2 x3 x4 x5 x6 x7 v [] [] [] [])); field_side|].
  eapply consumes_app; [apply (consumes_string step 10 ltac:(lia) x9 _ (fun v => mk x0 x1 x2 x3 x4 x5 x6 x7 x8 v [] [] [])); field_side|].
  eapply consumes_app; [apply (consumes_string step 11 ltac:(lia) x10 _ (fun v => mk x0 x1 x2 x3 x4 x5 x6 x7 x8 x9 v [] [])); field_side|].
  eapply consumes_app; [apply (consumes_string step 12 ltac:(lia) x11 _ (fun v => mk x0 x1 x2 x3 x4 x5 x6 x7 x8 x9 x10 v [])); field_side|].
  apply (consumes_string step 13 ltac:(lia) x12 _ (fun v => mk x0 x1 x2 x3 x4 x5 x6 x7 x8 x9 x10 x11 v)); field_side.
Qed.

Lemma config_step_wf fn wt bs o r r' o' : 0 <= o -> wf r -> step fn wt bs o r = Ok (r', o') -> wf r'.
Proof. step_wf_tac step wf. Qed.

End TransferConfig.

(** ** [FileMode]

    The mode and owner of a file. *)
Module FileMode.

Record t := mk {
  perm : Z;
  u_id : Z;
  g_id : Z;
  context : bytes;
  full_name : bytes
}.

#[global] Instance eq_dec : EqDecision t.
Proof. solve_decision. Defined.

Definition default : t := mk 0 0 0 [] [].

Definition serialize (r : t) : bytes :=
  write_u64_field 1 (perm r) ++
  write_u64_field 2 (u_id r) ++
  write_u64_field 3 (g_id r) ++
  write_string_field 4 (context r) ++
  write_string_field 5 (full_name r).

(** The [match field_number] of [deserialize]. *)
Definition step : field_step t := fun field_number wt bs o r =>
  match field_number with
  | 1 => '(v, o) ← read_u64_field wt bs o;
      Ok (mk v (u_id r) (g_id r) (context r) (full_name r), o)
  | 2 => '(v, o) ← read_u64_field wt bs o;
      Ok (mk (perm r) v (g_id r) (context r) (full_name r), o)
  | 3 => '(v, o) ← read_u64_field wt bs o;
      Ok (mk (perm r) (u_id r) v (context r) (full_name r), o)
  | 4 => '(v, o) ← read_string_field wt bs o;
      Ok (mk (perm r) (u_id r) (g_id r) v (full_name r), o)
  | 5 => '(v, o) ← read_string_field wt bs o;
      Ok (mk (perm r) (u_id r) (g_id r) (context r) v, o)
  | _ => o ← skip_field wt bs o; Ok (r, o)
  end.

Definition deserialize (bs : bytes) : Result t := tlv_run step bs 0 default.
#[global] Instance HdcSerialize : HdcSerialize t := serialize.
#[global] Instance HdcDeserialize : HdcDeserialize t := deserialize.

(** The values of the type: integers of their width, valid strings whose length
    fits the 32-bit length prefix. *)
Definition wf (r : t) : Prop :=
  u64 (perm r) /\
  u64 (u_id r) /\
  u64 (g_id r) /\
  str_ok (context r) /\
  str_ok (full_name r).

#[global] Instance step_ok : StepOk step.
Proof. step_ok_tac step. Qed.

(** The bytes [serialize] writes make the loop rebuild the value. *)
Lemma filemode_consumes r : wf r -> consumes step (serialize r) default r.
Proof.
  destruct r as [x0 x1 x2 x3 x4]. 
  cbv [wf str_ok serialize default perm u_id g_id context full_name]. intros.
  destruct_and?.
  eapply consumes_app; [apply (consumes_u64 step 1 ltac:(lia) x0 _ (fun v => mk v 0 0 [] [])); field_side|].
  eapply consumes_app; [apply (consumes_u64 step 2 ltac:(lia) x1 _ (fun v => mk x0 v 0 [] [])); field_side|].
  eapply consumes_app; [apply (consumes_u64 step 3 ltac:(lia) x2 _ (fun v => mk x0 x1 v [] [])); field_side|].
  eapply consumes_app; [apply (consumes_string step 4 ltac:(lia) x3 _ (fun v => mk x0 x1 x2 v [])); field_side|].
  apply (consumes_string step 5 ltac:(lia) x4 _ (fun v => mk x0 x1 x2 x3 v)); field_side.
Qed.

Lemma filemode_step_wf fn wt bs o r r' o' : 0 <= o -> wf r -> step fn wt bs o r = Ok (r', o') -> wf r'.
Proof. step_wf_tac step wf. Qed.

End FileMode.

(** ** [TransferPayload]

    The head of one chunk of file data. *)
Module TransferPayload.

Record t := mk {
  index : Z;
  compress_type : Z;
  compress_size : Z;
  uncompress_size : Z
}.

#[global] Instance eq_dec : EqDecision t.
Proof. solve_decision. Defined.

Definition default : t := mk 0 0 0 0.

Definition serialize (r : t) : bytes :=
  write_u64_field 1 (index r) ++
  write_raw_u8_field 2 (compress_type r) ++
  (if negb (compress_size r =? 0) then write_u32_field 3 (compress_size r) else []) ++
  (if negb (uncompress_size r =? 0) then write_u32_field 4 (uncompress_size r) else []).

(** The [match field_number] of [deserialize]. *)
Definition step : field_step t := fun field_number wt bs o r =>
  match field_number with
  | 1 => '(v, o) ← read_u64_field wt bs o;
      Ok (mk v (compress_type r) (compress_size r) (uncompress_size r), o)
  | 2 => '(v, o) ← read_u8_field "bad wire type for compress_type" wt bs o;
      Ok (mk (index r) v (compress_size r) (uncompress_size r), o)
  | 3 => '(v, o) ← read_u32_field wt bs o;
      Ok (mk (index r) (compress_type r) v (uncompress_size r), o)
  | 4 => '(v, o) ← read_u32_field wt bs o;
      Ok (mk (index r) (compress_type r) (compress_size r) v, o)
  | _ => o ← skip_field wt bs o; Ok (r, o)
  end.

Definition deserialize (bs : bytes) : Result t := tlv_run step bs 0 default.
#[global] Instance HdcSerialize : HdcSerialize t := serialize.
#[global] Instance HdcDeserialize : HdcDeserialize t := deserialize.

(** The values of the type: integers of their width, valid strings whose length
    fits the 32-bit length prefix. *)
Definition wf (r : t) : Prop :=
  u64 (index r) /\
  u8 (compress_type r) /\
  u32 (compress_size r) /\
  u32 (uncompress_size r).

(** The raw bytes that are their own varint. *)
Definition raw_ok (r : t) : Prop := compress_type r < 128.

#[global] Instance step_ok : StepOk step.
Proof. step_ok_tac step. Qed.

(** The bytes [serialize] writes make the loop rebuild the value. *)
Lemma tpayload_consumes r : wf r -> raw_ok r -> consumes step (serialize r) default r.
Proof.
  destruct r as [x0 x1 x2 x3]. 
  cbv [wf raw_ok str_ok serialize default index compress_type compress_size uncompress_size]. intros.
  destruct_and?.
  eapply consumes_app; [apply (consumes_u64 step 1 ltac:(lia) x0 _ (fun v => mk v 0 0 0)); field_side|].
  eapply consumes_app; [apply (consumes_raw_u8_opt step 2 ltac:(lia) "bad wire type for compress_type" x1 _ (fun v => mk x0 v 0 0)); field_side|].
  eapply consumes_app; [apply (consumes_u32_guarded step 3 ltac:(lia) x2 _ (fun v => mk x0 x1 v 0)); field_side|].
  apply (consumes_u32_guarded step 4 ltac:(lia) x3 _ (fun v => mk x0 x1 x2 v)); field_side.
Qed.

Lemma tpayload_step_wf fn wt bs o r r' o' : 0 <= o -> wf r -> step fn wt bs o r = Ok (r', o') -> wf r'.
Proof. step_wf_tac step wf. Qed.

End TransferPayload.

(** ** Packets *)

Definition HEAD_SIZE : Z := 11.
Definition USB_HEAD_SIZE : Z := 11.
Definition UART_HEAD_SIZE : Z := 24.

(** The header fields [concat_pack] writes in front of the payload. *)
Definition protect_of (msg : TaskMessage) : PayloadProtect.t :=
  let check_sum := if ENABLE_IO_CHECK then wrap 8 (foldr Z.add 0 (payload msg)) else 0 in
  PayloadProtect.mk (channel_id msg) (as_u32 (command msg)) check_sum PAYLOAD_VCODE.
Definition head_of (msg : TaskMessage) (protect_buf : bytes) : PayloadHead.t :=
  PayloadHead.mk (at_ PACKET_FLAG 0, at_ PACKET_FLAG 1) (0, 0) (wrap 8 VER_PROTOCOL)
    (wrap 16 (len protect_buf)) (wrap 32 (len (payload msg))).
Definition concat_pack (msg : TaskMessage) : bytes :=
  let protect_buf := PayloadProtect.serialize (protect_of msg) in
  let head_buf := PayloadHead.serialize (head_of msg protect_buf) in
  head_buf ++ protect_buf ++ payload msg.

Definition fmt_u8_list (l : list Z) : bytes :=
  lit "[" ++ join (lit ", ") (map fmt_dec l) ++ lit "]".

Definition unpack_payload_head (data : bytes) : Result PayloadHead.t :=
  if len data <? HEAD_SIZE then err InvalidData "payload head too short"
  else
    first ← slice 0 HEAD_SIZE data;
    head ← PayloadHead.deserialize first;
    if negb (bool_decide (PayloadHead.flag head = (at_ PACKET_FLAG 0, at_ PACKET_FLAG 1)))
    then Err (mkError InvalidData
      (lit "PACKET_FLAG incorrect: expected " ++ fmt_u8_list PACKET_FLAG ++ lit ", got " ++
       fmt_u8_list [(PayloadHead.flag head).1; (PayloadHead.flag head).2]))
    else Ok head.

Definition unpack_payload_protect (data : bytes) : Result PayloadProtect.t :=
  PayloadProtect.deserialize data.

Definition unpack_task_message (data : bytes) : Result TaskMessage :=
  if len data <? HEAD_SIZE then err InvalidData "data too short for head"
  else
    first ← slice 0 HEAD_SIZE data;
    head ← unpack_payload_head first;
    let expected_head_size := PayloadHead.head_size head in
    let expected_data_size := PayloadHead.data_size head in
    if (expected_head_size + expected_data_size =? 0) ||
       (HDC_BUF_MAX_SIZE <? expected_head_size + expected_data_size)
    then err InvalidData "Packet size incorrect"
    else if len data <? HEAD_SIZE + expected_head_size + expected_data_size
    then err InvalidData "incomplete packet"
    else
      protect_data ← slice HEAD_SIZE (HEAD_SIZE + expected_head_size) data;
      payload_data ← slice (HEAD_SIZE + expected_head_size)
                       (HEAD_SIZE + expected_head_size + expected_data_size) data;
      payload_protect ← unpack_payload_protect protect_data;
      if negb (PayloadProtect.v_code payload_protect =? PAYLOAD_VCODE)
      then err InvalidData "Session recv static vcode failed"
      else
        match HdcCommand_try_from (PayloadProtect.command_flag payload_protect) with
        | None => err InvalidData "unknown command"
        | Some command =>
            Ok (mkTaskMessage (PayloadProtect.channel_id payload_protect) command payload_data)
        end.

(** ** Facts about the fixed-size heads *)

Ltac be_fields :=
  repeat match goal with
  | |- context [from_be_bytes ?l] =>
      lazymatch l with
      | [Z.land (Z.shiftr ?v 8) 255; Z.land ?v 255] =>
          change l with (to_be_bytes 2 v); rewrite (from_to_be_bytes_id 2 v) by done
      | [_; _; _; Z.land ?v 255] =>
          change l with (to_be_bytes 4 v); rewrite (from_to_be_bytes_id 4 v) by done
      end
  end.

(** Serialised heads have their size. *)
Lemma len_PayloadHead h : len (PayloadHead.serialize h) = 11.
Proof. done. Qed.
Lemma len_UsbHead h : len (UsbHead.serialize h) = 11.
Proof. done. Qed.
Lemma len_UartHead h : len (UartHead.serialize h) = 24.
Proof. done. Qed.
#[export] Hint Rewrite len_PayloadHead len_UsbHead len_UartHead : hdc.

Lemma PayloadHead_read h rest :
  PayloadHead.wf h -> PayloadHead.deserialize (PayloadHead.serialize h ++ rest) = Ok h.
Proof.
  intros Hwf. unfold PayloadHead.deserialize. rewrite long_enough by done.
  destruct h as [[f1 f2] [r1 r2] pv hs ds], Hwf as (?&?&?&?&?&?&?).
  unfold at_; simpl in *. be_fields. done.
Qed.
Lemma UsbHead_read h rest :
  UsbHead.wf h -> UsbHead.deserialize (UsbHead.serialize h ++ rest) = Ok h.
Proof.
  intros Hwf. unfold UsbHead.deserialize. rewrite long_enough by done.
  destruct h as [[f1 f2] op sid ds], Hwf as (?&?&?&?&?).
  unfold at_; simpl in *. be_fields. done.
Qed.
Lemma UartHead_read h rest :
  UartHead.wf h -> UartHead.deserialize (UartHead.serialize h ++ rest) = Ok h.
Proof.
  intros Hwf. unfold UartHead.deserialize. rewrite long_enough by done.
  destruct h as [[f1 f2] op sid ds pi dc hc], Hwf as (?&?&?&?&?&?&?&?).
  unfold at_; simpl in *. be_fields. done.
Qed.

(** The first [n] bytes of an input that has them, one by one. *)
Lemma bytes_split11 (bs : bytes) : 11 <= len bs ->
  exists b0 b1 b2 b3 b4 b5 b6 b7 b8 b9 b10 t,
    bs = b0 :: b1 :: b2 :: b3 :: b4 :: b5 :: b6 :: b7 :: b8 :: b9 :: b10 :: t.
Proof.
  unfold len. intros H.
  do 11 (destruct bs as [|? bs]; [simpl in H; lia|]). repeat eexists.
Qed.

Lemma PayloadHead_deserialize_wf bs h :
  bytes_ok bs -> PayloadHead.deserialize bs = Ok h -> PayloadHead.wf h.
Proof.
  unfold PayloadHead.deserialize. intros Hok H. case_if; [done|].
  destruct (bytes_split11 bs ltac:(lia)) as (b0&b1&b2&b3&b4&b5&b6&b7&b8&b9&b10&t&->).
  unfold at_ in H; simpl in H. simplify_eq.
  repeat (apply bytes_ok_cons in Hok as [? Hok]).
  unfold PayloadHead.wf; cbn [PayloadHead.flag PayloadHead.reserve PayloadHead.protocol_ver
    PayloadHead.head_size PayloadHead.data_size fst snd].
  split_and!; try done.
  - apply (from_be_bytes_range [b5; b6]). repeat constructor; ulia.
  - apply (from_be_bytes_range [b7; b8; b9; b10]). repeat constructor; ulia.
Qed.

(** ** Every input is read without a panic *)

Lemma SessionHandShake_total bs :
  SessionHandShake.deserialize bs <> Panic /\
  forall r, SessionHandShake.deserialize bs = Ok r -> SessionHandShake.wf r.
Proof.
  split; [apply (tlv_run_no_panic _); lia|]. intros r.
  apply (tlv_run_invariant _); [intros *; apply SessionHandShake.handshake_step_wf|lia|by vm_compute].
Qed.
Lemma PayloadProtect_total bs :
  PayloadProtect.deserialize bs <> Panic /\
  forall r, PayloadProtect.deserialize bs = Ok r -> PayloadProtect.wf r.
Proof.
  split; [apply (tlv_run_no_panic _); lia|]. intros r.
  apply (tlv_run_invariant _); [intros *; apply PayloadProtect.protect_step_wf|lia|by vm_compute].
Qed.
Lemma TransferConfig_total bs :
  TransferConfig.deserialize bs <> Panic /\
  forall r, TransferConfig.deserialize bs = Ok r -> TransferConfig.wf r.
Proof.
  split; [apply (tlv_run_no_panic _); lia|]. intros r.
  apply (tlv_run_invariant _); [intros *; apply TransferConfig.config_step_wf|lia|by vm_compute].
Qed.
Lemma FileMode_total bs :
  FileMode.deserialize bs <> Panic /\
  forall r, FileMode.deserialize bs = Ok r -> FileMode.wf r.
Proof.
  split; [apply (tlv_run_no_panic _); lia|]. intros r.
  apply (tlv_run_invariant _); [intros *; apply FileMode.filemode_step_wf|lia|by vm_compute].
Qed.
Lemma TransferPayload_total bs :
  TransferPayload.deserialize bs <> Panic /\
  forall r, TransferPayload.deserialize bs = Ok r -> TransferPayload.wf r.
Proof.
  split; [apply (tlv_run_no_panic _); lia|]. intros r.
  apply (tlv_run_invariant _); [intros *; apply TransferPayload.tpayload_step_wf|lia|by vm_compute].
Qed.

(** ** Facts about packets *)

Lemma protect_of_wf m : msg_wf m -> PayloadProtect.wf (protect_of m) /\ PayloadProtect.raw_ok (protect_of m).
Proof.
  intros [Hc _]. pose proof (as_u32_range (command m)).
  cbv [PayloadProtect.wf PayloadProtect.raw_ok protect_of ENABLE_IO_CHECK PAYLOAD_VCODE
       PayloadProtect.channel_id PayloadProtect.command_flag PayloadProtect.check_sum
       PayloadProtect.v_code]. split_and!; done || ulia.
Qed.

(** The protected header is at most five bytes of channel, five of command and
    the version code, each behind its tag. *)
Lemma len_write_varint f v : len (write_varint_loop f v) <= Z.of_nat f.
Proof.
  revert v; induction f as [|f IH]; intros v; simpl; [done|].
  case_if; rewrite len_cons; [rewrite len_nil; lia|]. specialize (IH (Z.shiftr v 7)). lia.
Qed.
Lemma len_write_u32_field fn v : len (write_u32_field fn v) <= 10.
Proof.
  unfold write_u32_field. case_if; [done|]. rewrite len_app.
  pose proof (len_write_varint 5 v). pose proof (len_write_varint 5 (make_tag fn WIRE_VARINT)).
  unfold write_tag, write_varint_u32. lia.
Qed.
Lemma len_write_string_field fn v : len (write_string_field fn v) <= len v + 10.
Proof.
  unfold write_string_field, write_tag, write_varint_u32. destruct v as [|b v]; [rewrite len_nil; lia|].
  rewrite !len_app. pose proof (len_write_varint 5 (make_tag fn WIRE_LENGTH_DELIMITED)).
  pose proof (len_write_varint 5 (wrap 32 (len (b :: v)))). lia.
Qed.
Lemma write_string_field_ok fn v : bytes_ok v -> bytes_ok (write_string_field fn v).
Proof.
  intros Hv. unfold write_string_field. destruct v as [|b v]; [constructor|]. rewrite !bytes_ok_app. split_and!; [|by apply write_varint_u32_ok, wrap_range|done].
  apply write_tag_ok. by vm_compute.
Qed.
Lemma len_protect m :
  2 <= len (PayloadProtect.serialize (protect_of m)) <= 22.
Proof.
  unfold PayloadProtect.serialize, protect_of, PAYLOAD_VCODE.
  cbv [ENABLE_IO_CHECK PayloadProtect.channel_id PayloadProtect.command_flag
       PayloadProtect.check_sum PayloadProtect.v_code].
  change (write_raw_u8_field 3 0) with (@nil Z).
  change (write_raw_u8_field 4 9) with ([32; 9]).
  rewrite app_nil_l, 2!len_app. change (len [32; 9]) with 2.
  pose proof (len_write_u32_field 1 (channel_id m)).
  pose proof (len_write_u32_field 2 (as_u32 (command m))).
  pose proof (len_nonneg (write_u32_field 1 (channel_id m))).
  pose proof (len_nonneg (write_u32_field 2 (as_u32 (command m)))).
  destruct (negb (channel_id m =? 0)), (negb (as_u32 (command m) =? 0)); rewrite ?len_nil; lia.
Qed.

Lemma unpack_payload_head_at h rest :
  PayloadHead.wf h -> PayloadHead.flag h = (at_ PACKET_FLAG 0, at_ PACKET_FLAG 1) ->
  unpack_payload_head (PayloadHead.serialize h ++ rest) = Ok h.
Proof.
  intros Hwf Hf. unfold unpack_payload_head. change HEAD_SIZE with (len (PayloadHead.serialize h)).
  rewrite (proj2 (Z.ltb_ge _ _)) by (rewrite len_app; pose proof (len_nonneg rest); lia).
  pose proof (PayloadHead_read h [] Hwf) as E. rewrite app_nil_r in E.
  rewrite slice_prefix, bind_Ok, E by done.
  rewrite bind_Ok, bool_decide_eq_true_2 by done. done.
Qed.

(** The header and the payload of the message are within the buffer limit. *)
Definition packet_fits (m : TaskMessage) : bool :=
  len (PayloadProtect.serialize (protect_of m)) + len (payload m) <=? HDC_BUF_MAX_SIZE.
Lemma packet_fits_small m : len (payload m) <= HDC_BUF_MAX_SIZE - 22 -> packet_fits m = true.
Proof. intros. pose proof (len_protect m). apply Z.leb_le. lia. Qed.

(** The head [concat_pack] writes, with its two sizes. *)
Lemma head_of_spec m protect :
  2 <= len protect <= 22 -> u32 (len (payload m)) ->
  PayloadHead.wf (head_of m protect) /\
  PayloadHead.head_size (head_of m protect) = len protect /\
  PayloadHead.data_size (head_of m protect) = len (payload m).
Proof.
  intros Hp Hl. split; [|split; apply wrap_small; ulia].
  cbv [PayloadHead.wf head_of PayloadHead.flag PayloadHead.reserve
      PayloadHead.protocol_ver PayloadHead.head_size PayloadHead.data_size fst snd].
  split_and!; auto with hdc; by vm_compute.
Qed.

(** A packet is a byte string. *)
Lemma PayloadHead_bytes h : PayloadHead.wf h -> bytes_ok (PayloadHead.serialize h).
Proof.
  intros (?&?&?&?&?&_&_). unfold PayloadHead.serialize.
  rewrite !bytes_ok_app, !bytes_ok_cons. split_and!; auto with hdc.
Qed.
Lemma PayloadProtect_bytes p : PayloadProtect.wf p -> bytes_ok (PayloadProtect.serialize p).
Proof.
  intros (Hc&Hf&Hs&Hv). unfold PayloadProtect.serialize.
  repeat (apply bytes_ok_app; split); try (case_if; [|constructor]);
    auto using write_u32_field_ok, write_raw_u8_field_ok; apply write_u32_field_ok; ulia.
Qed.
Lemma concat_pack_ok m : msg_wf m -> u32 (len (payload m)) -> bytes_ok (concat_pack m).
Proof.
  intros Hwf Hl. unfold concat_pack. rewrite !bytes_ok_app. split_and!; [| |apply Hwf].
  - apply PayloadHead_bytes, head_of_spec; [apply len_protect|done].
  - apply PayloadProtect_bytes, protect_of_wf, Hwf.
Qed.
Lemma len_concat_pack m : 13 <= len (concat_pack m) <= 33 + len (payload m).
Proof.
  unfold concat_pack. rewrite !len_app, len_PayloadHead. pose proof (len_protect m).
  pose proof (len_nonneg (payload m)). lia.
Qed.

(** A received frame whose header is the one [concat_pack] wrote, with any
    bytes behind it. *)
Lemma unpack_concat_pack m rest :
  msg_wf m -> u32 (len (payload m)) ->
  unpack_task_message (concat_pack m ++ rest) =
  if packet_fits m then Ok m else err InvalidData "Packet size incorrect".
Proof.
  intros Hwf Hlen. destruct (protect_of_wf m Hwf) as [Hp Hr].
  pose proof (len_protect m) as Hpl. pose proof (len_nonneg (payload m)).
  unfold concat_pack, packet_fits. set (protect := PayloadProtect.serialize (protect_of m)) in *.
  destruct (head_of_spec m protect Hpl Hlen) as (Hh & Hhs & Hds).
  set (h := head_of m protect) in *.
  unfold unpack_task_message. rewrite <- !app_assoc.
  rewrite (long_enough (PayloadHead.serialize h)) by done.
  rewrite (slice_prefix (PayloadHead.serialize h)), bind_Ok by done.
  pose proof (unpack_payload_head_at h [] Hh eq_refl) as E. rewrite app_nil_r in E.
  rewrite E, bind_Ok, Hhs, Hds. clear E.
  rewrite (proj2 (Z.eqb_neq _ _)) by lia. cbn [orb]. rewrite Z.ltb_antisym.
  destruct (_ <=? HDC_BUF_MAX_SIZE); [cbn [negb]|done].
  rewrite (proj2 (Z.ltb_ge _ _)).
  2:{ rewrite !len_app, len_PayloadHead. pose proof (len_nonneg rest). unfold HEAD_SIZE. lia. }
  rewrite (slice_middle (PayloadHead.serialize h) protect _ HEAD_SIZE)
    by (rewrite len_PayloadHead; unfold HEAD_SIZE; lia).
  rewrite bind_Ok, (app_assoc (PayloadHead.serialize h) protect).
  rewrite (slice_middle (PayloadHead.serialize h ++ protect) (payload m) rest)
    by (rewrite len_app, len_PayloadHead; unfold HEAD_SIZE; lia).
  rewrite bind_Ok. unfold unpack_payload_protect, PayloadProtect.deserialize, protect.
  rewrite (consumes_run _ _ _ _ (PayloadProtect.protect_consumes _ Hp Hr)), bind_Ok.
  cbv [protect_of PayloadProtect.v_code PayloadProtect.command_flag PayloadProtect.channel_id].
  rewrite Z.eqb_refl, try_from_as_u32. by destruct m.
Qed.

(** What the head check accepts. *)
Lemma unpack_payload_head_ok bs h :
  bytes_ok bs -> unpack_payload_head bs = Ok h ->
  HEAD_SIZE <= len bs /\ take 2 bs = PACKET_FLAG /\ PayloadHead.wf h /\
  PayloadHead.head_size h = from_be_bytes (slice_raw 5 7 bs) /\
  PayloadHead.data_size h = from_be_bytes (slice_raw 7 11 bs).
Proof.
  intros Hok H. unfold unpack_payload_head, HEAD_SIZE in *. case_if; [done|].
  rewrite slice_no_panic, bind_Ok in H by lia.
  destruct (bytes_split11 bs ltac:(lia)) as (b0&b1&b2&b3&b4&b5&b6&b7&b8&b9&b10&t&->).
  apply bind_Ok_inv in H as (h' & E & H). case_if; [done|]. simplify_eq.
  assert (PayloadHead.wf h) by (eapply PayloadHead_deserialize_wf; [|exact E]; auto with hdc).
  revert E. unfold PayloadHead.deserialize. case_if; [done|].
  unfold at_, slice_raw; simpl. intros [= <-].
  apply negb_false_iff, bool_decide_eq_true in Heqb0. simpl in Heqb0. simplify_eq.
  split_and!; done.
Qed.

(** What a receiver knows of a packet it accepted. *)
Lemma unpack_task_message_ok bs m :
  bytes_ok bs -> unpack_task_message bs = Ok m ->
  let hs := from_be_bytes (slice_raw 5 7 bs) in
  let ds := from_be_bytes (slice_raw 7 11 bs) in
  take 2 bs = PACKET_FLAG /\ 0 < hs + ds <= HDC_BUF_MAX_SIZE /\ 11 + hs + ds <= len bs /\
  msg_wf m /\ payload m = slice_raw (11 + hs) (11 + hs + ds) bs /\
  exists p, PayloadProtect.deserialize (slice_raw 11 (11 + hs) bs) = Ok p /\
  PayloadProtect.v_code p = PAYLOAD_VCODE /\
  PayloadProtect.channel_id p = channel_id m /\
  PayloadProtect.command_flag p = as_u32 (command m).
Proof.
  intros Hok H. unfold unpack_task_message, HEAD_SIZE in H. case_if; [done|].
  rewrite slice_no_panic, bind_Ok in H by lia.
  apply bind_Ok_inv in H as (h & Eh & H).
  apply unpack_payload_head_ok in Eh as (_ & Hf & Hwf & Ehs & Eds); [|auto with hdc].
  assert (Hcut : slice_raw 5 7 (slice_raw 0 11 bs) = slice_raw 5 7 bs /\
    slice_raw 7 11 (slice_raw 0 11 bs) = slice_raw 7 11 bs /\ take 2 (slice_raw 0 11 bs) = take 2 bs).
  { destruct (bytes_split11 bs ltac:(lia)) as (b0&b1&b2&b3&b4&b5&b6&b7&b8&b9&b10&t&->). done. }
  destruct Hcut as (E1 & E2 & E3). rewrite E1 in Ehs. rewrite E2 in Eds. rewrite E3 in Hf.
  rewrite <- Ehs, <- Eds. destruct Hwf as (_&_&_&_&_&Hhs&Hds).
  set (hs := PayloadHead.head_size h) in *. set (ds := PayloadHead.data_size h) in *.
  case_if; [done|]. case_if; [done|].
  apply orb_false_iff in Heqb0 as [Hz Hmax]. bool_cases.
  rewrite !slice_no_panic, !bind_Ok in H by ulia.
  apply bind_Ok_inv in H as (p & Ep & H). case_if; [done|].
  apply negb_false_iff in Heqb0. bool_cases.
  destruct (HdcCommand_try_from _) as [c|] eqn:Ec; [|done]. injection H as <-.
  apply try_from_spec in Ec.
  destruct (PayloadProtect_total (slice_raw 11 (11 + hs) bs)) as [_ Hpw].
  destruct (Hpw p Ep) as [Hc _].
  split_and!; try done; try ulia.
  - split; [done|]. simpl. auto with hdc.
  - exists p. split_and!; done.
Qed.

Lemma unpack_payload_head_no_panic bs : unpack_payload_head bs <> Panic.
Proof.
  unfold unpack_payload_head, HEAD_SIZE. case_if; [done|].
  rewrite slice_no_panic, bind_Ok by lia. unfold PayloadHead.deserialize.
  case_if; [done|]. rewrite bind_Ok. by case_if.
Qed.
Lemma unpack_task_message_no_panic bs : bytes_ok bs -> unpack_task_message bs <> Panic.
Proof.
  intros Hok. unfold unpack_task_message, HEAD_SIZE. case_if; [done|].
  rewrite slice_no_panic, bind_Ok by lia. apply bind_no_panic; [apply unpack_payload_head_no_panic|].
  intros h Eh. apply unpack_payload_head_ok in Eh as (_ & _ & Hwf & _); [|auto with hdc].
  destruct Hwf as (_&_&_&_&_&Hhs&Hds). repeat (case_if; [done|]).
  rewrite !slice_no_panic, !bind_Ok by ulia.
  apply bind_no_panic; [apply PayloadProtect_total|]. intros p _.
  case_if; [done|]. by case_match.
Qed.

(** ** The round-trip law of each serialised type *)

#[export] Instance SessionHandShake_roundtrip :
  RoundTrip SessionHandShake.t (fun r => SessionHandShake.wf r /\ SessionHandShake.raw_ok r).
Proof. intros r [Hw Hr]. exact (consumes_run _ _ _ _ (SessionHandShake.handshake_consumes r Hw Hr)). Qed.
#[export] Instance PayloadProtect_roundtrip :
  RoundTrip PayloadProtect.t (fun r => PayloadProtect.wf r /\ PayloadProtect.raw_ok r).
Proof. intros r [Hw Hr]. exact (consumes_run _ _ _ _ (PayloadProtect.protect_consumes r Hw Hr)). Qed.
#[export] Instance TransferConfig_roundtrip :
  RoundTrip TransferConfig.t (fun r => TransferConfig.wf r /\ TransferConfig.raw_ok r).
Proof. intros r [Hw Hr]. exact (consumes_run _ _ _ _ (TransferConfig.config_consumes r Hw Hr)). Qed.
#[export] Instance FileMode_roundtrip : RoundTrip FileMode.t FileMode.wf.
Proof. intros r Hw. exact (consumes_run _ _ _ _ (FileMode.filemode_consumes r Hw)). Qed.
#[export] Instance TransferPayload_roundtrip :
  RoundTrip TransferPayload.t (fun r => TransferPayload.wf r /\ TransferPayload.raw_ok r).
Proof. intros r [Hw Hr]. exact (consumes_run _ _ _ _ (TransferPayload.tpayload_consumes r Hw Hr)). Qed.
#[export] Instance PayloadHead_roundtrip : RoundTrip PayloadHead.t PayloadHead.wf.
Proof. intros h Hw. rewrite <- (PayloadHead_read h [] Hw), app_nil_r. done. Qed.
#[export] Instance UsbHead_roundtrip : RoundTrip UsbHead.t UsbHead.wf.
Proof. intros h Hw. rewrite <- (UsbHead_read h [] Hw), app_nil_r. done. Qed.
#[export] Instance UartHead_roundtrip : RoundTrip UartHead.t UartHead.wf.
Proof. intros h Hw. rewrite <- (UartHead_read h [] Hw), app_nil_r. done. Qed.

(** ** Fields a version does not know *)

(** A field number outside the ones a structure reads, behind or in front of
    the fields of a value. *)
Lemma unknown_field_around {A} (step : field_step A) {HS : StepOk step} max (enc : bytes) (a d : A) fn wt body :
  (forall n w bs o r, max < n -> step n w bs o r = (o ← skip_field w bs o; Ok (r, o))) ->
  consumes step enc d a -> 0 <= max -> max < fn < 2 ^ 29 -> wire_body wt body ->
  consumes step (write_tag fn wt ++ body ++ enc) d a /\
  consumes step (enc ++ write_tag fn wt ++ body) d a.
Proof.
  intros Hskip He Hm Hfn Hb.
  assert (Hu : forall r, consumes step (write_tag fn wt ++ body) r r).
  { intros r. apply (consumes_unknown step); [lia|done|]. intros. apply Hskip. lia. }
  split; [rewrite app_assoc|]; by eapply consumes_app.
Qed.

(** The arm of the unknown field numbers, which [13] bounds in every structure. *)
Ltac skip_arm :=
  let n := fresh "n" in intros n ? ? ? ? ?;
  destruct n as [|p|p]; [lia| |lia];
  do 4 (destruct p as [p|p|]; try lia; try done).

(** ** Properties *)

(** Packet round trip.  The bytes [concat_pack] puts on the wire, with any
    bytes received behind them, are unpacked to the same channel, command and
    payload; a message whose header and payload together exceed the buffer
    limit is refused with an error on the receiving side, never misread. *)
Theorem packet_roundtrip m rest :
  msg_wf m -> u32 (len (payload m)) ->
  unpack_task_message (concat_pack m ++ rest) =
  if packet_fits m
  then Ok m else err InvalidData "Packet size incorrect".
Proof. apply unpack_concat_pack. Qed.

(** C32: round trip of every serialised structure: the three fixed heads and the
    five TLV structures are read back from the bytes [serialize] writes, for all
    values of the type (the raw one-byte fields below 128). *)
Theorem structures_roundtrip :
  RoundTrip PayloadHead.t PayloadHead.wf /\ RoundTrip UsbHead.t UsbHead.wf /\
  RoundTrip UartHead.t UartHead.wf /\
  RoundTrip SessionHandShake.t (fun r => SessionHandShake.wf r /\ SessionHandShake.raw_ok r) /\
  RoundTrip PayloadProtect.t (fun r => PayloadProtect.wf r /\ PayloadProtect.raw_ok r) /\
  RoundTrip TransferConfig.t (fun r => TransferConfig.wf r /\ TransferConfig.raw_ok r) /\
  RoundTrip FileMode.t FileMode.wf /\
  RoundTrip TransferPayload.t (fun r => TransferPayload.wf r /\ TransferPayload.raw_ok r).
Proof. split_and!; apply _. Qed.

(** Soundness of unpacking.  A received buffer is accepted only with the
    two-byte packet flag, header and payload sizes that are in range and
    present, the version code and a known command; the message has exactly the
    payload bytes the head delimits. *)
Theorem unpack_sound bs m :
  bytes_ok bs -> unpack_task_message bs = Ok m ->
  let hs := from_be_bytes (slice_raw 5 7 bs) in
  let ds := from_be_bytes (slice_raw 7 11 bs) in
  take 2 bs = PACKET_FLAG /\ 0 < hs + ds <= HDC_BUF_MAX_SIZE /\ 11 + hs + ds <= len bs /\
  msg_wf m /\ payload m = slice_raw (11 + hs) (11 + hs + ds) bs /\
  exists p, PayloadProtect.deserialize (slice_raw 11 (11 + hs) bs) = Ok p /\
    PayloadProtect.v_code p = PAYLOAD_VCODE /\
    PayloadProtect.channel_id p = channel_id m /\
    PayloadProtect.command_flag p = as_u32 (command m).
Proof. apply unpack_task_message_ok. Qed.

(** A message of a unit test: an echo on channel 7. *)
Definition sample_msg : TaskMessage := mkTaskMessage 7 KernelEcho (lit "hello").

Lemma packet_roundtrip_witness :
  unpack_task_message (concat_pack sample_msg ++ [1; 2; 3]) = Ok sample_msg.
Proof. rewrite (packet_roundtrip sample_msg [1; 2; 3]); [reflexivity| |]; vm_compute; repeat constructor; discriminate. Defined.

Lemma unpack_sound_witness : take 2 (concat_pack sample_msg) = PACKET_FLAG.
Proof.
  refine (proj1 (unpack_sound (concat_pack sample_msg) sample_msg _ _)).
  - apply (bool_decide_unpack _). vm_compute. exact I.
  - vm_compute. reflexivity.
Defined.

(** C33: no received bytes make the unpacking code panic: not the packet, not
    any TLV structure (truncated varints and strings, wrong wire types, lengths
    that run past the end included), and every value it returns is a value of
    its type. *)
Theorem deserialize_total bs :
  bytes_ok bs -> unpack_task_message bs <> Panic /\
  (SessionHandShake.deserialize bs <> Panic /\
    forall r, SessionHandShake.deserialize bs = Ok r -> SessionHandShake.wf r) /\
  (PayloadProtect.deserialize bs <> Panic /\
    forall r, PayloadProtect.deserialize bs = Ok r -> PayloadProtect.wf r) /\
  (TransferConfig.deserialize bs <> Panic /\
    forall r, TransferConfig.deserialize bs = Ok r -> TransferConfig.wf r) /\
  (FileMode.deserialize bs <> Panic /\
    forall r, FileMode.deserialize bs = Ok r -> FileMode.wf r) /\
  (TransferPayload.deserialize bs <> Panic /\
    forall r, TransferPayload.deserialize bs = Ok r -> TransferPayload.wf r).
Proof.
  intros Hok. split; [by apply unpack_task_message_no_panic|].
  split_and!; apply SessionHandShake_total || apply PayloadProtect_total ||
    apply TransferConfig_total || apply FileMode_total || apply TransferPayload_total.
Qed.

Lemma deserialize_total_witness : unpack_task_message (lit "HW0123456789") <> Panic.
Proof.
  refine (proj1 (deserialize_total (lit "HW0123456789") _)).
  apply (bool_decide_unpack _). vm_compute. exact I.
Defined.

(** Forward compatibility.  A field number a structure does not know, of
    any of the four wire types, in front of or behind the known fields, is
    skipped and changes nothing. *)
Theorem unknown_fields_skipped fn wt body :
  13 < fn < 2 ^ 29 -> wire_body wt body ->
  (forall r, SessionHandShake.wf r -> SessionHandShake.raw_ok r ->
    SessionHandShake.deserialize (write_tag fn wt ++ body ++ SessionHandShake.serialize r) = Ok r /\
    SessionHandShake.deserialize (SessionHandShake.serialize r ++ write_tag fn wt ++ body) = Ok r) /\
  (forall r, PayloadProtect.wf r -> PayloadProtect.raw_ok r ->
    PayloadProtect.deserialize (write_tag fn wt ++ body ++ PayloadProtect.serialize r) = Ok r /\
    PayloadProtect.deserialize (PayloadProtect.serialize r ++ write_tag fn wt ++ body) = Ok r) /\
  (forall r, TransferConfig.wf r -> TransferConfig.raw_ok r ->
    TransferConfig.deserialize (write_tag fn wt ++ body ++ TransferConfig.serialize r) = Ok r /\
    TransferConfig.deserialize (TransferConfig.serialize r ++ write_tag fn wt ++ body) = Ok r).
Proof.
  intros Hfn Hb. split_and!; intros r Hw Hr;
    split; apply (consumes_run _);
    (eapply (unknown_field_around _ 13); [skip_arm| |lia|done|done]);
    auto using SessionHandShake.handshake_consumes, PayloadProtect.protect_consumes,
      TransferConfig.config_consumes.
Qed.
Lemma unknown_fields_skipped_witness :
  PayloadProtect.deserialize
    (write_tag 20 WIRE_FIXED32 ++ [1; 2; 3; 4] ++ PayloadProtect.serialize (PayloadProtect.mk 1 2 0 9)) =
  Ok (PayloadProtect.mk 1 2 0 9).
Proof.
  refine (proj1 (proj1 (proj2 (unknown_fields_skipped 20 WIRE_FIXED32 [1; 2; 3; 4] _ _))
    (PayloadProtect.mk 1 2 0 9) _ _)).
  - lia.
  - apply body_fixed32. reflexivity.
  - vm_compute. intuition discriminate.
  - vm_compute. intuition.
Defined.

(** A [u8] field is written as one raw byte but read as a varint, so a
    value from 128 on does not survive: the handshake with such an [auth_type]
    as its last field is refused as a truncated varint. *)
Theorem raw_u8_high_not_read r :
  128 <= SessionHandShake.auth_type r < 256 ->
  SessionHandShake.banner r = [] -> SessionHandShake.session_id r = 0 ->
  SessionHandShake.connect_key r = [] -> SessionHandShake.buf r = [] ->
  SessionHandShake.version r = [] ->
  SessionHandShake.deserialize (SessionHandShake.serialize r) = err InvalidData "truncated varint".
Proof.
  destruct r as [b a sid ck bf v]. cbn [SessionHandShake.banner SessionHandShake.auth_type
    SessionHandShake.session_id SessionHandShake.connect_key SessionHandShake.buf
    SessionHandShake.version]. intros Ha -> -> -> -> ->.
  change (SessionHandShake.serialize _) with [16; a].
  unfold SessionHandShake.deserialize. rewrite (tlv_run_unfold SessionHandShake.step) by lia.
  assert (E : Z.land a 128 = 128).
  { replace a with (a - 128 + 128) by lia. apply land_128_high. lia. }
  change (0 <? len [16; a]) with true.
  change (read_varint_u32 [16; a] 0) with (@Ok (Z * Z) (16, 1)). cbv iota. rewrite bind_Ok.
  change (read_tag_wire_type 16) with (2, 0). cbn [fst snd].
  unfold SessionHandShake.step, read_u8_field. cbn [negb Z.eqb WIRE_VARINT].
  unfold read_varint_u32. change (rest_from 1 [16; a]) with [a]. cbn [read_varint_loop].
  by rewrite E.
Qed.
Lemma raw_u8_high_not_read_witness :
  SessionHandShake.deserialize (SessionHandShake.serialize (SessionHandShake.mk [] 200 0 [] [] [])) =
  err InvalidData "truncated varint".
Proof. apply raw_u8_high_not_read; done || lia. Defined.
