(* ===== verification/Encrypt.v ===== *)
(** * The pre-shared-key cipher of the TCP channel

    [src/crates/hdc-protocol/src/encrypt.rs].  AES-128-GCM is the crate
    [aes-gcm], whose code is not part of the repository: it is the interface
    [Aead], with the laws its documentation states as [AeadLaws]. *)

From S2P Require Import Prelude RustStr.

(** What [encrypt.rs] calls of [aes-gcm]: [Aes128Gcm::new_from_slice], and
    [encrypt] and [decrypt] with a nonce; [None] is an [Err]. *)
Class Aead := {
  Aes128Gcm : Type;
  new_from_slice : bytes -> option Aes128Gcm;
  aead_encrypt : Aes128Gcm -> bytes -> bytes -> option bytes;
  aead_decrypt : Aes128Gcm -> bytes -> bytes -> option bytes;
  (** the [{e:?}] texts of the two error types *)
  invalid_length_text : bytes;
  aead_error_text : bytes
}.
Class AeadLaws (HA : Aead) := {
  (** a 16-byte key is accepted *)
  new_from_slice_16 : forall k, len k = 16 -> exists c, new_from_slice k = Some c;
  (** decryption with the same key and nonce inverts encryption *)
  aead_decrypt_encrypt : forall c n p ct,
    aead_encrypt c n p = Some ct -> aead_decrypt c n ct = Some p;
  (** the ciphertext is the plaintext's length and the 16-byte tag *)
  aead_encrypt_len : forall c n p ct, aead_encrypt c n p = Some ct -> len ct = len p + 16;
  aead_encrypt_bytes : forall c n p ct, aead_encrypt c n p = Some ct -> bytes_ok ct;
  (** a plaintext is a vector of bytes *)
  aead_decrypt_bytes : forall c n ct p, aead_decrypt c n ct = Some p -> bytes_ok p;
  (** a plaintext within the limit of the mode is encrypted *)
  aead_encrypt_small : forall c n p, len p <= 2 ^ 32 -> bytes_ok p ->
    exists ct, aead_encrypt c n p = Some ct
}.

Definition KEY_LEN : Z := 16.
Definition NONCE_LEN : Z := 12.
Definition TAG_LEN : Z := 16.

Record PskCipher := mkPskCipher {
  send_key : bytes; recv_key : bytes; send_counter : Z; recv_counter : Z
}.

(** [PskCipher::new], on a [psk] of 32 bytes. *)
Definition PskCipher_new (psk : bytes) (is_host : bool) : PskCipher :=
  if is_host
  then mkPskCipher (slice_raw 0 KEY_LEN psk) (slice_raw KEY_LEN (KEY_LEN * 2) psk) 0 0
  else mkPskCipher (slice_raw KEY_LEN (KEY_LEN * 2) psk) (slice_raw 0 KEY_LEN psk) 0 0.

(** [nonce[4..12].copy_from_slice(&counter.to_be_bytes())] on twelve zeros. *)
Definition counter_to_nonce (counter : Z) : bytes := [0; 0; 0; 0] ++ to_be_bytes 8 counter.

Section Psk.
Context {HA : Aead}.

Definition encrypt (plaintext : bytes) : M PskCipher bytes := fun self =>
  match new_from_slice (send_key self) with
  | None => (Err (mkError OtherError (lit "AES key init: " ++ invalid_length_text)), self)
  | Some cipher =>
      match aead_encrypt cipher (counter_to_nonce (send_counter self)) plaintext with
      | None => (Err (mkError OtherError (lit "AES-GCM encrypt: " ++ aead_error_text)), self)
      | Some ciphertext =>
          (Ok (to_be_bytes 8 (send_counter self) ++ ciphertext),
           mkPskCipher (send_key self) (recv_key self) (wrap 64 (send_counter self + 1))
             (recv_counter self))
      end
  end.

Definition decrypt (data : bytes) : M PskCipher bytes := fun self =>
  if len data <? 8 + TAG_LEN then (err InvalidData "encrypted frame too short", self)
  else
    let counter := from_be_bytes (slice_raw 0 8 data) in
    match new_from_slice (recv_key self) with
    | None => (Err (mkError OtherError (lit "AES key init: " ++ invalid_length_text)), self)
    | Some cipher =>
        match aead_decrypt cipher (counter_to_nonce counter) (drop 8 data) with
        | None => (Err (mkError InvalidData (lit "AES-GCM decrypt: " ++ aead_error_text)), self)
        | Some plaintext =>
            (Ok plaintext,
             mkPskCipher (send_key self) (recv_key self) (send_counter self)
               (wrap 64 (counter + 1)))
        end
    end.

(** The frames of a sequence of messages, encrypted one after the other. *)
Fixpoint encrypt_all (ps : list bytes) : M PskCipher (list bytes) :=
  match ps with
  | [] => mret []
  | p :: t => f ← encrypt p; fs ← encrypt_all t; mret (f :: fs)
  end.
(** Frames decrypted one after the other, in the order they arrive. *)
Fixpoint decrypt_all (fs : list bytes) : M PskCipher (list bytes) :=
  match fs with
  | [] => mret []
  | f :: t => p ← decrypt f; ps ← decrypt_all t; mret (p :: ps)
  end.

Context {HL : AeadLaws HA}.

(** The two ciphers of one direction: keys of their size, the receiver's key
    is the sender's. *)
Definition paired (s r : PskCipher) : Prop := recv_key r = send_key s /\ len (send_key s) = 16.

Lemma paired_new psk is_host :
  len psk = 32 -> paired (PskCipher_new psk is_host) (PskCipher_new psk (negb is_host)).
Proof.
  intros Hl. destruct is_host; (split; [done|]); simpl; rewrite slice_raw_length;
    unfold KEY_LEN; lia.
Qed.

(** One frame: what it is, and that any receiver with the key opens it. *)
Lemma encrypt_ok s p :
  len (send_key s) = 16 -> len p <= 2 ^ 32 -> bytes_ok p -> exists ct,
  encrypt p s = (Ok (to_be_bytes 8 (send_counter s) ++ ct),
    mkPskCipher (send_key s) (recv_key s) (wrap 64 (send_counter s + 1)) (recv_counter s)) /\
  len ct = len p + 16 /\ bytes_ok ct.
Proof.
  intros Hk Hp Hb. unfold encrypt. destruct (new_from_slice_16 _ Hk) as [c ->].
  destruct (aead_encrypt_small c (counter_to_nonce (send_counter s)) p Hp Hb) as [ct E].
  rewrite E. exists ct. eauto using aead_encrypt_len, aead_encrypt_bytes.
Qed.
Lemma decrypt_encrypt s r p f s' :
  paired s r -> u64 (send_counter s) -> encrypt p s = (Ok f, s') ->
  decrypt f r = (Ok p, mkPskCipher (send_key r) (recv_key r) (send_counter r)
                         (wrap 64 (send_counter s + 1))).
Proof.
  intros [Hk Hl] Hc. unfold encrypt, decrypt. rewrite Hk.
  destruct (new_from_slice_16 _ Hl) as [c ->].
  destruct (aead_encrypt c _ p) as [ct|] eqn:E; [|done]. intros [Ef _]%pair_eq.
  apply Ok_inj in Ef as <-.
  pose proof (aead_encrypt_len _ _ _ _ E) as Hct.
  rewrite (proj2 (Z.ltb_ge _ _)).
  2:{ rewrite len_app, len_to_be_bytes. pose proof (len_nonneg p). unfold TAG_LEN. lia. }
  assert (H1 : slice_raw 0 8 (to_be_bytes 8 (send_counter s) ++ ct) = to_be_bytes 8 (send_counter s)).
  { apply slice_raw_prefix. by rewrite len_to_be_bytes. }
  assert (H2 : drop 8 (to_be_bytes 8 (send_counter s) ++ ct) = ct).
  { apply drop_app_length'. by rewrite length_to_be_bytes. }
  rewrite H1, H2, from_to_be_bytes_id by done.
  by rewrite (aead_decrypt_encrypt _ _ _ _ E).
Qed.

(** Sending keeps the keys; the counter counts the frames, modulo [2^64]. *)
Lemma encrypt_state p s f s' :
  encrypt p s = (Ok f, s') -> take 8 f = to_be_bytes 8 (send_counter s) /\
  s' = mkPskCipher (send_key s) (recv_key s) (wrap 64 (send_counter s + 1)) (recv_counter s).
Proof.
  unfold encrypt. destruct (new_from_slice _) as [c|]; [|done].
  destruct (aead_encrypt _ _ _) as [ct|]; [|done]. intros [Ef <-]%pair_eq.
  apply Ok_inj in Ef as <-. split; [|done].
  by rewrite take_app_length' by (by rewrite length_to_be_bytes).
Qed.

Lemma encrypt_all_ok ps s :
  len (send_key s) = 16 -> Forall (fun p => len p <= 2 ^ 32 /\ bytes_ok p) ps ->
  exists fs s', encrypt_all ps s = (Ok fs, s') /\ length fs = length ps.
Proof.
  revert s; induction ps as [|p ps IH]; intros s Hk Hps; [by exists [], s|].
  apply Forall_cons in Hps as [[Hp Hb] Hps].
  destruct (encrypt_ok s p Hk Hp Hb) as (ct & E & _). cbn [encrypt_all].
  rewrite (M_bind_Ok _ _ _ _ _ E).
  destruct (IH (mkPskCipher (send_key s) (recv_key s) (wrap 64 (send_counter s + 1)) (recv_counter s)) Hk Hps)
    as (fs & s' & E' & Hl).
  rewrite (M_bind_Ok _ _ _ _ _ E'). eexists _, _. split; [reflexivity|]. simpl. by rewrite Hl.
Qed.

(** The [i]-th frame of a sequence was sent with counter [start + i], and any
    paired receiver opens it, whatever it received before. *)
Lemma encrypt_all_frame ps s fs s' i p :
  encrypt_all ps s = (Ok fs, s') -> u64 (send_counter s) -> ps !! i = Some p ->
  exists f, fs !! i = Some f /\
    take 8 f = to_be_bytes 8 (wrap 64 (send_counter s + Z.of_nat i)) /\
    forall r, paired s r -> exists r', decrypt f r = (Ok p, r') /\
      recv_key r' = recv_key r /\ recv_counter r' = wrap 64 (send_counter s + Z.of_nat i + 1).
Proof.
  revert s fs i; induction ps as [|q ps IH]; intros s fs i E Hc Hi; [done|].
  cbn [encrypt_all] in E.
  apply M_bind_inv in E as (f & s1 & E1 & E). apply M_bind_inv in E as (fs' & s2 & E2 & E).
  injection E as <- <-. destruct (encrypt_state _ _ _ _ E1) as [Hf Hs1].
  destruct i as [|i].
  - simpl in Hi. simplify_eq. exists f. split; [done|]. rewrite Z.add_0_r.
    split; [by rewrite wrap_small|]. intros r Hr.
    rewrite (decrypt_encrypt s r p f _ Hr Hc E1). eexists. split; [reflexivity|]. done.
  - simpl in Hi. destruct (IH s1 fs' i E2) as (g & Hg & Ht & Hd); [subst; simpl; auto with hdc|done|].
    exists g. split; [done|]. subst s1. simpl in *.
    assert (Ew : forall k, wrap 64 (wrap 64 (send_counter s + 1) + k) = wrap 64 (send_counter s + 1 + k)).
    { intros k. unfold wrap. by rewrite Zplus_mod_idemp_l. }
    rewrite <- Z.add_assoc in Hd. rewrite Ew in Ht.
    replace (send_counter s + Z.of_nat (S i)) with (send_counter s + 1 + Z.of_nat i) by lia.
    split; [done|]. intros r Hr. destruct (Hd r Hr) as (r' & ? & ? & Hrc). exists r'.
    split_and!; [done..|]. rewrite Hrc.
    rewrite <- (Z.add_assoc (send_counter s + 1)). rewrite <- Ew. by rewrite Z.add_assoc.
Qed.

Lemma encrypt_all_length ps s fs s' : encrypt_all ps s = (Ok fs, s') -> length fs = length ps.
Proof.
  revert s fs; induction ps as [|p ps IH]; intros s fs E.
  { by injection E as <-. }
  cbn [encrypt_all] in E. apply M_bind_inv in E as (f & s1 & E1 & E).
  apply M_bind_inv in E as (fs' & s2 & E2 & E). injection E as <- <-. simpl. eauto.
Qed.
End Psk.

(** ** A concrete cipher

    A stand-in with the interface's laws, which shows that they can hold and
    lets the definitions run: the plaintext with every byte complemented,
    followed by sixteen bytes that repeat its checksum. *)
Module ToyAead.
Definition tag (p : bytes) : bytes := replicate 16 (foldr (fun b a => (a + b) mod 256) 0 p).
Definition seal (k n p : bytes) : option bytes :=
  if bool_decide (bytes_ok p) then Some (map (fun b => 255 - b) p ++ tag p) else None.
Definition open (k n ct : bytes) : option bytes :=
  let p := map (fun b => 255 - b) (take (length ct - 16) ct) in
  if bool_decide (drop (length ct - 16) ct = tag p /\ bytes_ok p) then Some p else None.
#[export] Instance aead : Aead := {
  Aes128Gcm := bytes;
  new_from_slice k := if len k =? 16 then Some k else None;
  aead_encrypt := seal; aead_decrypt := open;
  invalid_length_text := lit "InvalidLength"; aead_error_text := lit "Error"
}.

Lemma length_tag p : length (tag p) = 16%nat.
Proof. apply length_replicate. Qed.
Lemma tag_ok p : bytes_ok (tag p).
Proof.
  apply Forall_replicate. destruct p; simpl; [ulia|].
  pose proof (Z.mod_pos_bound (foldr (fun b a => (a + b) mod 256) 0 p + z) 256). ulia.
Qed.
Lemma seal_inv k n p ct :
  seal k n p = Some ct -> bytes_ok p /\ ct = map (fun b => 255 - b) p ++ tag p.
Proof. unfold seal. case_bool_decide; intros; simplify_eq. done. Qed.

#[export] Instance laws : AeadLaws aead.
Proof.
  split; simpl.
  - intros k ->. eauto.
  - intros c n p ct [Hp ->]%seal_inv. unfold open.
    rewrite length_app, length_tag, Nat.add_sub.
    rewrite take_app_length, drop_app_length, map_map.
    assert (E : map (fun b => 255 - (255 - b)) p = p).
    { rewrite <- (map_id p) at 2. apply map_ext. lia. }
    rewrite E. by rewrite bool_decide_eq_true_2.
  - intros c n p ct [_ ->]%seal_inv. rewrite len_app. unfold len.
    by rewrite length_map, length_tag.
  - intros c n p ct [Hp ->]%seal_inv. apply bytes_ok_app. split; [|apply tag_ok].
    apply Forall_map. eapply Forall_impl; [exact Hp|]. intros b Hb. simpl. ulia.
  - intros c n ct p. unfold open. case_bool_decide as H; intros; simplify_eq. apply H.
  - intros c n p _ Hp. unfold seal. rewrite bool_decide_eq_true_2 by done. eauto.
Qed.
End ToyAead.

(** ** Properties *)

(** The frames that arrive: any selection of the frames sent, in any order,
    with repetitions. *)
Definition arrivals {A} (l : list A) (order : list nat) : list A := omap (fun i => l !! i) order.

Section Channel.
Context {HA : Aead} {HL : AeadLaws HA}.

Lemma decrypt_all_arrivals ps s fs s' order r :
  encrypt_all ps s = (Ok fs, s') -> u64 (send_counter s) -> paired s r ->
  exists r', decrypt_all (arrivals fs order) r = (Ok (arrivals ps order), r').
Proof.
  intros E Hc. revert r; induction order as [|i order IH]; intros r Hr; [by exists r|].
  pose proof (encrypt_all_length _ _ _ _ E) as Hl. unfold arrivals in *. simpl.
  destruct (ps !! i) as [p|] eqn:Ep.
  - destruct (encrypt_all_frame _ _ _ _ _ _ E Hc Ep) as (f & -> & _ & Hd).
    destruct (Hd r Hr) as (r1 & E1 & Hk & _). cbn [decrypt_all].
    rewrite (M_bind_Ok _ _ _ _ _ E1). destruct Hr as [Hr1 Hr2].
    destruct (IH r1) as (r2 & E2); [split; congruence|].
    rewrite (M_bind_Ok _ _ _ _ _ E2). by eexists.
  - rewrite (proj2 (lookup_ge_None fs i)); [by apply IH|].
    apply lookup_ge_None in Ep. lia.
Qed.

End Channel.

(** C34: the encrypted channel.  Whatever messages a side sends, all of them are
    encrypted, and the other side, which takes its keys from the same
    pre-shared key with the directions exchanged, decrypts the frames it
    receives to the messages they carry, in any order of arrival, with frames
    lost or repeated (so a replayed frame is accepted). *)
Theorem psk_channel_roundtrip {HA : Aead} {HL : AeadLaws HA} psk is_host ps order :
  len psk = 32 -> Forall (fun p => len p <= 2 ^ 32 /\ bytes_ok p) ps ->
  exists fs s r,
    encrypt_all ps (PskCipher_new psk is_host) = (Ok fs, s) /\ length fs = length ps /\
    decrypt_all (arrivals fs order) (PskCipher_new psk (negb is_host)) =
      (Ok (arrivals ps order), r).
Proof.
  intros Hl Hps. pose proof (paired_new psk is_host Hl) as Hpair.
  destruct (encrypt_all_ok ps _ (proj2 Hpair) Hps) as (fs & s & E & Hfs).
  destruct (decrypt_all_arrivals _ _ _ _ order _ E ltac:(destruct is_host; simpl; ulia) Hpair)
    as (r & Er).
  by exists fs, s, r.
Qed.
#[local] Existing Instance ToyAead.aead.
#[local] Existing Instance ToyAead.laws.
Definition sample_psk : bytes := map Z.of_nat (seq 0 32).
Lemma psk_channel_roundtrip_witness : exists fs s r,
  encrypt_all [lit "one"; lit "two"] (PskCipher_new sample_psk true) = (Ok fs, s) /\
  length fs = 2%nat /\
  decrypt_all (arrivals fs [1; 0; 1]%nat) (PskCipher_new sample_psk false) =
    (Ok [lit "two"; lit "one"; lit "two"], r).
Proof.
  apply (psk_channel_roundtrip sample_psk true [lit "one"; lit "two"] [1; 0; 1]%nat).
  - reflexivity.
  - apply (bool_decide_unpack _). vm_compute. exact I.
Defined.

