(* ===== verification/Transport.v ===== *)
(** * The TCP transport of the daemon and of the host

    [src/hdcd/src/transfer/tcp.rs], [src/hdc/src/transfer/tcp.rs] and the frame
    readers of [src/hdc/src/server.rs].  A TCP stream delivers its bytes in
    pieces the reader does not choose; the model makes the pieces explicit, so
    that the theorems hold for every way a stream can be cut. *)

From S2P Require Import Prelude RustStr Config Tlv Serializer Encrypt.

(** ** Streams *)

(** What one call of [read] on a socket meets: bytes that have arrived, or an
    error with its text.  The end of the list is the end of the stream. *)
Inductive Chunk := Data (b : bytes) | ReadErr (e : bytes).
Abbreviation Stream := (list Chunk).

(** [rd.read(&mut buf)] with a buffer of [n] bytes: at most [n] of the bytes that
    have arrived, the rest stay; zero bytes at the end of the stream. *)
Definition tcp_read (n : Z) : M Stream bytes := fun rd =>
  match rd with
  | [] => (Ok [], [])
  | ReadErr e :: t => (Err (mkError OtherError e), t)
  | Data b :: t =>
      if len b <=? n then (Ok b, t)
      else (Ok (take (Z.to_nat n) b), Data (drop (Z.to_nat n) b) :: t)
  end.

(** The loop that fills a buffer of [expected] bytes; [got] is the part
    [data[..index]] filled so far, and [read index n] one read of up to [n] bytes.
    Each iteration adds at least a byte, so [expected] bounds the number of
    iterations ([read_loop_flat]). *)
Fixpoint read_loop {R} (read : Z -> Z -> M R bytes) (on_err : Error -> Error) (shutdown : string)
  (fuel : nat) (got : bytes) (expected : Z) : M R bytes := fun rd =>
  if expected <=? len got then (Ok got, rd)
  else
    match fuel with
    | O => (Panic, rd)
    | S f =>
        match read (len got) (expected - len got) rd with
        | (Ok b, rd) =>
            if len b =? 0 then (err ConnectionAborted shutdown, rd)
            else read_loop read on_err shutdown f (got ++ b) expected rd
        | (Err e, rd) => (Err (on_err e), rd)
        | (Panic, rd) => (Panic, rd)
        end
    end.

(** A writer: the bytes written so far, and how many more the connection takes
    before it fails with an error ([None]: it does not fail). *)
Record Writer := mkWriter { w_out : bytes; w_limit : option (Z * Error) }.
Definition write_all (data : bytes) : M Writer unit := fun wr =>
  match w_limit wr with
  | None => (Ok tt, mkWriter (w_out wr ++ data) None)
  | Some (room, e) =>
      if len data <=? room
      then (Ok tt, mkWriter (w_out wr ++ data) (Some (room - len data, e)))
      else (Err e, mkWriter (w_out wr ++ take (Z.to_nat room) data) (Some (0, e)))
  end.

(** [format!("read tcp failed: {e}")]. *)
Definition read_tcp_failed (e : Error) : Error :=
  mkError OtherError (lit "read tcp failed: " ++ err_msg e).

(** ** The daemon's side *)

(** The state the daemon's transport works on: the registered ciphers of the
    process and the two halves of a connection. *)
Record Link := mkLink { ciphers : gmap Z PskCipher; link_rd : Stream; link_wr : Writer }.
Definition on_rd {A} : M Stream A -> M Link A :=
  zoom link_rd (fun rd l => mkLink (ciphers l) rd (link_wr l)).
Definition on_wr {A} : M Writer A -> M Link A :=
  zoom link_wr (fun wr l => mkLink (ciphers l) (link_rd l) wr).
(** A locked cipher of the map, used and left in its new state. *)
Definition on_cipher {A} (session_id : Z) (c : PskCipher) (m : M PskCipher A) : M Link A := fun l =>
  let '(r, c') := m c in
  (r, mkLink (<[session_id := c']> (ciphers l)) (link_rd l) (link_wr l)).

Module DaemonTcp.
Section WithAead.
Context {HA : Aead}.

Definition set_session_cipher (session_id : Z) (cipher : PskCipher) : M Link unit :=
  modify (fun l => mkLink (<[session_id := cipher]> (ciphers l)) (link_rd l) (link_wr l)).
Definition remove_session_cipher (session_id : Z) : M Link unit :=
  modify (fun l => mkLink (delete session_id (ciphers l)) (link_rd l) (link_wr l)).
Definition get_session_cipher (session_id : Z) : M Link (option PskCipher) :=
  fun l => (Ok (ciphers l !! session_id), l).

Definition read_frame (expected_size : Z) : M Stream bytes :=
  if expected_size =? 0 then mret []
  else read_loop (fun _ n => tcp_read n) read_tcp_failed "peer shutdown"
         (Z.to_nat expected_size) [] expected_size.

Definition recv_raw_frame : M Stream bytes :=
  head ← read_frame HEAD_SIZE;
  payload_head ← lift (unpack_payload_head head);
  let expected_head_size := PayloadHead.head_size payload_head in
  let expected_data_size := PayloadHead.data_size payload_head in
  if (expected_head_size + expected_data_size =? 0) ||
     (HDC_BUF_MAX_SIZE <? expected_head_size + expected_data_size)
  then throw InvalidData "Packet size incorrect"
  else
    protect ← read_frame expected_head_size;
    payload ← read_frame expected_data_size;
    mret (head ++ protect ++ payload).

Definition unpack_task_message (session_id : Z) : M Link TaskMessage :=
  cipher ← get_session_cipher session_id;
  frame ← match cipher with
          | Some cipher =>
              len_bytes ← on_rd (read_frame 4);
              ct ← on_rd (read_frame (from_be_bytes (slice_raw 0 4 len_bytes)));
              on_cipher session_id cipher (decrypt ct)
          | None => on_rd recv_raw_frame
          end;
  lift (Serializer.unpack_task_message frame).

Definition send_message (session_id : Z) (msg : TaskMessage) : M Link unit :=
  let data := concat_pack msg in
  cipher ← get_session_cipher session_id;
  match cipher with
  | Some cipher =>
      ct ← on_cipher session_id cipher (encrypt data);
      _ ← on_wr (write_all (to_be_bytes 4 (wrap 32 (len ct))));
      _ ← on_wr (write_all ct);
      mret tt
  | None =>
      _ ← on_wr (write_all data);
      mret tt
  end.
End WithAead.
End DaemonTcp.

(** ** The host's side *)

Module HostTcp.
Section WithAead.
Context {HA : Aead}.

Definition read_frame (expected_size : Z) : M Stream bytes :=
  if expected_size =? 0 then mret []
  else read_loop (fun _ n => tcp_read n) read_tcp_failed "peer shutdown"
         (Z.to_nat expected_size) [] expected_size.

(** No version code is checked, and the command is decoded before the payload
    is read. *)
Definition unpack_task_message : M Stream TaskMessage :=
  data ← read_frame HEAD_SIZE;
  payload_head ← lift (unpack_payload_head data);
  let expected_head_size := PayloadHead.head_size payload_head in
  let expected_data_size := PayloadHead.data_size payload_head in
  if (expected_head_size + expected_data_size =? 0) ||
     (HDC_BUF_MAX_SIZE <? expected_head_size + expected_data_size)
  then throw InvalidData "Packet size incorrect"
  else
    data ← read_frame expected_head_size;
    payload_protect ← lift (unpack_payload_protect data);
    match HdcCommand_try_from (PayloadProtect.command_flag payload_protect) with
    | None => throw InvalidData "unknown command"
    | Some command =>
        payload ← read_frame expected_data_size;
        mret (mkTaskMessage (PayloadProtect.channel_id payload_protect) command payload)
    end.

Definition recv_channel_message : M Stream bytes :=
  data ← read_frame 4;
  read_frame (from_be_bytes (slice_raw 0 4 data)).

Definition send_channel_message (data : bytes) : M Writer unit :=
  _ ← write_all (to_be_bytes 4 (wrap 32 (len data)));
  _ ← write_all data;
  mret tt.

(** [server.rs]: the size check of the daemon's [recv_raw_frame] is absent. *)
Definition recv_raw_hdc_frame : M Stream bytes :=
  head ← read_frame HEAD_SIZE;
  payload_head ← lift (unpack_payload_head head);
  protect ← read_frame (PayloadHead.head_size payload_head);
  payload ← read_frame (PayloadHead.data_size payload_head);
  mret (head ++ protect ++ payload).

(** With a cipher, the state holds it too. *)
Definition recv_tcp_frame : M (option PskCipher * Stream) bytes := fun st =>
  match st with
  | (Some cipher, rd) =>
      match (len_bytes ← read_frame 4; read_frame (from_be_bytes (slice_raw 0 4 len_bytes))) rd with
      | (Ok ct, rd) => let '(r, cipher) := decrypt ct cipher in (r, (Some cipher, rd))
      | (Err e, rd) => (Err e, (Some cipher, rd))
      | (Panic, rd) => (Panic, (Some cipher, rd))
      end
  | (None, rd) => let '(r, rd) := recv_raw_hdc_frame rd in (r, (None, rd))
  end.
End WithAead.
End HostTcp.

(** ** Reading from a stream *)

(** The bytes of a stream, however it is cut; no piece is empty and no read
    fails. *)
Definition chunk_bytes (c : Chunk) : bytes := match c with Data b => b | ReadErr _ => [] end.
Definition flat (rd : Stream) : bytes := concat (map chunk_bytes rd).
Definition clean (rd : Stream) : Prop :=
  Forall (fun c => match c with Data b => b <> [] | ReadErr _ => False end) rd.
#[global] Instance clean_dec rd : Decision (clean rd).
Proof. unfold clean. apply Forall_dec. intros [[|]|]; solve_decision. Defined.

Lemma tcp_read_spec n rd :
  clean rd -> 0 < n -> exists b rd',
  tcp_read n rd = (Ok b, rd') /\ flat rd = b ++ flat rd' /\ clean rd' /\
  len b <= n /\ (b = [] -> flat rd = []).
Proof.
  intros Hc Hn. destruct rd as [|[b|e] t].
  - exists [], []. split_and!; try done; unfold len; simpl; lia.
  - apply Forall_cons in Hc as [Hb Ht]. simpl. case_if.
    + exists b, t. by split_and!.
    + eexists _, _. split; [reflexivity|]. unfold flat; simpl.
      rewrite app_assoc, take_drop. split_and!; [done| | |].
      * constructor; [|done]. intros E. apply (f_equal length) in E.
        rewrite length_drop in E. unfold len in *. simpl in E. lia.
      * unfold len. rewrite length_take. lia.
      * intros E. apply (f_equal length) in E. rewrite length_take in E. destruct b; [done|].
        simpl in E. lia.
  - by apply Forall_cons in Hc as [[] _].
Qed.

(** The loop on a clean stream: the bytes asked for when they are there, the
    shutdown error when the stream ends before. *)
Lemma read_loop_flat on_err msg fuel got expected rd :
  clean rd -> len got <= expected -> (Z.to_nat (expected - len got) <= fuel)%nat -> exists rd',
  read_loop (fun _ n => tcp_read n) on_err msg fuel got expected rd =
    (if expected <=? len got + len (flat rd)
     then Ok (got ++ take (Z.to_nat (expected - len got)) (flat rd))
     else err ConnectionAborted msg, rd') /\
  clean rd' /\ flat rd' = drop (Z.to_nat (expected - len got)) (flat rd).
Proof.
  revert got rd; induction fuel as [|fuel IH]; intros got rd Hc Hg Hf;
    cbn [read_loop]; pose proof (len_nonneg (flat rd)).
  - rewrite (proj2 (Z.leb_le expected (len got))), (proj2 (Z.leb_le expected _)) by lia.
    exists rd. replace (Z.to_nat (expected - len got)) with 0%nat by lia.
    by rewrite app_nil_r, drop_0.
  - case_if.
    { rewrite (proj2 (Z.leb_le expected _)) by lia.
      exists rd. replace (Z.to_nat (expected - len got)) with 0%nat by lia.
      by rewrite app_nil_r, drop_0. }
    destruct (tcp_read_spec (expected - len got) rd Hc ltac:(lia))
      as (b & rd' & -> & Efl & Hc' & Hlb & Hnil).
    case_if.
    + assert (b = []) as -> by (destruct b; [done|]; unfold len in *; simpl in *; lia).
      rewrite (Hnil eq_refl) in *. destruct (flat rd') eqn:Er; [|done].
      rewrite len_nil, Z.add_0_r, (proj2 (Z.leb_gt _ _)) by lia.
      exists rd'. rewrite Er. by rewrite drop_nil.
    + pose proof (len_nonneg b). pose proof (len_app got b) as Hgb.
      destruct (IH (got ++ b) rd' Hc' ltac:(lia) ltac:(lia)) as (rd2 & E & Hc2 & Hd2).
      exists rd2. rewrite E, Hd2, Efl, Hgb, len_app.
      replace (Z.to_nat (expected - len got))
        with (length b + Z.to_nat (expected - (len got + len b)))%nat by (unfold len in *; lia).
      rewrite take_app_add, drop_app_add, app_assoc, Z.add_assoc. done.
Qed.

Lemma read_frame_flat n rd :
  clean rd -> 0 <= n -> exists rd',
  DaemonTcp.read_frame n rd =
    (if n <=? len (flat rd) then Ok (take (Z.to_nat n) (flat rd))
     else err ConnectionAborted "peer shutdown", rd') /\
  clean rd' /\ flat rd' = drop (Z.to_nat n) (flat rd).
Proof.
  intros Hc Hn. unfold DaemonTcp.read_frame. pose proof (len_nonneg (flat rd)). case_if.
  - subst n. exists rd. rewrite (proj2 (Z.leb_le _ _)) by lia. by rewrite drop_0.
  - destruct (read_loop_flat read_tcp_failed "peer shutdown" (Z.to_nat n) [] n rd Hc)
      as (rd' & E & Hc' & Hd).
    + rewrite len_nil. lia.
    + rewrite len_nil. lia.
    + exists rd'. rewrite E. rewrite len_nil, Z.sub_0_r in *. by rewrite Z.add_0_l.
Qed.

(** A reader that asks for exactly the bytes that come next. *)
Lemma read_frame_exact a rest rd n :
  clean rd -> flat rd = a ++ rest -> n = len a -> exists rd',
  DaemonTcp.read_frame n rd = (Ok a, rd') /\ clean rd' /\ flat rd' = rest.
Proof.
  intros Hc Ef ->. destruct (read_frame_flat (len a) rd Hc (len_nonneg a)) as (rd' & E & Hc' & Hd).
  exists rd'. rewrite E, Hd, Ef, len_app. pose proof (len_nonneg rest). tests.
  unfold len. rewrite Nat2Z.id, take_app_length, drop_app_length. done.
Qed.
Lemma host_read_frame_eq : HostTcp.read_frame = DaemonTcp.read_frame.
Proof. reflexivity. Qed.

(** A frame of the wire format is read whole, and nothing behind it. *)
Lemma recv_raw_frame_exact m rest rd :
  msg_wf m -> u32 (len (payload m)) -> packet_fits m = true ->
  clean rd -> flat rd = concat_pack m ++ rest -> exists rd',
  DaemonTcp.recv_raw_frame rd = (Ok (concat_pack m), rd') /\ clean rd' /\ flat rd' = rest.
Proof.
  intros Hwf Hlen Hfit Hc Ef. unfold concat_pack in *.
  pose proof (len_protect m) as Hpl. pose proof (len_nonneg (payload m)).
  unfold packet_fits in Hfit. set (protect := PayloadProtect.serialize (protect_of m)) in *.
  destruct (head_of_spec m protect Hpl Hlen) as (Hh & Hhs & Hds).
  set (h := head_of m protect) in *. rewrite <- !app_assoc in Ef. unfold DaemonTcp.recv_raw_frame.
  destruct (read_frame_exact (PayloadHead.serialize h) _ rd HEAD_SIZE Hc Ef eq_refl)
    as (rd1 & E1 & Hc1 & Ef1).
  rewrite (M_bind_Ok _ _ _ _ _ E1), M_bind_eq. unfold lift.
  pose proof (unpack_payload_head_at h [] Hh eq_refl) as E. rewrite app_nil_r in E.
  rewrite E, Hhs, Hds, (proj2 (Z.eqb_neq _ _)) by lia. cbn [orb]. rewrite Z.ltb_antisym, Hfit.
  cbn [negb].
  destruct (read_frame_exact protect _ rd1 (len protect) Hc1 Ef1 eq_refl) as (rd2 & E2 & Hc2 & Ef2).
  rewrite (M_bind_Ok _ _ _ _ _ E2).
  destruct (read_frame_exact (payload m) _ rd2 _ Hc2 Ef2 eq_refl) as (rd3 & E3 & Hc3 & Ef3).
  rewrite (M_bind_Ok _ _ _ _ _ E3). by exists rd3.
Qed.

(** The size check apart, the host reads the same frames. *)
Lemma recv_raw_hdc_frame_exact m rest rd :
  msg_wf m -> u32 (len (payload m)) -> packet_fits m = true ->
  clean rd -> flat rd = concat_pack m ++ rest -> exists rd',
  HostTcp.recv_raw_hdc_frame rd = (Ok (concat_pack m), rd') /\ clean rd' /\ flat rd' = rest.
Proof.
  intros Hwf Hlen Hfit Hc Ef.
  destruct (recv_raw_frame_exact m rest rd Hwf Hlen Hfit Hc Ef) as (rd' & E & Hrd').
  exists rd'. split; [|done]. revert E. unfold DaemonTcp.recv_raw_frame, HostTcp.recv_raw_hdc_frame.
  rewrite host_read_frame_eq, !M_bind_eq.
  destruct (DaemonTcp.read_frame HEAD_SIZE rd) as [[head| |] rd1]; [|done..].
  rewrite !M_bind_eq. destruct (lift _ _) as [[ph| |] rd2]; [|done..].
  case_if; [done|]. done.
Qed.

(** The host's message reader on a frame of the wire format. *)
Lemma host_unpack_exact m rest rd :
  msg_wf m -> u32 (len (payload m)) -> packet_fits m = true ->
  clean rd -> flat rd = concat_pack m ++ rest -> exists rd',
  HostTcp.unpack_task_message rd = (Ok m, rd') /\ clean rd' /\ flat rd' = rest.
Proof.
  intros Hwf Hlen Hfit Hc Ef. unfold concat_pack in *. destruct (protect_of_wf m Hwf) as [Hp Hr].
  pose proof (len_protect m) as Hpl. pose proof (len_nonneg (payload m)).
  unfold packet_fits in Hfit. set (protect := PayloadProtect.serialize (protect_of m)) in *.
  destruct (head_of_spec m protect Hpl Hlen) as (Hh & Hhs & Hds).
  set (h := head_of m protect) in *. rewrite <- !app_assoc in Ef. unfold HostTcp.unpack_task_message.
  rewrite host_read_frame_eq.
  destruct (read_frame_exact (PayloadHead.serialize h) _ rd HEAD_SIZE Hc Ef eq_refl)
    as (rd1 & E1 & Hc1 & Ef1).
  rewrite (M_bind_Ok _ _ _ _ _ E1), M_bind_eq. unfold lift at 1.
  pose proof (unpack_payload_head_at h [] Hh eq_refl) as E. rewrite app_nil_r in E.
  rewrite E, Hhs, Hds, (proj2 (Z.eqb_neq _ _)) by lia. cbn [orb]. rewrite Z.ltb_antisym, Hfit. cbn [negb].
  destruct (read_frame_exact protect _ rd1 (len protect) Hc1 Ef1 eq_refl) as (rd2 & E2 & Hc2 & Ef2).
  rewrite (M_bind_Ok _ _ _ _ _ E2), M_bind_eq. unfold lift, unpack_payload_protect, PayloadProtect.deserialize, protect.
  rewrite (consumes_run _ _ _ _ (PayloadProtect.protect_consumes _ Hp Hr)).
  cbv [protect_of PayloadProtect.command_flag PayloadProtect.channel_id]. rewrite try_from_as_u32.
  destruct (read_frame_exact (payload m) _ rd2 _ Hc2 Ef2 eq_refl) as (rd3 & E3 & Hc3 & Ef3).
  rewrite (M_bind_Ok _ _ _ _ _ E3). exists rd3. split; [|done]. by destruct m.
Qed.

Section Session.
Context {HA : Aead} {HL : AeadLaws HA}.

(** Messages sent and received one after the other over one session. *)
Fixpoint send_all (sid : Z) (ms : list TaskMessage) : M Link unit :=
  match ms with
  | [] => mret tt
  | m :: t => _ ← DaemonTcp.send_message sid m; send_all sid t
  end.
Fixpoint recv_n (sid : Z) (n : nat) : M Link (list TaskMessage) :=
  match n with
  | O => mret []
  | S k => m ← DaemonTcp.unpack_task_message sid; ms ← recv_n sid k; mret (m :: ms)
  end.

(** The two ends agree on the session: neither has a cipher, or each has the
    counterpart of the other's. *)
Definition agree (s r : option PskCipher) : Prop :=
  match s, r with
  | None, None => True
  | Some s, Some r => paired s r /\ u64 (send_counter s)
  | _, _ => False
  end.
Definition sendable (m : TaskMessage) : Prop :=
  msg_wf m /\ len (payload m) <= HDC_BUF_MAX_SIZE - 22.

Lemma sendable_fits m : sendable m -> msg_wf m /\ u32 (len (payload m)) /\ packet_fits m = true.
Proof.
  intros [Hw Hl]. pose proof (len_nonneg (payload m)). split_and!; [done| |by apply packet_fits_small].
  unfold HDC_BUF_MAX_SIZE in Hl. ulia.
Qed.
Lemma on_rd_eq {A} (x : M Stream A) l r rd' :
  x (link_rd l) = (r, rd') -> on_rd x l = (r, mkLink (ciphers l) rd' (link_wr l)).
Proof. intros E. unfold on_rd, zoom. by rewrite E. Qed.
Lemma write_all_free data l out :
  link_wr l = mkWriter out None ->
  on_wr (write_all data) l = (Ok tt, mkLink (ciphers l) (link_rd l) (mkWriter (out ++ data) None)).
Proof. intros E. unfold on_wr, zoom. rewrite E. done. Qed.

Lemma with_cipher {B} sid (f : option PskCipher -> M Link B) l :
  (DaemonTcp.get_session_cipher sid ≫= f) l = f (ciphers l !! sid) l.
Proof. done. Qed.
Definition sender_ok (s : option PskCipher) : Prop :=
  match s with None => True | Some s => len (send_key s) = 16 /\ u64 (send_counter s) end.

(** One message: what the sender puts on the wire, and that a receiver that
    agrees with it takes exactly those bytes and has the message. *)
Definition transfers (sid : Z) (ls ls' : Link) (frame : bytes) (recv : M Link (list TaskMessage))
    (ms : list TaskMessage) : Prop :=
  forall lr rest, agree (ciphers ls !! sid) (ciphers lr !! sid) ->
  clean (link_rd lr) -> flat (link_rd lr) = frame ++ rest ->
  exists lr', recv lr = (Ok ms, lr') /\ clean (link_rd lr') /\ flat (link_rd lr') = rest /\
    agree (ciphers ls' !! sid) (ciphers lr' !! sid).

(** A frame without encryption. *)
Lemma unpack_plain sid m l rest :
  sendable m -> ciphers l !! sid = None -> clean (link_rd l) -> flat (link_rd l) = concat_pack m ++ rest ->
  exists rd', DaemonTcp.unpack_task_message sid l = (Ok m, mkLink (ciphers l) rd' (link_wr l)) /\
  clean rd' /\ flat rd' = rest.
Proof.
  intros (Hw & Hl & Hfit)%sendable_fits Er Hcl Ef.
  destruct (recv_raw_frame_exact m rest _ Hw Hl Hfit Hcl Ef) as (rd' & E & Hcl' & Ef').
  exists rd'. split; [|done]. unfold DaemonTcp.unpack_task_message. rewrite with_cipher.
  rewrite Er, M_bind_eq, (on_rd_eq _ _ _ _ E). unfold lift.
  rewrite <- (app_nil_r (concat_pack m)), unpack_concat_pack, Hfit by done. done.
Qed.

Lemma send_recv_plain sid m ls out :
  sendable m -> link_wr ls = mkWriter out None -> ciphers ls !! sid = None -> exists ls',
  DaemonTcp.send_message sid m ls = (Ok tt, ls') /\ sender_ok (ciphers ls' !! sid) /\
  link_wr ls' = mkWriter (out ++ concat_pack m) None /\
  transfers sid ls ls' (concat_pack m) (m ← DaemonTcp.unpack_task_message sid; mret [m]) [m].
Proof.
  intros Hm Hwr Hc. unfold DaemonTcp.send_message.
  rewrite with_cipher, Hc, (M_bind_Ok _ _ _ _ _ (write_all_free _ ls _ Hwr)).
  eexists. split; [reflexivity|]. cbn [ciphers link_wr]. rewrite Hc. split_and!; [done..|].
  intros lr rest Ha Hcl Ef. rewrite Hc in Ha. destruct (ciphers lr !! sid) eqn:Er; [done|].
  destruct (unpack_plain sid m lr rest Hm Er Hcl Ef) as (rd' & E & Hcl' & Ef').
  exists (mkLink (ciphers lr) rd' (link_wr lr)). cbn [ciphers link_rd]. rewrite Hc, Er.
  split_and!; [|done..]. by rewrite (M_bind_Ok _ _ _ _ _ E).
Qed.

(** An encrypted frame. *)
Lemma unpack_cipher sid m l rest s r f s' :
  sendable m -> encrypt (concat_pack m) s = (Ok f, s') -> u32 (len f) -> paired s r -> u64 (send_counter s) ->
  ciphers l !! sid = Some r -> clean (link_rd l) ->
  flat (link_rd l) = (to_be_bytes 4 (wrap 32 (len f)) ++ f) ++ rest -> exists rd',
  DaemonTcp.unpack_task_message sid l =
    (Ok m, mkLink (<[sid := mkPskCipher (send_key r) (recv_key r) (send_counter r) (wrap 64 (send_counter s + 1))]> (ciphers l))
             rd' (link_wr l)) /\ clean rd' /\ flat rd' = rest.
Proof.
  intros (Hw & Hl & Hfit)%sendable_fits E Hf Hp Hu Er Hcl Ef. rewrite <- app_assoc in Ef.
  destruct (read_frame_exact _ _ _ 4 Hcl Ef) as (rd1 & E1 & Hcl1 & Ef1); [by rewrite len_to_be_bytes|].
  destruct (read_frame_exact f rest rd1 (len f) Hcl1 Ef1 eq_refl) as (rd2 & E2 & Hcl2 & Ef2).
  exists rd2. split; [|done]. unfold DaemonTcp.unpack_task_message. rewrite with_cipher, Er, !M_bind_eq.
  rewrite (on_rd_eq _ _ _ _ E1), M_bind_eq.
  assert (Hsl : from_be_bytes (slice_raw 0 4 (to_be_bytes 4 (wrap 32 (len f)))) = len f).
  { rewrite <- (app_nil_r (to_be_bytes _ _)), slice_raw_prefix by (by rewrite len_to_be_bytes).
    by rewrite wrap_small, from_to_be_bytes_id by done. }
  rewrite Hsl. erewrite (on_rd_eq _ (mkLink _ rd1 _)) by exact E2.
  unfold on_cipher. rewrite (decrypt_encrypt s r _ f _ Hp Hu E). unfold lift.
  rewrite <- (app_nil_r (concat_pack m)), unpack_concat_pack, Hfit by done. done.
Qed.
(** The encrypted form of a message. *)
Lemma encrypt_message s m :
  sendable m -> len (send_key s) = 16 -> exists f,
  encrypt (concat_pack m) s =
    (Ok f, mkPskCipher (send_key s) (recv_key s) (wrap 64 (send_counter s + 1)) (recv_counter s)) /\ u32 (len f).
Proof.
  intros Hsd Hk. destruct (sendable_fits m Hsd) as (Hw & Hl & _).
  pose proof (len_concat_pack m) as Hlen. destruct Hsd as [_ Hmax]. unfold HDC_BUF_MAX_SIZE in Hmax.
  destruct (encrypt_ok s (concat_pack m) Hk ltac:(lia) (concat_pack_ok m Hw Hl)) as (ct & E & Hct & Hctb).
  eexists. split; [exact E|]. rewrite len_app, len_to_be_bytes. pose proof (len_nonneg ct). unfold uint. lia.
Qed.

Lemma send_recv_cipher sid m ls out s :
  sendable m -> link_wr ls = mkWriter out None -> ciphers ls !! sid = Some s ->
  sender_ok (Some s) -> exists frame ls',
  DaemonTcp.send_message sid m ls = (Ok tt, ls') /\ sender_ok (ciphers ls' !! sid) /\
  link_wr ls' = mkWriter (out ++ frame) None /\
  transfers sid ls ls' frame (m ← DaemonTcp.unpack_task_message sid; mret [m]) [m].
Proof.
  intros Hsd Hwr Hc [Hk Hu]. destruct (encrypt_message s m Hsd Hk) as (f & E & Hf).
  unfold DaemonTcp.send_message. rewrite with_cipher, Hc.
  erewrite M_bind_Ok; [|unfold on_cipher; rewrite E; reflexivity].
  erewrite M_bind_Ok; [|apply (write_all_free _ (mkLink _ _ (link_wr ls)) _ Hwr)].
  erewrite M_bind_Ok; [|by apply write_all_free].
  exists (to_be_bytes 4 (wrap 32 (len f)) ++ f). eexists. split; [reflexivity|].
  cbn [ciphers link_wr]. rewrite lookup_insert_eq. split; [split; [done|simpl; auto with hdc]|].
  split; [by rewrite app_assoc|].
  intros lr rest Ha Hcl Ef. rewrite Hc in Ha. destruct (ciphers lr !! sid) as [r|] eqn:Er; [|done].
  destruct Ha as [Hp _]. destruct (unpack_cipher sid m lr rest s r f _ Hsd E Hf Hp Hu Er Hcl Ef) as (rd' & Eu & Hcl' & Ef').
  eexists. rewrite (M_bind_Ok _ _ _ _ _ Eu). split; [reflexivity|]. cbn [ciphers link_rd]. split_and!; [done..|].
  rewrite !lookup_insert_eq. split; [exact Hp|simpl; auto with hdc].
Qed.

Lemma send_recv_one sid m ls out :
  sendable m -> link_wr ls = mkWriter out None -> sender_ok (ciphers ls !! sid) -> exists frame ls1,
  DaemonTcp.send_message sid m ls = (Ok tt, ls1) /\ sender_ok (ciphers ls1 !! sid) /\
  link_wr ls1 = mkWriter (out ++ frame) None /\
  transfers sid ls ls1 frame (m ← DaemonTcp.unpack_task_message sid; mret [m]) [m].
Proof.
  intros Hm Hwr Hs. destruct (ciphers ls !! sid) as [s|] eqn:Ec; [by eapply send_recv_cipher|].
  eexists. by eapply send_recv_plain.
Qed.

Lemma send_recv_all sid ms ls out :
  Forall sendable ms -> link_wr ls = mkWriter out None -> sender_ok (ciphers ls !! sid) ->
  exists wire ls', send_all sid ms ls = (Ok tt, ls') /\ sender_ok (ciphers ls' !! sid) /\
  link_wr ls' = mkWriter (out ++ wire) None /\
  transfers sid ls ls' wire (recv_n sid (length ms)) ms.
Proof.
  revert ls out; induction ms as [|m ms IH]; intros ls out Hms Hwr Hs.
  { exists [], ls. rewrite app_nil_r. split_and!; [done..|].
    intros lr rest Ha Hc Ef. exists lr. by split_and!. }
  apply Forall_cons in Hms as [Hm Hms].
  pose proof (send_recv_one sid m ls out Hm Hwr Hs) as H1.
  destruct H1 as (frame & ls1 & E1 & Hs1 & Hwr1 & Ht1).
  destruct (IH ls1 _ Hms Hwr1 Hs1) as (wire & ls2 & E2 & Hs2 & Hwr2 & Ht2).
  exists (frame ++ wire), ls2. cbn [send_all]. rewrite (M_bind_Ok _ _ _ _ _ E1).
  rewrite app_assoc. split_and!; [done..|].
  intros lr rest Ha Hc Ef. rewrite <- app_assoc in Ef.
  destruct (Ht1 lr _ Ha Hc Ef) as (lr1 & Er1 & Hc1 & Ef1 & Ha1).
  destruct (Ht2 lr1 _ Ha1 Hc1 Ef1) as (lr2 & Er2 & Hc2 & Ef2 & Ha2).
  exists lr2. split_and!; [|done..]. cbn [length recv_n].
  apply M_bind_inv in Er1 as (m' & lr1' & Em & [= -> ->]).
  by rewrite (M_bind_Ok _ _ _ _ _ Em), (M_bind_Ok _ _ _ _ _ Er2).
Qed.

(** *** Open connections *)

(** The connection takes what is written, and the session's cipher is usable. *)
Definition link_open (sid : Z) (l : Link) : Prop :=
  w_limit (link_wr l) = None /\ sender_ok (ciphers l !! sid).

Lemma send_all_app sid ms1 ms2 l :
  send_all sid (ms1 ++ ms2) l =
  match send_all sid ms1 l with
  | (Ok _, l') => send_all sid ms2 l' | (Err e, l') => (Err e, l') | (Panic, l') => (Panic, l')
  end.
Proof.
  revert l; induction ms1 as [|m ms1 IH]; intros l; [done|]. cbn [app send_all].
  rewrite !M_bind_eq. destruct (DaemonTcp.send_message sid m l) as [[[]| |] l']; done || apply IH.
Qed.

(** A message of a known size is sendable. *)
Lemma small_sendable k cmd p : u32 k -> bytes_ok p -> len p <= 2 ^ 30 -> sendable (mkTaskMessage k cmd p).
Proof. intros. split; [by split|]. simpl. unfold HDC_BUF_MAX_SIZE. lia. Qed.

(** On an open connection sendable messages go out and it stays open. *)
Lemma send_open sid ms l :
  link_open sid l -> Forall sendable ms -> exists l',
  send_all sid ms l = (Ok tt, l') /\ link_open sid l'.
Proof.
  intros [Hw Hs] Hms.
  destruct (send_recv_all sid ms l (w_out (link_wr l)) Hms) as (wire & l' & E & Hs' & Hw' & _).
  - destruct (link_wr l) as [out lim]. simpl in *. by subst.
  - done.
  - exists l'. split; [done|]. split; [by rewrite Hw'|done].
Qed.

(** A write does not panic, and fails only when the connection does. *)
Lemma on_wr_outcome d l :
  exists o, ((on_wr (write_all d) l).1 = Ok tt \/ w_limit (link_wr l) <> None /\ exists e, (on_wr (write_all d) l).1 = Err e) /\
  (on_wr (write_all d) l).2 = mkLink (ciphers l) (link_rd l) o /\
  (w_limit (link_wr l) = None -> w_limit o = None).
Proof.
  unfold on_wr, zoom, write_all. destruct l as [cs rd [out [[room e]|]]]; simpl.
  - case_if; simpl; eexists; (split; [|by split]); [by left|right; eauto].
  - eexists. split; [by left|]. by split.
Qed.
Lemma send_message_outcome sid m l :
  match (DaemonTcp.send_message sid m l).1 with
  | Panic => False
  | Err e => w_limit (link_wr l) = None -> err_kind e = OtherError
  | Ok _ => True
  end /\ (w_limit (link_wr l) = None -> w_limit (link_wr (DaemonTcp.send_message sid m l).2) = None).
Proof.
  unfold DaemonTcp.send_message. rewrite M_bind_eq. cbn [DaemonTcp.get_session_cipher].
  destruct (ciphers l !! sid) as [c|]; rewrite M_bind_eq.
  - unfold on_cipher, encrypt. destruct (new_from_slice _); [|by destruct l].
    destruct (aead_encrypt _ _ _) as [ct|]; [|by destruct l]. cbv beta iota. rewrite M_bind_eq.
    match goal with |- context [on_wr (write_all ?d) ?l1] => destruct (on_wr_outcome d l1) as (o & Hr & Eo & Hl);
      destruct (on_wr (write_all d) l1) as [r1 l2] end.
    cbn [fst snd] in *. subst l2. destruct Hr as [->|(Hn & e & ->)]; [|split; [intros H; by destruct (Hn H)|exact Hl]]. rewrite M_bind_eq.
    match goal with |- context [on_wr (write_all ?d) ?l1] => destruct (on_wr_outcome d l1) as (o' & Hr & Eo & Hl');
      destruct (on_wr (write_all d) l1) as [r1 l2] end.
    cbn [fst snd] in *. subst l2. destruct Hr as [->|(Hn & e & ->)]; (split; [|intros H; by apply Hl', Hl]); [done|]. intros H. by destruct (Hn (Hl H)).
  - destruct (on_wr_outcome (concat_pack m) l) as (o & Hr & Eo & Hl).
    destruct (on_wr (write_all (concat_pack m)) l) as [r1 l2]. cbn [fst snd] in *. subst l2.
    destruct Hr as [->|(Hn & e & ->)]; (split; [|exact Hl]); [done|]. intros H. by destruct (Hn H).
Qed.
(** A send leaves what is still to be read alone. *)
Lemma send_message_rd sid m l : link_rd (DaemonTcp.send_message sid m l).2 = link_rd l.
Proof.
  unfold DaemonTcp.send_message. rewrite M_bind_eq. cbn [DaemonTcp.get_session_cipher].
  destruct (ciphers l !! sid) as [c|]; rewrite M_bind_eq.
  - unfold on_cipher, encrypt. destruct (new_from_slice _); [|by destruct l].
    destruct (aead_encrypt _ _ _) as [ct|]; [|by destruct l]. cbv beta iota. rewrite M_bind_eq.
    match goal with |- context [on_wr (write_all ?d) ?l1] => destruct (on_wr_outcome d l1) as (o & Hr & Eo & _);
      destruct (on_wr (write_all d) l1) as [r1 l2] end.
    cbn [fst snd] in *. subst l2. destruct Hr as [->|(Hn & e & ->)]; [|done]. rewrite M_bind_eq.
    match goal with |- context [on_wr (write_all ?d) ?l1] => destruct (on_wr_outcome d l1) as (o' & Hr & Eo & _);
      destruct (on_wr (write_all d) l1) as [r1 l2] end.
    cbn [fst snd] in *. subst l2. by destruct Hr as [->|(Hn & e & ->)].
  - destruct (on_wr_outcome (concat_pack m) l) as (o & Hr & Eo & _).
    destruct (on_wr (write_all (concat_pack m)) l) as [r1 l2]. cbn [fst snd] in *. subst l2.
    by destruct Hr as [->|(Hn & e & ->)].
Qed.
End Session.

(** ** The host's reader on the daemon's frames *)

Section HostSession.
Context {HA : Aead} {HL : AeadLaws HA}.

(** The host's session loop: one frame, then the message in it. *)
Definition host_recv_message : M (option PskCipher * Stream) TaskMessage :=
  frame ← HostTcp.recv_tcp_frame; lift (Serializer.unpack_task_message frame).

(** What one end sends, the host's reader receives like the daemon's. *)
Lemma host_recv_eq sid l m l' :
  DaemonTcp.unpack_task_message sid l = (Ok m, l') ->
  host_recv_message (ciphers l !! sid, link_rd l) = (Ok m, (ciphers l' !! sid, link_rd l')).
Proof.
  unfold DaemonTcp.unpack_task_message, host_recv_message, HostTcp.recv_tcp_frame.
  rewrite with_cipher, (M_bind_eq _ _ (_, _)), host_read_frame_eq.
  destruct (ciphers l !! sid) as [c|] eqn:Ec; intros H.
  - rewrite M_bind_eq. rewrite 2!M_bind_eq in H. unfold on_rd at 1, zoom in H.
    destruct (DaemonTcp.read_frame 4 (link_rd l)) as [[lb| |] rd1]; [|done..].
    rewrite M_bind_eq in H. unfold on_rd, zoom in H. cbn [link_rd] in H.
    destruct (DaemonTcp.read_frame _ rd1) as [[ct| |] rd2]; [|done..].
    unfold on_cipher in H. destruct (decrypt ct c) as [[f| |] c']; [|done..].
    unfold lift in *. injection H as H <-. cbn [ciphers link_rd]. by rewrite H, lookup_insert_eq.
  - rewrite M_bind_eq in H. unfold on_rd, zoom in H.
    assert (Hraw : forall rd f rd', DaemonTcp.recv_raw_frame rd = (Ok f, rd') ->
      HostTcp.recv_raw_hdc_frame rd = (Ok f, rd')).
    { intros rd f rd'. unfold DaemonTcp.recv_raw_frame, HostTcp.recv_raw_hdc_frame.
      rewrite host_read_frame_eq, !M_bind_eq.
      destruct (DaemonTcp.read_frame HEAD_SIZE rd) as [[head| |] rd1]; [|done..].
      rewrite !M_bind_eq. destruct (lift _ _) as [[ph| |] rd2]; [|done..].
      case_if; done. }
    destruct (DaemonTcp.recv_raw_frame _) as [[f| |] rd'] eqn:Er; [|done..].
    rewrite (Hraw _ _ _ Er). unfold lift in *. injection H as H <-. cbn [ciphers link_rd].
    by rewrite H, Ec.
Qed.
Fixpoint host_recv_n (n : nat) : M (option PskCipher * Stream) (list TaskMessage) :=
  match n with
  | O => mret []
  | S k => m ← host_recv_message; ms ← host_recv_n k; mret (m :: ms)
  end.
Lemma host_recv_n_eq sid n l ms l' :
  recv_n sid n l = (Ok ms, l') ->
  host_recv_n n (ciphers l !! sid, link_rd l) = (Ok ms, (ciphers l' !! sid, link_rd l')).
Proof.
  revert l ms; induction n as [|n IH]; intros l ms H; [by injection H as <- <-|].
  cbn [recv_n host_recv_n] in *. apply M_bind_inv in H as (m & l1 & E1 & H).
  apply M_bind_inv in H as (ms' & l2 & E2 & [= <- <-]).
  by rewrite (M_bind_Ok _ _ _ _ _ (host_recv_eq _ _ _ _ E1)), (M_bind_Ok _ _ _ _ _ (IH _ _ E2)).
Qed.
End HostSession.

(** ** Properties *)

(** Reading a frame does not depend on how the stream is cut.  On any
    stream whose reads do not fail, [read_frame n] returns the next [n] bytes and
    leaves the bytes behind them, or reports the peer's shutdown when fewer
    than [n] bytes come: it never returns a short frame, loses a byte or runs on. *)
Theorem read_frame_chunking n rd :
  clean rd -> 0 <= n -> exists rd',
  DaemonTcp.read_frame n rd =
    (if n <=? len (flat rd) then Ok (take (Z.to_nat n) (flat rd))
     else err ConnectionAborted "peer shutdown", rd') /\
  HostTcp.read_frame n rd = DaemonTcp.read_frame n rd /\
  clean rd' /\ flat rd' = drop (Z.to_nat n) (flat rd).
Proof.
  intros Hc Hn. destruct (read_frame_flat n rd Hc Hn) as (rd' & E & H1 & H2).
  exists rd'. by split_and!.
Qed.
Lemma read_frame_chunking_witness : exists rd',
  DaemonTcp.read_frame 5 [Data (lit "he"); Data (lit "l"); Data (lit "lowor"); Data (lit "ld")] =
    (Ok (lit "hello"), rd') /\
  HostTcp.read_frame 5 [Data (lit "he"); Data (lit "l"); Data (lit "lowor"); Data (lit "ld")] =
  DaemonTcp.read_frame 5 [Data (lit "he"); Data (lit "l"); Data (lit "lowor"); Data (lit "ld")] /\
  clean rd' /\ flat rd' = lit "world".
Proof.
  apply (read_frame_chunking 5 [Data (lit "he"); Data (lit "l"); Data (lit "lowor"); Data (lit "ld")]).
  - apply (bool_decide_unpack _). vm_compute. exact I.
  - lia.
Defined.

(** C1: a session over TCP, plain or encrypted, delivers the messages sent, in
    order and unchanged, and reads no byte beyond them, whatever way the stream
    is cut into reads; the same bytes are read alike by the daemon's and by the
    host's receive loop. *)
Theorem session_roundtrip {HA : Aead} {HL : AeadLaws HA} sid ms cs cr :
  Forall sendable ms -> sender_ok (cs !! sid) -> agree (cs !! sid) (cr !! sid) ->
  exists wire ls', send_all sid ms (mkLink cs [] (mkWriter [] None)) = (Ok tt, ls') /\
  w_out (link_wr ls') = wire /\
  forall rd rest wr, clean rd -> flat rd = wire ++ rest -> exists lr',
    recv_n sid (length ms) (mkLink cr rd wr) = (Ok ms, lr') /\ flat (link_rd lr') = rest /\
    host_recv_n (length ms) (cr !! sid, rd) = (Ok ms, (ciphers lr' !! sid, link_rd lr')).
Proof.
  intros Hms Hs Ha.
  destruct (send_recv_all sid ms (mkLink cs [] (mkWriter [] None)) [] Hms eq_refl Hs)
    as (wire & ls' & E & _ & Hw & Ht).
  exists wire, ls'. rewrite Hw. split_and!; [done..|]. intros rd rest wr Hc Ef.
  destruct (Ht (mkLink cr rd wr) rest Ha Hc Ef) as (lr' & Er & _ & Ef' & _).
  exists lr'. split_and!; [done..|]. exact (host_recv_n_eq _ _ _ _ _ Er).
Qed.

#[local] Existing Instance ToyAead.aead.
#[local] Existing Instance ToyAead.laws.
Lemma session_roundtrip_witness : exists wire ls',
  send_all 5 [sample_msg; mkTaskMessage 9 ShellData [1; 2]]
    (mkLink {[ 5 := PskCipher_new sample_psk true ]} [] (mkWriter [] None)) = (Ok tt, ls') /\
  w_out (link_wr ls') = wire /\
  forall rd rest wr, clean rd -> flat rd = wire ++ rest -> exists lr',
    recv_n 5 2 (mkLink {[ 5 := PskCipher_new sample_psk false ]} rd wr) =
      (Ok [sample_msg; mkTaskMessage 9 ShellData [1; 2]], lr') /\
    flat (link_rd lr') = rest /\
    host_recv_n 2 (({[ 5 := PskCipher_new sample_psk false ]} : gmap Z PskCipher) !! 5, rd) =
      (Ok [sample_msg; mkTaskMessage 9 ShellData [1; 2]], (ciphers lr' !! 5, link_rd lr')).
Proof.
  apply (session_roundtrip 5 [sample_msg; mkTaskMessage 9 ShellData [1; 2]]
    {[ 5 := PskCipher_new sample_psk true ]} {[ 5 := PskCipher_new sample_psk false ]}).
  - repeat constructor; vm_compute; try discriminate; repeat constructor; discriminate.
  - vm_compute. intuition discriminate.
  - vm_compute. intuition discriminate.
Defined.
