(* ===== verification/Reading.v ===== *)
(** * Reading takes bytes and does not panic

    A small logic for the readers of [Transport]: each returns an error or a value
    on every stream of bytes, never more bytes than there were, and a frame only
    after taking some.  The loops of the daemon and of the host end by it. *)

From S2P Require Import Prelude RustStr Config Tlv Serializer Encrypt Transport.

Section Reading.
Definition weight (rd : Stream) : nat := (length (flat rd) + length rd)%nat.
(** [m] does not panic on a stream of bytes, leaves a stream of bytes that is not
    larger, and returns values that satisfy [P]; with [strict], a value only
    after taking something. *)
Definition consumes {A} (strict : bool) (P : A -> Prop) (m : M Stream A) : Prop := forall rd,
  bytes_ok (flat rd) ->
  let '(r, rd') := m rd in
  bytes_ok (flat rd') /\ (weight rd' <= weight rd)%nat /\
  match r with
  | Ok a => P a /\ (strict = true -> weight rd' < weight rd)%nat
  | Err _ => True
  | Panic => False
  end.

Lemma tcp_read_consumes n :
  0 < n -> consumes false (fun b => bytes_ok b /\ len b <= n) (tcp_read n).
Proof.
  intros Hn rd Hb. unfold tcp_read, weight. destruct rd as [|[b|e] t].
  - split_and!; try done. unfold len. simpl. lia.
  - unfold flat in *. simpl in Hb. apply bytes_ok_app in Hb as [Hb Ht]. destruct (Z.leb_spec (len b) n); simpl.
    + split_and!; try done. rewrite length_app. lia.
    + rewrite bytes_ok_app. split_and!; try done; auto with hdc.
      * rewrite !length_app, length_drop. lia.
      * unfold len. rewrite length_take. lia.
  - unfold flat in *. simpl in *. split_and!; try done. lia.
Qed.
(** A read that returned bytes took something. *)
Lemma tcp_read_progress n rd b rd' :
  0 < n -> tcp_read n rd = (Ok b, rd') -> len b <> 0 -> (weight rd' < weight rd)%nat.
Proof.
  intros Hn E Hb. unfold tcp_read, weight, flat in *. destruct rd as [|[d|e] t]; [by injection E as <- <-| |done].
  simpl in *. destruct (Z.leb_spec (len d) n); injection E as <- <-; simpl; rewrite ?length_app, ?length_drop.
  - lia.
  - unfold len in *. rewrite length_take in Hb. lia.
Qed.

Lemma read_loop_consumes fuel got expected :
  bytes_ok got -> len got <= expected -> (Z.to_nat (expected - len got) <= fuel)%nat ->
  consumes (len got <? expected) (fun d => bytes_ok d /\ len d = expected)
    (read_loop (fun _ n => tcp_read n) read_tcp_failed "peer shutdown" fuel got expected).
Proof.
  revert got; induction fuel as [|f IH]; intros got Hg Hl Hf rd Hb; cbn [read_loop];
    destruct (Z.leb_spec expected (len got)) as [Hle|Hlt].
  - rewrite (proj2 (Z.ltb_ge _ _)) by lia. split_and!; try done. lia.
  - lia.
  - rewrite (proj2 (Z.ltb_ge _ _)) by lia. split_and!; try done. lia.
  - pose proof (tcp_read_consumes (expected - len got) ltac:(lia) rd Hb) as Hr.
    destruct (tcp_read (expected - len got) rd) as [[b|e|] rd1] eqn:Er; [|by destruct Hr as (? & ? & ?)..].
    destruct Hr as (Hb1 & Hw1 & (Hbb & Hlb) & _).
    destruct (Z.eqb_spec (len b) 0) as [E0|E0]; [done|].
    pose proof (tcp_read_progress (expected - len got) _ _ _ ltac:(lia) Er E0) as Hw.
    assert (Hlb0 : 0 < len b) by (pose proof (len_nonneg b); lia).
    specialize (IH (got ++ b)). rewrite len_app in IH. specialize (IH ltac:(by apply bytes_ok_app) ltac:(lia) ltac:(lia) rd1 Hb1).
    destruct (read_loop _ _ _ f (got ++ b) expected rd1) as [r rd2]. destruct IH as (H1 & H2 & H3).
    split_and!; [done|lia|]. destruct r; [|done|done]. destruct H3 as [H3 _]. split; [done|]. lia.
Qed.
Lemma read_frame_consumes n :
  0 <= n -> consumes (0 <? n) (fun d => bytes_ok d /\ len d = n) (DaemonTcp.read_frame n).
Proof.
  intros Hn. unfold DaemonTcp.read_frame. destruct (Z.eqb_spec n 0) as [->|Hne].
  - intros rd Hb. simpl. split_and!; (done || lia || constructor).
  - pose proof (read_loop_consumes (Z.to_nat n) [] n ltac:(constructor) ltac:(rewrite len_nil; lia) ltac:(rewrite len_nil; lia)) as H.
    by rewrite len_nil in H.
Qed.

Lemma consumes_bind {A B} s1 s2 (P : A -> Prop) (Q : B -> Prop) m f :
  consumes s1 P m -> (forall a, P a -> consumes s2 Q (f a)) -> consumes (s1 || s2) Q (m ≫= f).
Proof.
  intros Hm Hf rd Hb. rewrite M_bind_eq. specialize (Hm rd Hb). destruct (m rd) as [[a|e|] rd1]; [|done|done].
  destruct Hm as (Hb1 & Hw1 & Ha & Hs1). specialize (Hf a Ha rd1 Hb1). destruct (f a rd1) as [r rd2].
  destruct Hf as (Hb2 & Hw2 & Hr). split_and!; [done|lia|]. destruct r; [|done|done].
  destruct Hr as [HQ Hs2]. split; [done|]. intros [->| ->]%orb_prop; [specialize (Hs1 eq_refl)|specialize (Hs2 eq_refl)]; lia.
Qed.
Lemma consumes_lift {A} (P : A -> Prop) (r : Result A) :
  r <> Panic -> (forall a, r = Ok a -> P a) -> consumes false P (lift r).
Proof. intros Hn HP rd Hb. simpl. split_and!; [done|lia|]. destruct r; [|done|done]. split; [by apply HP|done]. Qed.
Lemma consumes_weaken {A} s (P Q : A -> Prop) m :
  consumes s P m -> (forall a, P a -> Q a) -> consumes s Q m.
Proof.
  intros Hm HPQ rd Hb. specialize (Hm rd Hb). destruct (m rd) as [[a|e|] rd1]; [|done|done].
  destruct Hm as (? & ? & ? & ?). split_and!; auto.
Qed.

Lemma consumes_any {A} s (P : A -> Prop) m : consumes s P m -> consumes false P m.
Proof.
  intros Hm rd Hb. specialize (Hm rd Hb). destruct (m rd) as [[a|e|] rd1]; [|done|done].
  destruct Hm as (? & ? & ? & ?). by split_and!.
Qed.
Lemma consumes_ret {A} (P : A -> Prop) a : P a -> consumes false P (mret a).
Proof. intros Ha. by apply (consumes_lift P (Ok a)); [|intros ? [= <-]]. Qed.

(** The head of a frame. *)
Lemma read_head_consumes {B} (Q : B -> Prop) (f : bytes -> PayloadHead.t -> M Stream B) :
  (forall head h, bytes_ok head -> PayloadHead.wf h -> consumes false Q (f head h)) ->
  consumes true Q (head ← DaemonTcp.read_frame HEAD_SIZE; h ← lift (unpack_payload_head head); f head h).
Proof.
  intros Hf. refine (consumes_bind true false _ _ _ _ (read_frame_consumes HEAD_SIZE ltac:(done)) _). intros head [Hh Hlen].
  refine (consumes_bind false false PayloadHead.wf _ _ _ _ _); [|intros h Hwf; by apply Hf].
  apply consumes_lift; [apply unpack_payload_head_no_panic|]. intros h Eh.
  by apply unpack_payload_head_ok in Eh as (_ & _ & Hwf & _).
Qed.
(** The two parts behind the head. *)
Lemma read_parts_consumes {B} (Q : B -> Prop) hs ds (f : bytes -> bytes -> M Stream B) :
  0 <= hs -> 0 <= ds -> (forall p d, bytes_ok p -> bytes_ok d -> consumes false Q (f p d)) ->
  consumes false Q (p ← DaemonTcp.read_frame hs; d ← DaemonTcp.read_frame ds; f p d).
Proof.
  intros Hh Hd Hf. eapply (consumes_bind false false); [by eapply consumes_any, read_frame_consumes|]. intros p [Hp _].
  eapply (consumes_bind false false); [by eapply consumes_any, read_frame_consumes|]. intros d [Hdd _]. by apply Hf.
Qed.
Lemma wf_sizes h : PayloadHead.wf h -> 0 <= PayloadHead.head_size h /\ 0 <= PayloadHead.data_size h.
Proof. intros (_&_&_&_&_&Hhs&Hds). split; ulia. Qed.

Lemma recv_raw_frame_consumes : consumes true bytes_ok DaemonTcp.recv_raw_frame.
Proof.
  apply read_head_consumes. intros head h Hh [Hs Hd]%wf_sizes. case_if; [by intros rd Hb|].
  apply read_parts_consumes; [done..|]. intros p d Hp Hdd. apply consumes_ret. by rewrite !bytes_ok_app.
Qed.
Lemma recv_raw_hdc_frame_consumes : consumes true bytes_ok HostTcp.recv_raw_hdc_frame.
Proof.
  unfold HostTcp.recv_raw_hdc_frame. rewrite host_read_frame_eq. apply read_head_consumes.
  intros head h Hh [Hs Hd]%wf_sizes.
  apply read_parts_consumes; [done..|]. intros p d Hp Hdd. apply consumes_ret. by rewrite !bytes_ok_app.
Qed.
(** A length and as many bytes. *)
Lemma recv_sized_consumes {B} (Q : B -> Prop) (f : bytes -> M Stream B) :
  (forall d, bytes_ok d -> consumes false Q (f d)) ->
  consumes true Q (l ← DaemonTcp.read_frame 4; d ← DaemonTcp.read_frame (from_be_bytes (slice_raw 0 4 l)); f d).
Proof.
  intros Hf. refine (consumes_bind true false _ _ _ _ (read_frame_consumes 4 ltac:(lia)) _). intros l [Hl _].
  eapply (consumes_bind false false); [eapply consumes_any, read_frame_consumes, from_be_bytes_range; auto with hdc|].
  intros d [Hd _]. by apply Hf.
Qed.
End Reading.

Lemma decrypt_bytes {HA : Aead} {HL : AeadLaws HA} ct c :
  (decrypt ct c).1 <> Panic /\ forall p, (decrypt ct c).1 = Ok p -> bytes_ok p.
Proof.
  unfold decrypt. destruct (len ct <? 8 + TAG_LEN); [done|]. destruct (new_from_slice _); [|done].
  destruct (aead_decrypt _ _ _) eqn:Ed; [|done]. split; [done|]. intros p [= <-]. by eapply aead_decrypt_bytes.
Qed.
