(* ===== verification/Usb.v ===== *)
(** * USB: device selection and the USB transport of the host

    [src/hdc/src/usb.rs] (bulk transfers, enumeration, opening a device) and
    [src/hdc/src/transfer/usb.rs] (framing).  The libraries [rusb] and [libusb]
    are outside the repository: what they report (the descriptors of the
    attached devices, the outcome of each bulk transfer) is data of the model. *)

From S2P Require Import Prelude RustStr Config Tlv Serializer Encrypt Transport.

(** A signed integer in decimal, as [{}] prints an [i32]. *)
Definition fmt_int (v : Z) : bytes := if v <? 0 then lit "-" ++ fmt_dec (- v) else fmt_dec v.

(** ** Bulk transfers *)

(** How one submitted transfer can end; for a completed one, the status libusb
    gives the callback and the bytes that arrived, of a read; of a write, as many bytes
    as went out ([actual_length]). *)
Inductive Outcome :=
  | AllocFailed | SubmitFailed (r : Z) | SenderDropped | Completed (status : Z) (data : bytes).

(** [transfer_callback]: the status of a transfer as a result. *)
Definition transfer_callback (status : Z) (data : bytes) : Result bytes :=
  match status with
  | 0 => Ok data
  | 2 => err TimedOut "USB transfer timed out"
  | 3 => err Interrupted "USB transfer cancelled"
  | 4 => err OtherError "USB transfer stalled"
  | 5 => err NotConnected "USB device disconnected"
  | 6 => err OtherError "USB transfer overflow"
  | _ => Err (mkError OtherError (lit "USB transfer failed: status=" ++ fmt_int status))
  end.
Definition submit_transfer (o : Outcome) : Result bytes :=
  match o with
  | AllocFailed => err OtherError "libusb_alloc_transfer failed"
  | SubmitFailed r => Err (mkError OtherError (lit "libusb_submit_transfer failed: " ++ fmt_int r))
  | Completed status data => transfer_callback status data
  | SenderDropped => err OtherError "USB transfer cancelled (sender dropped)"
  end.

(** A connection: the outcomes of the reads to come, the transfers written so
    far and the outcomes of the writes to come (none left: the write completes). *)
Record UsbLink := mkUsbLink {
  usb_in : list Outcome; usb_out : list (Z * bytes); usb_out_next : list Outcome
}.
(** A write can end short with the status of success; its callers do not look at the length.
    A device that sends more than the [n] bytes asked for ends the transfer with
    the overflow status; when no transfer is left the device is gone. *)
Definition read_bulk (endpoint n timeout_ms : Z) : M UsbLink bytes := fun c =>
  match usb_in c with
  | [] => (submit_transfer SenderDropped, c)
  | o :: t =>
      let o := match o with
               | Completed 0 data => if n <? len data then Completed 6 [] else o
               | _ => o
               end in
      (submit_transfer o, mkUsbLink t (usb_out c) (usb_out_next c))
  end.
Definition write_bulk (endpoint : Z) (data : bytes) (timeout_ms : Z) : M UsbLink Z := fun c =>
  match usb_out_next c with
  | [] => (Ok (len data), mkUsbLink (usb_in c) (usb_out c ++ [(endpoint, data)]) [])
  | o :: t =>
      let sent := match o with Completed _ d => take (length d) data | _ => [] end in
      let out := match sent with [] => usb_out c | _ => usb_out c ++ [(endpoint, sent)] end in
      match submit_transfer o with
      | Ok _ => (Ok (len sent), mkUsbLink (usb_in c) out t)
      | Err e => (Err e, mkUsbLink (usb_in c) out t)
      | Panic => (Panic, c)
      end
  end.

(** ** Framing *)

Definition read_exact_from_usb (endpoint expected_size timeout_ms : Z) : M UsbLink bytes :=
  if expected_size =? 0 then mret []
  else read_loop (fun index to_read =>
           read_bulk endpoint to_read (if index =? 0 then timeout_ms else 5000))
         (fun e => e) "USB peer shutdown" (Z.to_nat expected_size) [] expected_size.

(** The number of bytes dropped. *)
Definition read_usb_drop (endpoint buf_size : Z) : M UsbLink Z :=
  data ← read_bulk endpoint buf_size 500; mret (len data).

Definition build_usb_header (session_id option data_size : Z) : bytes :=
  UsbHead.serialize
    (UsbHead.mk (at_ USB_PACKET_FLAG 0, at_ USB_PACKET_FLAG 1) option session_id data_size).

Definition send_usb_soft_reset (endpoint session_id : Z) : M UsbLink unit :=
  let header := build_usb_header session_id USB_OPTION_RESET 0 in
  _ ← write_bulk endpoint header 5000;
  mret tt.

Definition send_usb_raw (endpoint session_id : Z) (payload : bytes) (max_packet_size : Z)
  : M UsbLink unit :=
  let payload_len := len payload in
  let header := build_usb_header session_id USB_OPTION_HEADER (wrap 32 payload_len) in
  _ ← write_bulk endpoint header 30000;
  _ ← (match payload with [] => mret 0 | _ => write_bulk endpoint payload 30000 end);
  if 0 <? payload_len then
    if max_packet_size =? 0 then lift Panic
    else if payload_len mod max_packet_size =? 0 then
      let dummy := build_usb_header session_id 0 0 in
      _ ← write_bulk endpoint dummy 30000;
      mret tt
    else mret tt
  else mret tt.

Definition send_usb_message (endpoint session_id : Z) (msg : TaskMessage) (max_packet_size : Z)
  : M UsbLink unit :=
  send_usb_raw endpoint session_id (concat_pack msg) max_packet_size.

(** The second half of [recv_usb_message]: the packet in the payload. *)
Definition parse_usb_payload (payload_data : bytes) : Result TaskMessage :=
  if len payload_data <? HEAD_SIZE then err InvalidData "payload too short for head"
  else
    head_bytes ← slice 0 HEAD_SIZE payload_data;
    payload_head ← unpack_payload_head head_bytes;
    let expected_head_size := PayloadHead.head_size payload_head in
    let expected_data_size := PayloadHead.data_size payload_head in
    if len payload_data <? HEAD_SIZE + expected_head_size + expected_data_size then
      err InvalidData "incomplete payload"
    else
      protect_data ← slice HEAD_SIZE (HEAD_SIZE + expected_head_size) payload_data;
      payload_protect ← unpack_payload_protect protect_data;
      match HdcCommand_try_from (PayloadProtect.command_flag payload_protect) with
      | None => err InvalidData "unknown command"
      | Some command =>
          payload ← slice (HEAD_SIZE + expected_head_size)
                      (HEAD_SIZE + expected_head_size + expected_data_size) payload_data;
          Ok (mkTaskMessage (PayloadProtect.channel_id payload_protect) command payload)
      end.

Definition recv_usb_message (endpoint : Z) : M UsbLink (Z * TaskMessage) :=
  head_data ← read_exact_from_usb endpoint USB_HEAD_SIZE 0;
  usb_head ← lift (UsbHead.deserialize head_data);
  let session_id := UsbHead.session_id usb_head in
  let data_size := UsbHead.data_size usb_head in
  let option := UsbHead.option_ usb_head in
  if data_size =? 0 then throw InvalidData "USB nop/reset packet"
  else if Z.land option USB_OPTION_HEADER =? 0 then
    lift (Err (mkError InvalidData (lit "USB packet without HEADER option: " ++ fmt_dec option)))
  else if HDC_BUF_MAX_SIZE <? data_size then throw InvalidData "USB payload too large"
  else
    payload_data ← read_exact_from_usb endpoint data_size 0;
    task ← lift (parse_usb_payload payload_data);
    mret (session_id, task).

(** ** Devices *)

Definition HARMONY_CLASS : Z := 255.
Definition HARMONY_SUBCLASS : Z := 80.
Definition HARMONY_PROTOCOL : Z := 1.
Definition HARMONY_EP_NUM : Z := 2.

(** What [rusb] reports of a device. *)
Record Endpoint := mkEndpoint {
  ep_address : Z; ep_bulk : bool; ep_in : bool; ep_max_packet_size : Z
}.
Record Alt := mkAlt { class_code : Z; sub_class_code : Z; protocol_code : Z; endpoints : list Endpoint }.
Record Interface := mkInterface { if_number : Z; alts : list Alt }.
Definition ConfigDesc : Type := list Interface.
(** A fallible call of [rusb] is [inl text] when it fails. *)
Record UsbDevice := mkUsbDevice {
  device_descriptor : bytes + (Z * Z);
  opened : bytes + (bytes + bytes);       (** [open], then the serial number *)
  active_config : bytes + ConfigDesc;
  config_0 : bytes + ConfigDesc;
  dev_address : Z;
  claim_interface : Z -> option bytes     (** the error text of a refusal *)
}.
Definition config_of (d : UsbDevice) : bytes + ConfigDesc :=
  match active_config d with inr c => inr c | inl _ => config_0 d end.

Record UsbDeviceInfo := mkUsbDeviceInfo {
  serial_number : bytes; vendor_id : Z; product_id : Z; device_address : Z
}.

Definition hdc_alt (a : Alt) : bool :=
  (class_code a =? HARMONY_CLASS) && (sub_class_code a =? HARMONY_SUBCLASS) &&
  (protocol_code a =? HARMONY_PROTOCOL).

(** One iteration of the loop over the devices; the inner loops stop at the
    first interface descriptor that matches. *)
Definition enumerate_one (d : UsbDevice) : list UsbDeviceInfo :=
  match device_descriptor d with
  | inl _ => []
  | inr (vid, pid) =>
      match opened d with
      | inr (inr serial) =>
          match config_of d with
          | inr config =>
              if existsb (fun i => existsb
                   (fun a => hdc_alt a && (len (endpoints a) =? HARMONY_EP_NUM)) (alts i)) config
              then [mkUsbDeviceInfo serial vid pid (dev_address d)] else []
          | inl _ => []
          end
      | _ => []
      end
  end.
Definition enumerate_harmony_devices (devices : bytes + list UsbDevice) : list UsbDeviceInfo :=
  match devices with
  | inl _ => []
  | inr dev_list => flat_map enumerate_one dev_list
  end.

(** The endpoints of an interface descriptor: the last bulk one of each
    direction. *)
Definition bulk_pair (eps : list Endpoint) : option Z * option Z :=
  foldl (fun '(bulk_in, bulk_out) ep =>
    if ep_bulk ep then
      if ep_in ep then (Some (ep_address ep), bulk_out) else (bulk_in, Some (ep_address ep))
    else (bulk_in, bulk_out)) (None, None) eps.
Fixpoint find_alt (l : list Alt) : option (Z * Z) :=
  match l with
  | [] => None
  | a :: t =>
      if hdc_alt a then
        match bulk_pair (endpoints a) with
        | (Some in_addr, Some out_addr) => Some (in_addr, out_addr)
        | _ => find_alt t
        end
      else find_alt t
  end.
Fixpoint find_interface (config : ConfigDesc) : option (Z * Z * Z) :=
  match config with
  | [] => None
  | i :: t =>
      match find_alt (alts i) with
      | Some (in_addr, out_addr) => Some (if_number i, in_addr, out_addr)
      | None => find_interface t
      end
  end.
Definition max_packet_of (config : ConfigDesc) (out_addr : Z) : Z :=
  match List.find (fun e => ep_address e =? out_addr) (flat_map endpoints (flat_map alts config)) with
  | Some e => ep_max_packet_size e
  | None => 512
  end.

Record AsyncUsbConnection := mkAsyncUsbConnection {
  interface : Z; bulk_in : Z; bulk_out : Z; max_packet_size : Z
}.
Fixpoint connect_loop (serial : bytes) (dev_list : list UsbDevice) : Result AsyncUsbConnection :=
  match dev_list with
  | [] => err NotFound "USB device not found"
  | d :: t =>
      match device_descriptor d with
      | inl e => Err (mkError OtherError (lit "device descriptor failed: " ++ e))
      | inr _ =>
          match opened d with
          | inr (inr dev_serial) =>
              if negb (beq dev_serial serial) then connect_loop serial t
              else
                match config_of d with
                | inl e => Err (mkError OtherError (lit "config descriptor failed: " ++ e))
                | inr config =>
                    match find_interface config with
                    | Some (iface_num, in_addr, out_addr) =>
                        match claim_interface d iface_num with
                        | Some e => Err (mkError OtherError (lit "claim interface failed: " ++ e))
                        | None =>
                            Ok (mkAsyncUsbConnection iface_num in_addr out_addr
                                  (max_packet_of config out_addr))
                        end
                    | None => err NotFound "No matching interface found on device"
                    end
                end
          | _ => connect_loop serial t
          end
      end
  end.
Definition connect_usb_device (devices : bytes + list UsbDevice) (serial : bytes)
  : Result AsyncUsbConnection :=
  match devices with
  | inl e => Err (mkError OtherError (lit "list devices failed: " ++ e))
  | inr dev_list => connect_loop serial dev_list
  end.

(** ** Facts *)

(** Reads that complete with the pieces [cs], one piece a read. *)
Definition pieces (cs : list bytes) : list Outcome := map (Completed 0) cs.

Lemma read_bulk_piece ep n tmo b t o w :
  len b <= n ->
  read_bulk ep n tmo (mkUsbLink (Completed 0 b :: t) o w) = (Ok b, mkUsbLink t o w).
Proof. intros H. unfold read_bulk. cbn [usb_in]. by rewrite (proj2 (Z.ltb_ge n (len b))). Qed.

Lemma usb_read_loop_pieces ep tmo fuel got expected cs rest o w :
  Forall (fun b => b <> []) cs -> expected = len got + len (concat cs) ->
  (Z.to_nat (len (concat cs)) <= fuel)%nat ->
  read_loop (fun index to_read => read_bulk ep to_read (if index =? 0 then tmo else 5000))
    (fun e => e) "USB peer shutdown" fuel got expected (mkUsbLink (pieces cs ++ rest) o w) =
  (Ok (got ++ concat cs), mkUsbLink rest o w).
Proof.
  revert got fuel; induction cs as [|b cs IH]; intros got fuel Hcs Hex Hf.
  - simpl in *. rewrite len_nil in Hex. destruct fuel; cbn [read_loop];
      rewrite (proj2 (Z.leb_le _ _)) by lia; by rewrite app_nil_r.
  - apply Forall_cons in Hcs as [Hb Hcs]. cbn [concat] in *. rewrite len_app in *.
    assert (0 < len b) by (destruct b; [done|]; rewrite len_cons; pose proof (len_nonneg b); lia).
    pose proof (len_nonneg (concat cs)).
    destruct fuel as [|fuel]; [lia|]. cbn [read_loop].
    rewrite (proj2 (Z.leb_gt expected (len got))) by lia. simpl pieces. cbn [app].
    rewrite read_bulk_piece, (proj2 (Z.eqb_neq (len b) 0)) by lia.
    rewrite IH; [by rewrite app_assoc|done|rewrite len_app; lia|lia].
Qed.
Lemma read_exact_pieces ep n tmo cs rest o w :
  Forall (fun b => b <> []) cs -> n = len (concat cs) ->
  read_exact_from_usb ep n tmo (mkUsbLink (pieces cs ++ rest) o w) =
  (Ok (concat cs), mkUsbLink rest o w).
Proof.
  intros Hcs ->. unfold read_exact_from_usb. case_if.
  - destruct cs as [|b cs]; [done|]. apply Forall_cons in Hcs as [Hb _].
    cbn [concat] in *. rewrite len_app in *. pose proof (len_nonneg (concat cs)).
    destruct b; [done|]. rewrite len_cons in *. pose proof (len_nonneg b). lia.
  - by apply usb_read_loop_pieces.
Qed.

Lemma build_usb_header_read sid op n :
  u32 sid -> u8 op -> u32 n ->
  UsbHead.deserialize (build_usb_header sid op n) =
  Ok (UsbHead.mk (at_ USB_PACKET_FLAG 0, at_ USB_PACKET_FLAG 1) op sid n).
Proof.
  intros. rewrite <- (app_nil_r (build_usb_header sid op n)). apply UsbHead_read.
  unfold UsbHead.wf. cbn [UsbHead.flag UsbHead.option_ UsbHead.session_id UsbHead.data_size fst snd].
  split_and!; done || by vm_compute.
Qed.

(** What the common unpacking accepts, the USB receiver accepts alike (it makes
    fewer checks). *)
Lemma parse_usb_payload_of_unpack data m :
  unpack_task_message data = Ok m -> parse_usb_payload data = Ok m.
Proof.
  unfold unpack_task_message, parse_usb_payload. case_if; [done|].
  intros H. apply bind_Ok_inv in H as (hb & -> & H). rewrite bind_Ok.
  apply bind_Ok_inv in H as (ph & -> & H). rewrite bind_Ok.
  case_if; [by case_if|]. case_if; [done|]. apply bind_Ok_inv in H as (pd & -> & H). rewrite bind_Ok.
  apply bind_Ok_inv in H as (pl & -> & H). apply bind_Ok_inv in H as (pp & -> & H).
  rewrite bind_Ok. case_if; [done|]. destruct (HdcCommand_try_from _); [|done]. by rewrite bind_Ok.
Qed.

(** The payload of a USB packet: the same packet a TCP frame carries. *)
Lemma recv_usb_message_pieces ep sid m hcs pcs rest o w :
  u32 sid -> sendable m -> len (concat_pack m) <= HDC_BUF_MAX_SIZE ->
  Forall (fun b => b <> []) (hcs ++ pcs) ->
  concat hcs = build_usb_header sid USB_OPTION_HEADER (wrap 32 (len (concat_pack m))) ->
  concat pcs = concat_pack m ->
  recv_usb_message ep (mkUsbLink (pieces hcs ++ pieces pcs ++ rest) o w) =
  (Ok (sid, m), mkUsbLink rest o w).
Proof.
  intros Hsid (Hw & Hl & Hfit)%sendable_fits Hmax [Hh Hp]%Forall_app Eh Ep.
  pose proof (len_concat_pack m) as Hlen. unfold recv_usb_message.
  assert (Hu : u32 (len (concat_pack m))) by (unfold HDC_BUF_MAX_SIZE in Hmax; ulia).
  rewrite (wrap_small 32) in Eh by done.
  rewrite (M_bind_Ok _ _ _ _ _ (read_exact_pieces ep _ 0 hcs _ o w Hh ltac:(by rewrite Eh))).
  rewrite Eh, M_bind_eq. unfold lift. rewrite build_usb_header_read by (done || ulia).
  cbn [UsbHead.data_size UsbHead.option_ UsbHead.session_id].
  rewrite (proj2 (Z.eqb_neq _ 0)) by lia. change (Z.land USB_OPTION_HEADER USB_OPTION_HEADER =? 0) with false.
  cbv iota. rewrite (proj2 (Z.ltb_ge _ _)) by lia.
  rewrite (M_bind_Ok _ _ _ _ _ (read_exact_pieces ep _ 0 pcs _ o w Hp ltac:(by rewrite Ep))), Ep.
  rewrite M_bind_eq. unfold lift. rewrite (parse_usb_payload_of_unpack _ m); [done|].
  rewrite <- (app_nil_r (concat_pack m)), unpack_concat_pack, Hfit by done. done.
Qed.

(** The transfers of a message: header, packet, and the dummy header when the
    packet ends on a packet boundary of the endpoint. *)
Definition usb_transfers (ep sid : Z) (packet : bytes) (mps : Z) : list (Z * bytes) :=
  [(ep, build_usb_header sid USB_OPTION_HEADER (wrap 32 (len packet))); (ep, packet)] ++
  (if len packet mod mps =? 0 then [(ep, build_usb_header sid 0 0)] else []).

Lemma send_usb_raw_free ep sid packet mps i o :
  packet <> [] -> 0 < mps ->
  send_usb_raw ep sid packet mps (mkUsbLink i o []) =
  (Ok tt, mkUsbLink i (o ++ usb_transfers ep sid packet mps) []).
Proof.
  intros Hp Hm. destruct packet as [|b packet]; [done|].
  unfold send_usb_raw. rewrite !M_bind_eq. cbn [write_bulk usb_out_next usb_in usb_out].
  rewrite M_bind_eq. cbn [write_bulk usb_out_next usb_in usb_out].
  rewrite (proj2 (Z.ltb_lt _ _)) by (rewrite len_cons; pose proof (len_nonneg packet); lia).
  rewrite (proj2 (Z.eqb_neq _ _)) by lia. unfold usb_transfers.
  destruct (len (b :: packet) mod mps =? 0).
  - rewrite M_bind_eq. cbn [write_bulk usb_out_next usb_in usb_out]. unfold mret, M_ret.
    do 2 f_equal. by rewrite <- !app_assoc.
  - unfold mret, M_ret. do 2 f_equal. by rewrite <- !app_assoc.
Qed.

(** A dummy header on its own is refused without reading more. *)
Lemma recv_dummy ep sid hcs rest o w :
  u32 sid -> Forall (fun b => b <> []) hcs -> concat hcs = build_usb_header sid 0 0 ->
  recv_usb_message ep (mkUsbLink (pieces hcs ++ rest) o w) =
  (err InvalidData "USB nop/reset packet", mkUsbLink rest o w).
Proof.
  intros Hsid Hh Eh. unfold recv_usb_message.
  rewrite (M_bind_Ok _ _ _ _ _ (read_exact_pieces ep _ 0 hcs _ o w Hh ltac:(by rewrite Eh))).
  rewrite Eh, M_bind_eq. unfold lift. rewrite build_usb_header_read by (done || by vm_compute).
  done.
Qed.

(** Bytes that arrive are bytes. *)
Definition outcome_ok (o : Outcome) : Prop :=
  match o with Completed _ data => bytes_ok data | _ => True end.
Definition link_ok (c : UsbLink) : Prop := Forall outcome_ok (usb_in c).

Lemma submit_transfer_ok o : outcome_ok o ->
  submit_transfer o <> Panic /\ forall b, submit_transfer o = Ok b -> bytes_ok b.
Proof.
  destruct o as [| | |st data]; simpl; try done. intros Hd. unfold transfer_callback.
  split; repeat case_match; try done; intros; by simplify_eq.
Qed.
Lemma read_bulk_ok ep n tmo c : link_ok c ->
  (read_bulk ep n tmo c).1 <> Panic /\ link_ok (read_bulk ep n tmo c).2 /\
  forall b, (read_bulk ep n tmo c).1 = Ok b -> bytes_ok b.
Proof.
  unfold link_ok, read_bulk. destruct (usb_in c) as [|o t] eqn:E; intros Hc.
  - cbn [fst snd]. rewrite E. by destruct (submit_transfer_ok SenderDropped I).
  - apply Forall_cons in Hc as [Ho Ht]. cbn [fst snd usb_in].
    set (o' := match o with Completed 0 _ => _ | _ => _ end).
    assert (Ho' : outcome_ok o') by (unfold o'; repeat case_match; done || constructor).
    by destruct (submit_transfer_ok o' Ho').
Qed.
Lemma usb_read_loop_ok ep f msg fuel got expected c :
  link_ok c -> bytes_ok got -> (Z.to_nat (expected - len got) <= fuel)%nat ->
  let r := read_loop (fun i n => read_bulk ep n (f i)) (fun e => e) msg fuel got expected c in
  r.1 <> Panic /\ link_ok r.2 /\ forall b, r.1 = Ok b -> bytes_ok b.
Proof.
  revert got c; induction fuel as [|fuel IH]; intros got c Hc Hg Hf; cbn [read_loop].
  - rewrite (proj2 (Z.leb_le _ _)) by lia. simpl. split_and!; try done. by intros b [= <-].
  - case_if; [simpl; split_and!; try done; by intros b [= <-]|].
    destruct (read_bulk_ok ep (expected - len got) (f (len got)) c Hc) as (Hp & Hc' & Hb).
    destruct (read_bulk _ _ _ c) as [[b|e|] c']; cbn [fst snd] in *; [|by split_and!..|done].
    case_if; [by split_and!|]. apply IH; [done| |].
    + apply bytes_ok_app. split; [done|by apply Hb].
    + rewrite len_app. pose proof (len_nonneg b). lia.
Qed.
Lemma read_exact_ok ep n tmo c : link_ok c ->
  let r := read_exact_from_usb ep n tmo c in
  r.1 <> Panic /\ link_ok r.2 /\ forall b, r.1 = Ok b -> bytes_ok b.
Proof.
  intros Hc. unfold read_exact_from_usb. case_if.
  - simpl. split_and!; try done. intros b [= <-]. constructor.
  - apply (usb_read_loop_ok ep (fun i => if i =? 0 then tmo else 5000)); [done|constructor|].
    rewrite len_nil. lia.
Qed.
Lemma parse_usb_payload_no_panic data : bytes_ok data -> parse_usb_payload data <> Panic.
Proof.
  intros Hok. unfold parse_usb_payload, HEAD_SIZE. case_if; [done|].
  rewrite slice_no_panic, bind_Ok by lia. apply bind_no_panic; [apply unpack_payload_head_no_panic|].
  intros h Eh. apply unpack_payload_head_ok in Eh as (_ & _ & Hwf & _); [|auto with hdc].
  destruct Hwf as (_&_&_&_&_&Hhs&Hds). case_if; [done|].
  rewrite !slice_no_panic, bind_Ok by ulia. apply bind_no_panic; [apply PayloadProtect_total|].
  intros p _. by case_match.
Qed.
Lemma recv_usb_no_panic ep c : link_ok c -> (recv_usb_message ep c).1 <> Panic.
Proof.
  intros Hc. unfold recv_usb_message. rewrite M_bind_eq.
  destruct (read_exact_ok ep USB_HEAD_SIZE 0 c Hc) as (Hp & Hc' & Hb).
  destruct (read_exact_from_usb _ _ _ c) as [[hd|e|] c']; cbn [fst snd] in *; [|done..].
  rewrite M_bind_eq. unfold lift at 1, UsbHead.deserialize. case_if; [done|].
  repeat (case_if; [done|]). rewrite M_bind_eq.
  match goal with |- context [read_exact_from_usb ep ?n 0 c'] =>
    destruct (read_exact_ok ep n 0 c' Hc') as (Hp2 & _ & Hb2) end.
  destruct (read_exact_from_usb _ _ _ c') as [[pd|e|] c2]; cbn [fst snd] in *; [|done..].
  rewrite M_bind_eq. unfold lift. pose proof (parse_usb_payload_no_panic pd (Hb2 pd eq_refl)).
  by destruct (parse_usb_payload pd).
Qed.

(** ** Properties *)

(** C36: the framing on USB, when every transfer is written whole.  A message is written as an 11-byte
    header transfer, the packet as its own transfer, and a dummy header exactly when the packet is a
    multiple of the endpoint's packet size; a receiver that is given these
    transfers, in any pieces, has the session and the message, and refuses the
    dummy header as a nop without taking anything of what follows.  An endpoint
    that reports a packet size of zero makes the sender panic after the packet
    is out. *)
Theorem usb_message_roundtrip ep sid m mps i o :
  u32 sid -> sendable m -> len (concat_pack m) <= HDC_BUF_MAX_SIZE -> 0 < mps ->
  send_usb_message ep sid m mps (mkUsbLink i o []) =
    (Ok tt, mkUsbLink i (o ++ usb_transfers ep sid (concat_pack m) mps) []) /\
  send_usb_message ep sid m 0 (mkUsbLink i o []) =
    (Panic, mkUsbLink i (o ++ take 2 (usb_transfers ep sid (concat_pack m) 1)) []) /\
  (forall hcs pcs rest o w,
    Forall (fun b => b <> []) (hcs ++ pcs) ->
    concat hcs = build_usb_header sid USB_OPTION_HEADER (wrap 32 (len (concat_pack m))) ->
    concat pcs = concat_pack m ->
    recv_usb_message ep (mkUsbLink (pieces hcs ++ pieces pcs ++ rest) o w) =
      (Ok (sid, m), mkUsbLink rest o w)) /\
  (forall dcs rest o w, Forall (fun b => b <> []) dcs -> concat dcs = build_usb_header sid 0 0 ->
    recv_usb_message ep (mkUsbLink (pieces dcs ++ rest) o w) =
      (err InvalidData "USB nop/reset packet", mkUsbLink rest o w)).
Proof.
  intros Hsid Hm Hmax Hmps. pose proof (len_concat_pack m) as Hl.
  assert (Hne : concat_pack m <> []) by (intros E; rewrite E, len_nil in Hl; lia).
  split_and!.
  - by apply send_usb_raw_free.
  - unfold send_usb_message, send_usb_raw. destruct (concat_pack m) as [|b p]; [done|].
    rewrite M_bind_eq. cbn [write_bulk usb_out_next usb_in usb_out].
    rewrite M_bind_eq. cbn [write_bulk usb_out_next usb_in usb_out].
    rewrite (proj2 (Z.ltb_lt _ _)) by (rewrite len_cons; pose proof (len_nonneg p); lia).
    unfold lift, usb_transfers. cbn [Z.eqb]. by rewrite <- app_assoc.
  - intros. by apply recv_usb_message_pieces.
  - intros. by apply (recv_dummy ep sid).
Qed.
Lemma usb_message_roundtrip_witness :
  send_usb_message 2 77 sample_msg 512 (mkUsbLink [] [] []) =
    (Ok tt, mkUsbLink [] (usb_transfers 2 77 (concat_pack sample_msg) 512) []).
Proof.
  refine (proj1 (usb_message_roundtrip 2 77 sample_msg 512 [] [] _ _ _ _)).
  - vm_compute. intuition discriminate.
  - split; [split|]; vm_compute; repeat constructor; discriminate.
  - vm_compute. discriminate.
  - lia.
Defined.

(** A write that ends short is not noticed: libusb reports the bytes that went out, and the
    sender does not look at their number.  So a header of which only [k] bytes were
    taken is followed by its packet, and the message counts as sent. *)
Theorem usb_short_write_unnoticed ep sid m mps i o k :
  0 < mps -> (0 < k)%nat ->
  let header := build_usb_header sid USB_OPTION_HEADER (wrap 32 (len (concat_pack m))) in
  (k <= length header)%nat ->
  send_usb_message ep sid m mps (mkUsbLink i o [Completed 0 (take k header)]) =
    (Ok tt, mkUsbLink i (o ++ (ep, take k header) :: drop 1 (usb_transfers ep sid (concat_pack m) mps)) []).
Proof.
  intros Hmps Hk header Hh. pose proof (len_concat_pack m) as Hl.
  assert (Hne : concat_pack m <> []) by (intros E; rewrite E, len_nil in Hl; pose proof (len_nonneg (payload m)); lia).
  assert (Hw : write_bulk ep header 30000 (mkUsbLink i o [Completed 0 (take k header)]) =
    (Ok (Z.of_nat k), mkUsbLink i (o ++ [(ep, take k header)]) [])).
  { unfold write_bulk. cbn [usb_out_next usb_in usb_out submit_transfer transfer_callback]. rewrite length_take_le by done. unfold len.
    rewrite length_take_le by done. destruct (take k header) eqn:Et; [|done]. apply (f_equal length) in Et. rewrite length_take_le in Et by done. simpl in Et. lia. }
  unfold send_usb_message, send_usb_raw. fold header. rewrite (M_bind_Ok _ _ _ _ _ Hw). unfold usb_transfers.
  destruct (concat_pack m) as [|b p]; [done|]. cbn [app drop].
  rewrite M_bind_eq. cbn [write_bulk usb_out_next usb_in usb_out].
  rewrite (proj2 (Z.ltb_lt _ _)) by (rewrite len_cons; pose proof (len_nonneg p); lia).
  rewrite (proj2 (Z.eqb_neq _ _)) by lia. destruct (len (b :: p) mod mps =? 0).
  - rewrite M_bind_eq. cbn [write_bulk usb_out_next usb_in usb_out]. unfold mret, M_ret. by rewrite <- !app_assoc.
  - unfold mret, M_ret. by rewrite <- !app_assoc.
Qed.

(** Whatever a USB device sends, in whatever pieces and with whatever
    transfer errors, receiving a message ends in a message or an error: the
    read loop stops and no slice is out of range. *)
Theorem recv_usb_total ep c : link_ok c -> (recv_usb_message ep c).1 <> Panic.
Proof. apply recv_usb_no_panic. Qed.
Lemma recv_usb_total_witness :
  (recv_usb_message 1 (mkUsbLink [Completed 0 (lit "UB1"); Completed 2 []] [] [])).1 <> Panic.
Proof.
  apply recv_usb_total. repeat constructor; vm_compute; discriminate.
Defined.

Lemma bulk_pair_inv eps acc i o :
  foldl (fun '(bulk_in, bulk_out) ep =>
    if ep_bulk ep then
      if ep_in ep then (Some (ep_address ep), bulk_out) else (bulk_in, Some (ep_address ep))
    else (bulk_in, bulk_out)) acc eps = (i, o) ->
  (forall a, i = Some a -> acc.1 = Some a \/
    exists e, e ∈ eps /\ ep_bulk e = true /\ ep_in e = true /\ ep_address e = a) /\
  (forall a, o = Some a -> acc.2 = Some a \/
    exists e, e ∈ eps /\ ep_bulk e = true /\ ep_in e = false /\ ep_address e = a).
Proof.
  revert acc; induction eps as [|e eps IH]; intros [ai ao] H; [simpl in H; simplify_eq; auto|].
  simpl in H. apply IH in H as [Hi Ho].
  split; intros a Ha; [destruct (Hi a Ha) as [H|(e' & ? & ?)]|destruct (Ho a Ha) as [H|(e' & ? & ?)]];
    try (right; exists e'; split; [by apply list_elem_of_further|done]).
  - destruct (ep_bulk e) eqn:Eb, (ep_in e) eqn:Ei; simpl in *; auto.
    right. exists e. simplify_eq. split; [apply list_elem_of_here|done].
  - destruct (ep_bulk e) eqn:Eb, (ep_in e) eqn:Ei; simpl in *; auto.
    right. exists e. simplify_eq. split; [apply list_elem_of_here|done].
Qed.

(** The descriptors a selected interface comes from. *)
Definition selected (config : ConfigDesc) (iface in_addr out_addr : Z) : Prop :=
  exists i a e_in e_out, i ∈ config /\ a ∈ alts i /\ hdc_alt a = true /\ if_number i = iface /\
    e_in ∈ endpoints a /\ ep_bulk e_in = true /\ ep_in e_in = true /\ ep_address e_in = in_addr /\
    e_out ∈ endpoints a /\ ep_bulk e_out = true /\ ep_in e_out = false /\ ep_address e_out = out_addr.

Lemma find_alt_inv l in_addr out_addr :
  find_alt l = Some (in_addr, out_addr) ->
  exists a, a ∈ l /\ hdc_alt a = true /\ bulk_pair (endpoints a) = (Some in_addr, Some out_addr).
Proof.
  induction l as [|a l IH]; simpl; [done|]. destruct (hdc_alt a) eqn:Ea.
  2:{ intros (b & ? & ?)%IH. exists b. split; [by apply list_elem_of_further|done]. }
  destruct (bulk_pair (endpoints a)) as [[i|] [o|]] eqn:Eb;
    try (intros (b & ? & ?)%IH; exists b; split; [by apply list_elem_of_further|done]).
  intros [= <- <-]. exists a. split; [apply list_elem_of_here|done].
Qed.
Lemma find_interface_inv config iface in_addr out_addr :
  find_interface config = Some (iface, in_addr, out_addr) -> selected config iface in_addr out_addr.
Proof.
  induction config as [|i config IH]; simpl; [done|].
  destruct (find_alt (alts i)) as [[ia oa]|] eqn:Ea.
  - intros [= <- <- <-]. apply find_alt_inv in Ea as (a & Ha & Hh & Hb).
    apply bulk_pair_inv in Hb as [Hi Ho].
    destruct (Hi ia eq_refl) as [|(ei & ? & ? & ? & ?)]; [done|].
    destruct (Ho oa eq_refl) as [|(eo & ? & ? & ? & ?)]; [done|].
    exists i, a, ei, eo. split; [apply list_elem_of_here|]. by split_and!.
  - intros H%IH. destruct H as (i' & a & ei & eo & ? & ?).
    exists i', a, ei, eo. split; [by apply list_elem_of_further|done].
Qed.

Definition has_serial (serial : bytes) (d : UsbDevice) : Prop := opened d = inr (inr serial).

(** Opening a device by its serial number.  A connection is to the first
    device that can be opened and has that serial, on an interface with the HDC
    class codes that the device let the host claim, with the addresses of a bulk
    IN and a bulk OUT endpoint of it. *)
Theorem connect_usb_device_sound devices serial c :
  connect_usb_device (inr devices) serial = Ok c ->
  exists pre d post config,
    devices = pre ++ d :: post /\ Forall (fun d => ~ has_serial serial d) pre /\
    has_serial serial d /\ config_of d = inr config /\
    selected config (interface c) (bulk_in c) (bulk_out c) /\
    claim_interface d (interface c) = None /\
    max_packet_size c = max_packet_of config (bulk_out c).
Proof.
  simpl. induction devices as [|d devices IH]; simpl; [done|].
  destruct (device_descriptor d); [done|].
  assert (Hskip : ~ has_serial serial d -> connect_loop serial devices = Ok c ->
    exists pre d0 post config, d :: devices = pre ++ d0 :: post /\
      Forall (fun d => ~ has_serial serial d) pre /\ has_serial serial d0 /\
      config_of d0 = inr config /\ selected config (interface c) (bulk_in c) (bulk_out c) /\
      claim_interface d0 (interface c) = None /\ max_packet_size c = max_packet_of config (bulk_out c)).
  { intros Hn H. destruct (IH H) as (pre & d0 & post & config & -> & Hpre & Hrest).
    exists (d :: pre), d0, post, config. split; [done|]. split; [by constructor|done]. }
  unfold has_serial in *. destruct (opened d) as [|[|ds]] eqn:Eo; [by apply Hskip..|].
  unfold beq. case_bool_decide as Es; simpl; [subst ds|apply Hskip; congruence].
  destruct (config_of d) as [|config] eqn:Ec; [done|].
  destruct (find_interface config) as [[[iface ia] oa]|] eqn:Ef; [|done].
  destruct (claim_interface d iface) eqn:Ecl; [done|]. intros [= <-].
  exists [], d, devices, config. apply find_interface_inv in Ef. by split_and!.
Qed.

Definition sample_device : UsbDevice := mkUsbDevice (inr (8711, 20480)) (inr (inr (lit "SN1")))
  (inr [mkInterface 3 [mkAlt 255 80 1 [mkEndpoint 129 true true 512; mkEndpoint 2 true false 512]]])
  (inl []) 4 (fun _ => None).
Lemma connect_usb_device_sound_witness :
  connect_usb_device (inr [sample_device]) (lit "SN1") = Ok (mkAsyncUsbConnection 3 129 2 512) /\
  exists pre d post config,
    [sample_device] = pre ++ d :: post /\ Forall (fun d => ~ has_serial (lit "SN1") d) pre /\
    has_serial (lit "SN1") d /\ config_of d = inr config /\ selected config 3 129 2 /\
    claim_interface d 3 = None /\ 512 = max_packet_of config 2.
Proof.
  split; [reflexivity|].
  apply (connect_usb_device_sound [sample_device] (lit "SN1") (mkAsyncUsbConnection 3 129 2 512)).
  reflexivity.
Defined.
