(* ===== verification/NetAddr.v ===== *)
(** * Internet addresses as text

    The parsers of the Rust standard library that the address handling of the
    host uses: [Ipv4Addr], [Ipv6Addr], [IpAddr], [SocketAddrV4] and [SocketAddr]
    [from_str], and [Display] of [SocketAddrV4].  A parser takes the bytes that are
    left and gives a value with the rest; failing consumes nothing. *)

From S2P Require Import Prelude RustStr.

Definition P (A : Type) : Type := bytes -> option (A * bytes).
#[global] Instance P_ret : MRet P := fun A a s => Some (a, s).
#[global] Instance P_bind : MBind P := fun A B f p s =>
  match p s with Some (a, s') => f a s' | None => None end.
Definition p_fail {A} : P A := fun _ => None.
Definition p_or {A} (p q : P A) : P A := fun s => match p s with Some r => Some r | None => q s end.

Definition read_given_char (c : Z) : P unit := fun s =>
  match s with b :: t => if b =? c then Some (tt, t) else None | [] => None end.

(** [char::to_digit]. *)
Definition to_digit (radix b : Z) : option Z :=
  let d := if in_rng 48 57 b then b - 48
           else if in_rng 97 122 b then b - 87
           else if in_rng 65 90 b then b - 55
           else 36 in
  if d <? radix then Some d else None.

(** The digit loop of [read_number]: with a maximal number of digits it fails
    on one more; without one it fails on overflow of [w] bits. *)
Fixpoint number_loop (radix w : Z) (max_digits : option Z) (acc count : Z) (s : bytes)
  : option (Z * Z * bytes) :=
  match s with
  | b :: t =>
      match to_digit radix b with
      | Some d =>
          let acc := acc * radix + d in
          let count := count + 1 in
          let bad := match max_digits with
                     | Some m => m <? count
                     | None => 2 ^ w <=? acc
                     end in
          if bad then None else number_loop radix w max_digits acc count t
      | None => Some (acc, count, s)
      end
  | [] => Some (acc, count, [])
  end.
Definition read_number (radix w : Z) (max_digits : option Z) (allow_zero_prefix : bool) : P Z :=
  fun s =>
  let has_leading_zero := match s with b :: _ => b =? 48 | [] => false end in
  match number_loop radix w max_digits 0 0 s with
  | None => None
  | Some (acc, count, rest) =>
      if count =? 0 then None
      else if negb allow_zero_prefix && has_leading_zero && (1 <? count) then None
      else if acc <? 2 ^ w then Some (acc, rest) else None
  end.

Inductive Ip := V4 (a b c d : Z) | V6 (groups : list Z).
Inductive SocketAddr := SockV4 (ip : Ip) (port : Z) | SockV6 (ip : Ip) (scope port : Z).
#[global] Instance Ip_eq_dec : EqDecision Ip.
Proof. solve_decision. Defined.
#[global] Instance SocketAddr_eq_dec : EqDecision SocketAddr.
Proof. solve_decision. Defined.

Definition octet : P Z := read_number 10 8 (Some 3) false.
Definition read_ipv4_addr : P Ip :=
  a ← octet; _ ← read_given_char 46;
  b ← octet; _ ← read_given_char 46;
  c ← octet; _ ← read_given_char 46;
  d ← octet; mret (V4 a b c d).

(** [read_groups] from group [i] of [limit]: the groups read, and whether they
    end in an embedded IPv4 address.  [n] is [limit - i]. *)
Definition sep {A} (i : nat) (p : P A) : P A :=
  match i with O => p | S _ => _ ← read_given_char 58; p end.
Fixpoint read_groups (n i : nat) (s : bytes) : list Z * bool * bytes :=
  match n with
  | O => ([], false, s)
  | S n' =>
      let v4 := match n' with O => None | S _ => sep i read_ipv4_addr s end in
      match v4 with
      | Some (V4 a b c d, s') => ([a * 256 + b; c * 256 + d], true, s')
      | _ =>
          match sep i (read_number 16 16 (Some 4) true) s with
          | Some (g, s') => let '(gs, v4, s'') := read_groups n' (S i) s' in (g :: gs, v4, s'')
          | None => ([], false, s)
          end
      end
  end.
Definition read_ipv6_addr : P Ip := fun s =>
  let '(head, head_ipv4, s1) := read_groups 8 0 s in
  if (length head =? 8)%nat then Some (V6 head, s1)
  else if head_ipv4 then None
  else
    match (_ ← read_given_char 58; read_given_char 58) s1 with
    | None => None
    | Some (_, s2) =>
        let '(tail, _, s3) := read_groups (7 - length head) 0 s2 in
        Some (V6 (head ++ replicate (8 - length head - length tail) 0 ++ tail), s3)
    end.
Definition read_ip_addr : P Ip := p_or read_ipv4_addr read_ipv6_addr.
Definition read_port : P Z := _ ← read_given_char 58; read_number 10 16 None true.
Definition read_scope_id : P Z := _ ← read_given_char 37; read_number 10 32 None true.
Definition read_socket_addr_v4 : P SocketAddr :=
  ip ← read_ipv4_addr; port ← read_port; mret (SockV4 ip port).
Definition read_socket_addr_v6 : P SocketAddr :=
  _ ← read_given_char 91;
  ip ← read_ipv6_addr;
  scope ← p_or read_scope_id (mret 0);
  _ ← read_given_char 93;
  port ← read_port;
  mret (SockV6 ip scope port).
Definition read_socket_addr : P SocketAddr := p_or read_socket_addr_v4 read_socket_addr_v6.

(** The whole string must be read. *)
Definition parse_with {A} (p : P A) (s : bytes) : option A :=
  match p s with Some (a, []) => Some a | _ => None end.
Definition parse_ip : bytes -> option Ip := parse_with read_ip_addr.
Definition parse_socket_addr_v4 : bytes -> option SocketAddr := parse_with read_socket_addr_v4.
Definition parse_socket_addr : bytes -> option SocketAddr := parse_with read_socket_addr.
Definition is_ipv6 (ip : Ip) : bool := match ip with V6 _ => true | V4 _ _ _ _ => false end.

(** [Display]. *)
Definition fmt_ipv4 (a b c d : Z) : bytes :=
  fmt_dec a ++ [46] ++ fmt_dec b ++ [46] ++ fmt_dec c ++ [46] ++ fmt_dec d.
Definition fmt_socket_v4 (sa : SocketAddr) : bytes :=
  match sa with
  | SockV4 (V4 a b c d) port => fmt_ipv4 a b c d ++ [58] ++ fmt_dec port
  | _ => []
  end.

(** ** Facts *)

Lemma P_bind_eq {A B} (p : P A) (f : A -> P B) s :
  (p ≫= f) s = match p s with Some (a, s') => f a s' | None => None end.
Proof. done. Qed.
Lemma P_bind_Some {A B} (p : P A) (f : A -> P B) s a s' :
  p s = Some (a, s') -> (p ≫= f) s = f a s'.
Proof. intros E. by rewrite P_bind_eq, E. Qed.

(** The text does not go on with a decimal digit. *)
Definition stops (rest : bytes) : Prop :=
  match rest with b :: _ => b < 48 \/ (57 < b < 65) \/ 90 < b < 97 | [] => True end.

Lemma to_digit_dec b : 48 <= b <= 57 -> to_digit 10 b = Some (b - 48).
Proof. intros. unfold to_digit, in_rng. tests. cbn [andb]. by tests. Qed.
Lemma to_digit_stop b rest : stops (b :: rest) -> to_digit 10 b = None.
Proof.
  simpl. intros H. unfold to_digit, in_rng.
  destruct (48 <=? b) eqn:E1, (b <=? 57) eqn:E2, (97 <=? b) eqn:E3, (b <=? 122) eqn:E4,
    (65 <=? b) eqn:E5, (b <=? 90) eqn:E6; bool_cases; cbn [andb];
    rewrite (proj2 (Z.ltb_ge _ _)) by lia; done || lia.
Qed.

(** The loop reads the same number as [parse_digits]. *)
Lemma number_loop_digits w max acc count s rest v :
  digits s -> stops rest -> 0 <= acc ->
  (forall m, max = Some m -> count + len s <= m) ->
  parse_digits w acc s = inr v ->
  number_loop 10 w max acc count (s ++ rest) = Some (v, count + len s, rest).
Proof.
  intros Hs Hr. revert acc count; induction Hs as [|b s Hb Hs IH]; intros acc count Ha Hm Hv.
  - simpl in Hv. simplify_eq. rewrite len_nil, Z.add_0_r. destruct rest as [|b rest]; [done|].
    simpl. by rewrite (to_digit_stop b rest Hr).
  - cbn [app number_loop]. rewrite to_digit_dec by done. simpl in Hv.
    rewrite len_cons in *. pose proof (len_nonneg s).
    destruct (negb _) in Hv; [done|]. destruct (2 ^ w <=? acc * 10) in Hv; [done|].
    destruct (2 ^ w <=? acc * 10 + (b - 48)) eqn:Eo in Hv; [done|].
    assert (Hbad : (match max with Some m => m <? count + 1 | None => 2 ^ w <=? acc * 10 + (b - 48) end) = false).
    { destruct max as [m|]; [|done]. specialize (Hm m eq_refl). apply Z.ltb_ge. lia. }
    rewrite Hbad. rewrite IH; [do 3 f_equal; lia|lia|intros m E; specialize (Hm m E); lia|done].
Qed.

(** No number but zero is printed with a leading zero. *)
Lemma fmt_dec_go_head f v : 0 < v < 10 ^ Z.of_nat f ->
  exists b t, fmt_dec_go f v = b :: t /\ b <> 48.
Proof.
  revert v; induction f as [|f IH]; intros v Hv; [simpl in Hv; lia|].
  cbn [fmt_dec_go]. case_if; [eexists _, _; split; [done|lia]|].
  destruct (IH (v / 10)) as (b & t & -> & Hb).
  - split; [apply Z.div_str_pos; lia|]. apply Z.div_lt_upper_bound; [lia|].
    rewrite Nat2Z.inj_succ, Z.pow_succ_r in Hv by lia. lia.
  - by eexists _, _.
Qed.

(** A printed number is read back, whatever follows that is not a digit. *)
Lemma read_number_fmt w max azp v rest :
  0 <= v < 2 ^ w -> v < 10 ^ 20 -> stops rest ->
  (forall m, max = Some m -> len (fmt_dec v) <= m) ->
  read_number 10 w max azp (fmt_dec v ++ rest) = Some (v, rest).
Proof.
  intros Hv Hv' Hr Hm. unfold read_number.
  rewrite (number_loop_digits w max 0 0 (fmt_dec v) rest v); try done.
  2:{ apply fmt_dec_digits. lia. }
  2:{ by apply parse_digits_fmt. }
  assert (Hne : 0 < len (fmt_dec v)).
  { pose proof (fmt_dec_nonempty v). destruct (fmt_dec v) as [|b t]; [done|].
    rewrite len_cons. pose proof (len_nonneg t). lia. }
  rewrite (proj2 (Z.eqb_neq _ 0)) by lia.
  assert (Hz : (match fmt_dec v ++ rest with b :: _ => b =? 48 | [] => false end) &&
    (1 <? 0 + len (fmt_dec v)) = false).
  { destruct (decide (v = 0)) as [->|].
    - apply andb_false_r.
    - destruct (fmt_dec_go_head 20 v ltac:(lia)) as (b & t & E & Hb). unfold fmt_dec. rewrite E.
      cbn [app]. by rewrite (proj2 (Z.eqb_neq b 48)). }
  rewrite <- andb_assoc, Hz, andb_false_r, (proj2 (Z.ltb_lt v (2 ^ w))) by lia. done.
Qed.

Lemma octet_fmt v rest : u8 v -> stops rest -> octet (fmt_dec v ++ rest) = Some (v, rest).
Proof.
  intros Hv Hr. apply read_number_fmt; [ulia|ulia|done|].
  intros m [= <-]. unfold len, fmt_dec.
  pose proof (fmt_dec_go_length 20 v 3 ltac:(ulia) ltac:(lia)). lia.
Qed.

Lemma P_char {A} c (k : P A) s : (read_given_char c ≫= fun _ => k) ([c] ++ s) = k s.
Proof. rewrite P_bind_eq. simpl. by rewrite Z.eqb_refl. Qed.
Lemma P_octet {A} v (k : Z -> P A) rest :
  u8 v -> stops rest -> (octet ≫= k) (fmt_dec v ++ rest) = k v rest.
Proof. intros. by rewrite P_bind_eq, octet_fmt. Qed.
Lemma read_ipv4_fmt a b c d rest :
  u8 a -> u8 b -> u8 c -> u8 d -> stops rest ->
  read_ipv4_addr (fmt_ipv4 a b c d ++ rest) = Some (V4 a b c d, rest).
Proof.
  intros Ha Hb Hc Hd Hr. unfold read_ipv4_addr, fmt_ipv4. rewrite <- !app_assoc.
  do 3 (rewrite P_octet by (done || (simpl; lia)); rewrite P_char).
  by rewrite P_octet.
Qed.
Lemma read_port_fmt port : u16 port -> read_port ([58] ++ fmt_dec port) = Some (port, []).
Proof.
  intros Hp. unfold read_port. rewrite P_char.
  rewrite <- (app_nil_r (fmt_dec port)). apply read_number_fmt; [ulia|ulia|done|done].
Qed.
Lemma parse_socket_v4_fmt a b c d port :
  u8 a -> u8 b -> u8 c -> u8 d -> u16 port ->
  parse_socket_addr_v4 (fmt_ipv4 a b c d ++ [58] ++ fmt_dec port) = Some (SockV4 (V4 a b c d) port).
Proof.
  intros Ha Hb Hc Hd Hp. unfold parse_socket_addr_v4, parse_with, read_socket_addr_v4.
  rewrite P_bind_eq, read_ipv4_fmt, P_bind_eq, read_port_fmt by (done || (simpl; lia)). done.
Qed.
Lemma parse_socket_fmt a b c d port :
  u8 a -> u8 b -> u8 c -> u8 d -> u16 port ->
  parse_socket_addr (fmt_ipv4 a b c d ++ [58] ++ fmt_dec port) = Some (SockV4 (V4 a b c d) port).
Proof.
  intros Ha Hb Hc Hd Hp. unfold parse_socket_addr, parse_with, read_socket_addr, p_or, read_socket_addr_v4.
  rewrite P_bind_eq, read_ipv4_fmt, P_bind_eq, read_port_fmt by (done || (simpl; lia)). done.
Qed.
Lemma parse_ip_fmt a b c d :
  u8 a -> u8 b -> u8 c -> u8 d -> parse_ip (fmt_ipv4 a b c d) = Some (V4 a b c d).
Proof.
  intros. unfold parse_ip, parse_with, read_ip_addr, p_or.
  rewrite <- (app_nil_r (fmt_ipv4 a b c d)), read_ipv4_fmt by done. done.
Qed.

(** ** The characters of an address *)

Definition addr_char (b : Z) : bool :=
  in_rng 48 57 b || in_rng 65 70 b || in_rng 97 102 b || existsb (Z.eqb b) [46; 58; 91; 93; 37].
Definition addr_text (s : bytes) : Prop := Forall (fun b => addr_char b = true) s.
(** What a parser takes has only these. *)
Definition takes (s s' : bytes) : Prop := exists pre, s = pre ++ s' /\ addr_text pre.
Definition eats {A} (p : P A) : Prop := forall s a s', p s = Some (a, s') -> takes s s'.
Lemma takes_refl s : takes s s.
Proof. exists []. split; [done|constructor]. Qed.
Lemma takes_trans s1 s2 s3 : takes s1 s2 -> takes s2 s3 -> takes s1 s3.
Proof. intros (a & -> & Ha) (b & -> & Hb). exists (a ++ b). rewrite app_assoc. split; [done|by apply Forall_app]. Qed.
Lemma eats_bind {A B} (p : P A) (f : A -> P B) : eats p -> (forall a, eats (f a)) -> eats (p ≫= f).
Proof.
  intros Hp Hf s b s' H. rewrite P_bind_eq in H. destruct (p s) as [[a s1]|] eqn:E; [|done].
  eapply takes_trans; [by eapply Hp|by eapply Hf].
Qed.
Lemma eats_ret {A} (a : A) : eats (mret a).
Proof. intros s b s' [= _ <-]. apply takes_refl. Qed.
Lemma eats_or {A} (p q : P A) : eats p -> eats q -> eats (p_or p q).
Proof. intros Hp Hq s a s' H. unfold p_or in H. destruct (p s) as [[]|] eqn:E; [injection H as -> ->; by eapply Hp|by eapply Hq]. Qed.
Lemma eats_char c : addr_char c = true -> eats (read_given_char c).
Proof.
  intros Hc [|b s] [] s' H; cbn in H; [done|]. destruct (Z.eqb_spec b c) as [->|]; [|done]. injection H as <-.
  exists [c]. split; [done|by constructor].
Qed.
Lemma to_digit_char radix b d : radix <= 16 -> to_digit radix b = Some d -> addr_char b = true.
Proof.
  intros Hr. unfold to_digit, addr_char. destruct (in_rng 48 57 b) eqn:E1; [done|].
  destruct (in_rng 97 122 b) eqn:E2; [|destruct (in_rng 65 90 b) eqn:E3]; unfold in_rng in *;
    match goal with |- context [?x <? radix] => destruct (Z.ltb_spec x radix) end; try done; lia.
Qed.
Lemma eats_number radix w m z : radix <= 16 -> eats (read_number radix w m z).
Proof.
  intros Hr s a s' H. unfold read_number in H. destruct (number_loop radix w m 0 0 s) as [[[acc count] rest]|] eqn:E; [|done].
  assert (s' = rest) as -> by (by repeat case_match; simplify_eq). clear H. revert E. generalize 0 at 1 as x. generalize 0 as y.
  induction s as [|b s IH]; intros y x H; cbn in H; [injection H as <- <- <-; apply takes_refl|].
  destruct (to_digit radix b) as [d|] eqn:Ed; [|injection H as <- <- <-; apply takes_refl].
  destruct (match m with Some _ => _ | None => _ end); [done|]. eapply takes_trans; [|by eapply IH].
  exists [b]. split; [done|]. constructor; [by eapply to_digit_char|constructor].
Qed.
Ltac eat := repeat first [done | apply eats_ret | apply eats_number; lia | apply eats_char; reflexivity | apply eats_or | apply eats_bind; [|intros ?]].
Lemma eats_ipv4 : eats read_ipv4_addr.
Proof. unfold read_ipv4_addr, octet. eat. Qed.
Lemma eats_sep {A} i (p : P A) : eats p -> eats (sep i p).
Proof. intros Hp. destruct i; [done|]. unfold sep. eat. Qed.
Lemma groups_take n i s gs b s' : read_groups n i s = (gs, b, s') -> takes s s'.
Proof.
  revert i s gs b s'; induction n as [|n IH]; intros i s gs b s' H; cbn [read_groups] in H; [injection H as _ _ <-; apply takes_refl|].
  destruct (match n with O => None | S _ => sep i read_ipv4_addr s end) as [[ip s1]|] eqn:E4.
  - assert (H4 : takes s s1) by (destruct n; [done|]; exact (eats_sep i _ eats_ipv4 _ _ _ E4)).
    destruct ip as [a1 b1 c1 d1|]; [by injection H as _ _ <-|]. destruct (sep i (read_number _ _ _ _) s) as [[g s2]|] eqn:E; [|by injection H as _ _ <-; apply takes_refl].
    apply (eats_sep i) in E; [|eat]. destruct (read_groups n (S i) s2) as [[gs1 v] s3] eqn:E2. apply IH in E2. injection H as _ _ <-.
    exact (takes_trans _ _ _ E E2).
  - destruct (sep i (read_number _ _ _ _) s) as [[g s2]|] eqn:E; [|by injection H as _ _ <-; apply takes_refl].
    apply (eats_sep i) in E; [|eat]. destruct (read_groups n (S i) s2) as [[gs1 v] s3] eqn:E2. apply IH in E2. injection H as _ _ <-.
    exact (takes_trans _ _ _ E E2).
Qed.
Lemma eats_ipv6 : eats read_ipv6_addr.
Proof.
  intros s a s' H. unfold read_ipv6_addr in H. destruct (read_groups 8 0 s) as [[head v4] s1] eqn:E1. apply groups_take in E1.
  destruct (_ =? _)%nat; [by injection H as _ <-|]. destruct v4; [done|].
  destruct ((_ ← read_given_char 58; read_given_char 58) s1) as [[[] s2]|] eqn:E2; [|done].
  assert (H2 : takes s1 s2) by (refine ((_ : eats (_ ← read_given_char 58; read_given_char 58)) _ _ _ E2); eat).
  destruct (read_groups _ 0 s2) as [[tail v] s3] eqn:E3. apply groups_take in E3. injection H as _ <-.
  exact (takes_trans _ _ _ E1 (takes_trans _ _ _ H2 E3)).
Qed.
Lemma parse_with_text {A} (p : P A) s a : eats p -> parse_with p s = Some a -> addr_text s.
Proof.
  intros Hp H. unfold parse_with in H. destruct (p s) as [[x [|]]|] eqn:E; [|done..].
  apply Hp in E as (pre & -> & E). by rewrite app_nil_r.
Qed.
Lemma parse_ip_text s ip : parse_ip s = Some ip -> addr_text s.
Proof. apply parse_with_text. unfold read_ip_addr. apply eats_or; [apply eats_ipv4|apply eats_ipv6]. Qed.
Lemma parse_socket_text s sa : parse_socket_addr s = Some sa -> addr_text s.
Proof.
  apply parse_with_text. unfold read_socket_addr, read_socket_addr_v4, read_socket_addr_v6, read_port, read_scope_id.
  pose proof eats_ipv4. pose proof eats_ipv6. eat.
Qed.
Lemma addr_text_ascii s : addr_text s -> ascii s.
Proof.
  intros H. eapply Forall_impl; [exact H|]. intros b. unfold addr_char, in_rng. cbn [existsb].
  rewrite !orb_true_iff, !andb_true_iff, !Z.leb_le, !Z.eqb_eq. lia.
Qed.

Example ipv6_forms :
  parse_ip (lit "::1") = Some (V6 [0; 0; 0; 0; 0; 0; 0; 1]) /\
  parse_ip (lit "fe80::1:2") = Some (V6 [65152; 0; 0; 0; 0; 0; 1; 2]) /\
  parse_ip (lit "::ffff:1.2.3.4") = Some (V6 [0; 0; 0; 0; 0; 65535; 258; 772]) /\
  parse_ip (lit "1:2:3:4:5:6:7:8") = Some (V6 [1; 2; 3; 4; 5; 6; 7; 8]) /\
  parse_ip (lit ":") = None /\ parse_ip (lit "1.2.3.04") = None /\
  parse_socket_addr (lit "[::1]:8710") = Some (SockV6 (V6 [0; 0; 0; 0; 0; 0; 0; 1]) 0 8710).
Proof. vm_compute. auto 10. Qed.
