(* ===== verification/Parser.v ===== *)
(** * The command line of the host tool

    [src/hdc/src/parser.rs]: the command table, the split of the arguments into
    global options and a command, the options, and the listen address.  A
    command-line argument is a [String], so a valid UTF-8 byte string. *)

From S2P Require Import Prelude RustStr NetAddr Config.

Record ParsedCommand := mkParsedCommand {
  run_in_server : bool; launch_server : bool; spawned_server : bool;
  connect_key : bytes; log_level : Z; server_addr : bytes; forward_listen_ip : bytes;
  pc_command : option HdcCommand; pc_parameters : list bytes
}.

Definition CMD_MAP : list (bytes * HdcCommand) := [
  (lit "version", ClientVersion);
  (lit "help", KernelHelp);
  (lit "discover", KernelTargetDiscover);
  (lit "start", KernelServerStart);
  (lit "kill", KernelServerKill);
  (lit "keygen", ClientKeyGenerate);
  (lit "list targets", KernelTargetList);
  (lit "checkserver", KernelCheckServer);
  (lit "checkdevice", KernelCheckDevice);
  (lit "wait", KernelWaitFor);
  (lit "tconn", KernelTargetConnect);
  (lit "any", KernelTargetAny);
  (lit "shell", UnityExecute);
  (lit "target boot", UnityReboot);
  (lit "target mount", UnityRemount);
  (lit "smode", UnityRootrun);
  (lit "tmode", UnityRunmode);
  (lit "bugreport", UnityBugreportInit);
  (lit "hilog", UnityHilog);
  (lit "file send", FileInit);
  (lit "file recv", FileRecvInit);
  (lit "fport", ForwardInit);
  (lit "rport", ForwardRportInit);
  (lit "rport ls", ForwardRportList);
  (lit "fport ls", ForwardList);
  (lit "fport rm", ForwardRemove);
  (lit "rport rm", ForwardRportRemove);
  (lit "install", AppInit);
  (lit "uninstall", AppUninstall);
  (lit "sideload", AppSideload);
  (lit "jpid", JdwpList);
  (lit "track-jpid", JdwpTrack);
  (lit "alive", KernelEnableKeepalive);
  (lit "update", FlashdUpdateInit);
  (lit "flash", FlashdFlashInit);
  (lit "erase", FlashdErase);
  (lit "format", FlashdFormat);
  (lit "reconnect", KernelTargetReconnect);
  (lit "spawn-sub", SpawnSub);
  (lit "killall-sub", SpawnSub)
].
(** [CMD_MAP.get(cmd)]: a [HashMap] keeps the last value of a key, and no key is
    inserted twice ([CMD_MAP_keys]). *)
Definition CMD_MAP_get (cmd : bytes) : option HdcCommand :=
  match List.find (fun p => beq p.1 cmd) CMD_MAP with Some (_, c) => Some c | None => None end.

Arguments CMD_MAP_get : simpl never.
Arguments CMD_MAP : simpl never.

Definition MAX_CMD_LEN : nat := 3.

Definition usage : bytes := lit "HDC (HarmonyOS Device Connector) Rust Implementation

Usage: hdc [options] [command]

Global Options:
  -h              Show this help message
  -v              Show version
  -l <level>      Set log level (0-6)
  -m              Run in server mode
  -p              Do not launch server automatically
  -t <key>        Target connect key
  -s <addr>       Server address (ip:port)
  -e <ip>         IP address for host to listen during TCP port forwarding
  -b              Server spawned by client (no stdout)

Commands:
  list targets              List connected devices
  tconn <ip:port>           Connect to device via TCP
  shell [cmd]               Execute shell command or enter interactive shell
  shell - [cmd]             Execute shell with bundle options
  file send <local> <remote> Send file to device
  file recv <remote> <local> Receive file from device
  install [options] <path...>  Install application package(s) (.hap/.hsp/.app)
                              options are passed to 'bm install' (e.g. -r replace,
                              -g grant permissions, -s shared bundle)
  uninstall <package>       Uninstall application
  fport [ls|rm]             Forward port management
  rport [ls|rm]             Reverse port management
  hilog                     Show device logs
  bugreport [path]          Generate bug report
  target boot [mode]        Reboot device
  target mount              Remount filesystem
  smode                     Switch root mode
  tmode                     Switch target mode
  jpid                      List JDWP processes
  track-jpid                Track JDWP processes
  update <package>          Update system by package (.zip/.img/...)
  flash [-f] <partition> <image>  Flash partition by image
  erase [-f] <partition>    Erase partition
  format [-f] <partition>   Format partition
  reconnect <key>           Reconnect USB device
  start [-r]                Start server (with -r to restart)
  kill [-r]                 Kill server (with -r to restart)
  checkserver               Check server version
  wait                      Wait for device connection
".
Definition verbose_usage : bytes := usage ++ [10] ++ lit "Verbose mode enabled." ++ [10].

(** ** Options and command *)

Record Parsed := mkParsed { options : list bytes; command : option HdcCommand; parameters : list bytes }.

Definition is_forward_init (c : HdcCommand) : bool := cmd_eqb c ForwardInit || cmd_eqb c ForwardRportInit.
(** The sub-commands that may follow [fport] or [rport]. *)
Definition is_forward_sub (c : HdcCommand) : bool :=
  cmd_eqb c ForwardRemove || cmd_eqb c ForwardList || cmd_eqb c ForwardRportList ||
  cmd_eqb c ForwardRportRemove.

(** The inner loop of [split_opt_and_cmd] at [st], over the word counts [lens];
    the state is the command found so far with its index. *)
Fixpoint try_lens (input : list bytes) (st : nat) (lens : list nat)
  (state : option HdcCommand * nat) : option HdcCommand * nat :=
  match lens with
  | [] => state
  | n :: t =>
      if (length input <? st + n)%nat then state
      else
        let cmd := join (lit " ") (take n (drop st input)) in
        match CMD_MAP_get cmd with
        | Some command =>
            let blocked := match state.1 with
                           | Some existing => is_forward_init existing && negb (is_forward_sub command)
                           | None => false
                           end in
            if blocked then state
            else
              let state := (Some command, st) in
              if is_forward_init command then try_lens input st t state else state
        | None => try_lens input st t state
        end
  end.
(** The outer loop, over the start positions. *)
Fixpoint try_starts (input : list bytes) (starts : list nat) (state : option HdcCommand * nat)
  : option HdcCommand * nat :=
  match starts with
  | [] => state
  | st :: t =>
      let state := try_lens input st (seq 1 MAX_CMD_LEN) state in
      match state.1 with
      | Some existing => if negb (is_forward_init existing) then state else try_starts input t state
      | None => try_starts input t state
      end
  end.
Definition split_opt_and_cmd (input : list bytes) : Parsed :=
  let '(cmd_opt, cmd_index) := try_starts input (seq 0 (length input)) (None, length input) in
  mkParsed (take cmd_index input) cmd_opt (drop cmd_index input).

(** ** Addresses *)

Definition check_port (port_str : bytes) : Result Z :=
  if match port_str with [] => true | _ => false end || (5 <? len port_str) ||
     negb (forallb is_ascii_digit port_str)
  then err InvalidInput "The port must be digit str"
  else
    match parse_uint 16 port_str with
    | inr port => if 0 <? port then Ok port else err InvalidInput "Port range incorrect"
    | inl _ => err InvalidInput "Port range incorrect"
    end.

Definition normalize_listen_addr (s : bytes) : bytes :=
  match parse_socket_addr s with
  | Some _ => s
  | None =>
      let mapped := match strip_prefix (lit "::ffff:") (to_ascii_lowercase s) with
                    | Some rest => parse_socket_addr_v4 rest
                    | None => None
                    end in
      match mapped with
      | Some v4 => fmt_socket_v4 v4
      | None =>
          match rsplit_once 58 s with
          | Some (host, port) =>
              if match parse_uint 16 port with inr _ => true | inl _ => false end &&
                 match parse_ip host with Some ip => is_ipv6 ip | None => false end
              then lit "[" ++ host ++ lit "]:" ++ port
              else s
          | None => s
          end
      end
  end.

Definition parse_server_listen_string (arg : bytes) : Result bytes :=
  let addr := normalize_listen_addr arg in
  let segments := split_on 58 addr in
  let port_str := match last segments with Some p => p | None => [] end in
  port ← check_port port_str;
  if (length segments =? 1)%nat then Ok (LOCAL_HOST ++ lit ":" ++ fmt_dec port)
  else
    ip_part ← str_slice 0 (len addr - len port_str - 1) addr;
    let ip_str := trim_end_matches 93 (trim_start_matches 91 ip_part) in
    match parse_ip ip_str with
    | Some _ => Ok addr
    | None => err InvalidInput "-s content ip incorrect"
    end.

(** ** Global options *)

(** The loop over the options; [opts] are the ones from index [i] on. *)
Fixpoint global_params_loop (opts : list bytes) (parsed : ParsedCommand) : Result ParsedCommand :=
  match opts with
  | [] => Ok parsed
  | opt :: t =>
      arg ← (if 2 <? len opt then str_from 2 opt
             else Ok (match t with next :: _ => next | [] => [] end));
      let p := parsed in
      let opt_is c := starts_with (lit c) opt in
      if opt_is "-h" then
        if beq arg (lit "verbose") then Err (mkError OtherError verbose_usage)
        else Err (mkError OtherError usage)
      else if opt_is "-v" then Err (mkError OtherError get_version)
      else if opt_is "-l" then
        match parse_uint 64 arg with
        | inr level =>
            if level <? 7 then
              global_params_loop t (mkParsedCommand (run_in_server p) (launch_server p)
                (spawned_server p) (connect_key p) level (server_addr p) (forward_listen_ip p)
                (pc_command p) (pc_parameters p))
            else Err (mkError InvalidInput (lit "-l content loglevel incorrect" ++ [10; 10] ++ usage))
        | inl _ => Err (mkError InvalidInput (lit "-l content loglevel incorrect" ++ [10; 10] ++ usage))
        end
      else if opt_is "-m" then
        global_params_loop t (mkParsedCommand true (launch_server p) (spawned_server p)
          (connect_key p) (log_level p) (server_addr p) (forward_listen_ip p) (pc_command p)
          (pc_parameters p))
      else if opt_is "-p" then
        global_params_loop t (mkParsedCommand (run_in_server p) false (spawned_server p)
          (connect_key p) (log_level p) (server_addr p) (forward_listen_ip p) (pc_command p)
          (pc_parameters p))
      else if opt_is "-t" then
        if 32 <? len arg then
          Err (mkError InvalidInput
            (lit "Size of param '-t' " ++ fmt_dec (len arg) ++ lit " is too long"))
        else
          global_params_loop t (mkParsedCommand (run_in_server p) (launch_server p)
            (spawned_server p) arg (log_level p) (server_addr p) (forward_listen_ip p)
            (pc_command p) (pc_parameters p))
      else if opt_is "-s" then
        addr ← parse_server_listen_string arg;
        global_params_loop t (mkParsedCommand (run_in_server p) (launch_server p)
          (spawned_server p) (connect_key p) (log_level p) addr (forward_listen_ip p)
          (pc_command p) (pc_parameters p))
      else if opt_is "-e" then
        match parse_ip arg with
        | Some _ =>
            global_params_loop t (mkParsedCommand (run_in_server p) (launch_server p)
              (spawned_server p) (connect_key p) (log_level p) (server_addr p) arg
              (pc_command p) (pc_parameters p))
        | None => err InvalidInput "-e content IP incorrect"
        end
      else if opt_is "-b" then
        global_params_loop t (mkParsedCommand (run_in_server p) (launch_server p) true
          (connect_key p) (log_level p) (server_addr p) (forward_listen_ip p) (pc_command p)
          (pc_parameters p))
      else global_params_loop t parsed
  end.
Definition extract_global_params (opts : list bytes) : Result ParsedCommand :=
  global_params_loop opts
    (mkParsedCommand false true false [] 3 (LOCAL_HOST ++ lit ":" ++ fmt_dec SERVER_DEFAULT_PORT)
       LOCAL_HOST None []).

Definition parse_command (args : list bytes) : Result ParsedCommand :=
  let input := drop 1 args in
  let parsed := split_opt_and_cmd input in
  p ← extract_global_params (options parsed);
  let cmd := match command parsed with
             | Some UnityExecute =>
                 match parameters parsed with
                 | first :: _ :: _ => if beq first (lit "-") then Some UnityExecuteEx else Some UnityExecute
                 | _ => Some UnityExecute
                 end
             | c => c
             end in
  Ok (mkParsedCommand (run_in_server p) (launch_server p) (spawned_server p) (connect_key p)
        (log_level p) (server_addr p) (forward_listen_ip p) cmd (parameters parsed)).

Definition auto_connect_key (key : bytes) (cmd : HdcCommand) : bytes :=
  match cmd with
  | ClientVersion | KernelHelp | KernelTargetList | KernelCheckServer | KernelTargetConnect
  | KernelServerKill => []
  | _ => match key with [] => lit "any" | _ => key end
  end.

Example parse_demo :
  option_map (fun p => (pc_command p, connect_key p, pc_parameters p))
    (match parse_command [lit "hdc"; lit "-t"; lit "K"; lit "fport"; lit "ls"] with
     | Ok p => Some p | _ => None end) = Some (Some ForwardList, lit "K", [lit "fport"; lit "ls"]).
Proof. vm_compute. reflexivity. Qed.

(** ** Facts about the split *)

(** No key of the table is inserted twice. *)
Lemma CMD_MAP_keys : NoDup (map fst CMD_MAP).
Proof. apply (bool_decide_unpack _). vm_compute. exact I. Qed.

(** The command the [n] words from [st] on name, if there are that many. *)
Definition window (input : list bytes) (st n : nat) : option HdcCommand :=
  if (length input <? st + n)%nat then None
  else CMD_MAP_get (join (lit " ") (take n (drop st input))).

(** The shortest command that starts at a position. *)
Definition shortest (input : list bytes) (st : nat) : option HdcCommand :=
  match window input st 1 with
  | Some c => Some c
  | None => match window input st 2 with
            | Some c => Some c
            | None => window input st 3
            end
  end.

(** The reference for the whole split: where the command starts and which one it is.  The first
    command counts, except that [fport] and [rport] give way to the first of their [ls] and [rm]
    forms: at the same position, or at a later one where nothing shorter names a command. *)
Definition longer (input : list bytes) (st : nat) : option HdcCommand :=
  match window input st 2 with Some c => Some c | None => window input st 3 end.
Definition sub_form (c : option HdcCommand) : option HdcCommand :=
  match c with Some c => if is_forward_sub c then Some c else None | None => None end.
Fixpoint first_sub (input : list bytes) (starts : list nat) : option (nat * HdcCommand) :=
  match starts with
  | [] => None
  | st :: t => match sub_form (shortest input st) with Some c => Some (st, c) | None => first_sub input t end
  end.
Fixpoint found_command (input : list bytes) (starts : list nat) : option (nat * HdcCommand) :=
  match starts with
  | [] => None
  | st :: t =>
      match shortest input st with
      | None => found_command input t
      | Some c =>
          if is_forward_init c then
            match sub_form (longer input st) with
            | Some s => Some (st, s)
            | None => Some (default (st, c) (first_sub input t))
            end
          else Some (st, c)
      end
  end.

(** The words at the recorded index name the recorded command. *)
Definition named (input : list bytes) (state : option HdcCommand * nat) : Prop :=
  match state with
  | (Some c, i) => exists n, (1 <= n <= 3)%nat /\ window input i n = Some c
  | (None, i) => i = length input
  end.

Lemma window_short input st n m :
  (length input <? st + n)%nat = true -> (n <= m)%nat -> window input st m = None.
Proof.
  intros H Hm. apply Nat.ltb_lt in H. unfold window.
  by rewrite (proj2 (Nat.ltb_lt (length input) (st + m))) by lia.
Qed.

Lemma try_lens_cons input st n t state :
  try_lens input st (n :: t) state =
  if (length input <? st + n)%nat then state
  else match window input st n with
       | Some c =>
           if match state.1 with
              | Some e => is_forward_init e && negb (is_forward_sub c) | None => false end
           then state
           else if is_forward_init c then try_lens input st t (Some c, st) else (Some c, st)
       | None => try_lens input st t state
       end.
Proof. cbn [try_lens]. unfold window. destruct (_ <? _)%nat; reflexivity. Qed.

(** Outcomes of the inner loop, by what is known before it. *)
Lemma try_lens_named input st lens state :
  Forall (fun n => (1 <= n <= 3)%nat) lens -> named input state ->
  named input (try_lens input st lens state).
Proof.
  revert state; induction lens as [|n lens IH]; intros state Hl Hs; [done|].
  apply Forall_cons in Hl as [Hn Hl]. rewrite try_lens_cons.
  destruct (length input <? st + n)%nat eqn:El; [done|].
  destruct (window input st n) as [c|] eqn:Ec; [|by apply IH].
  destruct (match state.1 with Some _ => _ | None => _ end); [done|].
  destruct (is_forward_init c); [apply IH; [done|]|]; by exists n.
Qed.

(** Once [fport] or [rport] is found, only one of their sub-commands replaces it. *)
Lemma try_lens_forward input st lens e i :
  is_forward_init e = true ->
  let r := try_lens input st lens (Some e, i) in
  r = (Some e, i) \/ exists c, r = (Some c, st) /\ is_forward_sub c = true.
Proof.
  intros He. revert e i He; induction lens as [|n lens IH]; intros e i He; [by left|].
  rewrite try_lens_cons. destruct (_ <? _)%nat; [by left|].
  destruct (window input st n) as [c|]; [|by apply IH]. cbn [fst]. rewrite He. cbn [andb].
  destruct (is_forward_sub c) eqn:Es; [|by left]. cbn [negb].
  assert (is_forward_init c = false) as -> by (by destruct c). right. by exists c.
Qed.

Lemma try_lens_first input st i :
  match shortest input st with
  | None => try_lens input st (seq 1 MAX_CMD_LEN) (None, i) = (None, i)
  | Some c =>
      let r := try_lens input st (seq 1 MAX_CMD_LEN) (None, i) in
      if is_forward_init c then r = (Some c, st) \/ exists s, r = (Some s, st) /\ is_forward_sub s = true
      else r = (Some c, st)
  end.
Proof.
  change (seq 1 MAX_CMD_LEN) with [1; 2; 3]%nat. unfold shortest.
  rewrite try_lens_cons.
  destruct (length input <? st + 1)%nat eqn:E1.
  { by rewrite (window_short _ _ _ 1 E1), (window_short _ _ _ 2 E1), (window_short _ _ _ 3 E1) by lia. }
  destruct (window input st 1) as [c|]; cbn [fst].
  { destruct (is_forward_init c) eqn:Ei; [|done].
    exact (try_lens_forward input st [2; 3]%nat c st Ei). }
  rewrite try_lens_cons. destruct (length input <? st + 2)%nat eqn:E2.
  { by rewrite (window_short _ _ _ 2 E2), (window_short _ _ _ 3 E2) by lia. }
  destruct (window input st 2) as [c|]; cbn [fst].
  { destruct (is_forward_init c) eqn:Ei; [|done].
    exact (try_lens_forward input st [3]%nat c st Ei). }
  rewrite try_lens_cons. destruct (length input <? st + 3)%nat eqn:E3.
  { by rewrite (window_short _ _ _ 3 E3) by lia. }
  destruct (window input st 3) as [c|]; cbn [fst]; [|done].
  destruct (is_forward_init c); [by left|done].
Qed.

Lemma try_starts_named input starts state :
  named input state -> named input (try_starts input starts state).
Proof.
  revert state; induction starts as [|st starts IH]; intros state Hs; [done|]. cbn [try_starts].
  assert (Hn : named input (try_lens input st (seq 1 MAX_CMD_LEN) state)).
  { apply try_lens_named; [|done]. repeat constructor. }
  repeat case_match; try by apply IH. done.
Qed.
(** ** Facts about the commands *)

Lemma CMD_MAP_get_in s c : CMD_MAP_get s = Some c -> (s, c) ∈ CMD_MAP.
Proof.
  unfold CMD_MAP_get. destruct (List.find _ CMD_MAP) as [[k d]|] eqn:E; [|done].
  intros [= <-]. apply List.find_some in E as [E H]. unfold beq in H. simpl in H.
  apply bool_decide_eq_true in H as <-. by apply list_elem_of_In.
Qed.
(** The words that name a command are the ones of the table. *)
Lemma CMD_MAP_all (f : bytes -> HdcCommand -> bool) s c :
  forallb (fun p => f p.1 p.2) CMD_MAP = true -> CMD_MAP_get s = Some c -> f s c = true.
Proof.
  intros H E%CMD_MAP_get_in. rewrite List.forallb_forall in H.
  apply (H (s, c)), list_elem_of_In, E.
Qed.
Lemma shell_word s : CMD_MAP_get s = Some UnityExecute -> s = lit "shell".
Proof.
  intros E. assert (H : implb (cmd_eqb UnityExecute UnityExecute) (beq s (lit "shell")) = true).
  { apply (CMD_MAP_all (fun k c => implb (cmd_eqb c UnityExecute) (beq k (lit "shell"))) s _);
      [by vm_compute|done]. }
  by apply bool_decide_eq_true in H.
Qed.
Lemma no_extended_shell s : CMD_MAP_get s <> Some UnityExecuteEx.
Proof.
  intros E. assert (H : negb (cmd_eqb UnityExecuteEx UnityExecuteEx) = true); [|done].
  exact (CMD_MAP_all (fun _ c => negb (cmd_eqb c UnityExecuteEx)) s _ ltac:(by vm_compute) E).
Qed.

(** The word in front of a joined command without spaces. *)
Lemma join_no_space words n s :
  (1 <= n)%nat -> join (lit " ") (take n words) = s -> 32 ∉ s -> s <> [] -> head words = Some s.
Proof.
  intros Hn E Hs Hne. destruct words as [|w words]; [by rewrite take_nil in E|].
  destruct n as [|n]; [lia|]. cbn [take] in E. destruct (take n words) as [|w2 t] eqn:Et.
  - simpl in *. by subst.
  - exfalso. apply Hs. rewrite <- E. cbn [join]. apply elem_of_app. right.
    apply elem_of_app. left. apply list_elem_of_here.
Qed.

(** [split_opt_and_cmd] on the outcome of its loops. *)
Lemma split_eq input :
  exists cmd i, try_starts input (seq 0 (length input)) (None, length input) = (cmd, i) /\
  split_opt_and_cmd input = mkParsed (take i input) cmd (drop i input) /\ named input (cmd, i).
Proof.
  unfold split_opt_and_cmd. pose proof (try_starts_named input (seq 0 (length input))
    (None, length input) eq_refl) as Hn.
  destruct (try_starts _ _ _) as [cmd i]. eauto.
Qed.
Lemma split_named input c :
  command (split_opt_and_cmd input) = Some c -> exists n, (1 <= n <= 3)%nat /\
  CMD_MAP_get (join (lit " ") (take n (parameters (split_opt_and_cmd input)))) = Some c.
Proof.
  destruct (split_eq input) as (cmd & i & _ & -> & Hn). cbn [command parameters]. intros ->.
  destruct Hn as (n & Hn & Hw). exists n. split; [done|]. unfold window in Hw.
  by destruct (_ <? _)%nat.
Qed.

(** *** The loops find the command of the reference *)

(** [fport] and [rport] are single words. *)
Lemma forward_word input st n c : window input st n = Some c -> is_forward_init c = true -> (n < 2)%nat.
Proof.
  unfold window. destruct (_ <? _)%nat eqn:El; [done|]. apply Nat.ltb_ge in El. intros E Hc.
  set (f := fun (s : bytes) c => implb (is_forward_init c) (bool_decide (32 ∉ s))).
  pose proof (CMD_MAP_all f _ c ltac:(by vm_compute) E) as H. unfold f in H. rewrite Hc in H. cbn [implb] in H.
  apply bool_decide_eq_true in H. destruct (decide (n < 2)%nat) as [|Hn]; [done|]. exfalso. apply H.
  assert (Hlen : length (take n (drop st input)) = n) by (rewrite length_take, length_drop; lia).
  destruct (take n (drop st input)) as [|w [|v ws]]; cbn [length] in Hlen; [lia..|]. cbn [join].
  rewrite !elem_of_app. right. left. apply list_elem_of_here.
Qed.
Lemma no_sub_init c : is_forward_sub c = true -> is_forward_init c = false.
Proof. by destruct c. Qed.
(** The loop over the lengths, with [fport] or [rport] found before. *)
Lemma try_lens_after input st e i :
  is_forward_init e = true ->
  try_lens input st (seq 1 MAX_CMD_LEN) (Some e, i) =
    match sub_form (shortest input st) with Some c => (Some c, st) | None => (Some e, i) end /\
  try_lens input st [2; 3]%nat (Some e, i) = match sub_form (longer input st) with Some c => (Some c, st) | None => (Some e, i) end.
Proof.
  intros He. change (seq 1 MAX_CMD_LEN) with [1; 2; 3]%nat.
  assert (Hfound : forall c k lens, window input st k = Some c -> (length input <? st + k)%nat = false ->
    try_lens input st (k :: lens) (Some e, i) = match sub_form (Some c) with Some c => (Some c, st) | None => (Some e, i) end).
  { intros c k lens Hc Hk. rewrite try_lens_cons, Hk, Hc. cbn [fst sub_form]. rewrite He. cbn [andb].
    destruct (is_forward_sub c) eqn:Hs; [|done]. cbn [negb]. by rewrite no_sub_init. }
  assert (Hnone : forall k lens, window input st k = None -> (length input <? st + k)%nat = false ->
    try_lens input st (k :: lens) (Some e, i) = try_lens input st lens (Some e, i)).
  { intros k lens Hk Hl. by rewrite try_lens_cons, Hl, Hk. }
  assert (Hshort : forall k lens, (length input <? st + k)%nat = true -> try_lens input st (k :: lens) (Some e, i) = (Some e, i)).
  { intros k lens Hl. by rewrite try_lens_cons, Hl. }
  assert (Hlong : try_lens input st [2; 3]%nat (Some e, i) = match sub_form (longer input st) with Some c => (Some c, st) | None => (Some e, i) end).
  { unfold longer. destruct (length input <? st + 2)%nat eqn:E2.
    { rewrite Hshort by done. by rewrite (window_short _ _ _ 2 E2), (window_short _ _ _ 3 E2) by lia. }
    destruct (window input st 2) eqn:W2; [by apply Hfound|]. rewrite Hnone by done.
    destruct (length input <? st + 3)%nat eqn:E3; [rewrite Hshort by done; by rewrite (window_short _ _ _ 3 E3) by lia|].
    destruct (window input st 3) eqn:W3; [by apply Hfound|by rewrite Hnone]. }
  split; [|exact Hlong]. unfold shortest. destruct (length input <? st + 1)%nat eqn:E1.
  { rewrite Hshort by done. by rewrite (window_short _ _ _ 1 E1), (window_short _ _ _ 2 E1), (window_short _ _ _ 3 E1) by lia. }
  destruct (window input st 1) eqn:W1; [by apply Hfound|]. rewrite Hnone by done. exact Hlong.
Qed.
Lemma try_starts_after input starts e i :
  is_forward_init e = true ->
  try_starts input starts (Some e, i) = match first_sub input starts with Some (j, c) => (Some c, j) | None => (Some e, i) end.
Proof.
  intros He. induction starts as [|st starts IH]; [done|]. cbn [try_starts first_sub].
  rewrite (proj1 (try_lens_after input st e i He)). destruct (sub_form (shortest input st)) as [c|] eqn:Es; cbn [fst]; [|by rewrite He].
  assert (is_forward_sub c = true) as Hc by (unfold sub_form in Es; repeat case_match; congruence). by rewrite no_sub_init.
Qed.
Lemma try_starts_found input starts i :
  try_starts input starts (None, i) = match found_command input starts with Some (j, c) => (Some c, j) | None => (None, i) end.
Proof.
  induction starts as [|st starts IH]; [done|]. cbn [try_starts found_command].
  pose proof (try_lens_first input st i) as H. destruct (shortest input st) as [c|] eqn:Es; [|by rewrite H].
  destruct (is_forward_init c) eqn:Ei; [|cbv zeta in H; rewrite H; cbn [fst]; by rewrite Ei].
  assert (W1 : window input st 1 = Some c).
  { unfold shortest in Es. destruct (window input st 1) eqn:W; [done|].
    destruct (window input st 2) eqn:W2; [injection Es as ->; apply forward_word in W2; [lia|done]|]. apply forward_word in Es; [lia|done]. }
  assert (Et : try_lens input st (seq 1 MAX_CMD_LEN) (None, i) = try_lens input st [2; 3]%nat (Some c, st)).
  { change (seq 1 MAX_CMD_LEN) with [1; 2; 3]%nat. rewrite try_lens_cons, W1. cbn [fst]. rewrite Ei. unfold window in W1. by destruct (_ <? _)%nat. }
  rewrite Et, (proj2 (try_lens_after input st c st Ei)). destruct (sub_form (longer input st)) as [u|] eqn:Eu; cbn [fst].
  - assert (is_forward_sub u = true) as Hu by (unfold sub_form in Eu; repeat case_match; congruence). by rewrite no_sub_init.
  - rewrite Ei. cbn [negb]. rewrite (try_starts_after input starts c st Ei). by destruct (first_sub input starts) as [[j v]|].
Qed.

(** *** Words without spaces

    Of words without spaces, as the server gets them, the found command is the one at its first
    position, and splitting the parameters again gives the same. *)
Definition spaceless (words : list bytes) : Prop := Forall (fun w => 32 ∉ w) words.

Lemma sub_words s c :
  CMD_MAP_get s = Some c -> is_forward_sub c = true -> exists w v, s = w ++ 32 :: v /\ (32 ∉ w) /\ (32 ∉ v) /\ is_Some (CMD_MAP_get w).
Proof.
  intros E Hc. set (f := fun s c => implb (is_forward_sub c) (match split_on 32 s with
    | [w; v] => match CMD_MAP_get w with Some _ => true | None => false end | _ => false end)).
  pose proof (CMD_MAP_all f s c ltac:(by vm_compute) E) as H. unfold f in H. rewrite Hc in H.
  pose proof (join_split 32 s) as Hj. pose proof (split_on_no_sep 32 s) as Hn.
  destruct (split_on 32 s) as [|w [|v [|]]]; [done..| |done]. exists w, v. apply Forall_cons in Hn as [Hw [Hv _]%Forall_cons].
  split_and!; [by rewrite <- Hj|done..|]. cbn [implb] in H. by destruct (CMD_MAP_get w).
Qed.
(** Where a word starts no command, no sub-command of [fport] starts. *)
Lemma window_sub input st n c :
  spaceless input -> (1 <= n)%nat -> window input st n = Some c -> is_forward_sub c = true -> n = 2%nat /\ is_Some (window input st 1).
Proof.
  intros Hw Hn E Hc. unfold window in *. destruct (length input <? st + n)%nat eqn:El; [done|].
  apply Nat.ltb_ge in El. rewrite (proj2 (Nat.ltb_ge _ _)) by lia.
  destruct (sub_words _ _ E Hc) as (w & v & Ej & H1 & H2 & H3).
  assert (Hs : spaceless (take n (drop st input))) by (apply Forall_take, Forall_drop, Hw).
  assert (Hlen : length (take n (drop st input)) = n) by (rewrite length_take, length_drop; lia).
  pose proof (split_join 32 (take n (drop st input))) as Hsp. change (lit " ") with [32] in *. rewrite Ej in Hsp.
  rewrite split_on_app, split_on_free in Hsp by done.
  destruct (drop st input) as [|x t] eqn:Ed; [destruct n; done|]. destruct n as [|n]; [lia|]. cbn [take] in *.
  specialize (Hsp ltac:(done) Hs). injection Hsp as <- Et. rewrite <- Et in Hlen. cbn in Hlen. by split; [lia|].
Qed.
Lemma try_lens_kept input st e i :
  spaceless input -> is_forward_init e = true -> try_lens input st (seq 1 MAX_CMD_LEN) (Some e, i) = (Some e, i).
Proof.
  intros Hw He. change (seq 1 MAX_CMD_LEN) with [1; 2; 3]%nat.
  assert (Hb : forall n c, (1 <= n)%nat -> window input st n = Some c -> (n = 2%nat -> window input st 1 = None) -> is_forward_sub c = false).
  { intros n c Hn E H1. destruct (is_forward_sub c) eqn:Es; [|done]. destruct (window_sub input st n c Hw Hn E Es) as [-> Hs].
    rewrite H1 in Hs by done. by destruct Hs. }
  rewrite try_lens_cons. destruct (_ <? _)%nat; [done|]. destruct (window input st 1) as [c|] eqn:E1.
  { cbn [fst]. by rewrite He, (Hb 1%nat c). }
  rewrite try_lens_cons. destruct (_ <? _)%nat; [done|]. destruct (window input st 2) as [c|] eqn:E2.
  { cbn [fst]. by rewrite He, (Hb 2%nat c) by (done || lia). }
  rewrite try_lens_cons. destruct (_ <? _)%nat; [done|]. destruct (window input st 3) as [c|] eqn:E3; [|done].
  cbn [fst]. by rewrite He, (Hb 3%nat c) by (done || lia).
Qed.
Lemma try_starts_kept input starts e i :
  spaceless input -> is_forward_init e = true -> try_starts input starts (Some e, i) = (Some e, i).
Proof.
  intros Hw He. induction starts as [|st starts IH]; [done|]. cbn [try_starts]. rewrite try_lens_kept by done. cbn [fst].
  by rewrite He.
Qed.
(** What the search finds, it finds at one position. *)
Lemma try_starts_at input starts i c j :
  spaceless input -> try_starts input starts (None, i) = (Some c, j) ->
  j ∈ starts /\ try_lens input j (seq 1 MAX_CMD_LEN) (None, i) = (Some c, j).
Proof.
  intros Hw. induction starts as [|st starts IH]; [done|]. cbn [try_starts].
  pose proof (try_lens_first input st i) as H. destruct (shortest input st) as [c0|].
  - assert (Hr : exists c1, try_lens input st (seq 1 MAX_CMD_LEN) (None, i) = (Some c1, st)).
    { destruct (is_forward_init c0); [destruct H as [H|(s & H & _)]|]; eauto. }
    destruct Hr as [c1 Hr]. rewrite Hr. cbn [fst]. destruct (is_forward_init c1) eqn:E1; cbn [negb].
    + rewrite try_starts_kept by done. intros [= <- <-]. split; [apply list_elem_of_here|done].
    + intros [= <- <-]. split; [apply list_elem_of_here|done].
  - rewrite H. intros E. destruct (IH E) as [Hin Ht]. split; [by apply list_elem_of_further|done].
Qed.
(** The search at a position sees only the words from there on. *)
Lemma window_drop input st n : (st <= length input)%nat -> window (drop st input) 0 n = window input st n.
Proof.
  intros Hst. unfold window. rewrite length_drop, drop_0.
  destruct (Nat.ltb_spec (length input - st) (0 + n)), (Nat.ltb_spec (length input) (st + n)); done || lia.
Qed.
Lemma try_lens_drop input st lens o i i' :
  (st <= length input)%nat -> (try_lens (drop st input) 0 lens (o, i)).1 = (try_lens input st lens (o, i')).1.
Proof.
  intros Hst. revert o i i'; induction lens as [|n lens IH]; intros o i i'; [done|]. rewrite !try_lens_cons, window_drop by done.
  rewrite length_drop. assert ((length input - st <? 0 + n)%nat = (length input <? st + n)%nat) as ->.
  { destruct (Nat.ltb_spec (length input - st) (0 + n)), (Nat.ltb_spec (length input) (st + n)); done || lia. }
  destruct (_ <? _)%nat; [done|]. destruct (window input st n) as [c|]; [|apply IH]. cbn [fst].
  destruct (match o with Some _ => _ | None => _ end); [done|]. destruct (is_forward_init c); [apply IH|done].
Qed.
Lemma try_lens_found input st i c j :
  try_lens input st (seq 1 MAX_CMD_LEN) (None, i) = (Some c, j) -> j = st.
Proof.
  pose proof (try_lens_first input st i) as H. destruct (shortest input st) as [c0|]; [|by rewrite H].
  destruct (is_forward_init c0); [destruct H as [->|(s & -> & _)]|rewrite H]; by intros [= _ <-].
Qed.
(** Splitting the parameters again finds the same command at their start. *)
Lemma split_again input c :
  spaceless input -> command (split_opt_and_cmd input) = Some c ->
  split_opt_and_cmd (parameters (split_opt_and_cmd input)) = mkParsed [] (Some c) (parameters (split_opt_and_cmd input)).
Proof.
  intros Hw Hc. destruct (split_eq input) as (cmd & i & E & Es & _). rewrite Es in *. cbn [command parameters] in *. subst cmd.
  destruct (try_starts_at _ _ _ _ _ Hw E) as [Hin Ht]. apply elem_of_seq in Hin as [_ Hin].
  unfold split_opt_and_cmd. assert (Hn : (length (drop i input) = S (length (drop i input) - 1))%nat) by (rewrite length_drop; lia).
  assert (Hd : try_lens (drop i input) 0 (seq 1 MAX_CMD_LEN) (None, length (drop i input)) = (Some c, 0%nat)).
  { pose proof (try_lens_drop input i (seq 1 MAX_CMD_LEN) None (length (drop i input)) (length input) ltac:(lia)) as H. rewrite Ht in H.
    destruct (try_lens (drop i input) _ _ _) as [o j] eqn:Ej. cbn [fst] in H. subst o. by rewrite (try_lens_found _ _ _ _ _ Ej). }
  rewrite Hn at 1. cbn [seq try_starts]. rewrite Hd. cbn [fst]. destruct (is_forward_init c) eqn:Ec; cbn [negb].
  - rewrite try_starts_kept; [done|by apply Forall_drop|done].
  - done.
Qed.

(** What [parse_command] keeps of the split, and the bound it puts on the device's key. *)
Lemma parse_command_split args p :
  parse_command args = Ok p ->
  pc_command p = command (split_opt_and_cmd (drop 1 args)) /\ pc_parameters p = parameters (split_opt_and_cmd (drop 1 args)).
Proof.
  unfold parse_command. intros H. apply bind_Ok_inv in H as (g & _ & H). apply Ok_inj in H as <-.
  cbn [pc_command pc_parameters]. split; [|done]. pose proof (split_named (drop 1 args)) as Hn. set (s := split_opt_and_cmd _) in *.
  destruct (command s) as [c|]; [|done]. destruct (Hn c eq_refl) as (n & Hr & Hw). destruct c; try done.
  apply shell_word in Hw. apply join_no_space in Hw; [|lia|by apply (bool_decide_unpack _)|done].
  destruct (parameters s) as [|w [|w2 t]]; [done..|]. injection Hw as ->. by vm_compute.
Qed.
Definition params_bounded (p : ParsedCommand) : Prop := len (connect_key p) <= 32 /\ 0 <= log_level p < 7.
Lemma global_params_bounded opts p0 p : params_bounded p0 -> global_params_loop opts p0 = Ok p -> params_bounded p.
Proof.
  revert p0; induction opts as [|o opts IH]; intros p0 H0 E; cbn [global_params_loop] in E; [by apply Ok_inj in E as <-|].
  apply bind_Ok_inv in E as (arg & _ & E). cbv zeta in E.
  repeat match type of E with
  | match ?b with _ => _ end = _ => destruct b eqn:?
  | _ ≫= _ = _ => apply bind_Ok_inv in E as (? & _ & E)
  end; try done; (eapply IH; [|exact E]); try done; destruct H0 as [H1 H2]; split; cbn [connect_key log_level]; try done.
  - split; [by eapply (parse_uint_range 64)|by apply Z.ltb_lt].
  - by apply Z.ltb_ge.
Qed.
Lemma parse_command_bounded args p : parse_command args = Ok p -> params_bounded p.
Proof.
  unfold parse_command. intros H. apply bind_Ok_inv in H as (g & Hg & H). apply Ok_inj in H as <-.
  by eapply global_params_bounded in Hg.
Qed.

(** A command of one or two words at the start. *)
Lemma split_at_head input c :
  window input 0 1 = Some c \/ window input 0 1 = None /\ window input 0 2 = Some c -> is_forward_init c = false ->
  split_opt_and_cmd input = mkParsed [] (Some c) input.
Proof.
  intros Hw Hc. assert (Hl : try_lens input 0 (seq 1 MAX_CMD_LEN) (None, length input) = (Some c, 0%nat)).
  { pose proof (try_lens_first input 0 (length input)) as H.
    assert (shortest input 0 = Some c) as Es by (unfold shortest; by destruct Hw as [->|[-> ->]]).
    rewrite Es, Hc in H. exact H. }
  unfold split_opt_and_cmd. destruct input as [|w input]; [by destruct Hw as [?|[_ ?]]|].
  cbn [length seq try_starts]. cbn [length] in Hl. rewrite Hl. cbn [fst]. by rewrite Hc.
Qed.
(** Words of which none starts like a command, or which are addresses, are all options. *)
Definition no_command_word (w : bytes) : bool :=
  match w with b :: _ => negb (in_rng 97 122 b) || forallb addr_char w | [] => false end.
Lemma no_command_window input st n : forallb no_command_word input = true -> window input st n = None.
Proof.
  intros Hw. unfold window. destruct (_ <? _)%nat eqn:El; [done|]. apply Nat.ltb_ge in El.
  destruct (CMD_MAP_get _) as [c|] eqn:E; [|done]. exfalso.
  pose proof (CMD_MAP_all (fun s _ => match s with b :: _ => in_rng 97 122 b | [] => false end && negb (forallb addr_char (hd [] (split_on 32 s))))
    _ _ ltac:(by vm_compute) E) as H. apply andb_true_iff in H as [Hb Ha]. apply negb_true_iff in Ha.
  destruct n as [|n]; [done|]. destruct (drop st input) as [|w t] eqn:Ed; [done|].
  assert (Hin : no_command_word w = true).
  { rewrite List.forallb_forall in Hw. apply Hw. rewrite <- (take_drop st input), Ed. apply in_or_app. right. by left. }
  cbn [take] in Ha, Hb. destruct w as [|b w]; [done|]. unfold no_command_word in Hin. apply orb_true_iff in Hin as [Hin|Hin].
  - apply negb_true_iff in Hin. destruct (take n t); cbn in Hb; congruence.
  - assert (Hsp : 32 ∉ b :: w).
    { intros Hs. rewrite forallb_forall in Hin. specialize (Hin 32 (proj1 (list_elem_of_In _ _) Hs)). done. }
    destruct (take n t) as [|w2 t2]; cbn [join] in Ha.
    + rewrite split_on_free in Ha by done. cbn [hd] in Ha. congruence.
    + change (lit " ") with [32] in Ha. cbn [app] in Ha. change (b :: w ++ 32 :: ?x) with ((b :: w) ++ 32 :: x) in Ha.
      rewrite split_on_app in Ha by done. cbn [hd] in Ha. congruence.
Qed.
Lemma no_command input : forallb no_command_word input = true -> split_opt_and_cmd input = mkParsed input None [].
Proof.
  intros Hw. destruct (split_eq input) as (cmd & i & E & -> & _). 
  pose proof (try_starts_found input (seq 0 (length input)) (length input)) as H.
  assert (found_command input (seq 0 (length input)) = None) as Hn.
  { generalize (seq 0 (length input)). intros l. induction l as [|st l IH]; [done|]. cbn. unfold shortest. by rewrite !no_command_window. }
  rewrite Hn, E in H. injection H as -> ->. by rewrite take_ge, drop_ge by done.
Qed.

(** ** Facts about addresses *)

Lemma str_slice_prefix a b rest : b < 128 -> str_slice 0 (len a) (a ++ b :: rest) = Ok a.
Proof.
  intros Hb. unfold str_slice, is_char_boundary. rewrite len_app, len_cons.
  pose proof (len_nonneg a). pose proof (len_nonneg rest). tests.
  rewrite (list_lookup_middle a rest b (Z.to_nat (len a))) by (unfold len; lia).
  replace (negb (is_cont b)) with true by (unfold is_cont, in_rng; by tests).
  rewrite slice_raw_prefix by done. simpl. destruct (len a =? 0) eqn:E; [done|].
  bool_cases. tests. done.
Qed.
Lemma str_from_2 opt : is_char_boundary opt 2 = true -> 2 < len opt ->
  str_from 2 opt = Ok (slice_raw 2 (len opt) opt).
Proof.
  intros Hb Hl. unfold str_from, str_slice. rewrite Hb. tests. unfold is_char_boundary.
  rewrite Z.eqb_refl, orb_true_r. done.
Qed.

Lemma check_port_no_panic s : check_port s <> Panic.
Proof. unfold check_port. case_if; [done|]. destruct (parse_uint 16 s); [done|]. by case_if. Qed.
Lemma parse_server_no_panic arg : parse_server_listen_string arg <> Panic.
Proof.
  unfold parse_server_listen_string. set (addr := normalize_listen_addr arg).
  destruct (split_last 58 addr) as (l & x & -> & _ & Hpre). rewrite last_snoc.
  apply bind_no_panic; [apply check_port_no_panic|]. intros port _.
  destruct (_ =? 1)%nat eqn:El; [done|].
  destruct Hpre as [pre ->]; [intros ->; done|].
  rewrite len_app, len_cons. replace (len pre + (1 + len x) - len x - 1) with (len pre) by lia.
  rewrite str_slice_prefix, bind_Ok by lia. by case_match.
Qed.

Lemma global_params_no_panic opts p :
  Forall (fun o => 2 < len o -> is_char_boundary o 2 = true) opts ->
  global_params_loop opts p <> Panic.
Proof.
  revert p; induction opts as [|o opts IH]; intros p Ho; [done|].
  apply Forall_cons in Ho as [Ho Hos]. cbn [global_params_loop].
  apply bind_no_panic.
  { case_if; [|done]. by rewrite str_from_2 by (done || by apply Ho). }
  intros arg _. cbv zeta.
  repeat (case_if; [try done; try (by apply IH)|]);
    try (by apply IH); try (repeat case_match; done || by apply IH).
  apply bind_no_panic; [apply parse_server_no_panic|]. intros a _. by apply IH.
Qed.

(** Text that is a number or an IPv4 address has no colon or bracket, and is
    its own lower case. *)
Definition plain_text (s : bytes) : Prop := Forall (fun b => b = 46 \/ 48 <= b <= 57) s.
Lemma digits_plain s : digits s -> plain_text s.
Proof. intros H. eapply Forall_impl; [exact H|]. auto. Qed.
Lemma fmt_ipv4_plain a b c d : u8 a -> u8 b -> u8 c -> u8 d -> plain_text (fmt_ipv4 a b c d).
Proof.
  intros. unfold plain_text, fmt_ipv4. rewrite !Forall_app, !Forall_singleton.
  split_and!; try (left; done); apply digits_plain, fmt_dec_digits; ulia.
Qed.
Lemma plain_not_in s c : plain_text s -> c <> 46 -> ~ (48 <= c <= 57) -> c ∉ s.
Proof. intros H ? ? Hin. destruct (proj1 (Forall_forall _ _) H c Hin); lia. Qed.
Lemma plain_lowercase s : plain_text s -> to_ascii_lowercase s = s.
Proof.
  intros H. unfold to_ascii_lowercase. induction H as [|b s Hb Hs IH]; [done|].
  simpl. rewrite IH. unfold in_rng. destruct Hb as [->|Hb]; [done|]. by tests.
Qed.
Lemma plain_untrimmed s : plain_text s -> trim_end_matches 93 (trim_start_matches 91 s) = s.
Proof.
  intros H. assert (Hs : trim_start_matches 91 s = s).
  { unfold trim_start_matches. destruct H as [|b s Hb _]; [done|]. simpl. by tests. }
  rewrite Hs. unfold trim_end_matches. destruct s as [|b l _] using rev_ind; [done|].
  apply drop_while_end_keep. apply Forall_app in H as [_ H]. inversion H; subst. by tests.
Qed.
Lemma check_port_fmt port : 0 < port -> u16 port -> check_port (fmt_dec port) = Ok port.
Proof.
  intros H0 Hp. unfold check_port. pose proof (fmt_dec_nonempty port) as Hne.
  pose proof (fmt_dec_digits port ltac:(lia)) as Hd.
  pose proof (fmt_dec_go_length 20 port 5 ltac:(ulia) ltac:(lia)) as Hl.
  destruct (fmt_dec port) as [|b t] eqn:E; [done|]. rewrite <- E in *. cbn [orb].
  rewrite (proj2 (Z.ltb_ge 5 _)) by (unfold len, fmt_dec in *; lia).
  assert (forallb is_ascii_digit (fmt_dec port) = true) as ->.
  { apply List.forallb_forall. intros x Hx%list_elem_of_In.
    pose proof (proj1 (Forall_forall _ _) Hd x Hx). unfold is_ascii_digit, in_rng. simpl in *. by tests. }
  cbn [negb orb]. rewrite parse_fmt_dec by ulia. by tests.
Qed.

Section V4.
Context (a b c d port : Z).
Context (Ha : u8 a) (Hb : u8 b) (Hc : u8 c) (Hd : u8 d) (H0 : 0 < port) (Hp : u16 port).

Definition sock_text : bytes := fmt_ipv4 a b c d ++ [58] ++ fmt_dec port.

Lemma port_plain : plain_text (fmt_dec port).
Proof using H0. apply digits_plain, fmt_dec_digits. lia. Qed.

(** The checks behind the normalisation accept the address. *)
Lemma listen_v4_normal arg :
  normalize_listen_addr arg = sock_text -> parse_server_listen_string arg = Ok sock_text.
Proof using Ha Hb Hc Hd H0 Hp.
  intros E. unfold parse_server_listen_string. rewrite E. unfold sock_text.
  pose proof (fmt_ipv4_plain a b c d Ha Hb Hc Hd) as Hip. pose proof port_plain as Hpp.
  cbn [app]. rewrite split_on_app, split_on_free by (eapply plain_not_in; [done|lia..]).
  cbn [last]. rewrite check_port_fmt, bind_Ok by done. cbn [length Nat.eqb].
  rewrite len_app, len_cons.
  replace (len (fmt_ipv4 a b c d) + (1 + len (fmt_dec port)) - len (fmt_dec port) - 1)
    with (len (fmt_ipv4 a b c d)) by lia.
  rewrite str_slice_prefix, bind_Ok, plain_untrimmed, parse_ip_fmt by (done || lia). done.
Qed.
Lemma listen_v4_plain : normalize_listen_addr sock_text = sock_text.
Proof using Ha Hb Hc Hd Hp. unfold normalize_listen_addr, sock_text. by rewrite parse_socket_fmt. Qed.
Lemma listen_v4_mapped : normalize_listen_addr (lit "::ffff:" ++ sock_text) = sock_text.
Proof using Ha Hb Hc Hd H0 Hp.
  unfold normalize_listen_addr.
  assert (parse_socket_addr (lit "::ffff:" ++ sock_text) = None) as -> by done.
  assert (to_ascii_lowercase (lit "::ffff:" ++ sock_text) = lit "::ffff:" ++ sock_text) as ->.
  { unfold to_ascii_lowercase. rewrite map_app. change (map _ (lit "::ffff:")) with (lit "::ffff:"). f_equal. unfold sock_text. rewrite !map_app.
    pose proof (plain_lowercase _ (fmt_ipv4_plain a b c d Ha Hb Hc Hd)) as E1.
    pose proof (plain_lowercase _ port_plain) as E2. unfold to_ascii_lowercase in *.
    by rewrite E1, E2. }
  unfold strip_prefix. rewrite starts_with_app, drop_app_length. unfold sock_text.
  by rewrite parse_socket_v4_fmt.
Qed.
Lemma listen_port_only :
  parse_server_listen_string (fmt_dec port) = Ok (LOCAL_HOST ++ lit ":" ++ fmt_dec port).
Proof using H0 Hp.
  assert (E : normalize_listen_addr (fmt_dec port) = fmt_dec port).
  { unfold normalize_listen_addr. case_match; [done|].
    assert (Hl : to_ascii_lowercase (fmt_dec port) = fmt_dec port) by apply plain_lowercase, port_plain.
    rewrite Hl. assert (strip_prefix (lit "::ffff:") (fmt_dec port) = None) as ->.
    { unfold strip_prefix. destruct (starts_with _ _) eqn:Es; [|done].
      apply starts_with_spec in Es as [t Et]. exfalso.
      apply (plain_not_in (fmt_dec port) 58); [apply port_plain|lia..|].
      rewrite Et. apply list_elem_of_here. }
    unfold rsplit_once. rewrite split_once_free; [done|].
    rewrite elem_of_reverse. eapply plain_not_in; [apply port_plain|lia..]. }
  unfold parse_server_listen_string. rewrite E.
  rewrite split_on_free by (eapply plain_not_in; [apply port_plain|lia..]).
  cbn [last]. by rewrite check_port_fmt, bind_Ok.
Qed.
End V4.

(** ** Properties *)

(** C37: splitting the command line is the reference [found_command]: the command is the first
    one of the input, at its first position and with the fewest words, except that [fport] and [rport] give
    way to the first [ls] or [rm] form from there on; the options are the words before it, the
    parameters start with its words; without a command everything is options. *)
Theorem split_opt_and_cmd_spec input :
  split_opt_and_cmd input =
    match found_command input (seq 0 (length input)) with
    | Some (i, c) => mkParsed (take i input) (Some c) (drop i input)
    | None => mkParsed input None []
    end /\
  (forall c, command (split_opt_and_cmd input) = Some c -> exists n, (1 <= n <= 3)%nat /\
     CMD_MAP_get (join (lit " ") (take n (parameters (split_opt_and_cmd input)))) = Some c).
Proof.
  split; [|apply split_named]. unfold split_opt_and_cmd. rewrite try_starts_found.
  destruct (found_command _ _) as [[i c]|]; [done|]. by rewrite take_ge, drop_ge by lia.
Qed.

(** The extended shell command is never selected.  The code means to turn
    "shell -" into it, but tests the first parameter, which is the word "shell"
    itself: no command line gives [UnityExecuteEx]. *)
Theorem shell_dash_never_extended args p :
  parse_command args = Ok p -> pc_command p <> Some UnityExecuteEx.
Proof.
  intros H. destruct (parse_command_split args p H) as [-> _]. intros E.
  destruct (split_named _ _ E) as (n & _ & Hw). by apply no_extended_shell in Hw.
Qed.
Lemma shell_dash_never_extended_witness :
  option_map pc_command (match parse_command [lit "hdc"; lit "shell"; lit "-"; lit "-b"; lit "x"] with
    | Ok p => Some p | _ => None end) <> Some (Some UnityExecuteEx).
Proof.
  destruct (parse_command [lit "hdc"; lit "shell"; lit "-"; lit "-b"; lit "x"]) as [p| |] eqn:E;
    [|discriminate..].
  simpl. intros [= H]. exact (shell_dash_never_extended _ p E H).
Defined.

(** Reading the global options never panics when byte 2 of each option of
    more than two bytes starts a character, as in every ASCII option; an option
    whose second character spans that byte makes the program panic. *)
Theorem global_options_panic :
  (forall opts, Forall (fun o => 2 < len o -> is_char_boundary o 2 = true) opts ->
    extract_global_params opts <> Panic) /\
  (forall o opts, 2 < len o -> is_char_boundary o 2 = false ->
    extract_global_params (o :: opts) = Panic).
Proof.
  split; [intros; by apply global_params_no_panic|].
  intros o opts Hl Hb. unfold extract_global_params. cbn [global_params_loop].
  rewrite (proj2 (Z.ltb_lt 2 (len o))) by done. unfold str_from, str_slice.
  by rewrite Hb, andb_false_r.
Qed.

(** The server address.  An IPv4 socket address, the same address in its
    IPv4-mapped IPv6 form, and a bare port give the address in its plain form,
    which is one the server can bind: it parses back to the same address. *)
Theorem server_listen_v4 a b c d port :
  u8 a -> u8 b -> u8 c -> u8 d -> 0 < port -> u16 port ->
  let text := fmt_ipv4 a b c d ++ lit ":" ++ fmt_dec port in
  parse_server_listen_string text = Ok text /\
  parse_server_listen_string (lit "::ffff:" ++ text) = Ok text /\
  parse_server_listen_string (fmt_dec port) = Ok (lit "127.0.0.1" ++ lit ":" ++ fmt_dec port) /\
  parse_socket_addr text = Some (SockV4 (V4 a b c d) port).
Proof.
  intros Ha Hb Hc Hd H0 Hp text. split_and!.
  - apply (listen_v4_normal a b c d port); try done. by apply listen_v4_plain.
  - apply (listen_v4_normal a b c d port); try done. by apply listen_v4_mapped.
  - by apply listen_port_only.
  - by apply parse_socket_fmt.
Qed.
Lemma server_listen_v4_witness :
  parse_server_listen_string (lit "::ffff:10.0.0.7:8710") = Ok (lit "10.0.0.7:8710").
Proof.
  refine (proj1 (proj2 (server_listen_v4 10 0 0 7 8710 _ _ _ _ _ _))); vm_compute; intuition discriminate.
Defined.

(** What [parse_command] keeps as an address is accepted again: the listening address of the rules is an IP address,
    and the server's address, if it is one of a socket, is its own normal form. *)
Definition addrs_accepted (p : ParsedCommand) : Prop :=
  is_Some (parse_ip (forward_listen_ip p)) /\
  (is_Some (parse_socket_addr (server_addr p)) -> parse_server_listen_string (server_addr p) = Ok (server_addr p)).
Lemma listen_again arg addr :
  parse_server_listen_string arg = Ok addr -> is_Some (parse_socket_addr addr) -> parse_server_listen_string addr = Ok addr.
Proof.
  unfold parse_server_listen_string at 1. intros H [sa Hs]. cbv zeta in H.
  assert (Hn : forall x, is_Some (parse_socket_addr x) -> normalize_listen_addr x = x).
  { intros x [y Hy]. unfold normalize_listen_addr. by rewrite Hy. }
  pose proof H as H'. apply bind_Ok_inv in H as (port & Hp & H). destruct (_ =? 1)%nat eqn:El.
  - apply Ok_inj in H as <-.
    assert (0 < port /\ u16 port) as [Hp0 Hp1].
    { unfold check_port in Hp. destruct (_ || _); [done|]. destruct (parse_uint 16 _) as [|v] eqn:Ev; [done|].
      destruct (Z.ltb_spec 0 v); [|done]. apply Ok_inj in Hp as <-. split; [done|]. by apply (parse_uint_range 16) in Ev. }
    change LOCAL_HOST with (fmt_ipv4 127 0 0 1). apply (listen_v4_normal 127 0 0 1 port); try done. by apply listen_v4_plain.
  - apply bind_Ok_inv in H as (ip & Hi & H). destruct (parse_ip _) eqn:Ei; [|done]. apply Ok_inj in H. 
    unfold parse_server_listen_string. rewrite (Hn addr) by eauto. subst addr. cbv zeta. by rewrite Hp, bind_Ok, El, Hi, bind_Ok, Ei.
Qed.
Lemma global_params_addrs opts p0 p : addrs_accepted p0 -> global_params_loop opts p0 = Ok p -> addrs_accepted p.
Proof.
  revert p0; induction opts as [|o opts IH]; intros p0 H0 E; cbn [global_params_loop] in E; [by apply Ok_inj in E as <-|].
  apply bind_Ok_inv in E as (arg & _ & E). cbv zeta in E.
  repeat match type of E with
  | match ?b with _ => _ end = _ => destruct b eqn:?
  | _ ≫= _ = _ => apply bind_Ok_inv in E as (? & ? & E)
  end; try done; (eapply IH; [|exact E]); try done; destruct H0 as [H1 H2]; split; cbn [forward_listen_ip server_addr]; try done.
  intros Hs. by eapply listen_again.
Qed.
Lemma parse_command_addrs args p : parse_command args = Ok p -> addrs_accepted p.
Proof.
  unfold parse_command. intros H. apply bind_Ok_inv in H as (g & Hg & H). apply Ok_inj in H as <-.
  eapply global_params_addrs in Hg; [exact Hg|]. split; [by eexists; vm_compute|]. intros _. by vm_compute.
Qed.

(** Brackets are trimmed without being matched, so an address the server
    cannot bind passes the check: for it [parse_server_listen_string] returns
    the text unchanged and [SocketAddr] does not parse it. *)
Theorem server_listen_stray_bracket :
  parse_server_listen_string (lit "[[::1]:8710") = Ok (lit "[[::1]:8710") /\
  parse_socket_addr (normalize_listen_addr (lit "[[::1]:8710")) = None.
Proof. vm_compute. split; reflexivity. Qed.
