(* ===== verification/Daemon.v ===== *)
(** * The daemon: its state and what its handlers share

    The process state of [hdcd] as its handlers see it, the operating system
    they call, [send_shared] and [echo_client] of [src/hdcd/src/task.rs] (the
    latter repeated in [file.rs], [app.rs] and [forward.rs]). *)

From S2P Require Import Prelude RustStr Config Tlv Serializer Encrypt Transport.

(** ** The operating system

    Error texts, exit codes and outputs are the system's to choose; the
    handlers are proved for every choice. *)
Record CmdOutput := mkCmdOutput { cmd_stdout : bytes; cmd_stderr : bytes; cmd_success : bool }.
Class Os := {
  (** the reason a path cannot be created or opened, when it cannot *)
  create_error : bytes -> option bytes;
  open_error : bytes -> option bytes;
  (** [metadata] of a path that is not a regular file: an error or a size *)
  stat_other : bytes -> bytes + Z;
  (** a failing read at an offset; how much of what is there a read returns *)
  read_error : bytes -> Z -> option bytes;
  read_amount : bytes -> Z -> Z -> Z;
  (** a failing write at an offset: how many bytes went out before it failed *)
  write_error : bytes -> Z -> bytes -> option (nat * bytes);
  (** [Command::new(prog).args(args).output()] *)
  command_output : bytes -> list bytes -> bytes + CmdOutput;
  (** a TCP or abstract-socket connect, and binding a listener *)
  connect_error : bytes -> option Error;
  bind_error : bytes -> option Error;
  (** [std::env::var] *)
  env_var : bytes -> option bytes
}.

(** ** Files

    A file handle is a path with the offset of the next read or write. *)
Record FileHandle := mkFileHandle { fh_path : bytes; fh_pos : Z }.

(** [write_all] at an offset: the hole up to the offset reads as zeros. *)
Definition write_at (content : bytes) (pos : nat) (data : bytes) : bytes :=
  take pos (content ++ replicate (pos - length content) 0) ++ data ++
  drop (pos + length data) content.

Inductive TransferDirection := Send | Recv.
#[global] Instance TransferDirection_eq_dec : EqDecision TransferDirection.
Proof. solve_decision. Defined.

(** [file] is shared between the copies of a state, so it is a cell of the store. *)
Record FileTransferState := mkFileTransferState {
  fts_session_id : Z; fts_channel_id : Z; local_path : bytes; remote_path : bytes;
  file : positive; total_size : Z; received_size : Z; direction : TransferDirection
}.

(** ** Port forwarding: the data of [forward.rs] *)

Inductive RportMsg :=
  | CheckResult (ctx_id : Z) (ok : bool) | ActiveMaster (conn_id : Z)
  | FwdData (conn_id : Z) (data : bytes) | FreeContext (conn_id : Z) | Shutdown.
Record FportConn := mkFportConn { fc_channel_id : Z; fc_tx : positive }.
(** A task of the rport listener: its own parameters and whether it was aborted. *)
Record RportTask := mkRportTask {
  rt_channel : Z; rt_remote : bytes; rt_local : bytes; rt_aborted : bool
}.
(** The message queues are the unbounded channels of the source; a listener's
    queue and its task have the same name. *)
Record ForwardState := mkForwardState {
  fport_senders : gmap Z FportConn;
  rport_listeners : gmap Z positive;
  fport_queues : gmap positive (list bytes);
  rport_queues : gmap positive (list RportMsg);
  rport_tasks : gmap positive RportTask
}.

(** ** The state of the daemon *)

Record World := mkWorld {
  link : Link;
  tasks : gmap (Z * Z) FileTransferState;
  cells : gmap positive (option FileHandle);
  fs : gmap bytes bytes;
  fwd : ForwardState
}.
Definition set_link (l : Link) (w : World) : World := mkWorld l (tasks w) (cells w) (fs w) (fwd w).
Definition set_tasks (t : gmap (Z * Z) FileTransferState) (w : World) : World :=
  mkWorld (link w) t (cells w) (fs w) (fwd w).
Definition set_cells (c : gmap positive (option FileHandle)) (w : World) : World :=
  mkWorld (link w) (tasks w) c (fs w) (fwd w).
Definition set_fs (f : gmap bytes bytes) (w : World) : World :=
  mkWorld (link w) (tasks w) (cells w) f (fwd w).
Definition set_fwd (f : ForwardState) (w : World) : World :=
  mkWorld (link w) (tasks w) (cells w) (fs w) f.

Section Daemon.
Context {HA : Aead} {OS : Os}.

(** The [SharedWriter] is the connection's write half with the session it
    belongs to. *)
Record SharedWriter := mkSharedWriter { sw_session_id : Z }.

Definition on_link {A} : M Link A -> M World A := zoom link set_link.
Definition send_shared (wr : SharedWriter) (msg : TaskMessage) : M World unit :=
  on_link (DaemonTcp.send_message (sw_session_id wr) msg).

Definition level_prefix (level : MessageLevel.t) : bytes :=
  match level with
  | MessageLevel.LFail => lit "[Fail]"
  | MessageLevel.LInfo => lit "[Info]"
  | MessageLevel.LOk => []
  end.
Definition echo_message (channel_id : Z) (msg : bytes) (level : MessageLevel.t) : TaskMessage :=
  mkTaskMessage channel_id KernelEcho
    (MessageLevel.as_u8 level :: level_prefix level ++ msg ++ [13; 10]).
Definition echo_client (channel_id : Z) (wr : SharedWriter) (msg : bytes) (level : MessageLevel.t)
  : M World unit :=
  send_shared wr (echo_message channel_id msg level).

(** The message that closes a channel. *)
Definition channel_close (channel_id : Z) : TaskMessage :=
  mkTaskMessage channel_id KernelChannelClose [0].
End Daemon.

(** ** Sending: facts the handlers share *)

Section Sending.
Context {HA : Aead} {HL : AeadLaws HA}.

(** [sends sid ms w w']: the messages [ms] were put on the connection, and
    nothing else of the state changed. *)
Definition sends (sid : Z) (ms : list TaskMessage) (w w' : World) : Prop :=
  exists l, send_all sid ms (link w) = (Ok tt, l) /\ w' = set_link l w /\ link_open sid l.

Lemma sends_nil sid w : link_open sid (link w) -> sends sid [] w w.
Proof. intros H. exists (link w). by destruct w. Qed.
Lemma sends_app sid ms1 ms2 w1 w2 w3 :
  sends sid ms1 w1 w2 -> sends sid ms2 w2 w3 -> sends sid (ms1 ++ ms2) w1 w3.
Proof.
  intros (l1 & E1 & -> & _) (l2 & E2 & -> & H2). exists l2.
  split_and!; [|by destruct w1|done]. rewrite send_all_app, E1. exact E2.
Qed.
Lemma send_shared_sends wr m w :
  link_open (sw_session_id wr) (link w) -> sendable m -> exists w',
  send_shared wr m w = (Ok tt, w') /\ sends (sw_session_id wr) [m] w w'.
Proof.
  intros Ho Hm. destruct (send_open _ [m] _ Ho ltac:(by constructor)) as (l & E & Ho').
  exists (set_link l w). unfold send_shared, on_link, zoom.
  pose proof E as E'. cbn [send_all] in E'. rewrite M_bind_eq in E'.
  destruct (DaemonTcp.send_message _ m (link w)) as [[[]| |] l'] eqn:Es; try done.
  injection E' as ->. split; [done|]. by exists l.
Qed.
Lemma sends_open sid ms w w' : sends sid ms w w' -> link_open sid (link w').
Proof. by intros (l & _ & -> & H). Qed.
End Sending.

(** ** A concrete system

    Nothing fails; programs print nothing and succeed.  It shows that the
    hypotheses on the system can hold. *)
Module CalmOs.
#[export] Instance os : Os := {
  create_error _ := None; open_error _ := None; stat_other _ := inl (lit "No such file");
  read_error _ _ := None; read_amount _ _ n := n; write_error _ _ _ := None;
  command_output _ _ := inr (mkCmdOutput [] [] true);
  connect_error _ := None; bind_error _ := None; env_var _ := None
}.
End CalmOs.

Definition empty_forward : ForwardState := mkForwardState ∅ ∅ ∅ ∅ ∅.
Definition start_world : World := mkWorld (mkLink ∅ [] (mkWriter [] None)) ∅ ∅ ∅ empty_forward.
