(* ===== verification/DaemonFile.v ===== *)
(** * The daemon's file transfers, app installation and flashd stub

    [src/hdcd/src/file.rs], [src/hdcd/src/app.rs], [src/hdcd/src/flashd.rs].
    Each handler is a computation on the daemon's state; the conditional
    compilation is that of Linux. *)

From S2P Require Import Prelude RustStr Config Tlv Serializer Encrypt Transport Daemon.

Section Handlers.
Context {HA : Aead} {OS : Os}.

(** ** The task map *)

Definition file_map_put (session_id channel_id : Z) (state : FileTransferState) : M World unit :=
  modify (fun w => set_tasks (<[(session_id, channel_id) := state]> (tasks w)) w).
Definition file_map_get (session_id channel_id : Z) : M World (option FileTransferState) :=
  fun w => (Ok (tasks w !! (session_id, channel_id)), w).
Definition file_map_remove (session_id channel_id : Z) : M World unit :=
  modify (fun w => set_tasks (delete (session_id, channel_id) (tasks w)) w).

(** [Arc::new(Mutex::new(None))]: a new cell. *)
Definition new_cell : M World positive := fun w =>
  let c := fresh (dom (cells w)) in (Ok c, set_cells (<[c := None]> (cells w)) w).
(** [*state.file.lock().unwrap() = Some(file)], and reading the cell. *)
Definition set_cell (c : positive) (h : FileHandle) : M World unit :=
  modify (fun w => set_cells (<[c := Some h]> (cells w)) w).
Definition get_cell (c : positive) : M World (option FileHandle) :=
  fun w => (Ok (default None (cells w !! c)), w).

(** ** Files *)

(** [File::create]: the file exists and is empty. *)
Definition File_create (path : bytes) : M World (bytes + FileHandle) := fun w =>
  match create_error path with
  | Some e => (Ok (inl e), w)
  | None => (Ok (inr (mkFileHandle path 0)), set_fs (<[path := []]> (fs w)) w)
  end.
Definition File_open (path : bytes) : M World (bytes + FileHandle) := fun w =>
  match open_error path with
  | Some e => (Ok (inl e), w)
  | None => (Ok (inr (mkFileHandle path 0)), w)
  end.
(** [file.read(&mut buf)] with a buffer of [n] bytes. *)
Definition File_read (h : FileHandle) (n : Z) : M World (bytes + (bytes * FileHandle)) := fun w =>
  match read_error (fh_path h) (fh_pos h) with
  | Some e => (Ok (inl e), w)
  | None =>
      let content := default [] (fs w !! fh_path h) in
      let avail := Z.min n (len content - fh_pos h) in
      let k := if avail <=? 0 then 0
               else Z.max 1 (Z.min avail (read_amount (fh_path h) (fh_pos h) avail)) in
      (Ok (inr (slice_raw (fh_pos h) (fh_pos h + k) content,
                mkFileHandle (fh_path h) (fh_pos h + k))), w)
  end.
(** [file.write_all(data)] on the handle in a cell. *)
Definition File_write_all (c : positive) (h : FileHandle) (data : bytes) : M World (option bytes) :=
  fun w =>
  let content := default [] (fs w !! fh_path h) in
  let put k := set_cells (<[c := Some (mkFileHandle (fh_path h) (fh_pos h + Z.of_nat k))]> (cells w))
    (set_fs (<[fh_path h := write_at content (Z.to_nat (fh_pos h)) (take k data)]> (fs w)) w) in
  match write_error (fh_path h) (fh_pos h) data with
  | Some (k, e) => (Ok (Some e), put (Nat.min k (length data)))
  | None => (Ok None, put (length data))
  end.
(** [std::fs::metadata(path)]: the length. *)
Definition metadata_len (path : bytes) : M World (bytes + Z) := fun w =>
  match fs w !! path with
  | Some content => (Ok (inr (len content)), w)
  | None => (Ok (stat_other path), w)
  end.

(** ** [file.rs] *)

(** [parts.len() > i && parts[i] == word] *)
Definition word_at (i : nat) (enough : bool) (word : bytes) (parts : list bytes) : Result bool :=
  if enough then w ← index i parts; mret (beq w word) else mret false.
Definition parse_file_paths (payload : bytes) : Result (option (bytes * bytes)) :=
  let parts := split_on 32 (from_utf8_lossy payload) in
  if (length parts <? 4)%nat then mret None
  else
    cwd ← word_at 2 (2 <? length parts)%nat (lit "-cwd") parts;
    let idx := if cwd : bool then 4%nat else 2%nat in
    if (idx + 2 <=? length parts)%nat then
      a ← index idx parts; b ← index (idx + 1) parts; mret (Some (a, b))
    else mret None.

Definition config_for (path : bytes) (file_size : Z) : TransferConfig.t :=
  TransferConfig.mk file_size 0 0 [] path [] false 0 false [] [] [] [].

Definition handle_file_init (msg : TaskMessage) (session_id : Z) (wr : SharedWriter) : M World unit :=
  paths ← lift (parse_file_paths (payload msg));
  match paths with
  | None => echo_client (channel_id msg) wr (lit "Invalid file init parameters") MessageLevel.LFail
  | Some (local_path, remote_path) =>
      c ← new_cell;
      _ ← file_map_put session_id (channel_id msg)
            (mkFileTransferState session_id (channel_id msg) local_path remote_path c 0 0 Send);
      send_shared wr (mkTaskMessage (channel_id msg) FileCheck
        (TransferConfig.serialize (config_for remote_path 0)))
  end.

Definition handle_file_check (msg : TaskMessage) (session_id : Z) (wr : SharedWriter) : M World unit :=
  match TransferConfig.deserialize (payload msg) with
  | Ok config =>
      state ← file_map_get session_id (channel_id msg);
      _ ← match state with
          | Some s =>
              file_map_put session_id (channel_id msg)
                (mkFileTransferState (fts_session_id s) (fts_channel_id s) (local_path s)
                   (TransferConfig.path config) (file s) (TransferConfig.file_size config)
                   (received_size s) (direction s))
          | None => mret tt
          end;
      send_shared wr (mkTaskMessage (channel_id msg) FileBegin [])
  | Err _ => echo_client (channel_id msg) wr (lit "Invalid transfer config") MessageLevel.LFail
  | Panic => lift Panic
  end.

(** The read loop of [handle_daemon_file_send]; [None] when it returned early. *)
Fixpoint file_send_loop (fuel : nat) (channel_id : Z) (wr : SharedWriter) (h : FileHandle)
  : M World (option unit) :=
  match fuel with
  | O => lift Panic
  | S f =>
      r ← File_read h MAX_SIZE_IOBUF;
      match r with
      | inl e =>
          _ ← echo_client channel_id wr (lit "Read failed: " ++ e) MessageLevel.LFail;
          mret None
      | inr (data, h) =>
          match data with
          | [] => mret (Some tt)
          | _ =>
              sent ← try_ (send_shared wr (mkTaskMessage channel_id FileData data));
              match sent with
              | Ok _ => file_send_loop f channel_id wr h
              | _ => mret None
              end
          end
      end
  end.
(** Every read but the last returns a byte or more of the file. *)
Definition file_send_fuel (path : bytes) (w : World) : nat := S (S (length (default [] (fs w !! path)))).

Definition handle_daemon_file_send (channel_id session_id : Z) (wr : SharedWriter) (path : bytes)
  : M World unit :=
  f ← File_open path;
  match f with
  | inl e =>
      _ ← echo_client channel_id wr (lit "Failed to open file: " ++ e) MessageLevel.LFail;
      send_shared wr (channel_close channel_id)
  | inr h =>
      w ← get;
      done ← file_send_loop (file_send_fuel path w) channel_id wr h;
      match done with
      | None => mret tt
      | Some _ =>
          _ ← send_shared wr (mkTaskMessage channel_id FileFinish []);
          _ ← send_shared wr (channel_close channel_id);
          file_map_remove session_id channel_id
      end
  end.

Definition handle_file_begin (msg : TaskMessage) (session_id : Z) (wr : SharedWriter) : M World unit :=
  state ← file_map_get session_id (channel_id msg);
  match state with
  | None => echo_client (channel_id msg) wr (lit "File transfer not initialized") MessageLevel.LFail
  | Some s =>
      match direction s with
      | Send =>
          f ← File_create (remote_path s);
          match f with
          | inr h => _ ← set_cell (file s) h; file_map_put session_id (channel_id msg) s
          | inl e => echo_client (channel_id msg) wr (lit "Failed to create file: " ++ e) MessageLevel.LFail
          end
      | Recv => handle_daemon_file_send (channel_id msg) session_id wr (remote_path s)
      end
  end.

(** The write of [handle_file_data] and of [handle_app_data]; the text of a
    failure, and the size to add. *)
Definition write_payload (s : FileTransferState) (data : bytes) : M World (option bytes * Z) :=
  h ← get_cell (file s);
  match h with
  | None => mret (None, 0)
  | Some h =>
      e ← File_write_all (file s) h data;
      match e with
      | Some e => mret (Some (lit "Write failed: " ++ e), 0)
      | None => mret (None, len data)
      end
  end.
Definition add_received (s : FileTransferState) (n : Z) : FileTransferState :=
  mkFileTransferState (fts_session_id s) (fts_channel_id s) (local_path s) (remote_path s) (file s)
    (total_size s) (received_size s + n) (direction s).

Definition handle_file_data (msg : TaskMessage) (session_id : Z) (wr : SharedWriter) : M World unit :=
  state ← file_map_get session_id (channel_id msg);
  match state with
  | None => echo_client (channel_id msg) wr (lit "File transfer not initialized") MessageLevel.LFail
  | Some s =>
      if negb (bool_decide (direction s = Send)) then mret tt
      else
        '(failed, n) ← write_payload s (payload msg);
        match failed with
        | Some e => echo_client (channel_id msg) wr e MessageLevel.LFail
        | None => file_map_put session_id (channel_id msg) (add_received s n)
        end
  end.

Definition handle_file_finish (msg : TaskMessage) (session_id : Z) (wr : SharedWriter) : M World unit :=
  state ← file_map_get session_id (channel_id msg);
  match state with
  | None => echo_client (channel_id msg) wr (lit "File transfer not initialized") MessageLevel.LFail
  | Some s =>
      _ ← file_map_remove session_id (channel_id msg);
      send_shared wr (channel_close (channel_id msg))
  end.

Definition handle_file_recv_init (msg : TaskMessage) (session_id : Z) (wr : SharedWriter)
  : M World unit :=
  paths ← lift (parse_file_paths (payload msg));
  match paths with
  | None => echo_client (channel_id msg) wr (lit "Invalid file recv parameters") MessageLevel.LFail
  | Some (remote_path, _) =>
      metadata ← metadata_len remote_path;
      match metadata with
      | inl e =>
          _ ← echo_client (channel_id msg) wr (lit "File not found: " ++ e) MessageLevel.LFail;
          send_shared wr (channel_close (channel_id msg))
      | inr file_size =>
          _ ← send_shared wr (mkTaskMessage (channel_id msg) FileCheck
                (TransferConfig.serialize (config_for remote_path file_size)));
          c ← new_cell;
          file_map_put session_id (channel_id msg)
            (mkFileTransferState session_id (channel_id msg) remote_path remote_path c file_size 0 Recv)
      end
  end.

Definition handle_file_task (msg : TaskMessage) (session_id : Z) (wr : SharedWriter) : M World unit :=
  match command msg with
  | FileInit => handle_file_init msg session_id wr
  | FileCheck => handle_file_check msg session_id wr
  | FileBegin => handle_file_begin msg session_id wr
  | FileData => handle_file_data msg session_id wr
  | FileFinish => handle_file_finish msg session_id wr
  | FileRecvInit => handle_file_recv_init msg session_id wr
  | _ => mret tt
  end.

(** ** [app.rs] *)

Definition parse_app_path (payload : bytes) : Result (option bytes) :=
  let parts := split_on 32 (from_utf8_lossy payload) in
  if (length parts <? 2)%nat then mret None
  else
    cwd ← word_at 1 (2 <? length parts)%nat (lit "-cwd") parts;
    mret (parts !! (if cwd : bool then 3%nat else 1%nat)).

Definition handle_app_init (msg : TaskMessage) (session_id : Z) (wr : SharedWriter) : M World unit :=
  path ← lift (parse_app_path (payload msg));
  match path with
  | None => echo_client (channel_id msg) wr (lit "Missing app path") MessageLevel.LFail
  | Some app_path =>
      let file_name := default (lit "app.hap") (path_file_name app_path) in
      let tmp_path := INSTALL_TMP_DIR ++ file_name in
      c ← new_cell;
      _ ← file_map_put session_id (channel_id msg)
            (mkFileTransferState session_id (channel_id msg) app_path tmp_path c 0 0 Send);
      send_shared wr (mkTaskMessage (channel_id msg) AppCheck tmp_path)
  end.
Definition handle_app_check (msg : TaskMessage) (session_id : Z) (wr : SharedWriter) : M World unit :=
  send_shared wr (mkTaskMessage (channel_id msg) AppBegin []).
Definition handle_app_begin (msg : TaskMessage) (session_id : Z) (wr : SharedWriter) : M World unit :=
  state ← file_map_get session_id (channel_id msg);
  match state with
  | None => echo_client (channel_id msg) wr (lit "App install not initialized") MessageLevel.LFail
  | Some s =>
      f ← File_create (remote_path s);
      match f with
      | inr h => _ ← set_cell (file s) h; file_map_put session_id (channel_id msg) s
      | inl e => echo_client (channel_id msg) wr (lit "Failed to create temp file: " ++ e) MessageLevel.LFail
      end
  end.
Definition handle_app_data (msg : TaskMessage) (session_id : Z) (wr : SharedWriter) : M World unit :=
  state ← file_map_get session_id (channel_id msg);
  match state with
  | None => echo_client (channel_id msg) wr (lit "App install not initialized") MessageLevel.LFail
  | Some s =>
      '(failed, n) ← write_payload s (payload msg);
      match failed with
      | Some e => echo_client (channel_id msg) wr e MessageLevel.LFail
      | None => file_map_put session_id (channel_id msg) (add_received s n)
      end
  end.

(** The output of [bm], echoed: its two streams, then the verdict. *)
Definition echo_if (channel_id : Z) (wr : SharedWriter) (text : bytes) (level : MessageLevel.t)
  : M World unit :=
  match text with [] => mret tt | _ => echo_client channel_id wr text level end.
Definition echo_bm (channel_id : Z) (wr : SharedWriter) (verb : string)
    (result : bytes + CmdOutput) : M World unit :=
  match result with
  | inr output =>
      _ ← echo_if channel_id wr (from_utf8_lossy (cmd_stdout output)) MessageLevel.LInfo;
      _ ← echo_if channel_id wr (from_utf8_lossy (cmd_stderr output)) MessageLevel.LFail;
      if cmd_success output then echo_client channel_id wr (lit "AppMod finish") MessageLevel.LOk
      else echo_client channel_id wr (lit verb ++ lit " failed") MessageLevel.LFail
  | inl e => echo_client channel_id wr (lit verb ++ lit " command failed: " ++ e) MessageLevel.LFail
  end.
Definition handle_app_finish (msg : TaskMessage) (session_id : Z) (wr : SharedWriter) : M World unit :=
  state ← file_map_get session_id (channel_id msg);
  match state with
  | None => echo_client (channel_id msg) wr (lit "App install not initialized") MessageLevel.LFail
  | Some s =>
      _ ← file_map_remove session_id (channel_id msg);
      _ ← echo_bm (channel_id msg) wr "Install"
            (command_output (lit "bm") [lit "install"; lit "-p"; remote_path s]);
      send_shared wr (channel_close (channel_id msg))
  end.
Definition handle_app_uninstall (msg : TaskMessage) (wr : SharedWriter) : M World unit :=
  let package := trim (from_utf8_lossy (payload msg)) in
  _ ← echo_bm (channel_id msg) wr "Uninstall"
        (command_output (lit "bm") [lit "uninstall"; lit "-n"; package]);
  send_shared wr (channel_close (channel_id msg)).

Definition handle_app_task (msg : TaskMessage) (session_id : Z) (wr : SharedWriter) : M World unit :=
  match command msg with
  | AppInit => handle_app_init msg session_id wr
  | AppCheck => handle_app_check msg session_id wr
  | AppBegin => handle_app_begin msg session_id wr
  | AppData => handle_app_data msg session_id wr
  | AppFinish => handle_app_finish msg session_id wr
  | AppUninstall => handle_app_uninstall msg wr
  | _ => mret tt
  end.

(** ** [flashd.rs] *)

Definition handle_flashd_task (msg : TaskMessage) (session_id : Z) (wr : SharedWriter)
  : M World unit :=
  let channel_id := channel_id msg in
  let completed := 0 :: MessageLevel.as_u8 MessageLevel.LOk :: lit "flashd stub completed" in
  match command msg with
  | FlashdCheck => send_shared wr (mkTaskMessage channel_id FlashdBegin [])
  | FlashdData => mret tt
  | FlashdFinish =>
      if bool_decide (head (payload msg) = Some 1)
      then send_shared wr (mkTaskMessage channel_id FlashdFinish completed)
      else mret tt
  | FlashdErase | FlashdFormat => send_shared wr (mkTaskMessage channel_id FlashdFinish completed)
  | FlashdProgress => mret tt
  | _ => mret tt
  end.
End Handlers.

(** ** Words of a command: every index is behind its length test *)

Lemma word_at_total i enough word parts :
  (enough = true -> (i < length parts)%nat) -> exists b, word_at i enough word parts = Ok b.
Proof.
  intros H. unfold word_at. destruct enough; [|by eexists]. rewrite (index_within _ _ []) by auto. by eexists.
Qed.
Lemma parse_file_paths_total p : exists r, parse_file_paths p = Ok r.
Proof.
  unfold parse_file_paths. set (parts := split_on _ _). case_match eqn:E; [by eexists|]. apply Nat.ltb_ge in E.
  destruct (word_at_total 2 (2 <? length parts)%nat (lit "-cwd") parts) as [b ->]; [intros; lia|]. rewrite bind_Ok. cbv zeta.
  case_match eqn:E1; [|by eexists]. apply Nat.leb_le in E1. rewrite !(index_within _ _ []) by lia. by eexists.
Qed.
Lemma parse_app_path_total p : exists r, parse_app_path p = Ok r.
Proof.
  unfold parse_app_path. set (parts := split_on _ _). case_match eqn:E; [by eexists|]. apply Nat.ltb_ge in E.
  destruct (word_at_total 1 (2 <? length parts)%nat (lit "-cwd") parts) as [b ->]; [intros; lia|]. by eexists.
Qed.

(** ** Receiving a file *)

Lemma write_at_end content data : write_at content (length content) data = content ++ data.
Proof.
  unfold write_at. rewrite Nat.sub_diag. simpl. rewrite app_nil_r, firstn_all.
  rewrite drop_ge by lia. by rewrite app_nil_r.
Qed.

Section Receiving.
Context {HA : Aead} {OS : Os}.

(** The handlers applied to the messages of a session, in the order they arrive. *)
Fixpoint run_file_tasks (session_id : Z) (wr : SharedWriter) (ms : list TaskMessage) : M World unit :=
  match ms with
  | [] => mret tt
  | m :: t => _ ← handle_file_task m session_id wr; run_file_tasks session_id wr t
  end.

(** Channel [k] of the session receives the file at its path, of which
    [content] has arrived: the handle in its cell stands at the end. *)
Definition receiving (w : World) (sid k : Z) (s : FileTransferState) (content : bytes) : Prop :=
  tasks w !! (sid, k) = Some s /\ direction s = Send /\
  cells w !! file s = Some (Some (mkFileHandle (remote_path s) (len content))) /\
  fs w !! remote_path s = Some content.

Definition no_write_errors : Prop := forall path pos data, write_error path pos data = None.

(** The state after a chunk [d] for a channel that is receiving. *)
Definition with_chunk (w : World) (sid k : Z) (s : FileTransferState) (content d : bytes) : World :=
  set_tasks (<[(sid, k) := add_received s (len d)]> (tasks w))
    (set_cells (<[file s := Some (mkFileHandle (remote_path s) (len (content ++ d)))]> (cells w))
      (set_fs (<[remote_path s := content ++ d]> (fs w)) w)).

Lemma handle_file_data_chunk w sid k s content d wr :
  no_write_errors -> receiving w sid k s content ->
  handle_file_data (mkTaskMessage k FileData d) sid wr w =
  (Ok tt, with_chunk w sid k s content d).
Proof.
  intros Hw (Ht & Hd & Hc & Hf). unfold handle_file_data, file_map_get.
  rewrite M_bind_eq. cbn [channel_id]. rewrite Ht, Hd, bool_decide_eq_true_2 by done. cbn [negb].
  assert (E : write_payload s d w = (Ok (None, len d),
    set_cells (<[file s := Some (mkFileHandle (remote_path s) (len (content ++ d)))]> (cells w))
      (set_fs (<[remote_path s := content ++ d]> (fs w)) w))).
  { unfold write_payload, get_cell. rewrite M_bind_eq, Hc. cbn [from_option id]. rewrite M_bind_eq.
    unfold File_write_all. cbn [fh_path fh_pos]. rewrite Hw, Hf. cbn [from_option id].
    unfold mret, M_ret, len. rewrite Nat2Z.id, write_at_end, firstn_all, length_app, Nat2Z.inj_add.
    done. }
  cbn [payload]. rewrite (M_bind_Ok _ _ _ _ _ E). done.
Qed.

(** Two channels that receive at the same time use different cells and paths. *)
Definition apart (s1 s2 : FileTransferState) : Prop :=
  file s1 <> file s2 /\ remote_path s1 <> remote_path s2.

Lemma with_chunk_same w sid k s content d :
  receiving w sid k s content ->
  receiving (with_chunk w sid k s content d) sid k (add_received s (len d)) (content ++ d).
Proof.
  intros (Ht & Hd & Hc & Hf). unfold receiving, with_chunk. cbn.
  by rewrite !lookup_insert_eq.
Qed.
Lemma with_chunk_other w sid k s content d k' s' content' :
  k <> k' -> apart s s' -> receiving w sid k' s' content' ->
  receiving (with_chunk w sid k s content d) sid k' s' content'.
Proof.
  intros Hk [Hf Hp] (Ht & Hd & Hc & Hfs). unfold receiving, with_chunk. cbn.
  rewrite !lookup_insert_ne by congruence. done.
Qed.

(** The chunks of channel [k] among the messages, joined. *)
Definition chunks_of (k : Z) (ms : list TaskMessage) : bytes :=
  concat (map payload (filter (fun m => channel_id m = k) ms)).

Lemma chunks_of_cons k m ms :
  chunks_of k (m :: ms) = (if decide (channel_id m = k) then payload m else []) ++ chunks_of k ms.
Proof.
  unfold chunks_of. rewrite filter_cons. by destruct (decide (channel_id m = k)).
Qed.

Lemma add_received_apart s n s' : apart s s' -> apart (add_received s n) s'.
Proof. done. Qed.
Lemma apart_sym s s' : apart s s' -> apart s' s.
Proof. unfold apart. intuition. Qed.

(** The receiving channels of a session, with what each has received. *)
Definition all_receiving (w : World) (sid : Z) (chans : gmap Z (FileTransferState * bytes)) : Prop :=
  (forall k s c, chans !! k = Some (s, c) -> receiving w sid k s c) /\
  (forall k1 k2 p1 p2, k1 <> k2 -> chans !! k1 = Some p1 -> chans !! k2 = Some p2 -> apart p1.1 p2.1).
Definition after_chunks (ms : list TaskMessage) (k : Z) (p : FileTransferState * bytes)
  : FileTransferState * bytes :=
  (add_received p.1 (len (chunks_of k ms)), p.2 ++ chunks_of k ms).

Lemma all_receiving_chunk w sid chans k s c d :
  chans !! k = Some (s, c) -> all_receiving w sid chans ->
  all_receiving (with_chunk w sid k s c d) sid (<[k := (add_received s (len d), c ++ d)]> chans).
Proof.
  intros Hk [Hr Ha]. split.
  - intros k' s' c' [[<- [= <- <-]]|[Hne Hk']]%lookup_insert_Some.
    + apply with_chunk_same. by apply Hr.
    + apply with_chunk_other; [done| |by apply Hr]. by apply (Ha k k' (s, c) (s', c')).
  - intros k1 k2 p1 p2 Hne H1 H2.
    apply lookup_insert_Some in H1 as [[E1 <-]|[Hn1 H1]];
      apply lookup_insert_Some in H2 as [[E2 <-]|[Hn2 H2]].
    + congruence.
    + exact (Ha k k2 (s, c) p2 Hn2 Hk H2).
    + apply apart_sym. exact (Ha k k1 (s, c) p1 Hn1 Hk H1).
    + by apply (Ha k1 k2).
Qed.

Lemma add_received_add s a b : add_received (add_received s a) b = add_received s (a + b).
Proof. unfold add_received. cbn. f_equal. lia. Qed.
Lemma add_received_0 s : add_received s 0 = s.
Proof. destruct s. unfold add_received. cbn. f_equal. lia. Qed.

(** What the chunks of [chans] leave alone: other files, other transfers, the
    connection and the port forwarding. *)
Definition untouched (sid : Z) (chans : gmap Z (FileTransferState * bytes)) (w w' : World) : Prop :=
  link w' = link w /\ fwd w' = fwd w /\
  (forall p, (forall k s c, chans !! k = Some (s, c) -> remote_path s <> p) -> fs w' !! p = fs w !! p) /\
  (forall key, (forall k, is_Some (chans !! k) -> key <> (sid, k)) -> tasks w' !! key = tasks w !! key).

Lemma run_file_data_chunks wr sid ms : forall w chans,
  no_write_errors -> all_receiving w sid chans ->
  Forall (fun m => command m = FileData /\ is_Some (chans !! channel_id m)) ms -> exists w',
  run_file_tasks sid wr ms w = (Ok tt, w') /\ untouched sid chans w w' /\
  all_receiving w' sid (map_imap (fun k p => Some (after_chunks ms k p)) chans).
Proof.
  induction ms as [|m ms IH]; intros w chans Hw Hr Hms.
  { exists w. split; [done|]. split; [by split_and!|]. replace (map_imap _ chans) with chans; [done|].
    apply map_eq. intros k. rewrite map_lookup_imap. destruct (chans !! k) as [[s c]|]; [|done].
    simpl. unfold after_chunks, chunks_of. simpl. by rewrite add_received_0, app_nil_r. }
  apply Forall_cons in Hms as [[Hc [[s c] Hk]] Hms]. destruct m as [k cmd d]. simpl in Hc. subst cmd.
  cbn [run_file_tasks channel_id] in *.
  assert (E : handle_file_task (mkTaskMessage k FileData d) sid wr w = (Ok tt, with_chunk w sid k s c d)).
  { unfold handle_file_task. cbn [command]. apply handle_file_data_chunk; [done|]. by apply Hr. }
  rewrite (M_bind_Ok _ _ _ _ _ E).
  destruct (IH (with_chunk w sid k s c d) (<[k := (add_received s (len d), c ++ d)]> chans) Hw)
    as (w' & E' & (Hl & Hfw & Hfs & Htk) & Hr').
  { by apply all_receiving_chunk. }
  { eapply Forall_impl; [exact Hms|]. intros m [Hm Hs]. split; [done|].
    apply lookup_insert_is_Some. destruct (decide (k = channel_id m)); auto. }
  exists w'. split; [done|]. split.
  { split_and!; [done|done| |].
    - intros p Hp. rewrite Hfs.
      + cbn. rewrite lookup_insert_ne; [done|]. by apply (Hp k s c).
      + intros k' s' c' [[<- [= <- <-]]|[_ Hk']]%lookup_insert_Some; [by apply (Hp k s c)|by apply (Hp k' s' c')].
    - intros key Hkey. rewrite Htk.
      + cbn. rewrite lookup_insert_ne; [done|]. apply not_eq_sym, Hkey. by rewrite Hk.
      + intros k' [->|[_ Hs]]%lookup_insert_is_Some; apply Hkey; [by rewrite Hk|done]. }
  match goal with H : all_receiving _ _ ?a |- all_receiving _ _ ?b => replace b with a; [done|] end.
  apply map_eq. intros k'. rewrite !map_lookup_imap.
  destruct (decide (k' = k)) as [->|Hne].
  - rewrite lookup_insert_eq, Hk. simpl. unfold after_chunks. simpl. rewrite chunks_of_cons.
    cbn [channel_id payload]. rewrite decide_True by done.
    by rewrite add_received_add, len_app, app_assoc.
  - rewrite lookup_insert_ne by done. destruct (chans !! k') as [[s' c']|]; [|done]. simpl.
    unfold after_chunks. rewrite chunks_of_cons. cbn [channel_id]. by rewrite decide_False by done.
Qed.
End Receiving.

(** ** A whole transfer *)

Section Transfer.
Context {HA : Aead} {HL : AeadLaws HA} {OS : Os}.

Lemma fresh_cell (w : World) : cells w !! (fresh (dom (cells w)) : positive) = None.
Proof. apply not_elem_of_dom, is_fresh. Qed.

Lemma close_sendable k : u32 k -> sendable (channel_close k).
Proof. intros. apply small_sendable; [done| |done]. by repeat constructor. Qed.

(** The state a transfer starts in, and what the daemon keeps of it. *)
Lemma handle_file_init_ok w sid k p lp rp :
  link_open sid (link w) -> parse_file_paths p = Ok (Some (lp, rp)) ->
  sendable (mkTaskMessage k FileCheck (TransferConfig.serialize (config_for rp 0))) ->
  exists c w', handle_file_init (mkTaskMessage k FileInit p) sid (mkSharedWriter sid) w = (Ok tt, w') /\
  cells w !! c = None /\
  sends sid [mkTaskMessage k FileCheck (TransferConfig.serialize (config_for rp 0))]
    (set_tasks (<[(sid, k) := mkFileTransferState sid k lp rp c 0 0 Send]> (tasks w))
      (set_cells (<[c := None]> (cells w)) w)) w'.
Proof.
  intros Ho Hp Hm. unfold handle_file_init. cbn [payload channel_id]. rewrite Hp, M_bind_lift.
  set (c := fresh (dom (cells w)) : positive).
  rewrite M_bind_eq. unfold new_cell. cbv beta iota zeta. rewrite M_bind_eq.
  unfold file_map_put, modify. cbv beta iota.
  set (w1 := set_tasks _ _).
  destruct (send_shared_sends (mkSharedWriter sid)
    (mkTaskMessage k FileCheck (TransferConfig.serialize (config_for rp 0))) w1 Ho Hm) as (w' & E & Hs).
  exists c, w'. split; [exact E|]. split; [apply fresh_cell|exact Hs].
Qed.

Lemma handle_file_check_ok w sid k s cfg :
  link_open sid (link w) -> u32 k -> TransferConfig.wf cfg -> TransferConfig.raw_ok cfg ->
  tasks w !! (sid, k) = Some s ->
  exists w', handle_file_check (mkTaskMessage k FileCheck (TransferConfig.serialize cfg)) sid
    (mkSharedWriter sid) w = (Ok tt, w') /\
  sends sid [mkTaskMessage k FileBegin []]
    (set_tasks (<[(sid, k) := mkFileTransferState (fts_session_id s) (fts_channel_id s) (local_path s)
       (TransferConfig.path cfg) (file s) (TransferConfig.file_size cfg) (received_size s)
       (direction s)]> (tasks w)) w) w'.
Proof.
  intros Ho Hk Hw Hr Ht. unfold handle_file_check. cbn [payload channel_id].
  pose proof (round_trip (A:=TransferConfig.t) cfg (conj Hw Hr)) as E.
  change (TransferConfig.deserialize (TransferConfig.serialize cfg) = Ok cfg) in E. rewrite E.
  rewrite M_bind_eq. unfold file_map_get. rewrite Ht. rewrite M_bind_eq.
  unfold file_map_put, modify. cbv beta iota.
  match goal with |- context [send_shared _ _ ?w1] => set (w1' := w1) end.
  apply (send_shared_sends (mkSharedWriter sid) (mkTaskMessage k FileBegin []) w1' Ho).
  apply small_sendable; [done|constructor|done].
Qed.

Lemma handle_file_begin_ok w sid k s wr :
  tasks w !! (sid, k) = Some s -> direction s = Send -> create_error (remote_path s) = None ->
  handle_file_begin (mkTaskMessage k FileBegin []) sid wr w =
  (Ok tt, set_tasks (<[(sid, k) := s]> (tasks w))
     (set_cells (<[file s := Some (mkFileHandle (remote_path s) 0)]> (cells w))
       (set_fs (<[remote_path s := []]> (fs w)) w))).
Proof.
  intros Ht Hd Hc. unfold handle_file_begin, file_map_get. cbn [channel_id].
  rewrite M_bind_eq, Ht, Hd. rewrite M_bind_eq. unfold File_create. by rewrite Hc.
Qed.

Lemma handle_file_finish_ok w sid k s p :
  link_open sid (link w) -> u32 k -> tasks w !! (sid, k) = Some s ->
  exists w', handle_file_finish (mkTaskMessage k FileFinish p) sid (mkSharedWriter sid) w = (Ok tt, w') /\
  sends sid [channel_close k] (set_tasks (delete (sid, k) (tasks w)) w) w'.
Proof.
  intros Ho Hk Ht. unfold handle_file_finish, file_map_get. cbn [channel_id].
  rewrite M_bind_eq, Ht, M_bind_eq. unfold file_map_remove, modify. cbv beta iota.
  match goal with |- context [send_shared _ _ ?w1] => set (w1' := w1) end.
  apply (send_shared_sends (mkSharedWriter sid) (channel_close k) w1' Ho). by apply close_sendable.
Qed.

Lemma run_file_tasks_app sid wr ms1 ms2 w w1 :
  run_file_tasks sid wr ms1 w = (Ok tt, w1) ->
  run_file_tasks sid wr (ms1 ++ ms2) w = run_file_tasks sid wr ms2 w1.
Proof.
  revert w; induction ms1 as [|m ms1 IH]; intros w E; [by injection E as ->|].
  cbn [app run_file_tasks] in *. apply M_bind_inv in E as ([] & w2 & E1 & E).
  rewrite (M_bind_Ok _ _ _ _ _ E1). by apply IH.
Qed.

(** The chunks of one channel that has just been opened. *)
Lemma run_data_single w sid k s wr ds :
  no_write_errors -> receiving w sid k s [] -> exists w',
  run_file_tasks sid wr (map (mkTaskMessage k FileData) ds) w = (Ok tt, w') /\
  untouched sid {[ k := (s, []) ]} w w' /\ receiving w' sid k (add_received s (len (concat ds))) (concat ds).
Proof.
  intros Hw Hr.
  destruct (run_file_data_chunks wr sid (map (mkTaskMessage k FileData) ds) w {[ k := (s, []) ]} Hw)
    as (w' & E & Hl & Hr').
  - split.
    + intros k' s' c' [<- [= <- <-]]%lookup_singleton_Some. done.
    + intros k1 k2 p1 p2 Hne [<- <-]%lookup_singleton_Some [<- <-]%lookup_singleton_Some. done.
  - apply Forall_map, Forall_true. intros d. split; [done|]. simpl. by rewrite lookup_singleton_eq.
  - exists w'. split_and!; [done..|]. destruct Hr' as [Hr' _].
    assert (Ec : chunks_of k (map (mkTaskMessage k FileData) ds) = concat ds).
    { clear. induction ds as [|d ds IH]; [done|]. simpl map. rewrite chunks_of_cons. cbn [channel_id payload].
      rewrite decide_True by done. simpl. by rewrite IH. }
    specialize (Hr' k (add_received s (len (concat ds))) (concat ds)). apply Hr'.
    rewrite map_lookup_imap, lookup_singleton_eq. simpl. unfold after_chunks. simpl. by rewrite Ec.
Qed.
Definition push_messages (k : Z) (init : bytes) (cfg : TransferConfig.t) (ds : list bytes)
  : list TaskMessage :=
  [mkTaskMessage k FileInit init; mkTaskMessage k FileCheck (TransferConfig.serialize cfg);
   mkTaskMessage k FileBegin []] ++ map (mkTaskMessage k FileData) ds ++
  [mkTaskMessage k FileFinish []].
Definition push_replies (k : Z) (rp : bytes) : list TaskMessage :=
  [mkTaskMessage k FileCheck (TransferConfig.serialize (config_for rp 0));
   mkTaskMessage k FileBegin []; channel_close k].

Lemma file_push_run w sid k init lp rp cfg ds :
  link_open sid (link w) -> u32 k -> parse_file_paths init = Ok (Some (lp, rp)) ->
  sendable (mkTaskMessage k FileCheck (TransferConfig.serialize (config_for rp 0))) ->
  TransferConfig.wf cfg -> TransferConfig.raw_ok cfg ->
  create_error (TransferConfig.path cfg) = None -> no_write_errors ->
  exists w',
  run_file_tasks sid (mkSharedWriter sid) (push_messages k init cfg ds) w = (Ok tt, w') /\
  fs w' !! TransferConfig.path cfg = Some (concat ds) /\
  (forall p, p <> TransferConfig.path cfg -> fs w' !! p = fs w !! p) /\
  tasks w' = delete (sid, k) (tasks w) /\
  send_all sid (push_replies k rp) (link w) = (Ok tt, link w').
Proof.
  intros Ho Hk Hp Hm Hw Hr Hcr Hnw. set (P := TransferConfig.path cfg) in *.
  destruct (handle_file_init_ok w sid k init lp rp Ho Hp Hm) as (c & w1 & E1 & Hc & l1 & S1 & -> & Ho1).
  set (w1 := set_link l1 _) in *.
  assert (Ht1 : tasks w1 !! (sid, k) = Some (mkFileTransferState sid k lp rp c 0 0 Send))
    by apply lookup_insert_eq.
  destruct (handle_file_check_ok w1 sid k _ cfg Ho1 Hk Hw Hr Ht1) as (w2 & E2 & l2 & S2 & -> & Ho2).
  cbn [fts_session_id fts_channel_id local_path file received_size direction] in S2.
  set (s2 := mkFileTransferState sid k lp P c (TransferConfig.file_size cfg) 0 Send).
  set (w2 := set_link l2 _) in *.
  assert (Ht2 : tasks w2 !! (sid, k) = Some s2) by apply lookup_insert_eq.
  pose proof (handle_file_begin_ok w2 sid k s2 (mkSharedWriter sid) Ht2 eq_refl Hcr) as E3.
  set (w3 := set_tasks _ _) in E3.
  assert (Hrec : receiving w3 sid k s2 []).
  { unfold receiving, w3. cbn. by rewrite !lookup_insert_eq. }
  destruct (run_data_single w3 sid k s2 (mkSharedWriter sid) ds Hnw Hrec)
    as (w4 & E4 & (Hl4 & _ & Hfs4 & Htk4) & (Ht4 & _ & _ & Hf4)).
  assert (Ho4 : link_open sid (link w4)) by (rewrite Hl4; exact Ho2).
  destruct (handle_file_finish_ok w4 sid k _ [] Ho4 Hk Ht4) as (w5 & E5 & l5 & S5 & -> & _).
  eexists. split_and!.
  - unfold push_messages. cbn [app run_file_tasks]. rewrite (M_bind_Ok _ _ _ _ _ E1).
    rewrite (M_bind_Ok _ _ _ _ _ E2), (M_bind_Ok _ _ _ _ _ E3), (run_file_tasks_app _ _ _ _ _ _ E4).
    cbn [run_file_tasks]. rewrite (M_bind_Ok _ _ _ _ _ E5). reflexivity.
  - exact Hf4.
  - intros p Hne. cbn. rewrite Hfs4.
    + unfold w3, w2, w1. cbn. rewrite lookup_insert_ne by (exact (not_eq_sym Hne)). done.
    + intros k' s' c' [<- [= <- <-]]%lookup_singleton_Some. exact (not_eq_sym Hne).
  - cbn. apply map_eq. intros key. destruct (decide (key = (sid, k))) as [->|Hne].
    + by rewrite !lookup_delete_eq.
    + rewrite !lookup_delete_ne by done. rewrite Htk4.
      * unfold w3, w2, w1. cbn. by rewrite !lookup_insert_ne by done.
      * intros k' Hs. apply lookup_singleton_is_Some in Hs as <-. done.
  - cbn [link set_link]. unfold push_replies.
    change [mkTaskMessage k FileCheck (TransferConfig.serialize (config_for rp 0)); mkTaskMessage k FileBegin [];
       channel_close k] with ([mkTaskMessage k FileCheck (TransferConfig.serialize (config_for rp 0))] ++
       [mkTaskMessage k FileBegin []] ++ [channel_close k]).
    assert (S1' : send_all sid _ (link w) = (Ok tt, l1)) by exact S1.
    assert (S2' : send_all sid _ l1 = (Ok tt, l2)) by exact S2.
    assert (Hl : link w4 = l2) by exact Hl4.
    assert (S5' : send_all sid _ l2 = (Ok tt, l5)) by (rewrite <- Hl; exact S5).
    by rewrite send_all_app, S1', send_all_app, S2', S5'.
Qed.
End Transfer.

(** ** Sending a file to the host *)

Section SendingFile.
Context {HA : Aead} {HL : AeadLaws HA} {OS : Os}.

Definition no_read_errors (path : bytes) : Prop := forall pos, read_error path pos = None.

(** One read in the middle of a file: a piece that is there, of a byte or more. *)
Lemma File_read_piece w path pos content :
  no_read_errors path -> fs w !! path = Some content -> 0 <= pos <= len content ->
  exists d, File_read (mkFileHandle path pos) MAX_SIZE_IOBUF w =
    (Ok (inr (d, mkFileHandle path (pos + len d))), w) /\
  (d = [] <-> pos = len content) /\ len d <= MAX_SIZE_IOBUF /\
  drop (Z.to_nat pos) content = d ++ drop (Z.to_nat (pos + len d)) content.
Proof.
  intros Hr Hf Hp. unfold File_read. cbn [fh_path fh_pos]. rewrite Hr, Hf. cbn [from_option id].
  set (avail := Z.min MAX_SIZE_IOBUF (len content - pos)).
  set (n := if avail <=? 0 then 0 else _).
  assert (Hn : 0 <= n <= avail /\ (n = 0 <-> avail <= 0)).
  { unfold n. pose proof (len_nonneg content). unfold avail, MAX_SIZE_IOBUF. case_if; lia. }
  assert (Hlen : len (slice_raw pos (pos + n) content) = n).
  { rewrite slice_raw_length by (unfold avail in *; lia). lia. }
  exists (slice_raw pos (pos + n) content). rewrite Hlen. split; [done|].
  assert (Hnil : slice_raw pos (pos + n) content = [] <-> n = 0).
  { by rewrite <- len_zero, Hlen. }
  split; [rewrite Hnil; unfold avail, MAX_SIZE_IOBUF in *; lia|].
  split; [unfold avail in *; lia|]. unfold slice_raw.
  replace (Z.to_nat (pos + n)) with (Z.to_nat pos + Z.to_nat (pos + n - pos))%nat by lia.
  rewrite <- drop_drop. by rewrite take_drop.
Qed.

Lemma file_send_loop_ok sid k path content fuel : forall w pos,
  link_open sid (link w) -> u32 k -> bytes_ok content -> no_read_errors path ->
  fs w !! path = Some content -> 0 <= pos <= len content ->
  (Z.to_nat (len content - pos) < fuel)%nat -> exists ds w',
  file_send_loop fuel k (mkSharedWriter sid) (mkFileHandle path pos) w = (Ok (Some tt), w') /\
  concat ds = drop (Z.to_nat pos) content /\
  Forall (fun d => 0 < len d <= MAX_SIZE_IOBUF) ds /\
  sends sid (map (mkTaskMessage k FileData) ds) w w'.
Proof.
  induction fuel as [|fuel IH]; intros w pos Ho Hk Hb Hr Hf Hp Hfu; [lia|]. cbn [file_send_loop].
  destruct (File_read_piece w path pos content Hr Hf Hp) as (d & E & Hd & Hmax & Hsplit).
  rewrite (M_bind_Ok _ _ _ _ _ E). destruct d as [|b d'] eqn:Ed.
  { exists [], w. rewrite (proj1 Hd eq_refl). split_and!; [done| |constructor|by apply sends_nil].
    rewrite drop_ge; [done|]. unfold len. lia. }
  rewrite <- Ed in *. assert (Hne : d <> []) by (by rewrite Ed). clear Ed b d'.
  pose proof (len_pos d Hne) as Hdl.
  assert (Hdb : bytes_ok d).
  { apply bytes_ok_app with (b := drop (Z.to_nat (pos + len d)) content).
    rewrite <- Hsplit. auto with hdc. }
  assert (Hsd : sendable (mkTaskMessage k FileData d)).
  { apply small_sendable; [done|done|]. unfold MAX_SIZE_IOBUF in Hmax. lia. }
  destruct (send_shared_sends (mkSharedWriter sid) _ w Ho Hsd) as (w1 & Es & Hs1).
  assert (Hpos : pos + len d <= len content).
  { apply (f_equal len) in Hsplit. rewrite len_app in Hsplit. unfold len in *.
    rewrite !length_drop in Hsplit. lia. }
  destruct Hs1 as (l1 & S1 & -> & Ho1).
  destruct (IH (set_link l1 w) (pos + len d)) as (ds & w' & E' & Hc & Hfa & Hs); try done; try lia.
  exists (d :: ds), w'. split_and!.
  - rewrite M_bind_eq. unfold try_. rewrite Es. exact E'.
  - simpl. by rewrite Hc.
  - by constructor.
  - simpl map. change (?x :: ?y) with ([x] ++ y). eapply sends_app; [|exact Hs]. by exists l1.
Qed.

Lemma handle_file_begin_recv w sid k s content p :
  link_open sid (link w) -> u32 k -> tasks w !! (sid, k) = Some s -> direction s = Recv ->
  open_error (remote_path s) = None -> no_read_errors (remote_path s) ->
  fs w !! remote_path s = Some content -> bytes_ok content -> exists ds w',
  handle_file_begin (mkTaskMessage k FileBegin p) sid (mkSharedWriter sid) w = (Ok tt, w') /\
  concat ds = content /\ Forall (fun d => 0 < len d <= MAX_SIZE_IOBUF) ds /\
  send_all sid (map (mkTaskMessage k FileData) ds ++ [mkTaskMessage k FileFinish []; channel_close k])
    (link w) = (Ok tt, link w') /\
  fs w' = fs w /\ tasks w' = delete (sid, k) (tasks w).
Proof.
  intros Ho Hk Ht Hd Hop Hre Hf Hb. unfold handle_file_begin, file_map_get. cbn [channel_id].
  rewrite M_bind_eq, Ht, Hd. unfold handle_daemon_file_send. rewrite M_bind_eq.
  unfold File_open. rewrite Hop. cbv beta iota. rewrite M_bind_eq. unfold get. cbv beta iota.
  destruct (file_send_loop_ok sid k (remote_path s) content (file_send_fuel (remote_path s) w) w 0)
    as (ds & w1 & E & Hc & Hfa & l1 & S1 & -> & Ho1); try done.
  { split; [lia|apply len_nonneg]. }
  { unfold file_send_fuel. rewrite Hf. cbn [from_option id]. unfold len. lia. }
  rewrite (M_bind_Ok _ _ _ _ _ E).
  destruct (send_shared_sends (mkSharedWriter sid) (mkTaskMessage k FileFinish []) (set_link l1 w) Ho1)
    as (w2 & E2 & l2 & S2 & -> & Ho2).
  { apply small_sendable; [done|constructor|done]. }
  rewrite (M_bind_Ok _ _ _ _ _ E2).
  destruct (send_shared_sends (mkSharedWriter sid) (channel_close k) (set_link l2 (set_link l1 w)) Ho2)
    as (w3 & E3 & l3 & S3 & -> & Ho3).
  { by apply close_sendable. }
  rewrite (M_bind_Ok _ _ _ _ _ E3). unfold file_map_remove, modify.
  eexists ds, _. split; [reflexivity|]. split_and!; [done|done| |done|done].
  change [mkTaskMessage k FileFinish []; channel_close k]
    with ([mkTaskMessage k FileFinish []] ++ [channel_close k]).
  assert (S2' : send_all sid _ l1 = (Ok tt, l2)) by exact S2.
  assert (S3' : send_all sid _ l2 = (Ok tt, l3)) by exact S3.
  by rewrite send_all_app, S1, send_all_app, S2', S3'.
Qed.
End SendingFile.

(** ** The invariant of the task map

    Every entry is filed under its own session and channel, has a cell, and
    shares it with no other entry: a handler that writes to one transfer's file
    never reaches another's. *)

Create HintDb preserves.

Definition task_inv (w : World) : Prop :=
  (forall key s, tasks w !! key = Some s ->
    key = (fts_session_id s, fts_channel_id s) /\ is_Some (cells w !! file s)) /\
  (forall k1 k2 s1 s2, k1 <> k2 -> tasks w !! k1 = Some s1 -> tasks w !! k2 = Some s2 ->
    file s1 <> file s2).

Section Invariant.
Context {HA : Aead} {OS : Os}.

Definition preserves {A} (m : M World A) : Prop := forall w, task_inv w -> task_inv (m w).2.

Lemma preserves_bind {A B} (m : M World A) (f : A -> M World B) :
  preserves m -> (forall a, preserves (f a)) -> preserves (m ≫= f).
Proof.
  intros Hm Hf w Hw. rewrite M_bind_eq. specialize (Hm w Hw).
  destruct (m w) as [[a| |] w']; try done. by apply Hf.
Qed.
Lemma preserves_ret {A} (a : A) : preserves (mret a).
Proof. by intros w Hw. Qed.
Lemma preserves_lift {A} (r : Result A) : preserves (lift r).
Proof. by intros w Hw. Qed.
Lemma preserves_send wr m : preserves (send_shared wr m).
Proof.
  intros w Hw. unfold send_shared, on_link, zoom.
  by destruct (DaemonTcp.send_message _ _ _) as [r l].
Qed.
Lemma preserves_echo k wr msg lv : preserves (echo_client k wr msg lv).
Proof. apply preserves_send. Qed.
Lemma preserves_try {A} (m : M World A) : preserves m -> preserves (try_ m).
Proof. intros Hm w Hw. specialize (Hm w Hw). unfold try_. by destruct (m w) as [[] ?]. Qed.
Lemma preserves_get k : preserves (get_cell k).
Proof. by intros w Hw. Qed.
Lemma preserves_open p : preserves (File_open p).
Proof. intros w Hw. unfold File_open. by case_match. Qed.
Lemma preserves_create p : preserves (File_create p).
Proof. intros w Hw. unfold File_create. by case_match. Qed.
Lemma preserves_read h n : preserves (File_read h n).
Proof. intros w Hw. unfold File_read. by case_match. Qed.
Lemma preserves_metadata p : preserves (metadata_len p).
Proof. intros w Hw. unfold metadata_len. by case_match. Qed.
Lemma preserves_state : preserves get.
Proof. by intros w Hw. Qed.

Lemma preserves_remove sid k : preserves (file_map_remove sid k).
Proof.
  intros w [H1 H2]. unfold file_map_remove, modify, task_inv. cbn. split.
  - intros key s [_ H]%lookup_delete_Some. by apply H1.
  - intros k1 k2 s1 s2 Hne [_ E1]%lookup_delete_Some [_ E2]%lookup_delete_Some. by eapply H2.
Qed.
(** Cells are only added or overwritten. *)
Lemma inv_set_cell w c v : task_inv w -> task_inv (set_cells (<[c := v]> (cells w)) w).
Proof.
  intros [H1 H2]. split; [|done]. intros key s Hs. destruct (H1 key s Hs) as [? Hc].
  split; [done|]. cbn. apply lookup_insert_is_Some. destruct (decide (c = file s)); auto.
Qed.
Lemma inv_write w c v f :
  task_inv w -> task_inv (set_cells (<[c := v]> (cells w)) (set_fs f w)).
Proof. intros Hw. exact (inv_set_cell (set_fs f w) c v Hw). Qed.
(** A transfer is registered with a new cell. *)
Lemma inv_register w sid k s c :
  task_inv w -> cells w !! c = None ->
  fts_session_id s = sid -> fts_channel_id s = k -> file s = c ->
  task_inv (set_tasks (<[(sid, k) := s]> (tasks w)) (set_cells (<[c := None]> (cells w)) w)).
Proof.
  intros [H1 H2] Hc Hs1 Hs2 Hs3. unfold task_inv. cbn. split.
  - intros key s0 [[<- <-]|[_ H]]%lookup_insert_Some.
    + rewrite Hs1, Hs2, Hs3. split; [done|]. by rewrite lookup_insert_eq.
    + destruct (H1 key s0 H) as [? ?]. split; [done|]. apply lookup_insert_is_Some.
      destruct (decide (c = file s0)); auto.
  - intros k1 k2 s1 s2 Hne E1 E2.
    assert (Hold : forall key s0, tasks w !! key = Some s0 -> file s0 <> c).
    { intros key s0 E0 Efile. destruct (H1 key s0 E0) as [_ [v Hv]]. congruence. }
    apply lookup_insert_Some in E1 as [[K1 <-]|[N1 E1]];
      apply lookup_insert_Some in E2 as [[K2 <-]|[N2 E2]]; rewrite ?Hs3.
    + congruence.
    + apply not_eq_sym. by eapply Hold.
    + by eapply Hold.
    + by apply (H2 k1 k2).
Qed.
Lemma preserves_register {B} sid k (s : positive -> FileTransferState) (f : M World B) :
  (forall c, fts_session_id (s c) = sid /\ fts_channel_id (s c) = k /\ file (s c) = c) ->
  preserves f -> preserves (c ← new_cell; _ ← file_map_put sid k (s c); f).
Proof.
  intros Hs Hf w Hw. rewrite M_bind_eq. unfold new_cell. cbv beta iota zeta.
  rewrite M_bind_eq. unfold file_map_put, modify. cbv beta iota. apply Hf.
  refine (inv_register w sid k _ _ Hw (fresh_cell w) _ _ _); apply Hs.
Qed.
Lemma preserves_register_last sid k (s : positive -> FileTransferState) :
  (forall c, fts_session_id (s c) = sid /\ fts_channel_id (s c) = k /\ file (s c) = c) ->
  preserves (c ← new_cell; file_map_put sid k (s c)).
Proof.
  intros Hs w Hw. rewrite M_bind_eq. unfold new_cell. cbv beta iota zeta.
  unfold file_map_put, modify. refine (inv_register w sid k _ _ Hw (fresh_cell w) _ _ _); apply Hs.
Qed.
(** An entry is replaced by one with the same key and cell. *)
Lemma inv_replace w sid k s s' :
  task_inv w -> tasks w !! (sid, k) = Some s ->
  fts_session_id s' = fts_session_id s -> fts_channel_id s' = fts_channel_id s -> file s' = file s ->
  task_inv (set_tasks (<[(sid, k) := s']> (tasks w)) w).
Proof.
  intros [H1 H2] Hs E1 E2 E3. unfold task_inv. cbn. split.
  - intros key s0 [[<- <-]|[_ H]]%lookup_insert_Some; [|by apply H1].
    rewrite E1, E2, E3. by apply H1.
  - intros k1 k2 s1 s2 Hne F1 F2.
    apply lookup_insert_Some in F1 as [[K1 <-]|[N1 F1]];
      apply lookup_insert_Some in F2 as [[K2 <-]|[N2 F2]]; rewrite ?E3.
    + congruence.
    + by apply (H2 (sid, k) k2).
    + apply (H2 k1 (sid, k)); [congruence|done..].
    + by apply (H2 k1 k2).
Qed.

(** Looking an entry up and going on with it. *)
Lemma preserves_lookup {B} sid k (f : option FileTransferState -> M World B) :
  (forall w, task_inv w -> task_inv (f (tasks w !! (sid, k)) w).2) ->
  preserves (file_map_get sid k ≫= f).
Proof. intros H w Hw. rewrite M_bind_eq. by apply H. Qed.

#[local] Hint Resolve preserves_bind preserves_ret preserves_lift preserves_send preserves_echo preserves_try
  preserves_open preserves_create preserves_read preserves_metadata preserves_state
  preserves_remove : preserves.

Lemma preserves_send_loop fuel k wr h : preserves (file_send_loop fuel k wr h).
Proof.
  revert h; induction fuel as [|fuel IH]; intros h; cbn [file_send_loop]; [auto with preserves|].
  apply preserves_bind; [auto with preserves|]. intros [e|[[|b d] h']]; auto with preserves.
  apply preserves_bind; [auto with preserves|]. intros [|e|]; auto with preserves.
Qed.
Lemma preserves_daemon_send k sid wr p : preserves (handle_daemon_file_send k sid wr p).
Proof.
  unfold handle_daemon_file_send. apply preserves_bind; [auto with preserves|].
  intros [e|h]; [auto with preserves|]. apply preserves_bind; [auto with preserves|]. intros w.
  apply preserves_bind; [apply preserves_send_loop|]. intros [|]; auto 6 with preserves.
Qed.
(** Opening the target of a transfer. *)
Lemma preserves_begin sid k s w echo :
  task_inv w -> tasks w !! (sid, k) = Some s -> (forall e : bytes, preserves (echo e)) ->
  task_inv ((f ← File_create (remote_path s);
             match f with
             | inr h => _ ← set_cell (file s) h; file_map_put sid k s
             | inl e => echo e
             end) w).2.
Proof.
  intros Hw Hs He. rewrite M_bind_eq. unfold File_create.
  destruct (create_error (remote_path s)) as [e|]; cbv beta iota; [by apply He|].
  rewrite M_bind_eq. unfold set_cell, file_map_put, modify. cbv beta iota.
  apply (inv_replace _ sid k s); [|done..]. by apply inv_set_cell.
Qed.
(** Writing a chunk of a transfer. *)
Lemma preserves_data sid k s d w echo :
  task_inv w -> tasks w !! (sid, k) = Some s -> (forall e : bytes, preserves (echo e)) ->
  task_inv (('(failed, n) ← write_payload s d;
             match failed with
             | Some e => echo e
             | None => file_map_put sid k (add_received s n)
             end) w).2.
Proof.
  intros Hw Hs He. rewrite M_bind_eq. unfold write_payload, get_cell. rewrite M_bind_eq.
  destruct (from_option _ _ _) as [h|]; cbv beta iota.
  - rewrite M_bind_eq. unfold File_write_all.
    destruct (write_error _ _ _) as [[n e]|]; cbv beta iota zeta.
    + apply He. by apply inv_write.
    + unfold file_map_put, modify. apply (inv_replace _ sid k s); [|done..]. by apply inv_write.
  - unfold file_map_put, modify. by apply (inv_replace _ sid k s).
Qed.

Lemma preserves_file_task msg sid wr : preserves (handle_file_task msg sid wr).
Proof.
  unfold handle_file_task. destruct (command msg); auto with preserves.
  - unfold handle_file_init. apply preserves_bind; [apply preserves_lift|]. intros [[lp rp]|]; [|auto with preserves].
    apply preserves_register; auto with preserves.
  - unfold handle_file_check. case_match; auto with preserves.
    apply preserves_lookup. intros w Hw. destruct (tasks w !! _) as [s|] eqn:Es.
    + rewrite M_bind_eq. unfold file_map_put, modify. cbv beta iota. apply preserves_send.
      by apply (inv_replace _ sid (channel_id msg) s).
    + by apply preserves_send.
  - unfold handle_file_begin. apply preserves_lookup. intros w Hw.
    destruct (tasks w !! _) as [s|] eqn:Es; [|by apply preserves_echo].
    destruct (direction s); [|by apply preserves_daemon_send].
    apply (preserves_begin sid (channel_id msg) s w (fun e => echo_client (channel_id msg) wr
      (lit "Failed to create file: " ++ e) MessageLevel.LFail)); auto with preserves.
  - unfold handle_file_data. apply preserves_lookup. intros w Hw.
    destruct (tasks w !! _) as [s|] eqn:Es; [|by apply preserves_echo]. case_if; [done|].
    apply (preserves_data sid (channel_id msg) s (payload msg) w (fun e => echo_client (channel_id msg) wr e MessageLevel.LFail));
      auto with preserves.
  - unfold handle_file_finish. apply preserves_lookup. intros w Hw.
    destruct (tasks w !! _) as [s|] eqn:Es; [|by apply preserves_echo].
    apply preserves_bind; [apply preserves_remove| |done]. auto with preserves.
  - unfold handle_file_recv_init. apply preserves_bind; [apply preserves_lift|]. intros [[lp rp]|]; [|auto with preserves].
    apply preserves_bind; [auto with preserves|]. intros [e|n]; [auto with preserves|].
    apply preserves_bind; [auto with preserves|]. intros _.
    apply preserves_register_last. done.
Qed.

Lemma preserves_echo_bm k wr verb r : preserves (echo_bm k wr verb r).
Proof.
  unfold echo_bm, echo_if. destruct r as [e|o]; [auto with preserves|].
  apply preserves_bind; [case_match; auto with preserves|]. intros _.
  apply preserves_bind; [case_match; auto with preserves|]. intros _.
  case_if; auto with preserves.
Qed.
Lemma preserves_app_task msg sid wr : preserves (handle_app_task msg sid wr).
Proof.
  unfold handle_app_task. destruct (command msg); auto with preserves.
  - unfold handle_app_init. apply preserves_bind; [apply preserves_lift|]. intros [p|]; [|auto with preserves].
    apply preserves_register; auto with preserves.
  - apply preserves_send.
  - unfold handle_app_begin. apply preserves_lookup. intros w Hw.
    destruct (tasks w !! _) as [s|] eqn:Es; [|by apply preserves_echo].
    apply (preserves_begin sid (channel_id msg) s w (fun e => echo_client (channel_id msg) wr
      (lit "Failed to create temp file: " ++ e) MessageLevel.LFail)); auto with preserves.
  - unfold handle_app_data. apply preserves_lookup. intros w Hw.
    destruct (tasks w !! _) as [s|] eqn:Es; [|by apply preserves_echo].
    apply (preserves_data sid (channel_id msg) s (payload msg) w
      (fun e => echo_client (channel_id msg) wr e MessageLevel.LFail)); auto with preserves.
  - unfold handle_app_finish. apply preserves_lookup. intros w Hw.
    destruct (tasks w !! _) as [s|]; [|by apply preserves_echo].
    apply preserves_bind; [apply preserves_remove| |done]. intros _.
    apply preserves_bind; [apply preserves_echo_bm|]. auto with preserves.
  - unfold handle_app_uninstall. apply preserves_bind; [apply preserves_echo_bm|]. auto with preserves.
Qed.
End Invariant.

(** ** Properties *)

#[local] Existing Instance ToyAead.aead.
#[local] Existing Instance ToyAead.laws.
#[local] Existing Instance CalmOs.os.

(** C27: a file pushed by the host.  The messages of a transfer (init, check,
    begin, any number of data chunks, finish) leave at the path of the check
    message a file that holds exactly the chunks, joined in order; every other
    file is as before, the transfer is forgotten, and the daemon answered with
    the check, the begin and the close of the channel. *)
Theorem file_push_stores_file {HA : Aead} {HL : AeadLaws HA} {OS : Os} w sid k init lp rp cfg ds :
  link_open sid (link w) -> u32 k -> parse_file_paths init = Ok (Some (lp, rp)) ->
  sendable (mkTaskMessage k FileCheck (TransferConfig.serialize (config_for rp 0))) ->
  TransferConfig.wf cfg -> TransferConfig.raw_ok cfg ->
  create_error (TransferConfig.path cfg) = None -> no_write_errors ->
  exists w',
  run_file_tasks sid (mkSharedWriter sid) (push_messages k init cfg ds) w = (Ok tt, w') /\
  fs w' !! TransferConfig.path cfg = Some (concat ds) /\
  (forall p, p <> TransferConfig.path cfg -> fs w' !! p = fs w !! p) /\
  tasks w' = delete (sid, k) (tasks w) /\
  send_all sid (push_replies k rp) (link w) = (Ok tt, link w').
Proof. apply file_push_run. Qed.
Lemma file_push_stores_file_witness : exists w',
  run_file_tasks 1 (mkSharedWriter 1)
    (push_messages 7 (lit "file send a /tmp/b") (config_for (lit "/tmp/b") 5) [lit "ab"; lit "cde"])
    start_world = (Ok tt, w') /\
  fs w' !! lit "/tmp/b" = Some (lit "abcde") /\
  (forall p, p <> lit "/tmp/b" -> fs w' !! p = (fs start_world) !! p) /\
  tasks w' = delete (1, 7) (tasks start_world) /\
  send_all 1 (push_replies 7 (lit "/tmp/b")) (link start_world) = (Ok tt, link w').
Proof.
  apply (file_push_stores_file start_world 1 7 (lit "file send a /tmp/b") (lit "a") (lit "/tmp/b")
    (config_for (lit "/tmp/b") 5) [lit "ab"; lit "cde"]).
  - split; [reflexivity|exact I].
  - ulia.
  - vm_compute. reflexivity.
  - apply small_sendable; [ulia| |vm_compute; discriminate].
    apply (bool_decide_unpack _). vm_compute. exact I.
  - vm_compute. intuition discriminate.
  - vm_compute. reflexivity.
  - reflexivity.
  - intros ? ? ?. reflexivity.
Defined.

(** Transfers on several channels at once.  However the data messages of the
    channels that are receiving a file are interleaved, each file gets exactly
    the chunks of its own channel, in their order, and its byte count; nothing
    is answered and no other file, transfer or connection state changes. *)
Theorem interleaved_transfers {HA : Aead} {OS : Os} wr sid ms w chans :
  no_write_errors -> all_receiving w sid chans ->
  Forall (fun m => command m = FileData /\ is_Some (chans !! channel_id m)) ms -> exists w',
  run_file_tasks sid wr ms w = (Ok tt, w') /\ untouched sid chans w w' /\
  all_receiving w' sid (map_imap (fun k p => Some (after_chunks ms k p)) chans).
Proof. apply run_file_data_chunks. Qed.
(** Two channels, each with an open empty file. *)
Definition two_transfers : World :=
  mkWorld (mkLink ∅ [] (mkWriter [] None))
    {[ (1, 7) := mkFileTransferState 1 7 (lit "a") (lit "/x") 1 0 0 Send;
       (1, 8) := mkFileTransferState 1 8 (lit "b") (lit "/y") 2 0 0 Send ]}
    {[ 1%positive := Some (mkFileHandle (lit "/x") 0); 2%positive := Some (mkFileHandle (lit "/y") 0) ]}
    {[ lit "/x" := []; lit "/y" := [] ]} empty_forward.
Definition two_channels : gmap Z (FileTransferState * bytes) :=
  {[ 7 := (mkFileTransferState 1 7 (lit "a") (lit "/x") 1 0 0 Send, []);
     8 := (mkFileTransferState 1 8 (lit "b") (lit "/y") 2 0 0 Send, []) ]}.
Lemma interleaved_transfers_witness : exists w',
  run_file_tasks 1 (mkSharedWriter 1)
    [mkTaskMessage 7 FileData [1]; mkTaskMessage 8 FileData [2; 3]; mkTaskMessage 7 FileData [4]]
    two_transfers = (Ok tt, w') /\
  fs w' !! lit "/x" = Some [1; 4] /\ fs w' !! lit "/y" = Some [2; 3].
Proof.
  destruct (interleaved_transfers (mkSharedWriter 1) 1
    [mkTaskMessage 7 FileData [1]; mkTaskMessage 8 FileData [2; 3]; mkTaskMessage 7 FileData [4]]
    two_transfers two_channels) as (w' & E & _ & Hr & _).
  - intros ? ? ?. reflexivity.
  - unfold two_channels. split.
    + intros k s c [[<- [= <- <-]]|[_ [<- [= <- <-]]%lookup_singleton_Some]]%lookup_insert_Some;
        vm_compute; auto.
    + intros k1 k2 p1 p2 Hne [[<- <-]|[_ [<- <-]%lookup_singleton_Some]]%lookup_insert_Some
        [[<- <-]|[_ [<- <-]%lookup_singleton_Some]]%lookup_insert_Some; try done;
        split; discriminate.
  - repeat constructor; eexists; reflexivity.
  - exists w'. split; [exact E|].
    split; [apply (Hr 7 (mkFileTransferState 1 7 (lit "a") (lit "/x") 1 0 2 Send) [1; 4])|
            apply (Hr 8 (mkFileTransferState 1 8 (lit "b") (lit "/y") 2 0 2 Send) [2; 3])];
      vm_compute; reflexivity.
Defined.

(** C28: a file pulled by the host.  On a channel prepared for it, the begin
    message makes the daemon send the whole file, in pieces of at most the I/O
    buffer size whose concatenation is the file, then the finish and the close;
    the transfer is forgotten and no file changes.  The read loop ends for every
    size of reads the system chooses. *)
Theorem file_pull_sends_file {HA : Aead} {HL : AeadLaws HA} {OS : Os} w sid k s content p :
  link_open sid (link w) -> u32 k -> tasks w !! (sid, k) = Some s -> direction s = Recv ->
  open_error (remote_path s) = None -> no_read_errors (remote_path s) ->
  fs w !! remote_path s = Some content -> bytes_ok content -> exists ds w',
  handle_file_begin (mkTaskMessage k FileBegin p) sid (mkSharedWriter sid) w = (Ok tt, w') /\
  concat ds = content /\ Forall (fun d => 0 < len d <= MAX_SIZE_IOBUF) ds /\
  send_all sid (map (mkTaskMessage k FileData) ds ++ [mkTaskMessage k FileFinish []; channel_close k])
    (link w) = (Ok tt, link w') /\
  fs w' = fs w /\ tasks w' = delete (sid, k) (tasks w).
Proof. apply handle_file_begin_recv. Qed.
Definition pull_world : World :=
  mkWorld (mkLink ∅ [] (mkWriter [] None))
    {[ (1, 9) := mkFileTransferState 1 9 (lit "/f") (lit "/f") 1 3 0 Recv ]}
    {[ 1%positive := None ]} {[ lit "/f" := [10; 20; 30] ]} empty_forward.
Lemma file_pull_sends_file_witness : exists ds w',
  handle_file_begin (mkTaskMessage 9 FileBegin []) 1 (mkSharedWriter 1) pull_world = (Ok tt, w') /\
  concat ds = [10; 20; 30] /\ Forall (fun d => 0 < len d <= MAX_SIZE_IOBUF) ds /\
  send_all 1 (map (mkTaskMessage 9 FileData) ds ++ [mkTaskMessage 9 FileFinish []; channel_close 9])
    (link pull_world) = (Ok tt, link w') /\
  fs w' = fs pull_world /\ tasks w' = delete (1, 9) (tasks pull_world).
Proof.
  apply (file_pull_sends_file pull_world 1 9
    (mkFileTransferState 1 9 (lit "/f") (lit "/f") 1 3 0 Recv) [10; 20; 30] []).
  - split; [reflexivity|exact I].
  - ulia.
  - reflexivity.
  - reflexivity.
  - reflexivity.
  - intros ?. reflexivity.
  - reflexivity.
  - apply (bool_decide_unpack _). vm_compute. exact I.
Defined.

(** C38: the invariant of the task map.  Whatever file or app message arrives, on
    any session and channel, with any outcome of the sends and of the system:
    entries stay filed under their own session and channel, and no two of them
    share an open file. *)
Theorem task_map_invariant {HA : Aead} {OS : Os} msg sid wr w :
  task_inv w ->
  task_inv (handle_file_task msg sid wr w).2 /\ task_inv (handle_app_task msg sid wr w).2.
Proof. intros Hw. split; [by apply preserves_file_task|by apply preserves_app_task]. Qed.
Lemma task_map_invariant_witness :
  task_inv (handle_file_task (mkTaskMessage 7 FileInit (lit "file send a /b")) 1 (mkSharedWriter 1)
    start_world).2.
Proof.
  refine (proj1 (task_map_invariant (mkTaskMessage 7 FileInit (lit "file send a /b")) 1
    (mkSharedWriter 1) start_world _)).
  split; [intros key s H|intros k1 k2 s1 s2 _ H _]; simpl in H; by apply lookup_empty_Some in H.
Defined.

(** An app package is stored only directly inside the install directory:
    whatever path the host names, the target is that directory followed by a
    non-empty name without a slash that is neither [.] nor [..]. *)
Theorem app_target_confined {HA : Aead} {OS : Os} msg sid wr w s :
  tasks (handle_app_init msg sid wr w).2 !! (sid, channel_id msg) = Some s ->
  tasks w !! (sid, channel_id msg) = None ->
  exists n, remote_path s = INSTALL_TMP_DIR ++ n /\ (47 ∉ n) /\ n <> [] /\ n <> lit "." /\ n <> lit "..".
Proof.
  unfold handle_app_init. intros H Hn.
  assert (Hsend : forall m w, tasks (send_shared wr m w).2 = tasks w).
  { intros m w'. unfold send_shared, on_link, zoom. by destruct (DaemonTcp.send_message _ _ _). }
  rewrite M_bind_eq in H. cbn [lift] in H.
  destruct (parse_app_path (payload msg)) as [[p|]|e|];
    [|unfold echo_client in H; rewrite Hsend in H; congruence|simpl in H; congruence..].
  rewrite M_bind_eq in H. unfold new_cell in H. cbv beta iota zeta in H.
  rewrite M_bind_eq in H. unfold file_map_put, modify in H. cbv beta iota in H.
  rewrite Hsend in H. cbn in H. rewrite lookup_insert_eq in H. injection H as <-. cbn [remote_path].
  eexists. split; [reflexivity|]. destruct (path_file_name p) as [n|] eqn:En.
  - by apply path_file_name_ok in En.
  - split_and!; try done. by apply (bool_decide_unpack _).
Qed.
Lemma app_target_confined_witness : exists n,
  INSTALL_TMP_DIR ++ lit "passwd" = INSTALL_TMP_DIR ++ n /\ (47 ∉ n) /\ n <> [] /\ n <> lit "." /\ n <> lit "..".
Proof.
  apply (app_target_confined (mkTaskMessage 7 AppInit (lit "install ../../etc/passwd")) 1
    (mkSharedWriter 1) start_world
    (mkFileTransferState 1 7 (lit "../../etc/passwd") (INSTALL_TMP_DIR ++ lit "passwd") 1 0 0 Send)).
  - vm_compute. reflexivity.
  - reflexivity.
Defined.
