(* ===== verification/DaemonForward.v ===== *)
(** * The daemon's port forwarding

    [src/hdcd/src/forward.rs]: the forward messages of a session
    ([handle_forward_task], [handle_channel_close]), the two bridge tasks of an
    [fport] connection, and, as state machines, the listener task of an [rport]
    and the task of each connection it accepts.  Sockets are the operating
    system's: a bind or a connect can fail for a reason of its own.  The
    conditional compilation is that of Unix. *)

From S2P Require Import Prelude RustStr Config Tlv Serializer Encrypt Transport Daemon DaemonFile.

Section Forward.
Context {HA : Aead} {OS : Os}.

(** ** Helpers *)

Definition parse_null_terminated (data : bytes) : bytes :=
  from_utf8_lossy (match split_once 0 data with Some (x, _) => x | None => data end).

(** [u32::from_be_bytes([p[0], p[1], p[2], p[3]])]: each index can panic. *)
Definition id_of (p : bytes) : Result Z :=
  a ← index 0 p; b ← index 1 p; c ← index 2 p; d ← index 3 p;
  mret (from_be_bytes [a; b; c; d]).

(** Four bytes of an identifier, eight of zeros, a text and a final zero. *)
Definition spec_payload (id : Z) (spec : bytes) : bytes :=
  to_be_bytes 4 id ++ replicate 8 0 ++ spec ++ [0].

(** [sun_path] has 108 bytes, the first of which is zero. *)
Definition abstract_name_max : Z := 107.
Definition connect_to (addr : bytes) : Result unit :=
  match connect_error addr with Some e => Err e | None => Ok tt end.
Definition bind_to (addr : bytes) : Result bytes :=
  match bind_error addr with Some e => Err e | None => Ok addr end.
Definition connect_abstract_socket (name : bytes) : Result unit :=
  if abstract_name_max <? len name then err InvalidInput "abstract socket name too long"
  else connect_to (0 :: name).
Definition listen_abstract_socket (name : bytes) : Result bytes :=
  if abstract_name_max <? len name then err InvalidInput "abstract socket name too long"
  else bind_to (0 :: name).

Definition invalid_spec (what : string) (spec : bytes) : Error :=
  mkError InvalidInput (lit what ++ spec).

(** [check_remote_reachable] and [connect_remote] make the same attempt; the
    second keeps the connection. *)
Definition connect_remote (spec : bytes) : Result unit :=
  match split_once 58 spec with
  | None => Err (invalid_spec "Invalid remote spec: " spec)
  | Some (proto, target) =>
      if beq proto (lit "tcp") then
        match parse_uint 16 target with
        | inl e => Err (invalid_spec "Invalid port: " (fmt_int_error e))
        | inr port => connect_to (lit "127.0.0.1:" ++ fmt_dec port)
        end
      else if beq proto (lit "localabstract") then connect_abstract_socket target
      else Err (invalid_spec "Unsupported forward proto: " proto)
  end.
Definition check_remote_reachable (spec : bytes) : Result unit := connect_remote spec.

(** The address a listener is bound to. *)
Definition start_listener (spec : bytes) : Result bytes :=
  match split_once 58 spec with
  | None => Err (invalid_spec "Invalid forward spec: " spec)
  | Some (proto, target) =>
      if beq proto (lit "tcp") then
        match parse_uint 16 target with
        | inl e => Err (invalid_spec "Invalid port: " (fmt_int_error e))
        | inr port => bind_to (lit "0.0.0.0:" ++ fmt_dec port)
        end
      else if beq proto (lit "localabstract") then listen_abstract_socket target
      else if beq proto (lit "localfilesystem") then bind_to target
      else if beq proto (lit "localreserved") then bind_to (lit "/dev/unix/socket/" ++ target)
      else Err (invalid_spec "Unsupported rport listener proto: " proto)
  end.

(** ** The forward state *)

Definition on_fwd (f : ForwardState -> ForwardState) : M World unit :=
  modify (fun w => set_fwd (f (fwd w)) w).
(** [tx.send(..)] on an unbounded channel; a dropped receiver is ignored. *)
Definition push_rport (q : positive) (m : RportMsg) (s : ForwardState) : ForwardState :=
  mkForwardState (fport_senders s) (rport_listeners s) (fport_queues s)
    (alter (fun ms => ms ++ [m]) q (rport_queues s)) (rport_tasks s).
Definition push_fport (q : positive) (d : bytes) (s : ForwardState) : ForwardState :=
  mkForwardState (fport_senders s) (rport_listeners s)
    (alter (fun ds => ds ++ [d]) q (fport_queues s)) (rport_queues s) (rport_tasks s).
Definition abort_task (q : positive) (s : ForwardState) : ForwardState :=
  mkForwardState (fport_senders s) (rport_listeners s) (fport_queues s) (rport_queues s)
    (alter (fun t => mkRportTask (rt_channel t) (rt_remote t) (rt_local t) true) q (rport_tasks s)).
Definition set_fport_senders (m : gmap Z FportConn) (s : ForwardState) : ForwardState :=
  mkForwardState m (rport_listeners s) (fport_queues s) (rport_queues s) (rport_tasks s).
Definition set_rport_listeners (m : gmap Z positive) (s : ForwardState) : ForwardState :=
  mkForwardState (fport_senders s) m (fport_queues s) (rport_queues s) (rport_tasks s).

Definition handle_channel_close (channel_id : Z) : M World bool := fun w =>
  let s := fwd w in
  let '(s, handled) :=
    match rport_listeners s !! channel_id with
    | Some q =>
        (abort_task q (push_rport q Shutdown
           (set_rport_listeners (delete channel_id (rport_listeners s)) s)), true)
    | None => (s, false)
    end in
  let before := size (fport_senders s) in
  let senders := filter (fun p => fc_channel_id p.2 <> channel_id) (fport_senders s) in
  let handled := if (size senders =? before)%nat then handled else true in
  (Ok handled, set_fwd (set_fport_senders senders s) w).

Definition cleanup_rport_listener (channel_id : Z) : M World unit :=
  on_fwd (fun s => set_rport_listeners (delete channel_id (rport_listeners s)) s).

(** ** The messages of a session *)

(** [tokio::spawn(run_rport_listener(..))] with a new channel: from here on the task runs. *)
Definition spawn_rport_listener (channel : Z) (remote_spec local_spec : bytes) : M World positive := fun w =>
  let s := fwd w in
  let q := fresh (dom (rport_queues s)) in
  (Ok q, set_fwd (mkForwardState (fport_senders s) (rport_listeners s) (fport_queues s)
                    (<[q := []]> (rport_queues s))
                    (<[q := mkRportTask channel remote_spec local_spec false]> (rport_tasks s))) w).
(** The handle of the task enters the map, in place of one of the same channel. *)
Definition register_rport_listener (channel : Z) (q : positive) : M World unit :=
  on_fwd (fun s => set_rport_listeners (<[channel := q]> (rport_listeners s)) s).
(** [handle_rport_init] up to the spawned task, if it gets that far, and whole; the task
    runs between the two parts (see [DaemonListeners]). *)
Definition rport_init_spawn (msg : TaskMessage) (wr : SharedWriter) : M World (option positive) :=
  let parts := split_whitespace (from_utf8_lossy (payload msg)) in
  if (length parts <? 2)%nat then
    _ ← echo_client (channel_id msg) wr
          (lit "Invalid rport parameters, expected: remote_spec local_spec") MessageLevel.LFail;
    mret None
  else
    remote_spec ← lift (index 0 parts);
    local_spec ← lift (index 1 parts);
    match start_listener remote_spec with
    | Err e =>
        _ ← echo_client (channel_id msg) wr
              (lit "Failed to bind " ++ remote_spec ++ lit ": " ++ err_msg e) MessageLevel.LFail;
        mret None
    | Panic => lift Panic
    | Ok _ => q ← spawn_rport_listener (channel_id msg) remote_spec local_spec; mret (Some q)
    end.
Definition handle_rport_init (msg : TaskMessage) (wr : SharedWriter) : M World unit :=
  spawned ← rport_init_spawn msg wr;
  match spawned with
  | Some q => register_rport_listener (channel_id msg) q
  | None => mret tt
  end.

(** The messages a channel with a listener hands to its task: none for a command that is
    not the listener's; what is sent to the task, if anything, for one that is. *)
Definition to_listener (msg : TaskMessage) : option (Result (option RportMsg)) :=
  let p := payload msg in
  match command msg with
  | ForwardCheckResult =>
      Some (if 5 <=? len p then
              ctx_id ← id_of p; flag ← index 4 p; mret (Some (CheckResult ctx_id (negb (flag =? 0))))
            else mret None)
  | ForwardActiveMaster =>
      Some (if 4 <=? len p then conn_id ← id_of p; mret (Some (ActiveMaster conn_id)) else mret None)
  | ForwardData =>
      Some (if 4 <=? len p then conn_id ← id_of p; data ← slice_from 4 p; mret (Some (FwdData conn_id data))
            else mret None)
  | ForwardFreeContext =>
      Some (if 4 <=? len p then conn_id ← id_of p; mret (Some (FreeContext conn_id)) else mret None)
  | _ => None
  end.

(** A connection of an [fport]: its two tasks below share the new queue and the socket. *)
Definition handle_active_slave (msg : TaskMessage) (wr : SharedWriter) : M World unit :=
  let p := payload msg in
  if len p <? 12 + 1 then mret tt
  else
    forward_id ← lift (id_of p);
    rest ← lift (slice_from 12 p);
    let remote_spec := parse_null_terminated rest in
    match connect_remote remote_spec with
    | Ok _ =>
        _ ← on_fwd (fun s =>
              let q := fresh (dom (fport_queues s)) in
              mkForwardState (<[forward_id := mkFportConn (channel_id msg) q]> (fport_senders s))
                (rport_listeners s) (<[q := []]> (fport_queues s)) (rport_queues s)
                (rport_tasks s));
        send_shared wr (mkTaskMessage (channel_id msg) ForwardActiveMaster
          (spec_payload forward_id remote_spec))
    | _ =>
        _ ← try_ (send_shared wr (mkTaskMessage (channel_id msg) ForwardFreeContext
                    (to_be_bytes 4 forward_id)));
        mret tt
    end.
Definition handle_forward_data (msg : TaskMessage) : M World unit :=
  let p := payload msg in
  if len p <? 4 then mret tt
  else
    forward_id ← lift (id_of p);
    data ← lift (slice_from 4 p);
    w ← get;
    match fport_senders (fwd w) !! forward_id with
    | Some conn => on_fwd (push_fport (fc_tx conn) data)
    | None => mret tt
    end.
Definition handle_free_context (msg : TaskMessage) : M World unit :=
  let p := payload msg in
  if len p <? 4 then mret tt
  else
    forward_id ← lift (id_of p);
    on_fwd (fun s => set_fport_senders (delete forward_id (fport_senders s)) s).

Definition handle_forward_task (msg : TaskMessage) (session_id : Z) (wr : SharedWriter)
  : M World unit :=
  w ← get;
  let p := payload msg in
  let routed := match rport_listeners (fwd w) !! channel_id msg with
                | Some q => match to_listener msg with Some m => Some (q, m) | None => None end
                | None => None
                end in
  match routed with
  | Some (q, m) =>
      m ← lift m;
      match m with Some m => on_fwd (push_rport q m) | None => mret tt end
  | None =>
      match command msg with
      | ForwardInit | ForwardRportInit => handle_rport_init msg wr
      | ForwardCheck =>
          if len p <? 12 + 1 then mret tt
          else
            ctx_id ← lift (id_of p);
            rest ← lift (slice_from 12 p);
            let remote_spec := parse_null_terminated rest in
            let flag := match check_remote_reachable remote_spec with Ok _ => 1 | _ => 0 end in
            send_shared wr (mkTaskMessage (channel_id msg) ForwardCheckResult
              (to_be_bytes 4 ctx_id ++ replicate 8 0 ++ [flag]))
      | ForwardActiveSlave => handle_active_slave msg wr
      | ForwardData => handle_forward_data msg
      | ForwardFreeContext => handle_free_context msg
      | ForwardList | ForwardRportList => echo_client (channel_id msg) wr [] MessageLevel.LOk
      | ForwardRemove | ForwardRportRemove =>
          echo_client (channel_id msg) wr (lit "Forward removed") MessageLevel.LOk
      | ForwardSuccess => mret tt
      | _ => echo_client (channel_id msg) wr (lit "Command not implemented") MessageLevel.LFail
      end
  end.

(** ** The two tasks of an [fport] connection *)

Definition forward_data (channel_id id : Z) (data : bytes) : TaskMessage :=
  mkTaskMessage channel_id ForwardData (to_be_bytes 4 id ++ data).
Definition forward_free (channel_id id : Z) : TaskMessage :=
  mkTaskMessage channel_id ForwardFreeContext (to_be_bytes 4 id).

(** Remote to host: every read becomes a data message; when the remote closes,
    fails or the connection to the host breaks, the context is freed.  The
    stream of reads is finite, and each iteration takes a piece of it. *)
Fixpoint remote_to_host_loop (fuel : nat) (channel_id forward_id : Z) (wr : SharedWriter) (rd : Stream)
  : M World unit :=
  match fuel with
  | O => lift Panic
  | S f =>
      match tcp_read 4096 rd with
      | (Ok [], _) => mret tt
      | (Ok d, rd) =>
          sent ← try_ (send_shared wr (forward_data channel_id forward_id d));
          match sent with
          | Ok _ => remote_to_host_loop f channel_id forward_id wr rd
          | _ => mret tt
          end
      | (Err _, _) => mret tt
      | (Panic, _) => lift Panic
      end
  end.
Definition remote_to_host_fuel (rd : Stream) : nat := S (length (flat rd) + length rd).
Definition remote_to_host (channel_id forward_id : Z) (wr : SharedWriter) (rd : Stream) : M World unit :=
  _ ← remote_to_host_loop (remote_to_host_fuel rd) channel_id forward_id wr rd;
  _ ← try_ (send_shared wr (forward_free channel_id forward_id));
  mret tt.
(** Host to remote: what the queue holds, until a write fails. *)
Fixpoint host_to_remote (queue : list bytes) : M Writer unit :=
  match queue with
  | [] => mret tt
  | d :: t =>
      r ← try_ (write_all d);
      match r with Ok _ => host_to_remote t | _ => mret tt end
  end.
End Forward.

(** ** The listener task of an [rport]

    [run_rport_listener] as a state machine.  Its steps are the task's start,
    a message taken from its queue (by the task itself while it waits for the
    host's check result, by its dispatcher afterwards), the end of the queue, an
    accepted connection or a failing accept, the end of the dispatcher, and a
    connection's task removing its own entry.  [l_conns] is the shared map of
    senders; the queue of a connection outlives its entry. *)

Inductive RportConnMsg := CActiveMaster | CData (d : bytes) | CShutdown.
#[global] Instance RportConnMsg_eq_dec : EqDecision RportConnMsg.
Proof. solve_decision. Defined.

Inductive LPhase := LStarting | LChecking | LAccepting (dispatcher : bool) | LEnded.
Record Listener := mkListener {
  l_channel : Z; l_remote : bytes; l_local : bytes; l_id : Z; l_phase : LPhase;
  l_conns : gmap Z positive; l_queues : gmap positive (list RportConnMsg)
}.
Definition set_phase (p : LPhase) (l : Listener) : Listener :=
  mkListener (l_channel l) (l_remote l) (l_local l) (l_id l) p (l_conns l) (l_queues l).
Definition set_conns (c : gmap Z positive) (l : Listener) : Listener :=
  mkListener (l_channel l) (l_remote l) (l_local l) (l_id l) (l_phase l) c (l_queues l).
Definition set_queues (q : gmap positive (list RportConnMsg)) (l : Listener) : Listener :=
  mkListener (l_channel l) (l_remote l) (l_local l) (l_id l) (l_phase l) (l_conns l) q.

(** [tx.send(m)] to a connection that has an entry. *)
Definition send_conn (conn_id : Z) (m : RportConnMsg) (l : Listener) : Listener :=
  match l_conns l !! conn_id with
  | Some q => set_queues (alter (fun ms => ms ++ [m]) q (l_queues l)) l
  | None => l
  end.

Inductive LEvent :=
  | LRun | LMsg (m : RportMsg) | LQueueClosed | LAccept (conn_id : Z) | LAcceptErr
  | LDispatcherEnded | LConnGone (conn_id : Z).

Section ListenerTask.
Context {HA : Aead} {OS : Os}.

(** The task's last step: the registration of the channel goes. *)
Definition listener_end (l : Listener) : M World Listener :=
  _ ← cleanup_rport_listener (l_channel l);
  mret (set_phase LEnded l).
(** The entries are drained, each connection told to shut down. *)
Definition listener_drain (l : Listener) : M World Listener :=
  listener_end (set_conns ∅
    (foldr (fun id => send_conn id CShutdown) l (map fst (map_to_list (l_conns l))))).

(** One message while waiting for the check result. *)
Definition listener_check (wr : SharedWriter) (m : RportMsg) (l : Listener) : M World Listener :=
  match m with
  | CheckResult ctx_id ok =>
      if ctx_id =? l_id l then
        if ok then
          _ ← try_ (send_shared wr (mkTaskMessage (l_channel l) ForwardSuccess
                      (lit "0|" ++ l_remote l ++ lit " " ++ l_local l)));
          mret (set_phase (LAccepting true) l)
        else listener_end l
      else mret l
  | Shutdown => listener_end l
  | _ => mret l
  end.
(** One message of the dispatcher. *)
Definition listener_dispatch (m : RportMsg) (l : Listener) : Listener :=
  match m with
  | Shutdown => set_phase (LAccepting false) l
  | ActiveMaster conn_id => send_conn conn_id CActiveMaster l
  | FwdData conn_id data => send_conn conn_id (CData data) l
  | FreeContext conn_id => set_conns (delete conn_id (l_conns l)) l
  | CheckResult _ _ => l
  end.
Definition listener_accept (conn_id : Z) (l : Listener) : Listener :=
  let q := fresh (dom (l_queues l)) in
  set_conns (<[conn_id := q]> (l_conns l)) (set_queues (<[q := []]> (l_queues l)) l).

Definition listener_step (wr : SharedWriter) (e : LEvent) (l : Listener) : M World Listener :=
  match l_phase l, e with
  | LStarting, LRun =>
      sent ← try_ (send_shared wr (mkTaskMessage (l_channel l) ForwardCheck
               (spec_payload (l_id l) (l_local l))));
      match sent with
      | Ok _ => mret (set_phase LChecking l)
      | _ => listener_end l
      end
  | LChecking, LMsg m => listener_check wr m l
  | LChecking, LQueueClosed => listener_end l
  | LAccepting true, LMsg m => mret (listener_dispatch m l)
  | LAccepting true, LQueueClosed => mret (set_phase (LAccepting false) l)
  | LAccepting _, LAccept conn_id => mret (listener_accept conn_id l)
  | LAccepting _, LAcceptErr => listener_drain l
  | LAccepting false, LDispatcherEnded => listener_drain l
  | _, LConnGone conn_id => mret (set_conns (delete conn_id (l_conns l)) l)
  | _, _ => mret l
  end.
(** The steps the task can take in a state. *)
Definition listener_enabled (e : LEvent) (l : Listener) : bool :=
  match l_phase l, e with
  | LStarting, LRun | LChecking, LMsg _ | LChecking, LQueueClosed | LAccepting true, LMsg _
  | LAccepting true, LQueueClosed | LAccepting _, LAccept _ | LAccepting _, LAcceptErr
  | LAccepting false, LDispatcherEnded | LAccepting _, LConnGone _ | LEnded, LConnGone _ => true
  | _, _ => false
  end.

Definition lrun (wr : SharedWriter) := run listener_enabled (listener_step wr).
Definition new_listener (channel : Z) (remote local : bytes) (id : Z) : Listener :=
  mkListener channel remote local id LStarting ∅ ∅.
End ListenerTask.

(** ** The task of an accepted connection

    [run_rport_connection]: it asks the host to connect, waits for the host's
    confirmation, then bridges in both directions, and frees the context. *)
Inductive CPhase :=
  | COpening | CWaiting
  | CBridging (reading writing : bool)   (** the two spawned halves still run *)
  | CClosed.
Record Conn := mkConn {
  c_channel : Z; c_id : Z; c_local : bytes; c_phase : CPhase;
  c_out : Writer;             (** the accepted socket's write half *)
  c_entry : bool              (** its entry is in the listener's map *)
}.
Definition set_cphase (p : CPhase) (c : Conn) : Conn :=
  mkConn (c_channel c) (c_id c) (c_local c) p (c_out c) (c_entry c).
Definition set_cout (o : Writer) (c : Conn) : Conn :=
  mkConn (c_channel c) (c_id c) (c_local c) (c_phase c) o (c_entry c).
(** [conns.lock().await.remove(&conn_id)] *)
Definition conn_leave (c : Conn) : Conn :=
  mkConn (c_channel c) (c_id c) (c_local c) (c_phase c) (c_out c) false.

Inductive CEvent :=
  | CRun | CMsg (m : RportConnMsg) | CQueueClosed | CTimeout
  | CRead (d : bytes) | CReadEnd | CJoined.
#[global] Instance CEvent_eq_dec : EqDecision CEvent.
Proof. solve_decision. Defined.

Section ConnTask.
Context {HA : Aead} {OS : Os}.

Definition conn_free (wr : SharedWriter) (c : Conn) : M World Conn :=
  _ ← try_ (send_shared wr (forward_free (c_channel c) (c_id c)));
  mret (set_cphase CClosed (conn_leave c)).

Definition conn_step (wr : SharedWriter) (e : CEvent) (c : Conn) : M World Conn :=
  match c_phase c, e with
  | COpening, CRun =>
      sent ← try_ (send_shared wr (mkTaskMessage (c_channel c) ForwardActiveSlave
               (spec_payload (c_id c) (c_local c))));
      match sent with
      | Ok _ => mret (set_cphase CWaiting c)
      | _ => mret (set_cphase CClosed (conn_leave c))
      end
  | CWaiting, CMsg CActiveMaster => mret (set_cphase (CBridging true true) c)
  | CWaiting, CMsg CShutdown | CWaiting, CQueueClosed | CWaiting, CTimeout => conn_free wr c
  | CWaiting, CMsg (CData _) => mret c
  | CBridging true wt, CRead d =>
      sent ← try_ (send_shared wr (forward_data (c_channel c) (c_id c) d));
      match sent with
      | Ok _ => mret c
      | _ => mret (set_cphase (CBridging false wt) c)
      end
  | CBridging true wt, CReadEnd => mret (set_cphase (CBridging false wt) c)
  | CBridging rd true, CMsg (CData d) =>
      match write_all d (c_out c) with
      | (Ok _, o) => mret (set_cout o c)
      | (_, o) => mret (set_cphase (CBridging rd false) (set_cout o c))
      end
  | CBridging rd true, CMsg CShutdown | CBridging rd true, CQueueClosed =>
      mret (set_cphase (CBridging rd false) c)
  | CBridging _ true, CMsg CActiveMaster => mret c
  | CBridging false false, CJoined => conn_free wr c
  | _, _ => mret c
  end.
Definition conn_enabled (e : CEvent) (c : Conn) : bool :=
  match c_phase c, e with
  | COpening, CRun | CWaiting, CMsg _ | CWaiting, CQueueClosed | CWaiting, CTimeout => true
  | CBridging true _, CRead d => match d with [] => false | _ => len d <=? 4096 end
  | CBridging true _, CReadEnd | CBridging _ true, CMsg _ | CBridging _ true, CQueueClosed
  | CBridging false false, CJoined => true
  | _, _ => false
  end.
Definition crun (wr : SharedWriter) := run conn_enabled (conn_step wr).
Definition new_conn (channel id : Z) (local : bytes) : Conn :=
  mkConn channel id local COpening (mkWriter [] None) true.
End ConnTask.

(** ** Identifiers at the head of a payload *)

Definition head_id (p : bytes) : Z := from_be_bytes (slice_raw 0 4 p).
Lemma id_of_ok p : 4 <= len p -> id_of p = Ok (head_id p).
Proof. destruct p as [|a [|b [|c [|d p]]]]; unfold len; cbn [length]; try lia. done. Qed.
Lemma slice_from_ok k p : k <= len p -> slice_from k p = Ok (drop (Z.to_nat k) p).
Proof. intros. unfold slice_from. by tests. Qed.
Lemma head_id_to id rest : u32 id -> head_id (to_be_bytes 4 id ++ rest) = id.
Proof. intros. unfold head_id. rewrite slice_raw_prefix by (by rewrite len_to_be_bytes). by apply from_to_be_bytes_id. Qed.
Lemma id_of_to id rest : u32 id -> id_of (to_be_bytes 4 id ++ rest) = Ok id.
Proof.
  intros. rewrite id_of_ok, head_id_to; [done..|]. rewrite len_app, len_to_be_bytes. pose proof (len_nonneg rest). lia.
Qed.

(** ** Facts about the tasks *)

Section TaskFacts.
Context {HA : Aead} {HL : AeadLaws HA} {OS : Os}.

(** [puts sid ms w w']: between the two states the messages [ms] were put on
    the connection, which is open at the end; other parts may have changed. *)
Definition puts (sid : Z) (ms : list TaskMessage) (w w' : World) : Prop :=
  send_all sid ms (link w) = (Ok tt, link w') /\ link_open sid (link w').
Lemma puts_nil sid w : link_open sid (link w) -> puts sid [] w w.
Proof. by split. Qed.
Lemma puts_app sid ms1 ms2 w1 w2 w3 :
  puts sid ms1 w1 w2 -> puts sid ms2 w2 w3 -> puts sid (ms1 ++ ms2) w1 w3.
Proof. intros [E1 _] [E2 H2]. split; [|done]. by rewrite send_all_app, E1. Qed.
Lemma puts_fwd sid ms w w' f : puts sid ms w w' -> puts sid ms w (set_fwd f w').
Proof. done. Qed.

(** A message sent with its result looked at or ignored. *)
Lemma try_send wr m w :
  link_open (sw_session_id wr) (link w) -> sendable m -> exists w',
  try_ (send_shared wr m) w = (Ok (Ok tt), w') /\ puts (sw_session_id wr) [m] w w' /\
  fwd w' = fwd w.
Proof.
  intros Ho Hm. destruct (send_shared_sends wr m w Ho Hm) as (w' & E & l & El & -> & Hl).
  exists (set_link l w). unfold try_. rewrite E. by split_and!.
Qed.

Lemma spec_payload_ok id spec : bytes_ok spec -> bytes_ok (spec_payload id spec).
Proof.
  intros H. unfold spec_payload. rewrite !bytes_ok_app.
  split_and!; [apply to_be_bytes_ok| |done|]; repeat constructor; ulia.
Qed.
Lemma len_spec_payload id spec : len (spec_payload id spec) = 13 + len spec.
Proof. unfold spec_payload. rewrite !len_app, len_to_be_bytes. unfold len. simpl. lia. Qed.

Definition spec_ok (spec : bytes) : Prop := bytes_ok spec /\ len spec <= 2 ^ 20.
Lemma spec_sendable k cmd id spec :
  u32 k -> spec_ok spec -> sendable (mkTaskMessage k cmd (spec_payload id spec)).
Proof.
  intros Hk [Hb Hl]. apply small_sendable; [done|by apply spec_payload_ok|].
  rewrite len_spec_payload. lia.
Qed.
Lemma data_sendable k id d :
  u32 k -> bytes_ok d -> len d <= 4096 -> sendable (forward_data k id d).
Proof.
  intros. apply small_sendable; [done| |].
  - rewrite bytes_ok_app. by split; [apply to_be_bytes_ok|].
  - rewrite len_app, len_to_be_bytes. lia.
Qed.
Lemma free_sendable k id : u32 k -> sendable (forward_free k id).
Proof. intros. apply small_sendable; [done|apply to_be_bytes_ok|]. by rewrite len_to_be_bytes. Qed.

(** *** A connection *)

(** What a run read from the accepted socket, and what the host had written to
    it since the host's confirmation. *)
Definition reads (es : list CEvent) : list bytes :=
  omap (fun e => match e with CRead d => Some d | _ => None end) es.
Fixpoint since_active (es : list CEvent) : list CEvent :=
  match es with
  | [] => []
  | CMsg CActiveMaster :: t => t
  | _ :: t => since_active t
  end.
Definition writes (es : list CEvent) : list bytes :=
  omap (fun e => match e with CMsg (CData d) => Some d | _ => None end) (since_active es).
Definition activated (es : list CEvent) : Prop := CMsg CActiveMaster ∈ es.
#[local] Instance activated_dec es : Decision (activated es).
Proof. unfold activated. apply _. Defined.
Definition reads_ok (es : list CEvent) : Prop := Forall (fun e => match e with CRead d => bytes_ok d | _ => True end) es.
Definition active_slave (c : Conn) : TaskMessage :=
  mkTaskMessage (c_channel c) ForwardActiveSlave (spec_payload (c_id c) (c_local c)).

Definition conn_inv (c0 : Conn) (w : World) (es : list CEvent) (sid : Z) (c : Conn) (w' : World) : Prop :=
  c_channel c = c_channel c0 /\ c_id c = c_id c0 /\ c_local c = c_local c0 /\
  fwd w' = fwd w /\
  puts sid ((match c_phase c with COpening => [] | _ => [active_slave c0] end) ++
            map (forward_data (c_channel c0) (c_id c0)) (reads es) ++
            (match c_phase c with CClosed => [forward_free (c_channel c0) (c_id c0)] | _ => [] end)) w w' /\
  c_out c = mkWriter (concat (writes es)) None /\
  c_entry c = (match c_phase c with CClosed => false | _ => true end) /\
  match c_phase c with
  | COpening => es = []
  | CWaiting => reads es = [] /\ ~ activated es
  | CBridging _ _ => activated es
  | CClosed => reads es = [] \/ activated es
  end.

Lemma since_active_snoc es e :
  since_active (es ++ [e]) =
  if decide (activated es) then since_active es ++ [e]
  else since_active [e].
Proof.
  induction es as [|x es IH].
  - rewrite decide_False; [done|]. apply not_elem_of_nil.
  - destruct (decide (x = CMsg CActiveMaster)) as [->|Hx].
    + rewrite decide_True by (unfold activated; set_solver). done.
    + cbn [app].
      assert (Hs : forall t, since_active (x :: t) = since_active t) by (by intros; destruct x as [|[]| | | | |]).
      rewrite !Hs, IH.
      destruct (decide (activated es)), (decide (activated (x :: es))); try done; unfold activated in *.
      all: exfalso; set_solver.
Qed.

Lemma reads_snoc es e : reads (es ++ [e]) = reads es ++ reads [e].
Proof. apply omap_app. Qed.
Lemma writes_snoc es e :
  writes (es ++ [e]) =
  writes es ++ (if decide (activated es) then
                  match e with CMsg (CData d) => [d] | _ => [] end else []).
Proof.
  unfold writes. rewrite since_active_snoc. destruct (decide (activated es)) as [Ha|Hn].
  - rewrite omap_app. f_equal. by destruct e as [|[]| | | | |].
  - rewrite app_nil_r. assert (since_active es = []) as ->.
    { clear e. induction es as [|x es IH]; [done|].
      assert (x <> CMsg CActiveMaster /\ ~ activated es) as [Hx He] by (unfold activated in *; set_solver).
      destruct x as [|[]| | | | |]; try done; by apply IH. }
    by destruct e as [|[]| | | | |].
Qed.
Lemma activated_snoc es e : activated (es ++ [e]) <-> activated es \/ e = CMsg CActiveMaster.
Proof. unfold activated. set_solver. Qed.

(** A step of the invariant: the messages grow by [ms], the written bytes as the
    event says. *)
Lemma conn_inv_step c0 w es sid c w1 e c2 w2 ms :
  conn_inv c0 w es sid c w1 ->
  c_channel c2 = c_channel c -> c_id c2 = c_id c -> c_local c2 = c_local c -> fwd w2 = fwd w1 ->
  puts sid ms w1 w2 ->
  ((match c_phase c with COpening => [] | _ => [active_slave c0] end) ++
   map (forward_data (c_channel c0) (c_id c0)) (reads es) ++
   (match c_phase c with CClosed => [forward_free (c_channel c0) (c_id c0)] | _ => [] end)) ++ ms =
  (match c_phase c2 with COpening => [] | _ => [active_slave c0] end) ++
   map (forward_data (c_channel c0) (c_id c0)) (reads es ++ reads [e]) ++
   (match c_phase c2 with CClosed => [forward_free (c_channel c0) (c_id c0)] | _ => [] end) ->
  c_out c2 = mkWriter (w_out (c_out c) ++ concat (if decide (activated es) then
                  match e with CMsg (CData d) => [d] | _ => [] end else [])) None ->
  c_entry c2 = (match c_phase c2 with CClosed => false | _ => true end) ->
  match c_phase c2 with
  | COpening => False
  | CWaiting => reads es ++ reads [e] = [] /\ ~ activated (es ++ [e])
  | CBridging _ _ => activated (es ++ [e])
  | CClosed => reads es ++ reads [e] = [] \/ activated (es ++ [e])
  end ->
  conn_inv c0 w (es ++ [e]) sid c2 w2.
Proof.
  intros (Hch & Hid & Hlo & Hf & Hp & Ho & Hen & Hph) E1 E2 E3 E4 Hms El Eo Een Ep.
  unfold conn_inv. rewrite reads_snoc, writes_snoc, concat_app, <- El.
  split_and!; try congruence.
  - by eapply puts_app.
  - rewrite Eo, Ho. done.
  - by destruct (c_phase c2).
Qed.

(** The phases between the request and the end. *)
Definition midway (p : CPhase) : Prop := match p with CWaiting | CBridging _ _ => True | _ => False end.
Definition quiet (e : CEvent) : Prop := match e with CRead _ | CMsg (CData _) => False | _ => True end.

Lemma conn_free_inv wr c0 w es c w1 e c2 w2 :
  u32 (c_channel c0) -> conn_inv c0 w es (sw_session_id wr) c w1 -> midway (c_phase c) -> quiet e ->
  conn_free wr c w1 = (Ok c2, w2) -> conn_inv c0 w (es ++ [e]) (sw_session_id wr) c2 w2.
Proof.
  intros Hk Hi Hm Hq Est. pose proof Hi as (Hch & Hid & _ & _ & (_ & Hopen) & Ho & Hen & Hph).
  unfold conn_free in Est. rewrite Hch, Hid in Est.
  destruct (try_send wr (forward_free (c_channel c0) (c_id c0)) w1 Hopen) as (w' & E & Hp' & Hf').
  { by apply free_sendable. }
  rewrite (M_bind_Ok _ _ _ _ _ E) in Est. injection Est as <- <-.
  assert (Hr : reads [e] = []) by (by destruct e as [|[]| | | | |]).
  eapply conn_inv_step; [exact Hi|done..| | | |]; rewrite ?Hr, ?app_nil_r; cbn [set_cphase conn_leave c_phase c_out c_entry].
  - destruct (c_phase c); by rewrite ?app_nil_r, <- ?app_assoc.
  - rewrite Ho. f_equal. destruct (decide (activated es)), e as [|[]| | | | |]; by rewrite ?app_nil_r.
  - done.
  - rewrite activated_snoc. destruct (c_phase c); [done|left|right; left|]; tauto.
Qed.

Lemma conn_quiet_inv wr c0 w es c w1 e p :
  conn_inv c0 w es (sw_session_id wr) c w1 -> midway (c_phase c) -> midway p ->
  reads [e] = [] -> (quiet e \/ ~ activated es) ->
  match p with CBridging _ _ => activated (es ++ [e]) | _ => reads es = [] /\ ~ activated (es ++ [e]) end ->
  conn_inv c0 w (es ++ [e]) (sw_session_id wr) (set_cphase p c) w1.
Proof.
  intros Hi Hm Hp Hr Hq Hph'. pose proof Hi as (_ & _ & _ & _ & (_ & Hopen) & Ho & Hen & Hph).
  eapply conn_inv_step; [exact Hi|done..| | | | |]; rewrite ?Hr, ?app_nil_r; cbn [set_cphase c_phase c_out c_entry].
  - by apply puts_nil.
  - destruct (c_phase c), p; done.
  - rewrite Ho. f_equal. destruct (decide (activated es)).
    + destruct Hq; [|done]. destruct e as [|[]| | | | |]; by rewrite ?app_nil_r.
    + by rewrite app_nil_r.
  - rewrite Hen. by destruct (c_phase c), p.
  - by destruct p.
Qed.

Lemma conn_step_inv wr c0 w es c w1 e c2 w2 :
  u32 (c_channel c0) -> spec_ok (c_local c0) ->
  match e with CRead d => bytes_ok d | _ => True end ->
  conn_inv c0 w es (sw_session_id wr) c w1 -> conn_enabled e c = true ->
  conn_step wr e c w1 = (Ok c2, w2) -> conn_inv c0 w (es ++ [e]) (sw_session_id wr) c2 w2.
Proof.
  intros Hk Hs He Hi Hena Est. pose proof Hi as (Hch & Hid & Hlo & _ & (_ & Hopen) & Ho & Hen & Hph).
  destruct c as [ch id lo ph out en]. unfold conn_step, conn_enabled in *.
  cbn [c_phase c_channel c_id c_local c_out c_entry] in *. subst ch id lo out en.
  destruct ph as [| |rd wt|], e as [|m| | |d| |]; try done.
  - (* the request goes out *)
    subst es. destruct (try_send wr (active_slave c0) w1 Hopen) as (w' & E & Hp' & Hf').
    { by apply spec_sendable. }
    change (mkTaskMessage _ ForwardActiveSlave _) with (active_slave c0) in Est.
    rewrite (M_bind_Ok _ _ _ _ _ E) in Est. cbv beta iota in Est. injection Est as <- <-.
    eapply conn_inv_step; [exact Hi|done..| |]; [done|].
    split; [done|]. unfold activated. set_solver.
  - (* a message while waiting *)
    destruct Hph as [Hr Hn]. destruct m as [|d|].
    + injection Est as <- <-. eapply (conn_quiet_inv wr _ _ _ (mkConn _ _ _ CWaiting _ _)); try done; [by left|].
      apply activated_snoc. by right.
    + injection Est as <- <-.
      refine (conn_quiet_inv wr _ _ _ (mkConn _ _ _ CWaiting _ _) _ (CMsg (CData d)) CWaiting Hi _ _ _ _ _);
        try done; [by right|]. split; [done|]. rewrite activated_snoc. by intros [|].
    + by eapply (conn_free_inv wr _ _ _ (mkConn _ _ _ CWaiting _ _)).
  - by eapply (conn_free_inv wr _ _ _ (mkConn _ _ _ CWaiting _ _)).
  - by eapply (conn_free_inv wr _ _ _ (mkConn _ _ _ CWaiting _ _)).
  - by destruct rd, wt.
  - (* a message while bridging *)
    assert (wt = true) as -> by (by destruct rd, wt).
    assert (Est' : match m with
      | CData d => (Ok (mkConn (c_channel c0) (c_id c0) (c_local c0) (CBridging rd true)
                         (mkWriter (concat (writes es) ++ d) None) true), w1)
      | CShutdown => (Ok (mkConn (c_channel c0) (c_id c0) (c_local c0) (CBridging rd false)
                         (mkWriter (concat (writes es)) None) true), w1)
      | CActiveMaster => (Ok (mkConn (c_channel c0) (c_id c0) (c_local c0) (CBridging rd true)
                         (mkWriter (concat (writes es)) None) true), w1)
      end = (Ok c2, w2)) by (by destruct rd, m).
    assert (Ha : activated (es ++ [CMsg m])) by (apply activated_snoc; by left).
    destruct m as [|d|]; injection Est' as <- <-.
    + refine (conn_quiet_inv wr _ _ _ (mkConn _ _ _ (CBridging rd true) _ _) _ _ (CBridging rd true) Hi _ _ _ _ _);
        done || by left.
    + eapply conn_inv_step; [exact Hi|done..|by apply puts_nil|by rewrite !app_nil_r| |done|done].
      rewrite decide_True by done. simpl. by rewrite app_nil_r.
    + refine (conn_quiet_inv wr _ _ _ (mkConn _ _ _ (CBridging rd true) _ _) _ _ (CBridging rd false) Hi _ _ _ _ _);
        done || by left.
  - (* the queue is closed *)
    assert (wt = true) as -> by (by destruct rd, wt).
    assert (Ha : activated (es ++ [CQueueClosed])) by (apply activated_snoc; by left).
    assert (c2 = set_cphase (CBridging rd false) (mkConn (c_channel c0) (c_id c0) (c_local c0) (CBridging rd true)
                   (mkWriter (concat (writes es)) None) true) /\ w2 = w1) as [-> ->]
      by (destruct rd; injection Est; done).
    eapply conn_quiet_inv; try done. by left.
  - by destruct rd, wt.
  - (* bytes from the socket *)
    assert (rd = true) as -> by (by destruct rd, wt).
    assert (Hd : len d <= 4096) by (destruct d, wt; try done; by apply Z.leb_le).
    assert (Ha : activated (es ++ [CRead d])) by (apply activated_snoc; by left).
    destruct (try_send wr (forward_data (c_channel c0) (c_id c0) d) w1 Hopen) as (w' & E & Hp' & Hf').
    { by apply data_sendable. }
    assert (c2 = mkConn (c_channel c0) (c_id c0) (c_local c0) (CBridging true wt)
                   (mkWriter (concat (writes es)) None) true /\ w2 = w') as [-> ->].
    { destruct wt; rewrite (M_bind_Ok _ _ _ _ _ E) in Est; by injection Est as <- <-. }
    eapply conn_inv_step; [exact Hi|done..| | |done|done].
    + cbn [c_phase]. by rewrite !app_nil_r, map_app, <- !app_assoc.
    + cbn [c_out w_out]. destruct (decide (activated es)); by rewrite app_nil_r.
  - (* the end of the socket *)
    assert (rd = true) as -> by (by destruct rd, wt).
    assert (Ha : activated (es ++ [CReadEnd])) by (apply activated_snoc; by left).
    assert (c2 = set_cphase (CBridging false wt) (mkConn (c_channel c0) (c_id c0) (c_local c0) (CBridging true wt)
                   (mkWriter (concat (writes es)) None) true) /\ w2 = w1) as [-> ->]
      by (destruct wt; injection Est; done).
    refine (conn_quiet_inv wr _ _ _ (mkConn _ _ _ (CBridging true wt) _ _) _ _ (CBridging false wt) Hi _ _ _ _ _);
        done || by left.
  - destruct rd, wt; try done. by eapply (conn_free_inv wr _ _ _ (mkConn _ _ _ (CBridging _ _) _ _)).
Qed.

Lemma crun_inv wr c0 w es c w' :
  u32 (c_channel c0) -> spec_ok (c_local c0) -> reads_ok es -> link_open (sw_session_id wr) (link w) ->
  c_phase c0 = COpening -> c_out c0 = mkWriter [] None -> c_entry c0 = true ->
  crun wr c0 w es c w' -> conn_inv c0 w es (sw_session_id wr) c w'.
Proof.
  intros Hk Hs Hr Ho Hp Hout Hen Hrun. revert Hr. induction Hrun as [|es c1 w1 e c2 w2 _ IH Hena Est]; intros Hr.
  - unfold conn_inv. rewrite Hp. by split_and!.
  - apply Forall_app in Hr as [Hr [He _]%Forall_cons].
    by eapply conn_step_inv; [..|apply IH| |].
Qed.
End TaskFacts.

(** The task of a connection accepted for an rport.  In every run on an open
    connection, the messages it sends are: the request to the host, one data
    message per read of the accepted socket, in order and tagged with the
    connection's identifier, and, once it has ended, a single message that frees
    the context.  Nothing is read before the host confirmed.  The socket gets what
    the host sent since the confirmation, in order.  An ended task has left the
    map of connections and takes no further step; a task that has not ended can
    take one. *)
Theorem rport_connection_bridges {HA : Aead} {HL : AeadLaws HA} {OS : Os} wr ch id local w es c w' :
  u32 ch -> spec_ok local -> reads_ok es -> link_open (sw_session_id wr) (link w) ->
  crun wr (new_conn ch id local) w es c w' ->
  puts (sw_session_id wr)
    ((match c_phase c with COpening => [] | _ => [active_slave (new_conn ch id local)] end) ++
     map (forward_data ch id) (reads es) ++
     (match c_phase c with CClosed => [forward_free ch id] | _ => [] end)) w w' /\
  (reads es <> [] -> activated es) /\
  w_out (c_out c) = concat (writes es) /\
  (c_phase c = CClosed -> c_entry c = false /\ forall e, conn_enabled e c = false) /\
  (c_phase c <> CClosed -> exists e, conn_enabled e c = true).
Proof.
  intros Hk Hs Hr Ho Hrun. destruct (crun_inv _ (new_conn ch id local) _ _ _ _ Hk Hs Hr Ho eq_refl eq_refl eq_refl Hrun)
    as (_ & _ & _ & _ & Hp & Hout & Hen & Hph).
  split_and!; [exact Hp| |by rewrite Hout| |].
  - destruct (c_phase c); [by subst|tauto|done|tauto].
  - intros E. rewrite E in Hen. split; [done|]. intros e. unfold conn_enabled. by rewrite E.
  - intros Hn. unfold conn_enabled. destruct (c_phase c) as [| |[] []|]; try done;
      [by exists CRun|by exists CTimeout|by exists CReadEnd|by exists CReadEnd|by exists CQueueClosed|by exists CJoined].
Qed.

Section ConnWitness.
#[local] Existing Instance ToyAead.aead.
#[local] Existing Instance ToyAead.laws.
#[local] Existing Instance CalmOs.os.

Definition sample_events : list CEvent :=
  [CRun; CMsg (CData [9]); CMsg CActiveMaster; CRead [1; 2]; CMsg (CData [7]); CRead [3];
   CMsg (CData [8]); CReadEnd; CQueueClosed; CJoined].
Lemma rport_connection_bridges_witness : exists c w',
  puts 5 [active_slave (new_conn 3 77 (lit "tcp:80")); forward_data 3 77 [1; 2]; forward_data 3 77 [3];
          forward_free 3 77] start_world w' /\ w_out (c_out c) = [7; 8].
Proof.
  destruct (exec conn_enabled (conn_step (mkSharedWriter 5)) sample_events
              (new_conn 3 77 (lit "tcp:80")) start_world) as [[c w']|] eqn:E; [|by vm_compute in E].
  pose proof (exec_run _ _ _ _ _ _ _ E) as Hrun.
  assert (Hph : c_phase c = CClosed) by (vm_compute in E; by injection E as <- _).
  destruct (rport_connection_bridges (mkSharedWriter 5) 3 77 (lit "tcp:80") start_world sample_events c w')
    as (Hp & _ & Hw & _).
  - ulia.
  - split; [apply lit_ok|vm_compute; discriminate].
  - repeat constructor; ulia.
  - split; [done|]. by vm_compute.
  - exact Hrun.
  - rewrite Hph in Hp. exists c, w'. split; [exact Hp|]. by rewrite Hw.
Defined.
End ConnWitness.

(** ** The listener task *)

Section ListenerFacts.
Context {HA : Aead} {HL : AeadLaws HA} {OS : Os}.

Definition check_request (l : Listener) : TaskMessage :=
  mkTaskMessage (l_channel l) ForwardCheck (spec_payload (l_id l) (l_local l)).
Definition success_notice (l : Listener) : TaskMessage :=
  mkTaskMessage (l_channel l) ForwardSuccess (lit "0|" ++ l_remote l ++ lit " " ++ l_local l).
(** The host accepted the check of listener [id]. *)
Definition confirmed (id : Z) (es : list LEvent) : bool :=
  existsb (fun e => match e with LMsg (CheckResult i true) => i =? id | _ => false end) es.
Definition accepted (es : list LEvent) : bool :=
  existsb (fun e => match e with LAccept _ => true | _ => false end) es.
(** What the host sent to connection [id] since it was last accepted. *)
Definition addressed_step (id : Z) (acc : list RportConnMsg) (e : LEvent) : list RportConnMsg :=
  match e with
  | LAccept i => if i =? id then [] else acc
  | LMsg (ActiveMaster i) => if i =? id then acc ++ [CActiveMaster] else acc
  | LMsg (FwdData i d) => if i =? id then acc ++ [CData d] else acc
  | _ => acc
  end.
Definition addressed (id : Z) (es : list LEvent) : list RportConnMsg :=
  fold_left (addressed_step id) es [].
Lemma addressed_snoc id es e : addressed id (es ++ [e]) = addressed_step id (addressed id es) e.
Proof. unfold addressed. by rewrite fold_left_app. Qed.

(** Distinct connections have distinct queues, and each holds what was
    addressed to its connection. *)
Definition delivered (es : list LEvent) (l : Listener) : Prop :=
  (forall id q, l_conns l !! id = Some q -> l_queues l !! q = Some (addressed id es)) /\
  (forall i j q, l_conns l !! i = Some q -> l_conns l !! j = Some q -> i = j).

Lemma send_conn_conns id m l : l_conns (send_conn id m l) = l_conns l.
Proof. unfold send_conn. by destruct (l_conns l !! id). Qed.
Lemma send_conn_phase id m l : l_phase (send_conn id m l) = l_phase l.
Proof. unfold send_conn. by destruct (l_conns l !! id). Qed.
Lemma send_conn_static id m l :
  l_channel (send_conn id m l) = l_channel l /\ l_remote (send_conn id m l) = l_remote l /\
  l_local (send_conn id m l) = l_local l /\ l_id (send_conn id m l) = l_id l.
Proof. unfold send_conn. by destruct (l_conns l !! id). Qed.
Lemma send_conn_queue id m l i q :
  (forall i j q, l_conns l !! i = Some q -> l_conns l !! j = Some q -> i = j) ->
  l_conns l !! i = Some q ->
  l_queues (send_conn id m l) !! q =
  (fun ms => if i =? id then ms ++ [m] else ms) <$> l_queues l !! q.
Proof.
  intros Hinj Hi. unfold send_conn. destruct (l_conns l !! id) as [q'|] eqn:E.
  - cbn [l_queues set_queues]. destruct (decide (q = q')) as [<-|Hn].
    + rewrite lookup_alter_eq, (Hinj _ _ _ Hi E), Z.eqb_refl. done.
    + rewrite lookup_alter_ne by done. destruct (Z.eqb_spec i id) as [->|]; [congruence|].
      by destruct (l_queues l !! q).
  - destruct (Z.eqb_spec i id) as [->|]; [congruence|]. by destruct (l_queues l !! q).
Qed.

(** The dispatcher keeps the delivery invariant. *)
Lemma delivered_send es l id m e :
  (forall i acc, addressed_step i acc e = if id =? i then acc ++ [m] else acc) ->
  delivered es l -> delivered (es ++ [e]) (send_conn id m l).
Proof.
  intros He [Hq Hinj]. split; [|by rewrite send_conn_conns].
  intros i q Hi. rewrite send_conn_conns in Hi. rewrite (send_conn_queue _ _ _ _ _ Hinj Hi), (Hq _ _ Hi).
  simpl. by rewrite addressed_snoc, He, Z.eqb_sym.
Qed.
Lemma delivered_quiet es l e :
  (forall i acc, addressed_step i acc e = acc) -> delivered es l -> delivered (es ++ [e]) l.
Proof. intros He [Hq Hinj]. split; [|done]. intros i q Hi. rewrite addressed_snoc, He. by apply Hq. Qed.
Lemma delivered_delete es l id : delivered es l -> delivered es (set_conns (delete id (l_conns l)) l).
Proof.
  intros [Hq Hinj]. split; simpl.
  - intros i q [_ Hi]%lookup_delete_Some. by apply Hq.
  - intros i j q [_ Hi]%lookup_delete_Some [_ Hj]%lookup_delete_Some. eauto.
Qed.
Lemma delivered_accept es l id : delivered es l -> delivered (es ++ [LAccept id]) (listener_accept id l).
Proof.
  intros [Hq Hinj]. unfold listener_accept. set (q0 := fresh (dom (l_queues l))).
  assert (Hf : l_queues l !! q0 = None) by (apply not_elem_of_dom, is_fresh).
  split; cbn [set_conns set_queues l_conns l_queues].
  - intros i q Hi. rewrite addressed_snoc. simpl. destruct (Z.eqb_spec id i) as [->|Hn].
    + rewrite lookup_insert_eq in Hi. injection Hi as <-. by rewrite lookup_insert_eq.
    + rewrite lookup_insert_ne in Hi by done. rewrite lookup_insert_ne; [by apply Hq|].
      intros <-. apply Hq in Hi. congruence.
  - intros i j q Hi Hj. apply lookup_insert_Some in Hi as [[<- <-]|[Hn Hi]];
      apply lookup_insert_Some in Hj as [[<- Ej]|[Hn' Hj]]; [done| | |by eapply Hinj].
    + apply Hq in Hj. congruence.
    + subst q. apply Hq in Hi. congruence.
Qed.
Lemma delivered_empty es l : l_conns l = ∅ -> delivered es l.
Proof. intros E. split; rewrite E; intros *; rewrite lookup_empty; done. Qed.
Lemma delivered_phase es l p : delivered es l -> delivered es (set_phase p l).
Proof. done. Qed.

(** The drain reaches every registered connection once. *)
Lemma drain_fold ids l :
  NoDup ids -> (forall i j q, l_conns l !! i = Some q -> l_conns l !! j = Some q -> i = j) ->
  let l' := foldr (fun id => send_conn id CShutdown) l ids in
  l_conns l' = l_conns l /\
  forall i q, l_conns l !! i = Some q ->
  l_queues l' !! q = (fun ms => if decide (i ∈ ids) then ms ++ [CShutdown] else ms) <$> l_queues l !! q.
Proof.
  intros Hnd Hinj. induction ids as [|id ids IH]; cbn [foldr].
  - split; [done|]. intros i q _. by destruct (l_queues l !! q).
  - apply NoDup_cons in Hnd as [Hn Hnd]. destruct (IH Hnd) as [Ec Eq].
    rewrite send_conn_conns. split; [done|]. intros i q Hi.
    rewrite (send_conn_queue _ _ _ i) by (by rewrite Ec). rewrite (Eq _ _ Hi).
    destruct (l_queues l !! q) as [ms|]; [|done]. cbn [fmap option_fmap option_map]. f_equal.
    destruct (Z.eqb_spec i id) as [->|Hne].
    + rewrite decide_False by done. by rewrite decide_True by set_solver.
    + destruct (decide (i ∈ ids)), (decide (i ∈ id :: ids)); try done; set_solver.
Qed.
Lemma drain_queues es l id q :
  delivered es l -> l_conns l !! id = Some q ->
  l_queues (foldr (fun id => send_conn id CShutdown) l (map fst (map_to_list (l_conns l)))) !! q =
  Some (addressed id es ++ [CShutdown]).
Proof.
  intros [Hq Hinj] Hi.
  destruct (drain_fold (map fst (map_to_list (l_conns l))) l) as [_ E]; [apply NoDup_fst_map_to_list|done|].
  rewrite (E _ _ Hi), (Hq _ _ Hi). cbn [fmap option_fmap option_map]. rewrite decide_True; [done|].
  apply list_elem_of_fmap. exists (id, q). split; [done|]. by apply elem_of_map_to_list.
Qed.

Definition same_task (l l0 : Listener) : Prop :=
  l_channel l = l_channel l0 /\ l_remote l = l_remote l0 /\ l_local l = l_local l0 /\ l_id l = l_id l0.
Lemma drain_same ids l l0 :
  same_task l l0 -> same_task (foldr (fun id => send_conn id CShutdown) l ids) l0.
Proof.
  intros H. induction ids as [|id ids IH]; [done|]. cbn [foldr]. unfold same_task.
  destruct (send_conn_static id CShutdown (foldr (fun id => send_conn id CShutdown) l ids)) as (-> & -> & -> & ->).
  exact IH.
Qed.

Definition listener_msgs (l0 : Listener) (p : LPhase) (es : list LEvent) : list TaskMessage :=
  (match p with LStarting => [] | _ => [check_request l0] end) ++
  (if confirmed (l_id l0) es then [success_notice l0] else []).
Definition listener_inv (l0 : Listener) (w : World) (sid : Z) (es : list LEvent) (l : Listener) (w' : World) : Prop :=
  same_task l l0 /\ puts sid (listener_msgs l0 (l_phase l) es) w w' /\ delivered es l /\
  (accepted es = true -> confirmed (l_id l0) es = true) /\
  match l_phase l with
  | LStarting => es = [] /\ l_conns l = ∅
  | LChecking => confirmed (l_id l0) es = false /\ l_conns l = ∅
  | LAccepting _ => confirmed (l_id l0) es = true
  | LEnded => l_conns l = ∅ /\ rport_listeners (fwd w') !! l_channel l0 = None
  end.

Lemma confirmed_snoc id es e :
  confirmed id (es ++ [e]) = (confirmed id es || confirmed id [e])%bool.
Proof. apply existsb_app. Qed.
Lemma accepted_snoc es e : accepted (es ++ [e]) = (accepted es || accepted [e])%bool.
Proof. apply existsb_app. Qed.

(** A step that puts [ms] on the connection. *)
Lemma listener_inv_step l0 w sid es l w1 e l2 w2 ms :
  listener_inv l0 w sid es l w1 -> same_task l2 l -> puts sid ms w1 w2 ->
  listener_msgs l0 (l_phase l) es ++ ms = listener_msgs l0 (l_phase l2) (es ++ [e]) ->
  delivered (es ++ [e]) l2 ->
  (accepted [e] = true -> confirmed (l_id l0) es = true) ->
  match l_phase l2 with
  | LStarting => False
  | LChecking => confirmed (l_id l0) (es ++ [e]) = false /\ l_conns l2 = ∅
  | LAccepting _ => confirmed (l_id l0) (es ++ [e]) = true
  | LEnded => l_conns l2 = ∅ /\ rport_listeners (fwd w2) !! l_channel l0 = None
  end ->
  listener_inv l0 w sid (es ++ [e]) l2 w2.
Proof.
  intros (Hst & Hp & Hd & Ha & Hph) (S1 & S2 & S3 & S4) Hms Em Hd' Ha' Hph'. unfold same_task in *.
  unfold listener_inv, same_task. rewrite S1, S2, S3, S4, <- Em. split_and!; try tauto.
  - by eapply puts_app.
  - rewrite accepted_snoc, confirmed_snoc. intros [H|H]%orb_prop.
    + by rewrite (Ha H).
    + by rewrite (Ha' H).
  - by destruct (l_phase l2).
Qed.

(** Ending: from any started phase, with no connection left. *)
Lemma listener_end_inv l0 w sid es l w1 e l2 l3 w2 :
  listener_inv l0 w sid es l w1 -> same_task l2 l -> l_conns l2 = ∅ ->
  l_phase l <> LStarting -> accepted [e] = false -> confirmed (l_id l0) [e] = false ->
  listener_end l2 w1 = (Ok l3, w2) -> listener_inv l0 w sid (es ++ [e]) l3 w2.
Proof.
  intros Hi Hst Hc Hp He Hcf Est. injection Est as <- <-.
  pose proof Hi as ((S1 & _) & (_ & Hopen) & _). destruct Hst as (T1 & T2 & T3 & T4).
  eapply (listener_inv_step _ _ _ _ _ _ _ _ _ []); [exact Hi|done| | | | |].
  - by split.
  - unfold listener_msgs. rewrite app_nil_r, confirmed_snoc, Hcf, orb_false_r. by destruct (l_phase l).
  - by apply delivered_empty.
  - by rewrite He.
  - split; [done|]. simpl. rewrite T1, S1. apply lookup_delete_eq.
Qed.

(** A step that puts nothing on the connection and confirms nothing. *)
Lemma listener_quiet_inv l0 w sid es l w1 e l2 :
  listener_inv l0 w sid es l w1 -> same_task l2 l -> delivered (es ++ [e]) l2 ->
  (l_phase l = LStarting <-> l_phase l2 = LStarting) ->
  (confirmed (l_id l0) [e] = true -> confirmed (l_id l0) es = true) ->
  (accepted [e] = true -> confirmed (l_id l0) es = true) ->
  match l_phase l2 with
  | LStarting => False
  | LChecking => confirmed (l_id l0) es = false /\ l_conns l2 = ∅
  | LAccepting _ => confirmed (l_id l0) es = true
  | LEnded => l_conns l2 = ∅ /\ rport_listeners (fwd w1) !! l_channel l0 = None
  end ->
  listener_inv l0 w sid (es ++ [e]) l2 w1.
Proof.
  intros Hi Hst Hd Hs Hcf Ha Hph. pose proof Hi as (_ & (_ & Hopen) & _).
  assert (Ec : confirmed (l_id l0) (es ++ [e]) = confirmed (l_id l0) es).
  { rewrite confirmed_snoc. destruct (confirmed _ es), (confirmed _ [e]); try done. by discriminate Hcf. }
  eapply (listener_inv_step _ _ _ _ _ _ _ _ _ []); try done.
  - unfold listener_msgs. rewrite app_nil_r, Ec. destruct (l_phase l), (l_phase l2); try done; destruct Hs as [H1 H2];
      by (discriminate H1 || discriminate H2).
  - by rewrite Ec.
Qed.

Lemma listener_check_inv wr l0 w es l w1 m l2 w2 :
  u32 (l_channel l0) -> spec_ok (l_remote l0) -> spec_ok (l_local l0) ->
  listener_inv l0 w (sw_session_id wr) es l w1 -> l_phase l = LChecking ->
  listener_check wr m l w1 = (Ok l2, w2) ->
  listener_inv l0 w (sw_session_id wr) (es ++ [LMsg m]) l2 w2.
Proof.
  intros Hk Hr Hl Hi Hp Est. pose proof Hi as ((S1 & S2 & S3 & S4) & (_ & Hopen) & Hd & _ & Hph).
  rewrite Hp in Hph. destruct Hph as [Hcf Hc].
  assert (Hquiet : confirmed (l_id l0) [LMsg m] = false ->
    listener_inv l0 w (sw_session_id wr) (es ++ [LMsg m]) l w1).
  { intros Hm. apply listener_quiet_inv with (l := l); try done; [by apply delivered_empty|by rewrite Hm|by rewrite Hp]. }
  destruct m as [id ok| | | |]; simpl in Est; try (injection Est as <- <-; by apply Hquiet).
  - destruct (Z.eqb_spec id (l_id l)) as [->|Hn].
    + destruct ok.
      * destruct (try_send wr (success_notice l0) w1 Hopen) as (w' & E & Hp' & _).
        { destruct Hr, Hl. apply small_sendable; [done| |].
          - rewrite !bytes_ok_app. split_and!; try done; apply lit_ok.
          - rewrite !len_app. change (len (lit "0|")) with 2. change (len (lit " ")) with 1. lia. }
        unfold success_notice in E. rewrite <- S1, <- S2, <- S3 in E.
        rewrite (M_bind_Ok _ _ _ _ _ E) in Est. injection Est as <- <-.
        assert (Ec : confirmed (l_id l0) (es ++ [LMsg (CheckResult (l_id l) true)]) = true).
        { rewrite confirmed_snoc, Hcf, S4. simpl. by rewrite Z.eqb_refl. }
        eapply listener_inv_step; [exact Hi|done|exact Hp'| | |done|done].
        -- unfold listener_msgs. rewrite Ec, Hcf, Hp. done.
        -- by apply delivered_empty.
      * apply (listener_end_inv _ _ _ _ l w1 _ l); try done. by rewrite Hp.
    + injection Est as <- <-. apply Hquiet. simpl. rewrite <- S4.
      destruct ok; [|done]. by rewrite (proj2 (Z.eqb_neq _ _) Hn).
  - apply (listener_end_inv _ _ _ _ l w1 _ l); try done. by rewrite Hp.
Qed.

Lemma listener_dispatch_inv l0 w sid es l w1 m :
  listener_inv l0 w sid es l w1 -> l_phase l = LAccepting true ->
  listener_inv l0 w sid (es ++ [LMsg m]) (listener_dispatch m l) w1.
Proof.
  intros Hi Hp. pose proof Hi as (_ & _ & Hd & _ & Hph). rewrite Hp in Hph.
  assert (Hst : same_task (listener_dispatch m l) l).
  { destruct m; try done; apply send_conn_static. }
  assert (Hp2 : exists b, l_phase (listener_dispatch m l) = LAccepting b).
  { destruct m; simpl; rewrite ?send_conn_phase; eauto. }
  destruct Hp2 as [b Hp2]. apply listener_quiet_inv with (l := l); try done.
  - destruct m; simpl;
      [by apply delivered_quiet|by apply delivered_send|by apply delivered_send
      |by apply delivered_quiet, delivered_delete|by apply delivered_quiet].
  - by rewrite Hp, Hp2.
  - by rewrite Hp2.
Qed.

Lemma listener_step_inv wr l0 w es l w1 e l2 w2 :
  u32 (l_channel l0) -> spec_ok (l_remote l0) -> spec_ok (l_local l0) ->
  listener_inv l0 w (sw_session_id wr) es l w1 -> listener_enabled e l = true ->
  listener_step wr e l w1 = (Ok l2, w2) ->
  listener_inv l0 w (sw_session_id wr) (es ++ [e]) l2 w2.
Proof.
  intros Hk Hr Hl Hi Hena Est. pose proof Hi as ((S1 & S2 & S3 & S4) & (_ & Hopen) & Hd & _ & Hph).
  unfold listener_step, listener_enabled in *.
  assert (Hdrain : forall l3 w3, l_phase l <> LStarting -> accepted [e] = false -> confirmed (l_id l0) [e] = false ->
    listener_drain l w1 = (Ok l3, w3) -> listener_inv l0 w (sw_session_id wr) (es ++ [e]) l3 w3).
  { intros l3 w3 H1 H2 H3. apply listener_end_inv with (l := l); try done. by apply (drain_same _ l l). }
  destruct (l_phase l) as [| |disp|] eqn:Hp, e as [|m| | | | |id]; try done;
    try (destruct disp; done).
  - destruct Hph as [-> Hc]. destruct (try_send wr (check_request l0) w1 Hopen) as (w' & E & Hp' & _).
    { by apply spec_sendable. }
    unfold check_request in E. rewrite <- S1, <- S3, <- S4 in E.
    rewrite (M_bind_Ok _ _ _ _ _ E) in Est. cbv beta iota in Est. injection Est as <- <-.
    eapply listener_inv_step; [exact Hi|done|exact Hp'| | |done|done].
    + unfold listener_msgs. rewrite Hp. done.
    + by apply delivered_empty.
  - by eapply listener_check_inv.
  - apply (listener_end_inv _ _ _ _ l w1 _ l); try done; [tauto|by rewrite Hp].
  - destruct disp; [|done]. injection Est as <- <-. by apply listener_dispatch_inv.
  - destruct disp; [|done]. injection Est as <- <-.
    apply listener_quiet_inv with (l := l); try done; [by apply delivered_quiet|by rewrite Hp].
  - assert (l2 = listener_accept conn_id l /\ w2 = w1) as [-> ->] by (destruct disp; by injection Est as <- <-).
    apply listener_quiet_inv with (l := l); try done; [by apply delivered_accept|].
    change (l_phase (listener_accept conn_id l)) with (l_phase l). by rewrite Hp.
  - apply Hdrain; try done. by destruct disp.
  - apply Hdrain; try done. by destruct disp.
  - assert (l2 = set_conns (delete id (l_conns l)) l /\ w2 = w1) as [-> ->] by (destruct disp; by injection Est as <- <-).
    apply listener_quiet_inv with (l := l); try done; [by apply delivered_quiet, delivered_delete|].
    simpl. by rewrite Hp.
  - injection Est as <- <-.
    apply listener_quiet_inv with (l := l); try done; [by apply delivered_quiet, delivered_delete|].
    simpl. rewrite Hp. destruct Hph as [-> ?]. by rewrite delete_empty.
Qed.

Lemma lrun_inv wr ch remote local id w es l w' :
  u32 ch -> spec_ok remote -> spec_ok local -> link_open (sw_session_id wr) (link w) ->
  lrun wr (new_listener ch remote local id) w es l w' ->
  listener_inv (new_listener ch remote local id) w (sw_session_id wr) es l w'.
Proof.
  intros Hk Hr Hl Ho Hrun. induction Hrun as [|es l w1 e l2 w2 _ IH Hena Est].
  - by split_and!.
  - by eapply listener_step_inv.
Qed.
End ListenerFacts.

(** C29: the listener task of an rport.  In every run on an open connection it
    sends the check request first, and the success notice exactly when the host
    confirmed the check of this listener; no connection is accepted before.  The
    queue of every registered connection holds what the host addressed to it
    since it was accepted, in order and nothing else.  The step that ends the
    task leaves the channel without a registered listener and no connection
    registered, each of them having been told to shut down last. *)
Theorem rport_listener_protocol {HA : Aead} {HL : AeadLaws HA} {OS : Os} wr ch remote local id w es l w' :
  u32 ch -> spec_ok remote -> spec_ok local -> link_open (sw_session_id wr) (link w) ->
  lrun wr (new_listener ch remote local id) w es l w' ->
  puts (sw_session_id wr)
    ((match l_phase l with LStarting => [] | _ => [check_request (new_listener ch remote local id)] end) ++
     (if confirmed id es then [success_notice (new_listener ch remote local id)] else [])) w w' /\
  (accepted es = true -> confirmed id es = true) /\
  (forall c q, l_conns l !! c = Some q -> l_queues l !! q = Some (addressed c es)) /\
  (l_phase l = LEnded -> l_conns l = ∅ /\ rport_listeners (fwd w') !! ch = None) /\
  (forall e l2 w2, l_phase l <> LEnded -> listener_enabled e l = true ->
     listener_step wr e l w' = (Ok l2, w2) -> l_phase l2 = LEnded ->
     forall c q, l_conns l !! c = Some q -> l_queues l2 !! q = Some (addressed c es ++ [CShutdown])).
Proof.
  intros Hk Hr Hl Ho Hrun. pose proof (lrun_inv _ _ _ _ _ _ _ _ _ Hk Hr Hl Ho Hrun) as (_ & Hp & Hd & Ha & Hph).
  split_and!; [exact Hp|exact Ha|apply Hd|by intros E; rewrite E in Hph|].
  intros e l2 w2 Hne Hena Est Hend c q Hc. unfold listener_step, listener_enabled in *.
  destruct (l_phase l) as [| |disp|] eqn:El; [destruct Hph as [_ E]; by rewrite E, lookup_empty in Hc
    |destruct Hph as [_ E]; by rewrite E, lookup_empty in Hc| |done].
  assert (Est' : match e with LAcceptErr | LDispatcherEnded => listener_drain l w' = (Ok l2, w2) | _ => False end).
  { destruct disp, e as [|m| | | | |i]; try done; injection Est as <- <-; revert Hend; simpl; rewrite ?El; try done.
    destruct m; simpl; rewrite ?send_conn_phase; cbn [set_conns l_phase]; by rewrite ?El. }
  destruct e; try done; injection Est' as <- <-; by apply drain_queues.
Qed.

Section ListenerWitness.
#[local] Existing Instance ToyAead.aead.
#[local] Existing Instance ToyAead.laws.
#[local] Existing Instance CalmOs.os.

Definition sample_listener : Listener := new_listener 3 (lit "tcp:1") (lit "tcp:2") 9.
Definition sample_levents : list LEvent :=
  [LRun; LMsg (CheckResult 8 true); LMsg (CheckResult 9 true); LAccept 40; LAccept 41;
   LMsg (ActiveMaster 40); LMsg (FwdData 41 [1]); LMsg (FwdData 40 [2])].
Lemma rport_listener_protocol_witness : exists l w',
  puts 5 [check_request sample_listener; success_notice sample_listener] start_world w' /\
  exists q, l_conns l !! 40 = Some q /\ l_queues l !! q = Some [CActiveMaster; CData [2]].
Proof.
  destruct (exec listener_enabled (listener_step (mkSharedWriter 5)) sample_levents
              sample_listener start_world) as [[l w']|] eqn:E; [|by vm_compute in E].
  pose proof (exec_run _ _ _ _ _ _ _ E) as Hrun.
  destruct (rport_listener_protocol (mkSharedWriter 5) 3 (lit "tcp:1") (lit "tcp:2") 9 start_world sample_levents l w')
    as (Hp & _ & Hq & _).
  - ulia.
  - split; [apply lit_ok|vm_compute; discriminate].
  - split; [apply lit_ok|vm_compute; discriminate].
  - split; [done|]. by vm_compute.
  - exact Hrun.
  - exists l, w'. split.
    + assert (l_phase l = LAccepting true) as Eph by (vm_compute in E; by injection E as <- _).
      rewrite Eph in Hp. exact Hp.
    + assert (is_Some (l_conns l !! 40)) as [q Eq].
      { vm_compute in E. injection E as <- _. vm_compute. by eexists. }
      exists q. split; [done|]. by rewrite (Hq _ _ Eq).
Defined.
End ListenerWitness.

(** ** The forward state *)

Section StateFacts.
Context {HA : Aead} {OS : Os}.

(** Every sender has a queue of its own; every registered listener has a queue
    and a live task, which serves the channel it is registered for. *)
Definition served_by (s : ForwardState) (ch : Z) (q : positive) : Prop :=
  is_Some (rport_queues s !! q) /\ exists remote local, rport_tasks s !! q = Some (mkRportTask ch remote local false).
Definition fwd_wf (s : ForwardState) : Prop :=
  (forall id c, fport_senders s !! id = Some c -> is_Some (fport_queues s !! fc_tx c)) /\
  (forall i j c d, fport_senders s !! i = Some c -> fport_senders s !! j = Some d -> fc_tx c = fc_tx d -> i = j) /\
  (forall ch q, rport_listeners s !! ch = Some q -> served_by s ch q).

Lemma listener_inj s a b q :
  fwd_wf s -> rport_listeners s !! a = Some q -> rport_listeners s !! b = Some q -> a = b.
Proof.
  intros (_ & _ & H) Ha Hb. destruct (H _ _ Ha) as (_ & ? & ? & Ea), (H _ _ Hb) as (_ & ? & ? & Eb). congruence.
Qed.

Lemma push_rport_wf q m s : fwd_wf s -> fwd_wf (push_rport q m s).
Proof.
  intros (H1 & H2 & H3). split_and!; [exact H1|exact H2|]. intros ch q' Hq. destruct (H3 _ _ Hq) as [Hs Ht].
  split; [|exact Ht]. cbn [push_rport rport_queues]. destruct (decide (q = q')) as [->|].
  - rewrite lookup_alter_eq. by apply fmap_is_Some.
  - by rewrite lookup_alter_ne.
Qed.
Lemma push_fport_wf q d s : fwd_wf s -> fwd_wf (push_fport q d s).
Proof.
  intros (H1 & H2 & H3). split_and!; [|exact H2|exact H3]. intros id c Hc. apply H1 in Hc.
  cbn [push_fport fport_queues]. destruct (decide (q = fc_tx c)) as [->|].
  - rewrite lookup_alter_eq. by apply fmap_is_Some.
  - by rewrite lookup_alter_ne.
Qed.
Lemma add_fport_wf id ch s :
  fwd_wf s -> let q := fresh (dom (fport_queues s)) in
  fwd_wf (mkForwardState (<[id := mkFportConn ch q]> (fport_senders s)) (rport_listeners s)
            (<[q := []]> (fport_queues s)) (rport_queues s) (rport_tasks s)).
Proof.
  intros (H1 & H2 & H3) q. assert (Hq : fport_queues s !! q = None) by (apply not_elem_of_dom, is_fresh).
  split_and!; [| |exact H3]; cbn [fport_senders fport_queues].
  - intros i c [[<- <-]|[Hn Hc]]%lookup_insert_Some; cbn [fc_tx].
    + by rewrite lookup_insert_eq.
    + apply lookup_insert_is_Some'. right. by eapply H1.
  - intros i j c d [[<- <-]|[Hn Hc]]%lookup_insert_Some [[<- <-]|[Hn' Hd]]%lookup_insert_Some E; try done; cbn [fc_tx] in E.
    + apply H1 in Hd as [? Hd]. congruence.
    + apply H1 in Hc as [? Hc]. congruence.
    + by eapply H2.
Qed.
Lemma del_fport_wf (m : gmap Z FportConn) s :
  m ⊆ fport_senders s -> fwd_wf s -> fwd_wf (set_fport_senders m s).
Proof.
  intros Hm (H1 & H2 & H3). split_and!; [| |exact H3]; cbn [set_fport_senders fport_senders fport_queues].
  - intros i c Hc. eapply H1, lookup_weaken; eauto.
  - intros i j c d Hc Hd. eapply H2; eapply lookup_weaken; eauto.
Qed.
Lemma add_rport_task_wf ch remote local s :
  fwd_wf s -> let q := fresh (dom (rport_queues s)) in
  fwd_wf (mkForwardState (fport_senders s) (rport_listeners s) (fport_queues s)
            (<[q := []]> (rport_queues s)) (<[q := mkRportTask ch remote local false]> (rport_tasks s))).
Proof.
  intros (H1 & H2 & H3) q. assert (Hq : rport_queues s !! q = None) by (apply not_elem_of_dom, is_fresh).
  split_and!; [exact H1|exact H2|]. cbn [rport_listeners rport_queues rport_tasks].
  intros c q' Hc. apply H3 in Hc as [[ms Hs] Ht]. unfold served_by. cbn. rewrite !lookup_insert_ne by congruence. eauto.
Qed.
Lemma register_wf ch q s :
  fwd_wf s -> served_by s ch q -> fwd_wf (set_rport_listeners (<[ch := q]> (rport_listeners s)) s).
Proof.
  intros (H1 & H2 & H3) Hq. split_and!; [exact H1|exact H2|]. cbn [set_rport_listeners rport_listeners].
  intros c q' [[<- <-]|[_ Hc]]%lookup_insert_Some; [exact Hq|by apply H3].
Qed.
Lemma del_rport_wf ch s :
  fwd_wf s -> fwd_wf (set_rport_listeners (delete ch (rport_listeners s)) s).
Proof.
  intros (H1 & H2 & H3). split_and!; [exact H1|exact H2|]. simpl. intros c q [_ Hc]%lookup_delete_Some. by apply H3.
Qed.
Lemma abort_wf q s :
  (forall ch, rport_listeners s !! ch <> Some q) -> fwd_wf s -> fwd_wf (abort_task q s).
Proof.
  intros Hn (H1 & H2 & H3). split_and!; [exact H1|exact H2|]. intros c q' Hc. destruct (H3 _ _ Hc) as [Hs Ht].
  split; [exact Hs|]. cbn [abort_task rport_tasks rport_listeners] in *. rewrite lookup_alter_ne; [done|].
  intros <-. by eapply Hn.
Qed.

(** What a handler leaves of the forward state, whatever it returns. *)
Definition keeps_wf {A} (m : M World A) : Prop := forall w, fwd_wf (fwd w) -> fwd_wf (fwd (m w).2).
Lemma keeps_bind {A B} (m : M World A) (f : A -> M World B) :
  keeps_wf m -> (forall a, keeps_wf (f a)) -> keeps_wf (m ≫= f).
Proof.
  intros Hm Hf w Hw. rewrite M_bind_eq. specialize (Hm w Hw).
  destruct (m w) as [[a| |] w1]; [by apply Hf|done|done].
Qed.
Lemma keeps_mret {A} (a : A) : keeps_wf (mret a).
Proof. by intros w. Qed.
Lemma keeps_lift {A} (r : Result A) : keeps_wf (lift r).
Proof. by intros w. Qed.
Lemma keeps_try {A} (m : M World A) : keeps_wf m -> keeps_wf (try_ m).
Proof. intros Hm w Hw. specialize (Hm w Hw). unfold try_. by destruct (m w) as [[| |] ?]. Qed.
Lemma keeps_send wr m : keeps_wf (send_shared wr m).
Proof.
  intros w Hw. unfold send_shared, on_link, zoom. by destruct (DaemonTcp.send_message _ _ _).
Qed.
Lemma keeps_echo ch wr m lv : keeps_wf (echo_client ch wr m lv).
Proof. apply keeps_send. Qed.
Lemma keeps_on_fwd f : (forall s, fwd_wf s -> fwd_wf (f s)) -> keeps_wf (on_fwd f).
Proof. intros Hf w Hw. by apply Hf. Qed.
End StateFacts.

Create HintDb fwd.
#[export] Hint Resolve keeps_mret keeps_lift keeps_try keeps_send keeps_echo keeps_on_fwd
  push_rport_wf push_fport_wf add_fport_wf del_rport_wf : fwd.

Section StateInvariant.
Context {HA : Aead} {OS : Os}.

(** The task that was spawned serves the channel and has a queue. *)
Lemma rport_init_spawn_wf msg wr w :
  fwd_wf (fwd w) -> let r := rport_init_spawn msg wr w in
  fwd_wf (fwd r.2) /\ forall q, r.1 = Ok (Some q) -> served_by (fwd r.2) (channel_id msg) q.
Proof.
  intros Hw. assert (Hecho : forall t, let r := (_ ← echo_client (channel_id msg) wr t MessageLevel.LFail; mret (@None positive)) w in
    fwd_wf (fwd r.2) /\ forall q, r.1 = Ok (Some q) -> served_by (fwd r.2) (channel_id msg) q).
  { intros t. cbv zeta. rewrite M_bind_eq. pose proof (keeps_echo (channel_id msg) wr t MessageLevel.LFail w Hw) as Hk.
    by destruct (echo_client _ _ _ _ w) as [[| |] w1]. }
  unfold rport_init_spawn. cbv zeta. case_match; [apply Hecho|]. rewrite M_bind_eq. cbn [lift]. destruct (index 0 _) as [remote| |]; [|done..].
  rewrite M_bind_eq. cbn [lift]. destruct (index 1 _) as [local| |]; [|done..].
  destruct (start_listener remote); [|apply Hecho|done]. rewrite M_bind_eq. cbn [spawn_rport_listener]. split.
  - by apply add_rport_task_wf.
  - intros q [= <-]. unfold served_by. cbn. rewrite !lookup_insert_eq. eauto.
Qed.
(** What a successful start spawned. *)
Lemma rport_init_spawn_some msg wr w q w' :
  rport_init_spawn msg wr w = (Ok (Some q), w') -> exists remote local,
  let s := fwd w in q = fresh (dom (rport_queues s)) /\
  w' = set_fwd (mkForwardState (fport_senders s) (rport_listeners s) (fport_queues s) (<[q := []]> (rport_queues s))
                  (<[q := mkRportTask (channel_id msg) remote local false]> (rport_tasks s))) w.
Proof.
  unfold rport_init_spawn. cbv zeta. case_match; rewrite M_bind_eq; [by destruct (echo_client _ _ _ _ w) as [[] ?]|].
  cbn [lift]. destruct (index 0 _) as [remote| |]; [|done..]. rewrite M_bind_eq. cbn [lift]. destruct (index 1 _) as [local| |]; [|done..].
  destruct (start_listener remote); [|rewrite M_bind_eq; by destruct (echo_client _ _ _ _ w) as [[] ?]|done].
  intros [= <- <-]. by exists remote, local.
Qed.
Lemma rport_init_spawn_rest msg wr w :
  match rport_init_spawn msg wr w with (Ok (Some _), _) => True | (_, w') => fwd w' = fwd w end.
Proof.
  assert (Hecho : forall t, match (_ ← echo_client (channel_id msg) wr t MessageLevel.LFail; mret (@None positive)) w with
    (Ok (Some _), _) => True | (_, w') => fwd w' = fwd w end).
  { intros t. rewrite M_bind_eq. unfold echo_client, send_shared, on_link, zoom. by destruct (DaemonTcp.send_message _ _ _) as [[] ?]. }
  unfold rport_init_spawn. cbv zeta. destruct (_ <? _)%nat; [apply Hecho|]. rewrite M_bind_eq. cbn [lift]. destruct (index 0 _) as [remote| |]; [|done..].
  rewrite M_bind_eq. cbn [lift]. destruct (index 1 _) as [local| |]; [|done..]. destruct (start_listener remote); [done|apply Hecho|done].
Qed.
Lemma handle_rport_init_wf msg wr : keeps_wf (handle_rport_init msg wr).
Proof.
  intros w Hw. unfold handle_rport_init. rewrite M_bind_eq. destruct (rport_init_spawn_wf msg wr w Hw) as [H1 H2].
  destruct (rport_init_spawn msg wr w) as [[[q|]| |] w1]; try done. by apply register_wf, H2.
Qed.
Lemma active_slave_wf msg wr : keeps_wf (handle_active_slave msg wr).
Proof.
  unfold handle_active_slave. destruct (_ <? _); [auto with fwd|].
  apply keeps_bind; [auto with fwd|]. intros id. apply keeps_bind; [auto with fwd|]. intros rest. cbv zeta.
  destruct (connect_remote _); (apply keeps_bind; [|by auto with fwd]); [|auto with fwd..].
  apply keeps_on_fwd. intros s Hs. by apply add_fport_wf.
Qed.
Lemma forward_data_wf msg : keeps_wf (handle_forward_data msg).
Proof.
  unfold handle_forward_data. destruct (_ <? _); [auto with fwd|]. do 2 (apply keeps_bind; [auto with fwd|intros]).
  apply keeps_bind; [by intros w|]. intros w.
  destruct (fport_senders (fwd w) !! _); auto with fwd.
Qed.
Lemma free_context_wf msg : keeps_wf (handle_free_context msg).
Proof.
  unfold handle_free_context. destruct (_ <? _); [auto with fwd|]. apply keeps_bind; [auto with fwd|]. intros id. apply keeps_on_fwd. intros s Hs. apply del_fport_wf; [apply delete_subseteq|done].
Qed.
#[local] Hint Resolve handle_rport_init_wf active_slave_wf forward_data_wf free_context_wf : fwd.
Lemma handle_forward_task_wf msg sid wr : keeps_wf (handle_forward_task msg sid wr).
Proof.
  unfold handle_forward_task. apply keeps_bind; [by intros w|]. intros w.
  destruct (match rport_listeners (fwd w) !! channel_id msg with Some q => _ | None => None end) as [[q r]|].
  { apply keeps_bind; [auto with fwd|]. intros [m|]; auto with fwd. }
  destruct (command msg); auto with fwd. destruct (_ <? _); [auto with fwd|].
  do 2 (apply keeps_bind; [auto with fwd|intros]). auto with fwd.
Qed.
Lemma handle_channel_close_wf ch : keeps_wf (handle_channel_close ch).
Proof.
  intros w Hw. unfold handle_channel_close.
  destruct (rport_listeners (fwd w) !! ch) as [q|] eqn:E; cbn [snd fwd set_fwd];
    (apply del_fport_wf; [apply map_filter_subseteq|]); [|done].
  apply abort_wf; [|by apply push_rport_wf, del_rport_wf].
  cbn [rport_listeners push_rport set_rport_listeners]. intros c [Hn Hc]%lookup_delete_Some.
  by rewrite (listener_inj _ _ _ _ Hw E Hc) in Hn.
Qed.
Lemma cleanup_wf ch : keeps_wf (cleanup_rport_listener ch).
Proof. apply keeps_on_fwd. eauto with fwd. Qed.

(** The ways the state changes: a message of a session, the close of a channel,
    the end of a listener task. *)
Inductive FwdOp := FMsg (m : TaskMessage) (session_id : Z) | FClose (channel_id : Z) | FCleanup (channel_id : Z).
Definition fwd_op (wr : SharedWriter) (o : FwdOp) (w : World) : World :=
  match o with
  | FMsg m sid => (handle_forward_task m sid wr w).2
  | FClose ch => (handle_channel_close ch w).2
  | FCleanup ch => (cleanup_rport_listener ch w).2
  end.
Definition fwd_ops (wr : SharedWriter) (os : list FwdOp) (w : World) : World := foldl (fun w o => fwd_op wr o w) w os.
Lemma fwd_ops_wf wr os w : fwd_wf (fwd w) -> fwd_wf (fwd (fwd_ops wr os w)).
Proof.
  revert w; induction os as [|o os IH]; intros w Hw; [done|]. apply IH.
  destruct o; [by apply handle_forward_task_wf|by apply handle_channel_close_wf|by apply cleanup_wf].
Qed.
Lemma empty_forward_wf : fwd_wf empty_forward.
Proof. split_and!; intros *; simpl; rewrite lookup_empty; done. Qed.

(** A data message reaches the queue of its own connection and no other. *)
Definition for_id (id : Z) (m : TaskMessage) : option bytes :=
  if (4 <=? len (payload m)) && (head_id (payload m) =? id) then Some (drop 4 (payload m)) else None.
Lemma forward_data_one m sid wr w :
  command m = ForwardData -> rport_listeners (fwd w) !! channel_id m = None ->
  exists w', handle_forward_task m sid wr w = (Ok tt, w') /\
  link w' = link w /\ fport_senders (fwd w') = fport_senders (fwd w) /\ rport_listeners (fwd w') = rport_listeners (fwd w) /\
  (fwd_wf (fwd w) -> forall id c, fport_senders (fwd w) !! id = Some c ->
    fport_queues (fwd w') !! fc_tx c = (fun q => q ++ option_list (for_id id m)) <$> fport_queues (fwd w) !! fc_tx c).
Proof.
  intros Hc Hl. unfold handle_forward_task. rewrite M_bind_eq. cbn [get]. cbv beta iota. rewrite Hl, Hc.
  unfold handle_forward_data, for_id.
  assert (Hid : forall o : option (list bytes), o = (fun q => q ++ option_list (@None bytes)) <$> o).
  { intros [q|]; simpl; by rewrite ?app_nil_r. }
  destruct (len (payload m) <? 4) eqn:E4; bool_cases.
  - exists w. split_and!; try done. intros _ id c _. rewrite (proj2 (Z.leb_gt _ _) E4). apply Hid.
  - rewrite (proj2 (Z.leb_le _ _) E4), id_of_ok, slice_from_ok, !M_bind_lift by done. cbn [andb]. rewrite M_bind_eq. cbn [get].
    destruct (fport_senders (fwd w) !! head_id (payload m)) as [conn|] eqn:Es.
    + eexists. split_and!; [reflexivity|done..|]. intros (_ & Hinj & _) id c Hi.
      cbn [set_fwd fwd push_fport fport_queues]. destruct (Z.eqb_spec (head_id (payload m)) id) as [<-|Hn].
      * replace c with conn by congruence. by rewrite lookup_alter_eq.
      * rewrite lookup_alter_ne; [apply Hid|]. intros E. by apply Hn, (Hinj _ _ _ _ Es Hi).
    + exists w. split_and!; try done. intros _ id c Hi.
      destruct (Z.eqb_spec (head_id (payload m)) id) as [<-|Hn]; [congruence|apply Hid].
Qed.
End StateInvariant.

Section Bridge.
Context {HA : Aead} {HL : AeadLaws HA} {OS : Os}.

Definition data_message (w : World) (m : TaskMessage) : Prop :=
  command m = ForwardData /\ rport_listeners (fwd w) !! channel_id m = None.
Lemma forward_data_all ms sid wr w id c old :
  fwd_wf (fwd w) -> Forall (data_message w) ms -> fport_senders (fwd w) !! id = Some c ->
  fport_queues (fwd w) !! fc_tx c = Some old ->
  let w' := fwd_ops wr (map (fun m => FMsg m sid) ms) w in
  fport_senders (fwd w') = fport_senders (fwd w) /\
  fport_queues (fwd w') !! fc_tx c = Some (old ++ omap (for_id id) ms).
Proof.
  revert w old; induction ms as [|m ms IH]; intros w old Hw Hms Hs Hq.
  - simpl. by rewrite app_nil_r.
  - apply Forall_cons in Hms as [[Hc Hl] Hms].
    destruct (forward_data_one m sid wr w Hc Hl) as (w1 & E & _ & Es & El & Hd).
    specialize (Hd Hw id c Hs). rewrite Hq in Hd. simpl in Hd.
    assert (Hw1 : fwd_wf (fwd w1)) by (pose proof (handle_forward_task_wf m sid wr w Hw) as H; by rewrite E in H).
    cbn [map fwd_ops foldl fwd_op]. rewrite E. cbn [snd].
    destruct (IH w1 (old ++ option_list (for_id id m)) Hw1) as [IH1 IH2]; [| |exact Hd|].
    + eapply Forall_impl; [exact Hms|]. intros x [H1 H2]. split; [done|]. by rewrite El.
    + by rewrite Es.
    + unfold fwd_ops in IH1, IH2. split; [by rewrite IH1|]. rewrite IH2, <- app_assoc. f_equal. f_equal.
      simpl. by destruct (for_id id m).
Qed.

Lemma host_to_remote_all q out :
  host_to_remote q (mkWriter out None) = (Ok tt, mkWriter (out ++ concat q) None).
Proof.
  revert out; induction q as [|d q IH]; intros out; simpl; [by rewrite app_nil_r|].
  rewrite M_bind_eq. simpl. by rewrite IH, app_assoc.
Qed.

(** The reading loop: the pieces it cut the stream into. *)
Lemma remote_to_host_loop_all wr ch id fuel rd w :
  u32 ch -> clean rd -> bytes_ok (flat rd) -> link_open (sw_session_id wr) (link w) ->
  (length (flat rd) < fuel)%nat -> exists ds w',
  remote_to_host_loop fuel ch id wr rd w = (Ok tt, w') /\ concat ds = flat rd /\
  Forall (fun d => 0 < len d <= 4096) ds /\ sends (sw_session_id wr) (map (forward_data ch id) ds) w w'.
Proof.
  intros Hk. revert rd w; induction fuel as [|f IH]; intros rd w Hc Hb Ho Hf; [lia|].
  destruct (tcp_read_spec 4096 rd Hc ltac:(lia)) as (b & rd' & E & Efl & Hc' & Hlb & Hnil).
  cbn [remote_to_host_loop]. rewrite E. destruct b as [|x b].
  - exists [], w. rewrite (Hnil eq_refl). split_and!; [done..|]. by apply sends_nil.
  - rewrite Efl, bytes_ok_app in Hb. destruct Hb as [Hxb Hb].
    destruct (send_shared_sends wr (forward_data ch id (x :: b)) w Ho) as (w1 & E1 & S1).
    { by apply data_sendable. }
    rewrite M_bind_eq. unfold try_. rewrite E1. cbv beta iota.
    rewrite Efl, length_app in Hf. simpl in Hf.
    destruct (IH rd' w1 Hc' Hb) as (ds & w2 & E2 & Ec & Hds & S2); [by apply sends_open in S1|lia|].
    exists ((x :: b) :: ds), w2. split_and!; [done| | |].
    + cbn [concat]. by rewrite Ec.
    + constructor; [|done]. rewrite len_cons in *. pose proof (len_nonneg b). lia.
    + by apply (sends_app _ [_] _ _ w1).
Qed.
End Bridge.

(** [retain] that keeps everything, by its size. *)
Lemma filter_size_eq (P : Z * FportConn -> Prop) `{forall x, Decision (P x)} (m : gmap Z FportConn) :
  size (filter P m) = size m <-> forall id c, m !! id = Some c -> P (id, c).
Proof.
  split.
  - intros E id c Hm. assert (Ef : filter P m = m).
    { apply map_subseteq_size_eq; [apply map_filter_subseteq|lia]. }
    rewrite <- Ef in Hm. by apply map_lookup_filter_Some in Hm as [_ HP].
  - intros HP. f_equal. apply map_filter_id. done.
Qed.

(** Data of an fport, host to remote.  Whatever data messages arrive, for any
    connections and interleaved in any way, the queue of a connection grows by
    exactly the data addressed to it, in order, and the task that drains the
    queue writes those bytes to the remote end. *)
Theorem fport_data_delivered {HA : Aead} {HL : AeadLaws HA} {OS : Os} wr sid ms w id c old out :
  fwd_wf (fwd w) -> Forall (data_message w) ms -> fport_senders (fwd w) !! id = Some c ->
  fport_queues (fwd w) !! fc_tx c = Some old ->
  exists q, fport_queues (fwd (fwd_ops wr (map (fun m => FMsg m sid) ms) w)) !! fc_tx c = Some q /\
  q = old ++ omap (for_id id) ms /\
  host_to_remote q (mkWriter out None) = (Ok tt, mkWriter (out ++ concat old ++ concat (omap (for_id id) ms)) None).
Proof.
  intros Hw Hms Hs Hq. destruct (forward_data_all ms sid wr w id c old Hw Hms Hs Hq) as [_ E].
  eexists. split_and!; [exact E|done|]. by rewrite host_to_remote_all, concat_app.
Qed.

(** Data of an fport, remote to host.  However the remote end's bytes are cut
    into reads, on an open connection the task ends having sent them all, in
    order, in data messages of at most 4096 bytes tagged with the forward's
    identifier, followed by the message that frees the context. *)
Theorem fport_remote_bytes_sent {HA : Aead} {HL : AeadLaws HA} {OS : Os} wr ch id rd w :
  u32 ch -> clean rd -> bytes_ok (flat rd) -> link_open (sw_session_id wr) (link w) ->
  exists ds w', remote_to_host ch id wr rd w = (Ok tt, w') /\ concat ds = flat rd /\
  Forall (fun d => 0 < len d <= 4096) ds /\
  sends (sw_session_id wr) (map (forward_data ch id) ds ++ [forward_free ch id]) w w'.
Proof.
  intros Hk Hc Hb Ho.
  destruct (remote_to_host_loop_all wr ch id (remote_to_host_fuel rd) rd w Hk Hc Hb Ho) as (ds & w1 & E & Ec & Hds & S).
  { unfold remote_to_host_fuel. lia. }
  destruct (send_shared_sends wr (forward_free ch id) w1) as (w2 & E2 & S2);
    [by apply sends_open in S|by apply free_sendable|].
  exists ds, w2. unfold remote_to_host. rewrite (M_bind_Ok _ _ _ _ _ E), M_bind_eq. unfold try_. rewrite E2.
  split_and!; [done..|]. by eapply sends_app.
Qed.

(** The channel has forward resources: a listener, or a connection. *)
Definition forward_channel (s : ForwardState) (ch : Z) : Prop :=
  is_Some (rport_listeners s !! ch) \/ exists id c, fport_senders s !! id = Some c /\ fc_channel_id c = ch.

Lemma handle_channel_close_result {HA : Aead} {OS : Os} ch w :
  exists b w', handle_channel_close ch w = (Ok b, w') /\ (b = true <-> forward_channel (fwd w) ch) /\ link w' = link w.
Proof.
  unfold handle_channel_close, forward_channel. set (P := fun p : Z * FportConn => fc_channel_id p.2 <> ch).
  assert (Hsz : forall b, (if (size (filter P (fport_senders (fwd w))) =? size (fport_senders (fwd w)))%nat then b else true) = true
    <-> b = true \/ exists id c, fport_senders (fwd w) !! id = Some c /\ fc_channel_id c = ch).
  { intros b. destruct (Nat.eqb_spec (size (filter P (fport_senders (fwd w)))) (size (fport_senders (fwd w)))) as [E|E].
    - split; [by left|]. intros [Hb|(id & c & Hm & Hc)]; [done|].
      by destruct (proj1 (filter_size_eq P _) E id c Hm).
    - split; [|done]. intros _. right. destruct (decide (map_Exists (fun _ c => fc_channel_id c = ch) (fport_senders (fwd w)))) as [Hx|Hn]; [exact Hx|].
      exfalso. apply E, filter_size_eq. intros id c Hm Hc. apply Hn. by exists id, c. }
  destruct (rport_listeners (fwd w) !! ch) as [q|] eqn:E; eexists _, _; (split; [reflexivity|split; [|done]]);
    cbn [fport_senders abort_task push_rport set_rport_listeners].
  - rewrite Hsz. split; intros [|]; eauto.
  - rewrite Hsz. split; intros [H|H]; try tauto; [done|]. by destruct H.
Qed.

(** Closing a channel.  The handler says whether the channel had forward
    resources: a listener, or a connection.  Afterwards the channel has neither; its
    listener was told to shut down and its task aborted; the listeners and
    connections of every other channel, their queues, the file transfers and the
    connection to the host are as they were. *)
Theorem channel_close_exact {HA : Aead} {OS : Os} ch w :
  exists b w', handle_channel_close ch w = (Ok b, w') /\
  (b = true <-> forward_channel (fwd w) ch) /\ ~ forward_channel (fwd w') ch /\
  (forall k, k <> ch -> rport_listeners (fwd w') !! k = rport_listeners (fwd w) !! k) /\
  (forall id c, fport_senders (fwd w') !! id = Some c <->
                fport_senders (fwd w) !! id = Some c /\ fc_channel_id c <> ch) /\
  (forall q, rport_listeners (fwd w) !! ch = Some q ->
     rport_queues (fwd w') !! q = (fun ms => ms ++ [Shutdown]) <$> rport_queues (fwd w) !! q /\
     rt_aborted <$> rport_tasks (fwd w') !! q = (fun _ => true) <$> rport_tasks (fwd w) !! q) /\
  (forall q, rport_listeners (fwd w) !! ch <> Some q ->
     rport_queues (fwd w') !! q = rport_queues (fwd w) !! q /\
     rport_tasks (fwd w') !! q = rport_tasks (fwd w) !! q) /\
  fport_queues (fwd w') = fport_queues (fwd w) /\ link w' = link w /\ tasks w' = tasks w /\ fs w' = fs w.
Proof.
  destruct (handle_channel_close_result ch w) as (b & w' & E & Hb & El).
  assert (Hf : forall id c, filter (fun p => fc_channel_id p.2 <> ch) (fport_senders (fwd w)) !! id = Some c <->
    fport_senders (fwd w) !! id = Some c /\ fc_channel_id c <> ch).
  { intros id c. by rewrite map_lookup_filter_Some. }
  exists b, w'. split; [done|]. split; [done|]. clear Hb El. unfold handle_channel_close in E. unfold forward_channel.
  destruct (rport_listeners (fwd w) !! ch) as [q|] eqn:Eq; injection E as _ <-;
    cbn [set_fwd fwd set_fport_senders abort_task push_rport set_rport_listeners rport_listeners fport_senders
         rport_queues rport_tasks fport_queues link tasks fs].
  - split_and!; try done.
    + rewrite lookup_delete_eq. intros [[? [=]]|(id & c & [? ?]%Hf & ?)]. done.
    + intros k Hk. by rewrite lookup_delete_ne.
    + intros q' [= <-]. rewrite !lookup_alter_eq. split; [done|]. by destruct (rport_tasks (fwd w) !! q).
    + intros q' Hq. by rewrite !lookup_alter_ne by congruence.
  - split_and!; try done. rewrite Eq. intros [[? [=]]|(id & c & [? ?]%Hf & ?)]. done.
Qed.

Section BridgeWitness.
#[local] Existing Instance ToyAead.aead.
#[local] Existing Instance ToyAead.laws.
#[local] Existing Instance CalmOs.os.

(** Two connections of channel 6, identifiers 1 and 2. *)
Definition slave_message (id : Z) : TaskMessage := mkTaskMessage 6 ForwardActiveSlave (spec_payload id (lit "tcp:80")).
Definition two_forwards : World :=
  fwd_ops (mkSharedWriter 5) [FMsg (slave_message 1) 5; FMsg (slave_message 2) 5] start_world.
Lemma fport_data_delivered_witness : exists c q,
  fport_senders (fwd two_forwards) !! 1 = Some c /\
  fport_queues (fwd (fwd_ops (mkSharedWriter 5) (map (fun m => FMsg m 5)
    [forward_data 6 1 [10]; forward_data 6 2 [20]; forward_data 6 1 [11]]) two_forwards)) !! fc_tx c = Some q /\
  host_to_remote q (mkWriter [] None) = (Ok tt, mkWriter [10; 11] None).
Proof.
  assert (is_Some (fport_senders (fwd two_forwards) !! 1)) as [c Ec] by (apply (bool_decide_unpack _); vm_compute; exact I).
  assert (Eo : fport_queues (fwd two_forwards) !! fc_tx c = Some []) by (vm_compute in Ec; by injection Ec as <-).
  destruct (fport_data_delivered (mkSharedWriter 5) 5
    [forward_data 6 1 [10]; forward_data 6 2 [20]; forward_data 6 1 [11]] two_forwards 1 c [] []) as (q & Eq & _ & Ew).
  - apply fwd_ops_wf, empty_forward_wf.
  - repeat constructor; by vm_compute.
  - exact Ec.
  - exact Eo.
  - exists c, q. split_and!; [exact Ec|exact Eq|exact Ew].
Defined.

Lemma fport_remote_bytes_sent_witness : exists ds w',
  remote_to_host 6 1 (mkSharedWriter 5) [Data [1; 2]; Data [3]] start_world = (Ok tt, w') /\
  concat ds = [1; 2; 3] /\
  sends 5 (map (forward_data 6 1) ds ++ [forward_free 6 1]) start_world w'.
Proof.
  destruct (fport_remote_bytes_sent (mkSharedWriter 5) 6 1 [Data [1; 2]; Data [3]] start_world)
    as (ds & w' & E & Ec & _ & Hs).
  - ulia.
  - by repeat constructor.
  - repeat constructor; ulia.
  - split; [done|]. by vm_compute.
  - exists ds, w'. split_and!; [exact E|exact Ec|exact Hs].
Defined.
End BridgeWitness.
