(* ===== verification/DaemonListeners.v ===== *)
(** * The daemon: which listeners are registered

    The messages of the sessions, the closes of channels and the listener tasks of
    [src/hdcd/src/forward.rs] as one transition system over the shared forward state.
    [handle_rport_init] is two steps, as its task runs from the moment it is spawned, before
    its handle enters the map; a listener takes its messages from its own queue; an aborted
    task takes no step, while the dispatcher it spawned lives on. *)

From S2P Require Import Prelude RustStr Config Tlv Serializer Encrypt Transport Daemon DaemonForward.

#[global] Instance RportMsg_eq_dec : EqDecision RportMsg.
Proof. solve_decision. Defined.

(** [y_inits]: the tasks whose [handle_rport_init] has still to enter them, with their channel;
    [y_late]: the tasks that had ended when they were entered. *)
Record Sys := mkSys {
  y_world : World; y_tasks : gmap positive Listener; y_inits : gmap positive Z; y_late : gset positive
}.
Inductive SEvent :=
  | SMsg (m : TaskMessage) (session_id listener_id : Z) | SRegister (q : positive) | SClose (channel_id : Z)
  | STask (q : positive) (e : LEvent).

Section System.
Context {HA : Aead} {OS : Os} (wr : SharedWriter).

Definition is_init (m : TaskMessage) : bool :=
  match command m with ForwardInit | ForwardRportInit => true | _ => false end.
Definition set_rport_queues (qs : gmap positive (list RportMsg)) (s : ForwardState) : ForwardState :=
  mkForwardState (fport_senders s) (rport_listeners s) (fport_queues s) qs (rport_tasks s).
(** A message comes from the head of the queue; the queue is closed when it is empty and
    nobody holds its sender. *)
Definition take_from (q : positive) (e : LEvent) (y : Sys) : option World :=
  let w := y_world y in
  let s := fwd w in
  match e with
  | LMsg m =>
      match rport_queues s !! q with
      | Some (m' :: rest) => if decide (m = m') then Some (set_fwd (set_rport_queues (<[q := rest]> (rport_queues s)) s) w) else None
      | _ => None
      end
  | LQueueClosed =>
      if bool_decide (rport_queues s !! q = Some []) && bool_decide (map_Forall (fun _ q' => q' <> q) (rport_listeners s))
         && bool_decide (y_inits y !! q = None)
      then Some w else None
  | _ => Some w
  end.
(** The steps of the dispatcher and of the connections, which go on after an abort. *)
Definition survives_abort (e : LEvent) (l : Listener) : bool :=
  match l_phase l, e with
  | LAccepting true, LMsg _ | LAccepting true, LQueueClosed | _, LConnGone _ => true
  | _, _ => false
  end.
Definition aborted (q : positive) (w : World) : bool :=
  match rport_tasks (fwd w) !! q with Some t => rt_aborted t | None => true end.

Definition sys_step (e : SEvent) (y : Sys) : option Sys :=
  match e with
  | SMsg m session_id listener_id =>
      if is_init m then
        match rport_init_spawn m wr (y_world y) with
        | (Ok (Some q), w) =>
            match rport_tasks (fwd w) !! q with
            | Some t =>
                Some (mkSys w (<[q := new_listener (rt_channel t) (rt_remote t) (rt_local t) listener_id]> (y_tasks y))
                        (<[q := channel_id m]> (y_inits y)) (y_late y))
            | None => None
            end
        | (_, w) => Some (mkSys w (y_tasks y) (y_inits y) (y_late y))
        end
      else Some (mkSys (handle_forward_task m session_id wr (y_world y)).2 (y_tasks y) (y_inits y) (y_late y))
  | SRegister q =>
      match y_inits y !! q, y_tasks y !! q with
      | Some ch, Some l =>
          Some (mkSys (register_rport_listener ch q (y_world y)).2 (y_tasks y) (delete q (y_inits y))
                  (match l_phase l with LEnded => {[q]} ∪ y_late y | _ => y_late y end))
      | _, _ => None
      end
  | SClose ch => Some (mkSys (handle_channel_close ch (y_world y)).2 (y_tasks y) (y_inits y) (y_late y))
  | STask q e =>
      match y_tasks y !! q with
      | Some l =>
          if listener_enabled e l && (negb (aborted q (y_world y)) || survives_abort e l) then
            w ← take_from q e y;
            match listener_step wr e l w with
            | (Ok l', w') => Some (mkSys w' (<[q := l']> (y_tasks y)) (y_inits y) (y_late y))
            | _ => None
            end
          else None
      | None => None
      end
  end.
Fixpoint sys_exec (es : list SEvent) (y : Sys) : option Sys :=
  match es with [] => Some y | e :: es => y ← sys_step e y; sys_exec es y end.
Definition sys_start (w : World) : Sys := mkSys (set_fwd empty_forward w) ∅ ∅ ∅.

(** The two steps are [handle_forward_task] of the message, when nothing comes between. *)
Lemma init_composed m sid w :
  is_init m = true -> handle_forward_task m sid wr w =
  (spawned ← rport_init_spawn m wr;
   match spawned with Some q => register_rport_listener (channel_id m) q | None => mret tt end) w.
Proof.
  unfold is_init, handle_forward_task. rewrite M_bind_eq. cbn [get]. unfold to_listener.
  destruct (command m); try done; by destruct (rport_listeners _ !! _).
Qed.

(** ** What a step leaves alone *)

Create HintDb leaves.
Definition same_tasks (w w' : World) : Prop :=
  rport_tasks (fwd w') = rport_tasks (fwd w) /\ dom (rport_queues (fwd w')) = dom (rport_queues (fwd w)).
Definition leaves {A} (m : M World A) : Prop := forall w,
  rport_listeners (fwd (m w).2) = rport_listeners (fwd w) /\ same_tasks w (m w).2.
Lemma leaves_bind {A B} (m : M World A) (f : A -> M World B) : leaves m -> (forall a, leaves (f a)) -> leaves (m ≫= f).
Proof.
  intros Hm Hf w. rewrite M_bind_eq. destruct (Hm w) as (H1 & H2 & H3). destruct (m w) as [[a| |] w1]; [|done..].
  destruct (Hf a w1) as (F1 & F2 & F3). unfold same_tasks in *. cbn in *. split_and!; congruence.
Qed.
Lemma leaves_ret {A} (a : A) : leaves (mret a).
Proof. done. Qed.
Lemma leaves_lift {A} (r : Result A) : leaves (lift r).
Proof. done. Qed.
Lemma leaves_get : leaves get.
Proof. done. Qed.
Lemma leaves_send m : leaves (send_shared wr m).
Proof. intros w. unfold send_shared, on_link, zoom. by destruct (DaemonTcp.send_message _ _ _). Qed.
Lemma leaves_try {A} (m : M World A) : leaves m -> leaves (try_ m).
Proof. intros Hm w. specialize (Hm w). unfold try_. by destruct (m w) as [[] ?]. Qed.
Lemma leaves_on_fwd f :
  (forall s, rport_listeners (f s) = rport_listeners s /\ rport_tasks (f s) = rport_tasks s /\
             dom (rport_queues (f s)) = dom (rport_queues s)) -> leaves (on_fwd f).
Proof. intros H w. apply H. Qed.
Lemma leaves_push q m : leaves (on_fwd (push_rport q m)).
Proof. apply leaves_on_fwd. intros s. split_and!; [done..|]. apply dom_alter_L. Qed.
#[local] Hint Resolve leaves_bind leaves_ret leaves_lift leaves_get leaves_send leaves_try leaves_push : leaves.
Ltac by_leaves := repeat (apply leaves_bind; [by auto with leaves|intros]); auto with leaves.
Lemma leaves_forward m sid : is_init m = false -> leaves (handle_forward_task m sid wr).
Proof.
  intros Hn. unfold handle_forward_task. apply leaves_bind; [auto with leaves|]. intros w. cbv zeta.
  destruct (match rport_listeners (fwd w) !! channel_id m with Some q => _ | None => None end) as [[q r]|].
  { apply leaves_bind; [auto with leaves|]. intros [x|]; auto with leaves. }
  unfold is_init in Hn. destruct (command m); try done; unfold echo_client; auto with leaves.
  - destruct (_ <? _); by_leaves; cbv zeta; auto with leaves.
  - unfold handle_active_slave. destruct (_ <? _); [auto with leaves|]. do 2 (apply leaves_bind; [auto with leaves|intros]).
    cbv zeta. case_match; (apply leaves_bind; [|by auto with leaves]); [by apply leaves_on_fwd|auto with leaves..].
  - unfold handle_forward_data. destruct (_ <? _); [auto with leaves|]. do 3 (apply leaves_bind; [auto with leaves|intros]).
    case_match; [by apply leaves_on_fwd|auto with leaves].
  - unfold handle_free_context. destruct (_ <? _); [auto with leaves|]. apply leaves_bind; [auto with leaves|intros]. by apply leaves_on_fwd.
Qed.
Definition ended (l : Listener) : bool := match l_phase l with LEnded => true | _ => false end.
(** A step of a listener: it stays on its channel; when it ends, and only then, the channel's
    entry goes. *)
Definition listener_effect (l : Listener) (w : World) (l' : Listener) (w' : World) : Prop :=
  l_channel l' = l_channel l /\ same_tasks w w' /\ fport_senders (fwd w') = fport_senders (fwd w) /\
  fport_queues (fwd w') = fport_queues (fwd w) /\
  rport_listeners (fwd w') = (if ended l' && negb (ended l) then delete (l_channel l) (rport_listeners (fwd w))
                              else rport_listeners (fwd w)) /\
  (ended l = true -> ended l' = true).
Lemma effect_quiet l w l' :
  l_channel l' = l_channel l -> l_phase l' = l_phase l -> listener_effect l w l' w.
Proof. intros Hc Hp. unfold listener_effect, same_tasks, ended. rewrite Hp. split_and!; try done. by destruct (l_phase l). Qed.
Lemma effect_try_send m w : exists r w', try_ (send_shared wr m) w = (r, w') /\ fwd w' = fwd w.
Proof.
  unfold try_, send_shared, on_link, zoom. destruct (DaemonTcp.send_message _ _ _) as [[] l]; eexists _, _; by split.
Qed.
Lemma effect_end l0 w l w1 l' w' :
  listener_end l w1 = (Ok l', w') -> fwd w1 = fwd w -> l_channel l = l_channel l0 -> ended l0 = false -> listener_effect l0 w l' w'.
Proof.
  unfold listener_end. rewrite M_bind_eq. cbn [cleanup_rport_listener on_fwd modify]. intros [= <- <-] Hw Hc He.
  unfold listener_effect, same_tasks. rewrite He. cbn. rewrite Hw, Hc. by split_and!.
Qed.
Lemma effect_go l0 w l w' :
  fwd w' = fwd w -> l_channel l = l_channel l0 -> ended l0 = false -> ended l = false -> listener_effect l0 w l w'.
Proof. intros Hw Hc H1 H2. unfold listener_effect, same_tasks. rewrite Hw, H1, H2. by split_and!. Qed.
Lemma drained_channel ids l : l_channel (foldr (fun id => send_conn id CShutdown) l ids) = l_channel l.
Proof. induction ids as [|id ids IH]; [done|]. cbn [foldr]. destruct (send_conn_static id CShutdown (foldr (fun id => send_conn id CShutdown) l ids)) as [-> _]. done. Qed.
Lemma effect_drain l w l' w' : listener_drain l w = (Ok l', w') -> ended l = false -> listener_effect l w l' w'.
Proof. intros E He. eapply effect_end; [exact E|done| |done]. apply drained_channel. Qed.
Lemma effect_send_conn id m l w : listener_effect l w (send_conn id m l) w.
Proof. apply effect_quiet; [apply send_conn_static|apply send_conn_phase]. Qed.
Lemma effect_check m l w l' w' : l_phase l = LChecking -> listener_check wr m l w = (Ok l', w') -> listener_effect l w l' w'.
Proof.
  intros Hp. assert (He : ended l = false) by (unfold ended; by rewrite Hp). unfold listener_check.
  destruct m as [ctx ok| | | |]; try (intros [= <- <-]; by apply effect_quiet).
  - destruct (_ =? _); [|intros [= <- <-]; by apply effect_quiet]. destruct ok; [|intros E; by eapply effect_end].
    rewrite M_bind_eq. edestruct effect_try_send as (r & w1 & -> & Hw). destruct r; try done. intros [= <- <-]. by apply effect_go.
  - intros E. by eapply effect_end.
Qed.
Lemma effect_dispatch m l w : l_phase l = LAccepting true -> listener_effect l w (listener_dispatch m l) w.
Proof.
  intros Hp. destruct m; cbn [listener_dispatch]; try (by apply effect_send_conn); try (by apply effect_quiet).
  apply effect_go; try done. unfold ended. by rewrite Hp.
Qed.
Lemma listener_step_effect e l w l' w' :
  listener_enabled e l = true -> listener_step wr e l w = (Ok l', w') -> listener_effect l w l' w'.
Proof.
  unfold listener_enabled, listener_step. destruct (l_phase l) as [| |d|] eqn:Hp.
  - destruct e; try done. intros _. rewrite M_bind_eq. edestruct effect_try_send as (r & w1 & -> & Hw).
    assert (He : ended l = false) by (unfold ended; by rewrite Hp).
    destruct r as [[u| |]| |]; try done; [intros [= <- <-]; by apply effect_go|intros E; by eapply effect_end..].
  - assert (He : ended l = false) by (unfold ended; by rewrite Hp).
    destruct e; try done; [intros _; by apply effect_check|intros _ E; by eapply effect_end].
  - assert (He : ended l = false) by (unfold ended; by rewrite Hp).
    destruct e; try (by destruct d); intros _.
    all: try (destruct d; (by intros [= <- <-]; apply effect_quiet) || (by intros E; eapply effect_drain)).
    + destruct d; [intros [= <- <-]; by apply effect_dispatch|]. intros [= <- <-]. by apply effect_quiet.
    + destruct d; intros [= <- <-]; [by apply effect_go|by apply effect_quiet].
  - destruct e; try done. intros _ [= <- <-]. by apply effect_quiet.
Qed.
(** ** The invariant *)

Definition alone (q : positive) (l : Listener) (y : Sys) : Prop :=
  forall q' l', y_tasks y !! q' = Some l' -> l_channel l' = l_channel l -> q' = q.
Record sys_inv (y : Sys) : Prop := {
  v_wf : fwd_wf (fwd (y_world y));
  v_queues : dom (rport_queues (fwd (y_world y))) = dom (rport_tasks (fwd (y_world y)));
  v_tasks q : (fun l => l_channel l) <$> y_tasks y !! q = (fun t => rt_channel t) <$> rport_tasks (fwd (y_world y)) !! q;
  v_inits q ch : y_inits y !! q = Some ch -> served_by (fwd (y_world y)) ch q /\ forall c, rport_listeners (fwd (y_world y)) !! c <> Some q;
  v_live ch q l : rport_listeners (fwd (y_world y)) !! ch = Some q -> y_tasks y !! q = Some l -> ended l = true -> q ∈ y_late y;
  v_entered q l : y_tasks y !! q = Some l -> ended l = false -> aborted q (y_world y) = false -> y_inits y !! q = None -> alone q l y ->
    rport_listeners (fwd (y_world y)) !! l_channel l = Some q
}.

(** A task is on the channel it was spawned for. *)
Lemma task_channel y ch q : sys_inv y -> served_by (fwd (y_world y)) ch q -> exists l, y_tasks y !! q = Some l /\ l_channel l = ch.
Proof.
  intros V (_ & r & l & Ht). pose proof (v_tasks y V q) as H. rewrite Ht in H. cbn in H.
  destruct (y_tasks y !! q) as [x|]; [|done]. injection H as H. by exists x.
Qed.
Lemma sys_inv_start w : sys_inv (sys_start w).
Proof.
  split; [apply empty_forward_wf|done|..]; intros *; cbn; by rewrite ?lookup_empty.
Qed.
(** A step that leaves listeners, tasks and their queues as they are. *)
Lemma sys_inv_world w y :
  sys_inv y -> fwd_wf (fwd w) -> rport_listeners (fwd w) = rport_listeners (fwd (y_world y)) -> same_tasks (y_world y) w ->
  sys_inv (mkSys w (y_tasks y) (y_inits y) (y_late y)).
Proof.
  intros V Hwf Hl [Ht Hq]. split; cbn; try rewrite Hl; try rewrite Ht; try rewrite Hq; try apply V; [done| |].
  - intros q ch Hi. destruct (v_inits y V q ch Hi) as [[H1 H2] H3]. split; [|done]. split; [|by rewrite Ht].
    by rewrite <- elem_of_dom, Hq, elem_of_dom.
  - intros q l Hy He Ha. unfold aborted in Ha. rewrite Ht in Ha. by apply (v_entered y V).
Qed.
Lemma sys_inv_same w y : sys_inv y -> fwd w = fwd (y_world y) -> sys_inv (mkSys w (y_tasks y) (y_inits y) (y_late y)).
Proof. intros V E. apply sys_inv_world; unfold same_tasks; rewrite ?E; try done. apply V. Qed.
Lemma sys_inv_spawn m lid q w t y :
  sys_inv y -> rport_init_spawn m wr (y_world y) = (Ok (Some q), w) -> rport_tasks (fwd w) !! q = Some t ->
  sys_inv (mkSys w (<[q := new_listener (rt_channel t) (rt_remote t) (rt_local t) lid]> (y_tasks y)) (<[q := channel_id m]> (y_inits y)) (y_late y)).
Proof.
  intros V E Ht. destruct (rport_init_spawn_wf m wr (y_world y) (v_wf y V)) as [Hwf Hs]. rewrite E in Hwf, Hs. cbn in Hwf, Hs.
  specialize (Hs q eq_refl). destruct (rport_init_spawn_some _ _ _ _ _ E) as (r & lo & -> & ->).
  set (s := fwd (y_world y)) in *. set (q := fresh (dom (rport_queues s))) in *. cbn in Hwf, Hs, Ht |- *.
  assert (Hf : q ∉ dom (rport_queues s)) by apply is_fresh. assert (Hft : rport_tasks s !! q = None).
  { apply not_elem_of_dom. pose proof (v_queues y V) as Hd. fold s in Hd. by rewrite <- Hd. }
  assert (Hfl : forall c, rport_listeners s !! c <> Some q).
  { intros c Hc. apply (v_wf y V) in Hc as ([ms Hq] & _). by apply elem_of_dom_2 in Hq. }
  rewrite lookup_insert_eq in Ht. injection Ht as <-. split; cbn; fold s.
  - exact Hwf.
  - rewrite !dom_insert_L. f_equal. apply (v_queues y V).
  - intros q'. destruct (decide (q = q')) as [<-|Hn]; [by rewrite !lookup_insert_eq|]. rewrite !lookup_insert_ne by done. apply (v_tasks y V).
  - intros q' ch [[<- <-]|[Hn Hi]]%lookup_insert_Some; [done|]. destruct (v_inits y V q' ch Hi) as [(H1 & H2) H3].
    split; [|done]. unfold served_by. cbn. rewrite !lookup_insert_ne by done. done.
  - intros ch q' l Hl. rewrite lookup_insert_ne by (intros <-; by eapply Hfl). by eapply (v_live y V).
  - intros q' l Hy He Ha Hi Hal. apply lookup_insert_None in Hi as [Hi Hn]. rewrite lookup_insert_ne in Hy by done.
    apply (v_entered y V); try done.
    + unfold aborted in *. cbn in Ha. by rewrite lookup_insert_ne in Ha.
    + intros q1 l1 H1 H2. apply (Hal q1 l1); [|done]. cbn. rewrite lookup_insert_ne; [done|]. intros <-.
      pose proof (v_tasks y V q) as Hx. fold s in Hx. by rewrite H1, Hft in Hx.
Qed.
Lemma sys_inv_register q ch l y :
  sys_inv y -> y_inits y !! q = Some ch -> y_tasks y !! q = Some l ->
  sys_inv (mkSys (register_rport_listener ch q (y_world y)).2 (y_tasks y) (delete q (y_inits y))
             (match l_phase l with LEnded => {[q]} ∪ y_late y | _ => y_late y end)).
Proof.
  intros V Hi Hl. destruct (v_inits y V q ch Hi) as [Hs Hn]. destruct (task_channel y ch q V Hs) as (l1 & Hl1 & Hch).
  replace l1 with l in * by congruence. split; cbn.
  - by apply register_wf; [apply V|].
  - apply V.
  - apply V.
  - intros q' c [Hne Hi']%lookup_delete_Some. destruct (v_inits y V q' c Hi') as [Hs' Hn']. split; [done|].
    intros c' [[_ ?]|[_ ?]]%lookup_insert_Some; [done|]. by eapply Hn'.
  - intros c q' l' [[<- <-]|[_ Hc]]%lookup_insert_Some Hy He.
    + replace l' with l in * by congruence. unfold ended in He. destruct (l_phase l); try done. set_solver.
    + apply (v_live y V _ _ _ Hc Hy) in He. destruct (l_phase l); set_solver.
  - intros q' l' Hy He Ha Hd Hal. destruct (decide (q' = q)) as [->|Hne].
    + replace l' with l in * by congruence. rewrite Hch. by rewrite lookup_insert_eq.
    + rewrite lookup_delete_ne in Hd by done. rewrite lookup_insert_ne; [by apply (v_entered y V)|].
      intros E. apply Hne. symmetry. apply (Hal q l Hl). congruence.
Qed.
Lemma sys_inv_close ch y :
  sys_inv y -> sys_inv (mkSys (handle_channel_close ch (y_world y)).2 (y_tasks y) (y_inits y) (y_late y)).
Proof.
  intros V. pose proof (handle_channel_close_wf ch _ (v_wf y V)) as Hwf. unfold handle_channel_close in *.
  destruct (rport_listeners (fwd (y_world y)) !! ch) as [q|] eqn:Eq; [|by apply sys_inv_world].
  cbn [snd] in Hwf |- *. split; cbn; [exact Hwf| | | | |].
  - rewrite !dom_alter_L. apply V.
  - intros q'. rewrite (v_tasks y V q'). destruct (decide (q = q')) as [<-|Hn]; [|by rewrite lookup_alter_ne].
    rewrite lookup_alter_eq. by destruct (rport_tasks _ !! q).
  - intros q' c Hi. destruct (v_inits y V q' c Hi) as [(H1 & H2) H3]. assert (q <> q') by (intros <-; by eapply H3).
    split; [|intros c' [_ Hc]%lookup_delete_Some; by eapply H3]. unfold served_by. cbn. by rewrite !lookup_alter_ne.
  - intros c q' l [_ Hc]%lookup_delete_Some. by eapply (v_live y V).
  - intros q' l Hy He Ha Hi Hal. unfold aborted in Ha. cbn in Ha. destruct (decide (q = q')) as [<-|Hn].
    + rewrite lookup_alter_eq in Ha. by destruct (rport_tasks _ !! q).
    + rewrite lookup_alter_ne in Ha by done. pose proof (v_entered y V q' l Hy He Ha Hi Hal) as Hr.
      rewrite lookup_delete_ne; [done|]. intros ->. congruence.
Qed.
(** What the listener finds in its queue is taken from it alone. *)
Lemma take_from_spec q e y w :
  sys_inv y -> take_from q e y = Some w ->
  rport_listeners (fwd w) = rport_listeners (fwd (y_world y)) /\ same_tasks (y_world y) w /\
  fport_senders (fwd w) = fport_senders (fwd (y_world y)) /\ fport_queues (fwd w) = fport_queues (fwd (y_world y)).
Proof.
  intros V. unfold take_from. cbv zeta. destruct e as [|m| | | | |]; try (by intros [= <-]).
  - destruct (rport_queues _ !! q) as [[|m' rest]|] eqn:Eq; try done. destruct (decide _); [|done]. intros [= <-].
    split_and!; try done. unfold same_tasks. cbn. rewrite dom_insert_L. apply elem_of_dom_2 in Eq. split; [done|]. set_solver.
  - destruct (_ && _); [|done]. by intros [= <-].
Qed.
Lemma served_same w w' ch q : same_tasks w w' -> served_by (fwd w) ch q -> served_by (fwd w') ch q.
Proof. intros [Ht Hq] [H1 H2]. split; [by rewrite <- elem_of_dom, Hq, elem_of_dom|by rewrite Ht]. Qed.
Lemma sys_inv_task q e l w l' w' y :
  sys_inv y -> y_tasks y !! q = Some l -> listener_enabled e l = true -> take_from q e y = Some w ->
  listener_step wr e l w = (Ok l', w') -> sys_inv (mkSys w' (<[q := l']> (y_tasks y)) (y_inits y) (y_late y)).
Proof.
  intros V Hl Hen Htk Hst. destruct (take_from_spec _ _ _ _ V Htk) as (T1 & [T2 T3] & T4 & T5).
  destruct (listener_step_effect _ _ _ _ _ Hen Hst) as (L1 & [L2 L3] & L4 & L5 & L6 & L7). rewrite T1 in L6.
  set (s := fwd (y_world y)) in *.
  assert (Hsame : same_tasks (y_world y) w') by (split; unfold s in *; congruence).
  assert (Hsub : forall c x, rport_listeners (fwd w') !! c = Some x -> rport_listeners s !! c = Some x).
  { intros c x. rewrite L6. destruct (_ && _); [|done]. by intros [_ H]%lookup_delete_Some. }
  assert (Hchan : (fun t => rt_channel t) <$> rport_tasks s !! q = Some (l_channel l)).
  { pose proof (v_tasks y V q) as H. fold s in H. by rewrite Hl in H. }
  split; cbn.
  - destruct (v_wf y V) as (W1 & W2 & W3). fold s in W1, W2, W3. split_and!.
    + rewrite L4, L5, T4, T5. apply W1.
    + rewrite L4, T4. apply W2.
    + intros c x Hc. eapply served_same; [exact Hsame|]. by apply W3, Hsub.
  - rewrite L3, T3, L2, T2. apply (v_queues y V).
  - intros q'. rewrite L2, T2. fold s. destruct (decide (q = q')) as [<-|Hn].
    + rewrite lookup_insert_eq, Hchan. cbn. by rewrite L1.
    + rewrite lookup_insert_ne by done. apply (v_tasks y V).
  - intros q' c Hi. destruct (v_inits y V q' c Hi) as [H1 H2]. split; [by eapply served_same|]. intros c' Hc. by eapply H2, Hsub.
  - intros c q' x Hc [[<- <-]|[_ Hx]]%lookup_insert_Some He; [|by eapply (v_live y V); [apply Hsub|..]].
    destruct (ended l) eqn:El; [by eapply (v_live y V); [apply Hsub|..]|]. exfalso. rewrite L6, He in Hc. cbn in Hc.
    apply lookup_delete_Some in Hc as [Hne Hc]. apply (v_wf y V) in Hc as (_ & r & lo & Ht). fold s in Ht. rewrite Ht in Hchan.
    cbn in Hchan. congruence.
  - intros q' x Hx He Ha Hi Hal. assert (Ha' : aborted q' (y_world y) = false) by (unfold aborted in *; by rewrite L2, T2 in Ha).
    apply lookup_insert_Some in Hx as [[<- <-]|[Hn Hx]].
    + rewrite L6, He. cbn. rewrite L1. apply (v_entered y V); try done.
      * destruct (ended l); [|done]. by rewrite L7 in He.
      * intros q1 l1 H1 H2. destruct (decide (q = q1)) as [->|Hn]; [done|]. apply (Hal q1 l1); [|congruence]. cbn. by rewrite lookup_insert_ne.
    + assert (Hne : l_channel x <> l_channel l).
      { intros E. apply Hn. apply (Hal q l'); [cbn; by rewrite lookup_insert_eq|congruence]. }
      rewrite L6. assert (Hold : rport_listeners s !! l_channel x = Some q').
      { apply (v_entered y V); try done. intros q1 l1 H1 H2. destruct (decide (q = q1)) as [->|Hn1]; [congruence|].
        apply (Hal q1 l1); [|done]. cbn. by rewrite lookup_insert_ne. }
      destruct (_ && _); [|done]. by rewrite lookup_delete_ne.
Qed.
Lemma sys_step_inv e y y' : sys_inv y -> sys_step e y = Some y' -> sys_inv y'.
Proof.
  intros V. destruct e as [m sid lid|q|ch|q e]; cbn [sys_step].
  - destruct (is_init m) eqn:Hm.
    + pose proof (rport_init_spawn_rest m wr (y_world y)) as Hrest. destruct (rport_init_spawn_wf m wr _ (v_wf y V)) as [Hwf _].
      destruct (rport_init_spawn m wr (y_world y)) as [[[q|]|e|] w] eqn:E.
      * destruct (rport_tasks (fwd w) !! q) as [t|] eqn:Et; [|done]. intros [= <-]. by apply sys_inv_spawn.
      * intros [= <-]. by apply sys_inv_same.
      * intros [= <-]. by apply sys_inv_same.
      * intros [= <-]. by apply sys_inv_same.
    + intros [= <-]. destruct (leaves_forward m sid Hm (y_world y)) as [H1 H2].
      apply sys_inv_world; try done. apply handle_forward_task_wf, V.
  - destruct (y_inits y !! q) as [ch|] eqn:Ei; [|done]. destruct (y_tasks y !! q) as [l|] eqn:El; [|done].
    intros [= <-]. by apply sys_inv_register.
  - intros [= <-]. by apply sys_inv_close.
  - destruct (y_tasks y !! q) as [l|] eqn:El; [|done]. destruct (listener_enabled e l) eqn:Hen; [|done]. cbn [andb].
    destruct (_ || _); [|done]. intros (w & Hw & H)%bind_Some.
    destruct (listener_step wr e l w) as [[l'| |] w'] eqn:Es; [|done..]. injection H as <-. by eapply sys_inv_task.
Qed.
Lemma sys_exec_inv es y y' : sys_inv y -> sys_exec es y = Some y' -> sys_inv y'.
Proof.
  revert y; induction es as [|e es IH]; intros y V; cbn [sys_exec]; [by intros [= <-]|].
  intros (y1 & H1 & H2)%bind_Some. by eapply IH; [eapply sys_step_inv|].
Qed.
End System.

(** C30: the registered listeners are those that run.  After any sequence of messages of the
    sessions, registrations, closes of channels and steps of the listener tasks, in any
    order and with any outcome of a send, starting with no forward: every fport connection
    has a queue of its own; a registered listener is a task that was started for that channel and
    not aborted, and it has not ended, unless it had ended before its handler entered it (the
    handler enters it only after the task was spawned); and a task that
    neither ended nor was aborted, whose handler is through, is registered for its channel,
    unless another task was started for the same channel. *)
Theorem listeners_registered_while_running {HA : Aead} {OS : Os} wr w0 es y :
  sys_exec wr es (sys_start w0) = Some y ->
  let s := fwd (y_world y) in
  (forall id c, fport_senders s !! id = Some c -> is_Some (fport_queues s !! fc_tx c)) /\
  (forall i j c d, fport_senders s !! i = Some c -> fport_senders s !! j = Some d -> fc_tx c = fc_tx d -> i = j) /\
  (forall ch q, rport_listeners s !! ch = Some q -> exists l,
     y_tasks y !! q = Some l /\ l_channel l = ch /\ aborted q (y_world y) = false /\
     (l_phase l = LEnded -> q ∈ y_late y)) /\
  (forall q l, y_tasks y !! q = Some l -> l_phase l <> LEnded -> aborted q (y_world y) = false -> y_inits y !! q = None ->
     alone q l y -> rport_listeners s !! l_channel l = Some q).
Proof.
  intros E s. pose proof (sys_exec_inv wr es _ _ (sys_inv_start w0) E) as V. pose proof (v_wf y V) as (W1 & W2 & W3).
  split_and!; [exact W1|exact W2| |].
  - intros ch q Hc. specialize (W3 _ _ Hc). destruct (task_channel y ch q V W3) as (l & Hl & Hch). exists l.
    split_and!; [done..| |].
    + destruct W3 as (_ & r & lo & Ht). unfold aborted. by rewrite Ht.
    + intros Hp. eapply (v_live y V); [done..|]. unfold ended. by rewrite Hp.
  - intros q l Hl Hp Ha Hi Hal. apply (v_entered y V); try done. unfold ended. by destruct (l_phase l).
Qed.

Section ListenersWitness.
#[local] Existing Instance ToyAead.aead.
#[local] Existing Instance CalmOs.os.

Definition sample_init : TaskMessage := mkTaskMessage 3 ForwardRportInit (lit "tcp:1 tcp:2").
Definition first_task : positive := fresh (∅ : gset positive).
Definition sample_run : list SEvent :=
  [SMsg sample_init 5 9; STask first_task LRun; SRegister first_task;
   SMsg (mkTaskMessage 3 ForwardCheckResult (to_be_bytes 4 9 ++ [1])) 5 0; STask first_task (LMsg (CheckResult 9 true));
   STask first_task (LAccept 40)].
Lemma listeners_registered_while_running_witness : exists y,
  sys_exec (mkSharedWriter 5) sample_run (sys_start start_world) = Some y /\
  rport_listeners (fwd (y_world y)) !! 3 = Some first_task /\
  exists l, y_tasks y !! first_task = Some l /\ l_channel l = 3 /\ l_phase l = LAccepting true.
Proof.
  destruct (sys_exec (mkSharedWriter 5) sample_run (sys_start start_world)) as [y|] eqn:E; [|by vm_compute in E].
  exists y. split; [done|].
  destruct (listeners_registered_while_running (mkSharedWriter 5) start_world sample_run y E) as (_ & _ & _ & H).
  assert (Hl : exists l, y_tasks y !! first_task = Some l /\ l_channel l = 3 /\ l_phase l = LAccepting true /\
    aborted first_task (y_world y) = false /\ y_inits y !! first_task = None /\ y_tasks y = {[first_task := l]}).
  { vm_compute in E. injection E as <-. eexists. by vm_compute. }
  destruct Hl as (l & Hl & Hch & Hp & Ha & Hi & Hs). split; [|by exists l]. rewrite <- Hch. apply H; try done.
  - by rewrite Hp.
  - intros q l' Hq _. rewrite Hs in Hq. by apply lookup_singleton_Some in Hq as [<- _].
Defined.

(** The window between the two steps of [handle_rport_init]: when the first message to the host
    cannot be sent and the task gets there first, its entry is removed before it is made; then
    the channel keeps a listener whose task has ended. *)
Definition broken_world : World := set_link (mkLink ∅ [] (mkWriter [] (Some (0, mkError BrokenPipe (lit "Broken pipe"))))) start_world.
Theorem ended_listener_registered : exists y l,
  sys_exec (mkSharedWriter 5) [SMsg sample_init 5 9; STask first_task LRun; SRegister first_task] (sys_start broken_world) = Some y /\
  rport_listeners (fwd (y_world y)) !! 3 = Some first_task /\ y_tasks y !! first_task = Some l /\ l_phase l = LEnded.
Proof. eexists _, _. split; [vm_compute; reflexivity|]. by vm_compute. Qed.
End ListenersWitness.
