(* ===== verification/DaemonTask.v ===== *)
(** * The daemon's dispatcher and its shell

    [src/hdcd/src/task.rs] ([dispatch_task] and the handlers of the unity
    commands) and [src/hdcd/src/shell.rs] (the bridge of an interactive shell, as
    a state machine).  The conditional compilation is that of Linux; what a
    command prints and whether it can be started is the system's to say. *)

From S2P Require Import Prelude RustStr Config Tlv Serializer Encrypt Transport Daemon DaemonFile DaemonForward.

Section Dispatch.
Context {HA : Aead} {OS : Os}.

Definition trim_quotation_for_cmd (cmd_input : bytes) : bytes :=
  let cmd := trim cmd_input in
  if starts_with [34] cmd && ends_with [34] cmd then
    let cmd := default cmd (strip_prefix [34] cmd) in
    default cmd (strip_suffix [34] cmd)
  else cmd.

Definition echo_raw (channel_id : Z) (data : bytes) : TaskMessage :=
  mkTaskMessage channel_id KernelEchoRaw data.
Definition send_if (wr : SharedWriter) (channel_id : Z) (data : bytes) : M World unit :=
  match data with [] => mret tt | _ => send_shared wr (echo_raw channel_id data) end.

Definition handle_shell (msg : TaskMessage) (session_id : Z) (wr : SharedWriter) : M World unit :=
  match from_utf8 (payload msg) with
  | inl e => lift (Err (mkError InvalidData (lit "invalid utf8: " ++ fmt_utf8_error e)))
  | inr cmd =>
      let cmd := trim_quotation_for_cmd cmd in
      match command_output (lit "sh") [lit "-c"; cmd] with
      | inr output =>
          _ ← send_if wr (channel_id msg) (from_utf8_lossy (cmd_stdout output));
          _ ← send_if wr (channel_id msg) (from_utf8_lossy (cmd_stderr output));
          send_shared wr (channel_close (channel_id msg))
      | inl e =>
          _ ← echo_client (channel_id msg) wr (lit "Execute failed: " ++ e) MessageLevel.LFail;
          send_shared wr (channel_close (channel_id msg))
      end
  end.

Definition handle_interactive_shell (msg : TaskMessage) (session_id : Z) (wr : SharedWriter)
  : M World unit :=
  send_shared wr (echo_raw (channel_id msg) (lit "$ ")).

Definition handle_reboot (msg : TaskMessage) (wr : SharedWriter) : M World unit :=
  _ ← match command_output (lit "reboot") [] with
      | inl e => echo_client (channel_id msg) wr (lit "Reboot failed: " ++ e) MessageLevel.LFail
      | inr _ => mret tt
      end;
  send_shared wr (channel_close (channel_id msg)).

Definition handle_remount (msg : TaskMessage) (wr : SharedWriter) : M World unit :=
  _ ← match command_output (lit "mount") [lit "-o"; lit "remount,rw"; lit "/"] with
      | inr output =>
          if cmd_success output
          then echo_client (channel_id msg) wr (lit "Mount finish") MessageLevel.LOk
          else echo_client (channel_id msg) wr (lit "Mount failed") MessageLevel.LFail
      | inl _ => echo_client (channel_id msg) wr (lit "Mount failed") MessageLevel.LFail
      end;
  send_shared wr (channel_close (channel_id msg)).

Definition handle_runmode (msg : TaskMessage) (wr : SharedWriter) : M World unit :=
  _ ← echo_client (channel_id msg) wr (lit "Runmode: " ++ from_utf8_lossy (payload msg)) MessageLevel.LInfo;
  send_shared wr (channel_close (channel_id msg)).

Definition handle_hilog (msg : TaskMessage) (wr : SharedWriter) : M World unit :=
  help ← lift (if len (payload msg) =? 1 then b ← index 0 (payload msg); mret (b =? 104) else mret false);
  let text := if help : bool then lit "hilog help output..." else lit "hilog output..." in
  _ ← send_shared wr (echo_raw (channel_id msg) text);
  send_shared wr (channel_close (channel_id msg)).

Definition dispatch_task (msg : TaskMessage) (session_id : Z) (wr : SharedWriter) : M World unit :=
  match command msg with
  | KernelHandshake =>
      on_link (DaemonTcp.send_message session_id
                 (mkTaskMessage (channel_id msg) KernelHandshake (lit "OK")))
  | UnityExecute | UnityExecuteEx => handle_shell msg session_id wr
  | ShellInit => handle_interactive_shell msg session_id wr
  | ShellData => mret tt
  | UnityReboot => handle_reboot msg wr
  | UnityRemount => handle_remount msg wr
  | UnityRunmode => handle_runmode msg wr
  | UnityHilog => handle_hilog msg wr
  | FileInit | FileCheck | FileBegin | FileData | FileFinish | FileRecvInit =>
      handle_file_task msg session_id wr
  | AppInit | AppCheck | AppBegin | AppData | AppFinish | AppUninstall =>
      handle_app_task msg session_id wr
  | FlashdCheck | FlashdBegin | FlashdData | FlashdFinish | FlashdErase | FlashdFormat | FlashdProgress =>
      handle_flashd_task msg session_id wr
  | ForwardInit | ForwardCheck | ForwardCheckResult | ForwardActiveSlave | ForwardActiveMaster
  | ForwardData | ForwardFreeContext | ForwardList | ForwardRemove | ForwardSuccess
  | ForwardRportInit | ForwardRportList | ForwardRportRemove =>
      handle_forward_task msg session_id wr
  | HeartbeatMsg => send_shared wr (mkTaskMessage (channel_id msg) HeartbeatMsg (payload msg))
  | KernelChannelClose =>
      known ← handle_channel_close (channel_id msg);
      if known : bool then send_shared wr (channel_close (channel_id msg))
      else
        _ ← send_shared wr (channel_close (channel_id msg));
        throw ConnectionAborted "channel closed"
  | _ => echo_client (channel_id msg) wr (lit "Command not implemented") MessageLevel.LFail
  end.
End Dispatch.

(** ** The interactive shell

    [run_shell_bridge] once the pty and the shell are up: the events of its loop
    are a message of the host, a piece of the shell's output, and both sources
    being closed, where [select!] has no branch left and panics. *)

Record Bridge := mkBridge {
  b_channel : Z; b_session : Z;
  b_to_pty : list bytes;        (** what was handed to the pty's writer, in order *)
  b_ended : bool
}.
Inductive BEvent := BMsg (m : TaskMessage) | BOut (d : bytes) | BClosed.

Section Shell.
Context {HA : Aead} {OS : Os}.

Definition send_echo (wr : SharedWriter) (channel_id : Z) (msg : bytes) : M World unit :=
  send_shared wr (mkTaskMessage channel_id KernelEcho (2 :: msg ++ [13; 10])).

Definition bridge_end (b : Bridge) : Bridge := mkBridge (b_channel b) (b_session b) (b_to_pty b) true.
Definition bridge_step (e : BEvent) (b : Bridge) : M World Bridge :=
  match e with
  | BMsg msg =>
      match command msg with
      | ShellData => mret (mkBridge (b_channel b) (b_session b) (b_to_pty b ++ [payload msg]) false)
      | HeartbeatMsg =>
          _ ← try_ (on_link (DaemonTcp.send_message (b_session b)
                      (mkTaskMessage (b_channel b) HeartbeatMsg (payload msg))));
          mret b
      | KernelChannelClose => mret (bridge_end b)
      | _ => mret b
      end
  | BOut data =>
      sent ← try_ (on_link (DaemonTcp.send_message (b_session b)
                     (mkTaskMessage (b_channel b) ShellData data)));
      match sent with Ok _ => mret b | _ => mret (bridge_end b) end
  | BClosed => lift Panic
  end.
Definition bridge_enabled (e : BEvent) (b : Bridge) : bool := negb (b_ended b).
Definition new_bridge (channel_id session_id : Z) : Bridge := mkBridge channel_id session_id [] false.

(** The part before: [None] for a bridge that did not start.  [open_error] and
    [spawn_error] are the failures of the pty and of the shell, [reader_error]
    that of cloning the pty's reader. *)
Definition start_bridge (open_error spawn_error reader_error : bool) (wr : SharedWriter)
    (channel_id session_id : Z) : M World (option Bridge) :=
  if open_error || spawn_error then
    _ ← try_ (send_echo wr channel_id (lit "Shell initialize failed"));
    mret None
  else if reader_error then mret None
  else mret (Some (new_bridge channel_id session_id)).
End Shell.

(** ** What a handler can end in

    [handled J Q m]: from every state whose connection satisfies [J], the handler
    keeps [J], does not panic, and any error satisfies [Q].  [J] is kept by every
    send, [Q] holds of the errors that are the handlers' own. *)
Create HintDb handled.
Section Handled.
Context {HA : Aead} {OS : Os} (J : Link -> Prop) (Q : Error -> Prop).
Definition handled {A} (m : M World A) : Prop := forall w, J (link w) ->
  J (link (m w).2) /\ match (m w).1 with Ok _ => True | Err e => Q e | Panic => False end.

Context (Hsend : forall sid m l, J l ->
  J (DaemonTcp.send_message sid m l).2 /\
  match (DaemonTcp.send_message sid m l).1 with Ok _ => True | Err e => Q e | Panic => False end).
Context (Hdata : forall text, Q (mkError InvalidData text)).

Lemma handled_bind {A B} (m : M World A) (f : A -> M World B) :
  handled m -> (forall a, handled (f a)) -> handled (m ≫= f).
Proof.
  intros Hm Hf w Hw. rewrite M_bind_eq. specialize (Hm w Hw).
  destruct (m w) as [[a| |] w1]; [|done|done]. apply Hf, Hm.
Qed.
Lemma handled_ret {A} (a : A) : handled (mret a).
Proof. by intros w. Qed.
Lemma handled_value {A} (a : A) : handled (lift (Ok a)).
Proof. by intros w. Qed.
Lemma handled_state : handled get.
Proof. by intros w. Qed.
Lemma handled_on_link sid m : handled (on_link (DaemonTcp.send_message sid m)).
Proof.
  intros w Hw. unfold on_link, zoom. pose proof (Hsend sid m (link w) Hw) as H.
  by destruct (DaemonTcp.send_message sid m (link w)) as [r l].
Qed.
Lemma handled_send wr m : handled (send_shared wr m).
Proof. apply handled_on_link. Qed.
Lemma handled_echo k wr t lv : handled (echo_client k wr t lv).
Proof. apply handled_send. Qed.
Lemma handled_try {A} (m : M World A) : handled m -> handled (try_ m).
Proof. intros Hm w Hw. specialize (Hm w Hw). unfold try_. by destruct (m w) as [[] ?], Hm. Qed.
Lemma handled_modify f : (forall w, link (f w) = link w) -> handled (modify f).
Proof. intros Hf w Hw. simpl. by rewrite Hf. Qed.
Lemma handled_put sid k s : handled (file_map_put sid k s).
Proof. by apply handled_modify. Qed.
Lemma handled_remove sid k : handled (file_map_remove sid k).
Proof. by apply handled_modify. Qed.
Lemma handled_map_get sid k : handled (file_map_get sid k).
Proof. by intros w. Qed.
Lemma handled_new_cell : handled new_cell.
Proof. by intros w. Qed.
Lemma handled_set_cell c h : handled (set_cell c h).
Proof. by apply handled_modify. Qed.
Lemma handled_get_cell c : handled (get_cell c).
Proof. by intros w. Qed.
Lemma handled_create p : handled (File_create p).
Proof. intros w Hw. unfold File_create. by destruct (create_error p). Qed.
Lemma handled_open p : handled (File_open p).
Proof. intros w Hw. unfold File_open. by destruct (open_error p). Qed.
Lemma handled_write c h d : handled (File_write_all c h d).
Proof. intros w Hw. unfold File_write_all. by destruct (write_error _ _ _) as [[]|]. Qed.
Lemma handled_metadata p : handled (metadata_len p).
Proof. intros w Hw. unfold metadata_len. by destruct (fs w !! p). Qed.
Lemma handled_on_fwd f : handled (on_fwd f).
Proof. by apply handled_modify. Qed.
#[local] Hint Resolve handled_bind handled_ret handled_state handled_on_link handled_send handled_echo
  handled_try handled_put handled_remove handled_map_get handled_new_cell handled_set_cell handled_get_cell
  handled_create handled_open handled_write handled_metadata handled_on_fwd : handled.
Ltac by_handled := repeat (apply handled_bind; [by auto with handled|intros]); auto with handled.

(** A read that returned bytes moved on within the file. *)
Lemma File_read_progress h n w d h' w' :
  0 < n -> 0 <= fh_pos h -> File_read h n w = (Ok (inr (d, h')), w') ->
  w' = w /\ fh_path h' = fh_path h /\ 0 <= fh_pos h' /\
  (d <> [] -> fh_pos h < fh_pos h' <= len (default [] (fs w !! fh_path h))).
Proof.
  intros Hn Hp E. unfold File_read in E. destruct (read_error _ _); [done|]. injection E as <- <- <-. simpl.
  set (content := from_option _ _ _). split_and!; try done.
  - repeat case_match; lia.
  - destruct (Z.leb_spec (Z.min n (len content - fh_pos h)) 0).
    + intros Hd. exfalso. apply Hd. unfold slice_raw. rewrite Z.add_0_r, Z.sub_diag. by apply take_0.
    + intros _. lia.
Qed.
Lemma handled_send_loop fuel k wr h w :
  J (link w) -> 0 <= fh_pos h ->
  (Z.to_nat (len (default [] (fs w !! fh_path h)) - fh_pos h) < fuel)%nat ->
  J (link (file_send_loop fuel k wr h w).2) /\
  match (file_send_loop fuel k wr h w).1 with Ok _ => True | Err e => Q e | Panic => False end.
Proof.
  revert h w; induction fuel as [|f IH]; intros h w Hw Hp Hf; [lia|]. cbn [file_send_loop]. rewrite M_bind_eq.
  destruct (File_read h MAX_SIZE_IOBUF w) as [r w1] eqn:Er.
  assert (w1 = w) as -> by (unfold File_read in Er; destruct (read_error _ _); by injection Er).
  destruct r as [[e|[d h']]| |]; [|destruct d as [|b d]|unfold File_read in Er; by destruct (read_error _ _)..].
  - assert (handled (_ ← echo_client k wr (lit "Read failed: " ++ e) MessageLevel.LFail; mret (@None unit)))
      as H by by_handled. by apply H.
  - done.
  - apply File_read_progress in Er as (_ & Ep & Hp' & Hadv); [|done|done]. specialize (Hadv ltac:(done)).
    rewrite M_bind_eq.
    pose proof (handled_try _ (handled_send wr (mkTaskMessage k FileData (b :: d))) w Hw) as H.
    assert (Efs : fs (try_ (send_shared wr (mkTaskMessage k FileData (b :: d))) w).2 = fs w).
    { unfold try_, send_shared, on_link, zoom. by destruct (DaemonTcp.send_message _ _ _) as [[] ?]. }
    destruct (try_ _ w) as [[[[]| |]| |] w1]; try done; try by destruct H.
    apply IH; [by destruct H|done|]. simpl in Efs. rewrite Efs, Ep. ulia.
Qed.
Lemma handled_daemon_send k sid wr p : handled (handle_daemon_file_send k sid wr p).
Proof.
  intros w Hw. unfold handle_daemon_file_send. rewrite M_bind_eq. unfold File_open.
  destruct (open_error p) as [e|]; cbv beta iota.
  - assert (handled (_ ← echo_client k wr (lit "Failed to open file: " ++ e) MessageLevel.LFail;
                     send_shared wr (channel_close k))) as H by by_handled. by apply H.
  - rewrite M_bind_eq. cbn [get]. rewrite M_bind_eq.
    pose proof (handled_send_loop (file_send_fuel p w) k wr (mkFileHandle p 0) w Hw ltac:(done)) as H.
    destruct (file_send_loop _ _ _ _ w) as [[[u|]| |] w1]; try (destruct H as [? []]; cbn; unfold file_send_fuel, len; lia).
    + assert (handled (_ ← send_shared wr (mkTaskMessage k FileFinish []); _ ← send_shared wr (channel_close k);
                       file_map_remove sid k)) as H1 by by_handled.
      apply H1, H. cbn. unfold file_send_fuel, len. lia.
    + split; [|done]. apply H. cbn. unfold file_send_fuel, len. lia.
    + apply H. cbn. unfold file_send_fuel, len. lia.
Qed.
Lemma handled_write_payload st d : handled (write_payload st d).
Proof.
  unfold write_payload. apply handled_bind; [auto with handled|]. intros [h|]; [|auto with handled].
  apply handled_bind; [auto with handled|]. intros [e|]; auto with handled.
Qed.
#[local] Hint Resolve handled_daemon_send handled_write_payload : handled.

Lemma handled_file_paths p : handled (lift (parse_file_paths p)).
Proof. destruct (parse_file_paths_total p) as [r ->]. apply handled_value. Qed.
Lemma handled_file_task msg sid wr : handled (handle_file_task msg sid wr).
Proof.
  unfold handle_file_task. destruct (command msg); auto with handled.
  - unfold handle_file_init. apply handled_bind; [by apply handled_file_paths|]. intros [[]|]; by_handled.
  - unfold handle_file_check.
    destruct (TransferConfig.deserialize (payload msg)) eqn:E; [|auto with handled|].
    + apply handled_bind; [auto with handled|]. intros [st|]; by_handled.
    + by destruct (TransferConfig_total (payload msg)).
  - unfold handle_file_begin. apply handled_bind; [auto with handled|]. intros [st|]; [|auto with handled].
    destruct (direction st); [|auto with handled]. apply handled_bind; [auto with handled|]. intros [e|h]; by_handled.
  - unfold handle_file_data. apply handled_bind; [auto with handled|]. intros [st|]; [|auto with handled].
    destruct (negb _); [auto with handled|]. apply handled_bind; [auto with handled|]. intros [[e|] n]; by_handled.
  - unfold handle_file_finish. apply handled_bind; [auto with handled|]. intros [st|]; by_handled.
  - unfold handle_file_recv_init. apply handled_bind; [by apply handled_file_paths|]. intros [[rp ?]|]; [|auto with handled].
    apply handled_bind; [auto with handled|]. intros [e|n]; by_handled.
Qed.
Lemma handled_bm k wr verb r : handled (echo_bm k wr verb r).
Proof.
  unfold echo_bm, echo_if. destruct r as [e|o]; [auto with handled|].
  apply handled_bind; [case_match; auto with handled|]. intros _.
  apply handled_bind; [case_match; auto with handled|]. intros _. case_match; auto with handled.
Qed.
#[local] Hint Resolve handled_bm : handled.
Lemma handled_app_task msg sid wr : handled (handle_app_task msg sid wr).
Proof.
  unfold handle_app_task. destruct (command msg); auto with handled.
  - unfold handle_app_init. destruct (parse_app_path_total (payload msg)) as [r ->]. apply handled_bind; [by intros w|]. intros [p|]; by_handled.
  - unfold handle_app_check. auto with handled.
  - unfold handle_app_begin. apply handled_bind; [auto with handled|]. intros [st|]; [|auto with handled].
    apply handled_bind; [auto with handled|]. intros [e|h]; by_handled.
  - unfold handle_app_data. apply handled_bind; [auto with handled|]. intros [st|]; [|auto with handled].
    apply handled_bind; [auto with handled|]. intros [[e|] n]; by_handled.
  - unfold handle_app_finish. apply handled_bind; [auto with handled|]. intros [st|]; by_handled.
  - unfold handle_app_uninstall. by_handled.
Qed.
Lemma handled_flashd_task msg sid wr : handled (handle_flashd_task msg sid wr).
Proof. unfold handle_flashd_task. destruct (command msg); try case_match; auto with handled. Qed.

Lemma connect_remote_no_panic spec : connect_remote spec <> Panic.
Proof.
  unfold connect_remote, connect_abstract_socket, connect_to. repeat case_match; done.
Qed.
Lemma start_listener_no_panic spec : start_listener spec <> Panic.
Proof.
  unfold start_listener, listen_abstract_socket, bind_to. repeat case_match; done.
Qed.
Lemma handled_rport_init msg wr : handled (handle_rport_init msg wr).
Proof.
  unfold handle_rport_init, rport_init_spawn. apply handled_bind; [|intros [q|]; auto with handled; by apply handled_on_fwd].
  cbv zeta. case_match eqn:E; [by_handled|]. apply Nat.ltb_ge in E. rewrite !(index_within _ _ []) by lia.
  do 2 (apply handled_bind; [apply handled_value|intros]). match goal with |- context [start_listener ?x] => pose proof (start_listener_no_panic x) as Hn end.
  destruct (start_listener _); [|by_handled|done]. apply handled_bind; [by intros w|]. auto with handled.
Qed.
#[local] Hint Resolve handled_rport_init : handled.
(** What is behind a length test is within the payload. *)
Lemma handled_id p : 4 <= len p -> handled (lift (id_of p)).
Proof. intros. rewrite id_of_ok by done. apply handled_value. Qed.
Lemma handled_from k p : k <= len p -> handled (lift (slice_from k p)).
Proof. intros. rewrite slice_from_ok by done. apply handled_value. Qed.
Ltac behind_test := case_if; [by auto with handled|];
  repeat (apply handled_bind; [by (apply handled_id; lia) || (apply handled_from; lia)|intros]).
Lemma handled_active_slave msg wr : handled (handle_active_slave msg wr).
Proof. unfold handle_active_slave. behind_test. cbv zeta. case_match; by_handled. Qed.
Lemma handled_forward_data msg : handled (handle_forward_data msg).
Proof. unfold handle_forward_data. behind_test. apply handled_bind; [auto with handled|]. intros w. case_match; by_handled. Qed.
Lemma handled_free_context msg : handled (handle_free_context msg).
Proof. unfold handle_free_context. behind_test. auto with handled. Qed.
Lemma handled_to_listener msg r : to_listener msg = Some r -> handled (lift r).
Proof.
  unfold to_listener. destruct (command msg); try done; intros [= <-]; (case_if; [|apply handled_value]);
    rewrite id_of_ok by lia; rewrite bind_Ok; try apply handled_value.
  - rewrite (index_within _ _ 0) by (unfold len in *; lia). apply handled_value.
  - rewrite slice_from_ok by lia. apply handled_value.
Qed.
#[local] Hint Resolve handled_active_slave handled_forward_data handled_free_context : handled.
Lemma handled_forward_task msg sid wr : handled (handle_forward_task msg sid wr).
Proof.
  unfold handle_forward_task. apply handled_bind; [auto with handled|]. intros w.
  destruct (match rport_listeners (fwd w) !! channel_id msg with Some q => _ | None => None end) as [[q r]|] eqn:Er.
  { assert (Hr : to_listener msg = Some r) by (repeat case_match; congruence).
    apply handled_bind; [by eapply handled_to_listener|]. intros [m|]; auto with handled. }
  destruct (command msg); auto with handled. behind_test. cbv zeta. auto with handled.
Qed.
Lemma handled_close k : handled (handle_channel_close k).
Proof. intros w Hw. unfold handle_channel_close. by destruct (rport_listeners (fwd w) !! k). Qed.
Lemma handled_send_if wr k d : handled (send_if wr k d).
Proof. destruct d; simpl; auto with handled. Qed.
Lemma handled_shell msg sid wr : handled (handle_shell msg sid wr).
Proof.
  unfold handle_shell. destruct (from_utf8 _) as [e|cmd].
  - intros w Hw. split; [done|]. apply Hdata.
  - destruct (command_output _ _) as [e|o]; repeat (apply handled_bind; [by auto using handled_send_if with handled|intros]);
      auto with handled.
Qed.

Lemma handled_help p : handled (lift (if len p =? 1 then b ← index 0 p; mret (b =? 104) else mret false)).
Proof. case_if; [|apply handled_value]. rewrite (index_within _ _ 0) by (unfold len in *; lia). apply handled_value. Qed.
Lemma handled_dispatch msg sid wr :
  command msg <> KernelChannelClose -> handled (dispatch_task msg sid wr).
Proof.
  intros Hc. unfold dispatch_task.
  destruct (command msg); try done;
    auto using handled_shell, handled_file_task, handled_app_task, handled_flashd_task, handled_forward_task with handled.
  all: unfold handle_interactive_shell, handle_reboot, handle_remount, handle_runmode, handle_hilog;
    try (apply handled_bind; [apply handled_help|intros]);
    repeat (apply handled_bind; [repeat case_match; by auto with handled|intros]); auto with handled.
Qed.
End Handled.

(** ** The dispatcher *)

Section DispatchFacts.
Context {HA : Aead} {OS : Os}.

Lemma handled_no_panic msg sid wr :
  command msg <> KernelChannelClose -> handled (fun _ => True) (fun _ => True) (dispatch_task msg sid wr).
Proof.
  intros Hc. apply handled_dispatch; [|done|done]. intros sid' m l _. split; [done|].
  pose proof (send_message_outcome sid' m l) as [H _]. by destruct (DaemonTcp.send_message sid' m l).1.
Qed.
Lemma handled_not_aborted msg sid wr :
  command msg <> KernelChannelClose ->
  handled (fun l => w_limit (link_wr l) = None) (fun e => err_kind e <> ConnectionAborted) (dispatch_task msg sid wr).
Proof.
  intros Hc. apply handled_dispatch; [|done|done]. intros sid' m l Hl.
  destruct (send_message_outcome sid' m l) as [H1 H2]. split; [by apply H2|].
  destruct (DaemonTcp.send_message sid' m l).1; [done| |done]. by rewrite H1.
Qed.
End DispatchFacts.

(** C25: no message makes the dispatcher panic, whatever its command and payload,
    the state of the daemon and of the connection, and the system's answers: every index into
    a payload or a list of words, which panics out of range, is behind a test of the length. *)
Theorem dispatch_never_panics {HA : Aead} {OS : Os} msg sid wr w : (dispatch_task msg sid wr w).1 <> Panic.
Proof.
  destruct (decide (command msg = KernelChannelClose)) as [E|E].
  - unfold dispatch_task. rewrite E, M_bind_eq.
    assert (Hs : forall w1, (send_shared wr (channel_close (channel_id msg)) w1).1 <> Panic).
    { intros w1. unfold send_shared, on_link, zoom.
      pose proof (send_message_outcome (sw_session_id wr) (channel_close (channel_id msg)) (link w1)) as [H _].
      by destruct (DaemonTcp.send_message _ _ _) as [[] l]. }
    destruct (handle_channel_close (channel_id msg) w) as [[[]| |] w1] eqn:Ec.
    + apply Hs.
    + rewrite M_bind_eq. specialize (Hs w1). by destruct (send_shared _ _ w1) as [[] ?].
    + done.
    + unfold handle_channel_close in Ec. by destruct (rport_listeners (fwd w) !! channel_id msg).
  - pose proof (handled_no_panic msg sid wr E w I) as [_ H]. by destruct (dispatch_task msg sid wr w).1.
Qed.

(** The session ends through a task only when the host closes a channel that
    has no forward resources.  A close is always answered on the channel; for a
    forward channel the session goes on. *)
Theorem session_ends_on_close {HA : Aead} {HL : AeadLaws HA} {OS : Os} msg sid wr w :
  link_open (sw_session_id wr) (link w) -> u32 (channel_id msg) ->
  (forall e, (dispatch_task msg sid wr w).1 = Err e -> err_kind e = ConnectionAborted ->
     command msg = KernelChannelClose /\ ~ forward_channel (fwd w) (channel_id msg)) /\
  (command msg = KernelChannelClose -> exists r w',
     dispatch_task msg sid wr w = (r, w') /\
     puts (sw_session_id wr) [channel_close (channel_id msg)] w w' /\
     (forward_channel (fwd w) (channel_id msg) -> r = Ok tt) /\
     (~ forward_channel (fwd w) (channel_id msg) -> r = err ConnectionAborted "channel closed")).
Proof.
  intros Ho Hk. assert (Hclose : command msg = KernelChannelClose -> exists r w',
     dispatch_task msg sid wr w = (r, w') /\
     puts (sw_session_id wr) [channel_close (channel_id msg)] w w' /\
     (forward_channel (fwd w) (channel_id msg) -> r = Ok tt) /\
     (~ forward_channel (fwd w) (channel_id msg) -> r = err ConnectionAborted "channel closed")).
  { intros Ec. unfold dispatch_task. rewrite Ec.
    destruct (handle_channel_close_result (channel_id msg) w) as (b & w1 & E1 & Hb & El).
    rewrite (M_bind_Ok _ _ _ _ _ E1). rewrite <- El in Ho.
    destruct (send_shared_sends wr (channel_close (channel_id msg)) w1 Ho) as (w2 & E2 & l & Es & -> & Hl).
    { apply small_sendable; [done|by repeat constructor|done]. }
    assert (Hp : puts (sw_session_id wr) [channel_close (channel_id msg)] w (set_link l w1)).
    { split; [|done]. by rewrite <- El. }
    destruct b.
    - exists (Ok tt), (set_link l w1). split_and!; try done. intros Hn. destruct Hn. by apply Hb.
    - rewrite (M_bind_Ok _ _ _ _ _ E2). eexists _, _. split_and!; [reflexivity|done| |done].
      intros Hf. by apply Hb in Hf. }
  split; [|done]. intros e Ee Hke. destruct (decide (command msg = KernelChannelClose)) as [Ec|Ec].
  - split; [done|]. intros Hf. destruct (Hclose Ec) as (r & w' & E & _ & Hok & _). rewrite E, (Hok Hf) in Ee. done.
  - pose proof (handled_not_aborted msg sid wr Ec w (proj1 Ho)) as [_ H]. by rewrite Ee in H.
Qed.

(** A shell command.  When the shell could be started, the host gets the
    command's output, its error output (each only when there is some) and the
    close of the channel, in this order; when it could not, the reason and the
    close.  Nothing else of the daemon's state changes. *)
Theorem shell_command_replies {HA : Aead} {HL : AeadLaws HA} {OS : Os} msg sid wr w cmd :
  command msg = UnityExecute \/ command msg = UnityExecuteEx ->
  link_open (sw_session_id wr) (link w) -> u32 (channel_id msg) ->
  from_utf8 (payload msg) = inr cmd ->
  let k := channel_id msg in
  let result := command_output (lit "sh") [lit "-c"; trim_quotation_for_cmd cmd] in
  let replies :=
    match result with
    | inr out =>
        map (echo_raw k) (filter (fun t => t <> []) [from_utf8_lossy (cmd_stdout out); from_utf8_lossy (cmd_stderr out)])
    | inl e => [echo_message k (lit "Execute failed: " ++ e) MessageLevel.LFail]
    end ++ [channel_close k] in
  Forall sendable replies ->
  exists w', dispatch_task msg sid wr w = (Ok tt, w') /\ sends (sw_session_id wr) replies w w'.
Proof.
  intros Hc Ho Hk Hu k result replies Hs.
  assert (Hif : forall d w1 (f : unit -> M World unit) ms, link_open (sw_session_id wr) (link w1) ->
    Forall sendable (map (echo_raw k) (filter (fun t => t <> []) [d])) ->
    (forall w2, link_open (sw_session_id wr) (link w2) -> exists w3, f tt w2 = (Ok tt, w3) /\ sends (sw_session_id wr) ms w2 w3) ->
    exists w3, (send_if wr k d ≫= f) w1 = (Ok tt, w3) /\
      sends (sw_session_id wr) (map (echo_raw k) (filter (fun t => t <> []) [d]) ++ ms) w1 w3).
  { intros d w1 f ms Ho1 Hd Hf. rewrite M_bind_eq. destruct d as [|b d]; [by apply Hf|]. apply Forall_cons in Hd as [Hd _].
    destruct (send_shared_sends wr (echo_raw k (b :: d)) w1 Ho1 Hd) as (w2 & E & S). simpl send_if. rewrite E.
    destruct (Hf w2 (sends_open _ _ _ _ S)) as (w3 & E3 & S3). exists w3. split; [done|]. by apply (sends_app _ [_] _ _ w2). }
  assert (Hcl : forall w2, link_open (sw_session_id wr) (link w2) -> exists w3,
    send_shared wr (channel_close k) w2 = (Ok tt, w3) /\ sends (sw_session_id wr) [channel_close k] w2 w3).
  { intros w2 Ho2. apply send_shared_sends; [done|]. by apply Forall_app in Hs as [_ [? _]%Forall_cons]. }
  replace (dispatch_task msg sid wr w) with (handle_shell msg sid wr w) by (unfold dispatch_task; by destruct Hc as [-> | ->]).
  unfold handle_shell. rewrite Hu. fold k. change (command_output _ _) with result. revert replies Hs.
  destruct result as [e|out]; intros replies Hs; apply Forall_app in Hs as [Hs _].
  - apply Forall_cons in Hs as [Hs _]. destruct (send_shared_sends wr _ w Ho Hs) as (w1 & E & S).
    destruct (Hcl w1 (sends_open _ _ _ _ S)) as (w2 & E2 & S2). exists w2.
    unfold echo_client. rewrite (M_bind_Ok _ _ _ _ _ E). split; [done|]. by apply (sends_app _ [_] _ _ w1).
  - unfold replies. change [from_utf8_lossy (cmd_stdout out); from_utf8_lossy (cmd_stderr out)]
      with ([from_utf8_lossy (cmd_stdout out)] ++ [from_utf8_lossy (cmd_stderr out)]) in *.
    rewrite filter_app, map_app, <- app_assoc in *. apply Forall_app in Hs as [Hs1 Hs2].
    apply Hif; [done..|]. intros w2 Ho2. by apply Hif.
Qed.

(** ** The interactive shell *)

Section BridgeFacts.
Context {HA : Aead} {HL : AeadLaws HA} {OS : Os}.

(** What a run sent to the host, and what it handed to the pty. *)
Definition relayed (k : Z) (es : list BEvent) : list TaskMessage :=
  omap (fun e => match e with
                 | BOut d => Some (mkTaskMessage k ShellData d)
                 | BMsg m => if cmd_eqb (command m) HeartbeatMsg then Some (mkTaskMessage k HeartbeatMsg (payload m)) else None
                 | BClosed => None
                 end) es.
Definition typed (es : list BEvent) : list bytes :=
  omap (fun e => match e with
                 | BMsg m => if cmd_eqb (command m) ShellData then Some (payload m) else None
                 | _ => None
                 end) es.
Definition asks_close (e : BEvent) : bool :=
  match e with BMsg m => cmd_eqb (command m) KernelChannelClose | _ => false end.
Definition event_ok (e : BEvent) : Prop :=
  match e with BMsg m => sendable m | BOut d => bytes_ok d /\ len d <= 4096 | BClosed => True end.

Definition bridge_inv (k sid : Z) (w : World) (es : list BEvent) (b : Bridge) (w' : World) : Prop :=
  b_channel b = k /\ b_session b = sid /\ puts sid (relayed k es) w w' /\
  b_to_pty b = typed es /\ b_ended b = existsb asks_close es.

Lemma sendable_as k cmd m : u32 k -> sendable m -> sendable (mkTaskMessage k cmd (payload m)).
Proof. intros Hk [[_ Hb] Hl]. by split. Qed.

Lemma bridge_step_inv k sid w es b w1 e b2 w2 :
  u32 k -> event_ok e -> bridge_inv k sid w es b w1 -> bridge_enabled e b = true ->
  bridge_step e b w1 = (Ok b2, w2) -> bridge_inv k sid w (es ++ [e]) b2 w2.
Proof.
  intros Hk He (H1 & H2 & Hp & Ht & Hend) Hena Est. unfold bridge_enabled in Hena. apply negb_true_iff in Hena.
  unfold bridge_inv, relayed, typed. rewrite !omap_app, existsb_app. fold (relayed k es) (typed es).
  rewrite <- Hend, Hena, <- Ht. destruct b as [ch ss pty en]; simpl in *. clear Hend. subst ch ss en.
  assert (Hsend : forall m, sendable m -> exists w', try_ (on_link (DaemonTcp.send_message sid m)) w1 = (Ok (Ok tt), w') /\
    puts sid (relayed k es ++ [m]) w w').
  { intros m Hm. destruct (try_send (mkSharedWriter sid) m w1 (proj2 Hp) Hm) as (w' & E & Hp' & _).
    exists w'. split; [exact E|]. by eapply puts_app. }
  destruct e as [m|d|]; [|destruct He as [Hb Hl]|done].
  - unfold bridge_step in Est. cbn [b_channel b_session b_to_pty] in Est.
    destruct (Hsend (mkTaskMessage k HeartbeatMsg (payload m)) ltac:(by apply sendable_as)) as (w' & E & Hp').
    assert (Hq : match command m with
      | ShellData => mkBridge k sid (pty ++ [payload m]) false | KernelChannelClose => mkBridge k sid pty true
      | _ => mkBridge k sid pty false end = b2 /\
      match command m with HeartbeatMsg => w2 = w' | _ => w2 = w1 end).
    { assert (Hret : forall x : Bridge, mret (M := M World) x w1 = (Ok b2, w2) -> x = b2 /\ w2 = w1).
      { intros x Hx. by injection Hx. }
      destruct (command m); try (exact (Hret _ Est)).
      rewrite (M_bind_Ok _ _ _ _ _ E) in Est. by injection Est. }
    destruct Hq as [<- Hw]. destruct (command m) eqn:Ec; subst w2; simpl; rewrite Ec; simpl; rewrite ?app_nil_r; done.
  - destruct (Hsend (mkTaskMessage k ShellData d)) as (w' & E & Hp').
    { apply small_sendable; [done|done|lia]. }
    unfold bridge_step in Est. cbn [b_channel b_session b_to_pty] in Est. rewrite (M_bind_Ok _ _ _ _ _ E) in Est.
    injection Est as <- <-. simpl. rewrite app_nil_r. done.
Qed.
End BridgeFacts.

(** The bridge of an interactive shell.  In every run on an open connection the
    host gets the shell's output and an echo of each heartbeat, on the shell's
    channel and in the order they came; the shell gets what the host typed, in
    order; the bridge ends when, and only when, the host closes the channel. *)
Theorem shell_bridge_relays {HA : Aead} {HL : AeadLaws HA} {OS : Os} k sid w es b w' :
  u32 k -> Forall event_ok es -> link_open sid (link w) ->
  run bridge_enabled bridge_step (new_bridge k sid) w es b w' ->
  puts sid (relayed k es) w w' /\ b_to_pty b = typed es /\ b_ended b = existsb asks_close es.
Proof.
  intros Hk He Ho Hrun. assert (Hi : bridge_inv k sid w es b w'); [|by destruct Hi as (_ & _ & ?)].
  revert He. induction Hrun as [|es b1 w1 e b2 w2 _ IH Hena Est]; intros He; [by split_and!|].
  apply Forall_app in He as [He [He1 _]%Forall_cons]. by eapply bridge_step_inv; [..|apply IH| |].
Qed.

Section TaskWitnesses.
#[local] Existing Instance ToyAead.aead.
#[local] Existing Instance ToyAead.laws.
#[local] Existing Instance CalmOs.os.

Lemma start_open sid : link_open sid (link start_world).
Proof. by split. Qed.

Lemma session_ends_on_close_witness : exists w',
  dispatch_task (mkTaskMessage 4 KernelChannelClose []) 5 (mkSharedWriter 5) start_world =
    (err ConnectionAborted "channel closed", w') /\
  puts 5 [channel_close 4] start_world w'.
Proof.
  destruct (session_ends_on_close (mkTaskMessage 4 KernelChannelClose []) 5 (mkSharedWriter 5) start_world)
    as [_ H]; [apply start_open|simpl; ulia|].
  destruct (H eq_refl) as (r & w' & E & Hp & _ & Hn). exists w'. rewrite Hn in E; [by split|].
  intros [[q Hq]|(id & c & Hc & _)]; simpl in *; [by rewrite lookup_empty in Hq|by rewrite lookup_empty in Hc].
Defined.

Lemma shell_command_replies_witness : exists w',
  dispatch_task (mkTaskMessage 4 UnityExecute (lit "ls")) 5 (mkSharedWriter 5) start_world = (Ok tt, w') /\
  sends 5 [channel_close 4] start_world w'.
Proof.
  refine (shell_command_replies (mkTaskMessage 4 UnityExecute (lit "ls")) 5 (mkSharedWriter 5) start_world (lit "ls")
    _ _ _ _ _); [by left|apply start_open|simpl; ulia|by vm_compute|].
  constructor; [|constructor]. apply small_sendable; [simpl; ulia|by repeat constructor|done].
Defined.

Lemma shell_bridge_relays_witness : exists b w',
  puts 5 [mkTaskMessage 4 ShellData (lit "$ "); mkTaskMessage 4 HeartbeatMsg [1]] start_world w' /\
  b_to_pty b = [lit "ls"] /\ b_ended b = true.
Proof.
  destruct (exec bridge_enabled bridge_step
    [BOut (lit "$ "); BMsg (mkTaskMessage 9 ShellData (lit "ls")); BMsg (mkTaskMessage 0 HeartbeatMsg [1]);
     BMsg (mkTaskMessage 4 KernelChannelClose [])] (new_bridge 4 5) start_world) as [[b w']|] eqn:E;
    [|by vm_compute in E].
  exists b, w'. refine (shell_bridge_relays 4 5 start_world _ b w' _ _ (start_open 5) (exec_run _ _ _ _ _ _ _ E)).
  - ulia.
  - repeat constructor; simpl; try apply lit_ok; try (unfold len; simpl; lia); try done; ulia.
Defined.
End TaskWitnesses.
