(* ===== verification/DaemonShell.v ===== *)
(** * The daemon: the tasks of an interactive shell

    [run_shell_bridge] of [src/hdcd/src/shell.rs] with the task that reads the host's
    messages, the threads that read and write the pty, and the channels between them and
    the loop of [DaemonTask.bridge_step].  The steps interleave in any way; a sender of a
    bounded channel holds its item until there is room or the receiver is gone. *)

From S2P Require Import Prelude RustStr Config Tlv Serializer Encrypt Transport Daemon DaemonForward DaemonTask.

(** [mpsc::channel(64)]. *)
Definition CHANNEL_CAPACITY : nat := 64.

(** The loop; the host's messages that are in the channel and in the hand of the reader; the
    same for the shell's output; how far the writer's thread is in the items the loop has
    sent it. *)
Record Shell := mkShell {
  s_bridge : Bridge; s_panicked : bool;
  s_msgs : list TaskMessage; s_msg : option TaskMessage; s_host : bool;
  s_outs : list bytes; s_out : option bytes; s_pty : bool;
  s_taken : nat; s_writer : Writer; s_writing : bool
}.
(** [limit]: how much the pty takes before a write fails. *)
Definition new_shell (channel_id session_id : Z) (limit : option (Z * Error)) : Shell :=
  mkShell (new_bridge channel_id session_id) false [] None true [] None true 0 (mkWriter [] limit) true.
(** The loop is left: its ends of the channels are dropped. *)
Definition over (s : Shell) : bool := b_ended (s_bridge s) || s_panicked s.

Inductive SEvent :=
  | SHostMsg (m : TaskMessage) | SHostGone | SHostPut
  | SPtyRead (d : bytes) | SPtyGone | SPtyPut
  | SLoop (e : BEvent) | SWrite.

Definition set_host (q : list TaskMessage) (m : option TaskMessage) (up : bool) (s : Shell) : Shell :=
  mkShell (s_bridge s) (s_panicked s) q m up (s_outs s) (s_out s) (s_pty s) (s_taken s) (s_writer s) (s_writing s).
Definition set_pty (q : list bytes) (d : option bytes) (up : bool) (s : Shell) : Shell :=
  mkShell (s_bridge s) (s_panicked s) (s_msgs s) (s_msg s) (s_host s) q d up (s_taken s) (s_writer s) (s_writing s).
Definition set_loop (b : Bridge) (panicked : bool) (s : Shell) : Shell :=
  mkShell b panicked (s_msgs s) (s_msg s) (s_host s) (s_outs s) (s_out s) (s_pty s) (s_taken s) (s_writer s) (s_writing s).
Definition set_writer (taken : nat) (o : Writer) (up : bool) (s : Shell) : Shell :=
  mkShell (s_bridge s) (s_panicked s) (s_msgs s) (s_msg s) (s_host s) (s_outs s) (s_out s) (s_pty s) taken o up.

Section Tasks.
Context {HA : Aead} {OS : Os}.

(** What the loop's receivers give up with an event; a panic of the loop ends its task only. *)
Definition take_item (e : BEvent) (s : Shell) : Shell :=
  match e with
  | BMsg _ => set_host (tail (s_msgs s)) (s_msg s) (s_host s) s
  | BOut _ => set_pty (tail (s_outs s)) (s_out s) (s_pty s) s
  | BClosed => s
  end.
Definition shell_step (e : SEvent) (s : Shell) : M World Shell :=
  match e with
  | SHostMsg m => mret (set_host (s_msgs s) (Some m) true s)
  | SHostGone => mret (set_host (s_msgs s) None false s)
  | SHostPut =>
      match s_msg s with
      | Some m => mret (if over s then set_host (s_msgs s) None false s else set_host (s_msgs s ++ [m]) None true s)
      | None => mret s
      end
  | SPtyRead d => mret (set_pty (s_outs s) (Some d) true s)
  | SPtyGone => mret (set_pty (s_outs s) None false s)
  | SPtyPut =>
      match s_out s with
      | Some d => mret (if over s then set_pty (s_outs s) None false s else set_pty (s_outs s ++ [d]) None true s)
      | None => mret s
      end
  | SLoop e => fun w =>
      match bridge_step e (s_bridge s) w with
      | (Ok b, w') => (Ok (set_loop b false (take_item e s)), w')
      | (_, w') => (Ok (set_loop (s_bridge s) true (take_item e s)), w')
      end
  | SWrite =>
      match b_to_pty (s_bridge s) !! s_taken s with
      | Some data =>
          match write_all data (s_writer s) with
          | (Ok _, o) => mret (set_writer (S (s_taken s)) o true s)
          | (_, o) => mret (set_writer (S (s_taken s)) o false s)
          end
      | None => mret (set_writer (s_taken s) (s_writer s) false s)
      end
  end.
Definition room {A} (q : list A) (s : Shell) : bool := over s || (length q <? CHANNEL_CAPACITY)%nat.
Definition shell_enabled (e : SEvent) (s : Shell) : bool :=
  match e with
  | SHostMsg _ | SHostGone => s_host s && bool_decide (s_msg s = None)
  | SHostPut => bool_decide (is_Some (s_msg s)) && room (s_msgs s) s
  | SPtyRead d => s_pty s && bool_decide (s_out s = None) && (0 <? len d) && (len d <=? 4096)
  | SPtyGone => s_pty s && bool_decide (s_out s = None)
  | SPtyPut => bool_decide (is_Some (s_out s)) && room (s_outs s) s
  | SLoop (BMsg m) => negb (over s) && bool_decide (head (s_msgs s) = Some m)
  | SLoop (BOut d) => negb (over s) && bool_decide (head (s_outs s) = Some d)
  | SLoop BClosed => negb (over s) && negb (s_host s) && negb (s_pty s) && bool_decide (s_msgs s = []) && bool_decide (s_outs s = [])
  | SWrite => s_writing s && (bool_decide (is_Some (b_to_pty (s_bridge s) !! s_taken s)) || over s)
  end.
End Tasks.

(** ** What the events of a run say *)

Definition received (es : list SEvent) : list TaskMessage := omap (fun e => match e with SHostMsg m => Some m | _ => None end) es.
Definition shown (es : list SEvent) : list bytes := omap (fun e => match e with SPtyRead d => Some d | _ => None end) es.
Definition turns (es : list SEvent) : list BEvent := omap (fun e => match e with SLoop b => Some b | _ => None end) es.
Definition msgs_of (bs : list BEvent) : list TaskMessage := omap (fun e => match e with BMsg m => Some m | _ => None end) bs.
Definition outs_of (bs : list BEvent) : list bytes := omap (fun e => match e with BOut d => Some d | _ => None end) bs.

Section Facts.
Context {HA : Aead} {HL : AeadLaws HA} {OS : Os}.
Context (k sid : Z) (limit : option (Z * Error)) (w0 : World).
Hypothesis Hk : u32 k.

Definition input_ok (e : SEvent) : Prop := match e with SHostMsg m => sendable m | SPtyRead d => bytes_ok d | _ => True end.

(** A channel between a source that gave [got] and a loop that took [used]. *)
Definition channel_inv {A} (over : bool) (used queue got : list A) (hand : option A) (up : bool) : Prop :=
  (length queue <= CHANNEL_CAPACITY)%nat /\ used ++ queue `prefix_of` got /\ (over = false -> used ++ queue ++ option_list hand = got) /\
  (up = false -> hand = None).
Record shell_inv (es : list SEvent) (s : Shell) (w : World) : Prop := {
  i_loop : DaemonTask.bridge_inv k sid w0 (turns es) (s_bridge s) w;
  i_ok : Forall event_ok (turns es) /\ Forall sendable (received es) /\ Forall (fun d => bytes_ok d /\ len d <= 4096) (shown es);
  i_host : channel_inv (over s) (msgs_of (turns es)) (s_msgs s) (received es) (s_msg s) (s_host s);
  i_pty : channel_inv (over s) (outs_of (turns es)) (s_outs s) (shown es) (s_out s) (s_pty s);
  i_panic : s_panicked s = true -> s_host s = false /\ s_pty s = false /\ s_msgs s = [] /\ s_outs s = [];
  i_taken : (s_taken s <= length (b_to_pty (s_bridge s)))%nat;
  i_out : w_out (s_writer s) `prefix_of` concat (take (s_taken s) (b_to_pty (s_bridge s))) /\
    (s_writing s = true \/ limit = None -> w_out (s_writer s) = concat (take (s_taken s) (b_to_pty (s_bridge s)))) /\
    (limit = None -> w_limit (s_writer s) = None) /\
    (s_writing s = false -> limit = None -> over s = true /\ s_taken s = length (b_to_pty (s_bridge s)))
}.

(** The source gives an item, the sender puts it in, the loop takes one. *)
Lemma channel_give {A} o used queue got up (x : A) : channel_inv o used queue got None up -> channel_inv o used queue (got ++ [x]) (Some x) true.
Proof.
  intros (H1 & H2 & H3 & H4). split_and!; [done|by apply prefix_app_r| |done]. intros Ho. rewrite <- (H3 Ho). by rewrite app_nil_r, <- app_assoc.
Qed.
Lemma channel_put {A} used queue got (x : A) up :
  (length queue < CHANNEL_CAPACITY)%nat -> channel_inv false used queue got (Some x) up -> channel_inv false used (queue ++ [x]) got None true.
Proof.
  intros Hl (H1 & H2 & H3 & H4). specialize (H3 eq_refl). cbn in H3. split_and!; [rewrite length_app; cbn; lia|by rewrite H3|by rewrite app_nil_r|done].
Qed.
Lemma channel_stop {A} used queue got (x : option A) up up' : channel_inv true used queue got x up -> channel_inv true used queue got None up'.
Proof. intros (H1 & H2 & H3 & H4). by split_and!. Qed.
Lemma channel_leave {A} o used queue got up : channel_inv o used queue got (None : option A) up -> channel_inv o used queue got None false.
Proof. intros (H1 & H2 & H3 & H4). by split_and!. Qed.
Lemma channel_take {A} o used queue got hand up (x : A) :
  channel_inv false used (x :: queue) got hand up -> channel_inv o (used ++ [x]) queue got hand up.
Proof.
  intros (H1 & H2 & H3 & H4). cbn in H1. split_and!; [lia|by rewrite <- app_assoc| |done]. intros _. rewrite <- (H3 eq_refl). by rewrite <- app_assoc.
Qed.
Lemma channel_over {A} o used queue got hand up : channel_inv (A := A) false used queue got hand up -> channel_inv o used queue got hand up.
Proof. intros (H1 & H2 & H3 & H4). by split_and!; [..|intros _; apply H3|]. Qed.

(** What an event adds to the histories. *)
Lemma turns_snoc es e : turns (es ++ [e]) = turns es ++ match e with SLoop b => [b] | _ => [] end.
Proof. unfold turns. rewrite omap_app. by destruct e. Qed.
Lemma received_snoc es e : received (es ++ [e]) = received es ++ match e with SHostMsg m => [m] | _ => [] end.
Proof. unfold received. rewrite omap_app. by destruct e. Qed.
Lemma shown_snoc es e : shown (es ++ [e]) = shown es ++ match e with SPtyRead d => [d] | _ => [] end.
Proof. unfold shown. rewrite omap_app. by destruct e. Qed.

(** The reader of the host's messages. *)
Lemma host_inv es s w e s' w' :
  match e with SHostMsg _ | SHostGone | SHostPut => True | _ => False end -> input_ok e ->
  shell_inv es s w -> shell_enabled e s = true -> shell_step e s w = (Ok s', w') -> shell_inv (es ++ [e]) s' w'.
Proof.
  intros He Hin V Hen Est. destruct (i_ok _ _ _ V) as (O1 & O2 & O3). pose proof (i_host _ _ _ V) as Hc.
  assert (Ht : turns (es ++ [e]) = turns es) by (rewrite turns_snoc; destruct e; try done; by rewrite app_nil_r).
  assert (Hs : shown (es ++ [e]) = shown es) by (rewrite shown_snoc; destruct e; try done; by rewrite app_nil_r).
  assert (Hgo : forall q h up, s' = set_host q h up s -> w' = w -> Forall sendable (received (es ++ [e])) ->
    (s_panicked s = true -> up = false /\ q = []) ->
    channel_inv (over s) (msgs_of (turns es)) q (received (es ++ [e])) h up -> shell_inv (es ++ [e]) s' w').
  { intros q h up -> -> Hr Hp Hc'. split; rewrite ?Ht, ?Hs; try (by apply V); try done.
    intros Hpn. destruct (i_panic _ _ _ V Hpn) as (_ & P2 & _ & P4). destruct (Hp Hpn). by split_and!. }
  assert (Hpm : s_panicked s = true -> s_host s = false /\ s_msgs s = []) by (intros H; destruct (i_panic _ _ _ V H); tauto).
  rewrite received_snoc in Hgo. destruct e as [m| | | | | | |]; try done; cbn [shell_step shell_enabled] in *; rewrite ?app_nil_r in Hgo.
  - apply andb_prop in Hen as [Hu Hh%bool_decide_eq_true]. rewrite Hh in Hc. injection Est as <- <-. eapply Hgo; try done.
    + apply Forall_app. split; [done|by constructor].
    + intros H. destruct (Hpm H). congruence.
    + by eapply channel_give.
  - apply andb_prop in Hen as [Hu Hh%bool_decide_eq_true]. rewrite Hh in Hc. injection Est as <- <-. eapply Hgo; try done; [|by eapply channel_leave].
    intros H. destruct (Hpm H). done.
  - apply andb_prop in Hen as [Hh%bool_decide_eq_true Hr]. destruct (s_msg s) as [m|] eqn:Em; [|by destruct Hh].
    assert (Hup : s_panicked s = true -> False).
    { intros H. destruct (Hpm H) as [Hd _]. destruct Hc as (_ & _ & _ & Hc). by specialize (Hc Hd). }
    unfold room in Hr. destruct (over s) eqn:Eo; injection Est as <- <-.
    + eapply Hgo; [reflexivity|done|done|by intros ?%Hup|by eapply channel_stop].
    + apply Nat.ltb_lt in Hr. eapply Hgo; [reflexivity|done|done|by intros ?%Hup|by eapply channel_put].
Qed.
(** The reader of the pty. *)
Lemma pty_inv es s w e s' w' :
  match e with SPtyRead _ | SPtyGone | SPtyPut => True | _ => False end -> input_ok e ->
  shell_inv es s w -> shell_enabled e s = true -> shell_step e s w = (Ok s', w') -> shell_inv (es ++ [e]) s' w'.
Proof.
  intros He Hin V Hen Est. destruct (i_ok _ _ _ V) as (O1 & O2 & O3). pose proof (i_pty _ _ _ V) as Hc.
  assert (Ht : turns (es ++ [e]) = turns es) by (rewrite turns_snoc; destruct e; try done; by rewrite app_nil_r).
  assert (Hs : received (es ++ [e]) = received es) by (rewrite received_snoc; destruct e; try done; by rewrite app_nil_r).
  assert (Hgo : forall q h up, s' = set_pty q h up s -> w' = w -> Forall (fun d => bytes_ok d /\ len d <= 4096) (shown (es ++ [e])) ->
    (s_panicked s = true -> up = false /\ q = []) ->
    channel_inv (over s) (outs_of (turns es)) q (shown (es ++ [e])) h up -> shell_inv (es ++ [e]) s' w').
  { intros q h up -> -> Hr Hp Hc'. split; rewrite ?Ht, ?Hs; try (by apply V); try done.
    intros Hpn. destruct (i_panic _ _ _ V Hpn) as (P1 & _ & P3 & _). destruct (Hp Hpn). by split_and!. }
  assert (Hpm : s_panicked s = true -> s_pty s = false /\ s_outs s = []) by (intros H; destruct (i_panic _ _ _ V H); tauto).
  rewrite shown_snoc in Hgo. destruct e as [| | |d| | | |]; try done; cbn [shell_step shell_enabled] in *; rewrite ?app_nil_r in Hgo.
  - rewrite !andb_true_iff, bool_decide_eq_true, Z.leb_le in Hen. destruct Hen as (((Hu & Hh) & _) & Hl). rewrite Hh in Hc. injection Est as <- <-.
    eapply Hgo; [reflexivity|done|apply Forall_app; split; [done|by repeat constructor]|intros H; destruct (Hpm H); congruence|by eapply channel_give].
  - apply andb_prop in Hen as [Hu Hh%bool_decide_eq_true]. rewrite Hh in Hc. injection Est as <- <-.
    eapply Hgo; [reflexivity|done|done|intros H; by destruct (Hpm H)|by eapply channel_leave].
  - apply andb_prop in Hen as [Hh%bool_decide_eq_true Hr]. destruct (s_out s) as [d|] eqn:Em; [|by destruct Hh].
    assert (Hup : s_panicked s = true -> False).
    { intros H. destruct (Hpm H) as [Hd _]. destruct Hc as (_ & _ & _ & Hc). by specialize (Hc Hd). }
    unfold room in Hr. destruct (over s) eqn:Eo; injection Est as <- <-.
    + eapply Hgo; [reflexivity|done|done|by intros ?%Hup|by eapply channel_stop].
    + apply Nat.ltb_lt in Hr. eapply Hgo; [reflexivity|done|done|by intros ?%Hup|by eapply channel_put].
Qed.

(** The thread that writes to the pty. *)
Lemma writer_inv es s w s' w' :
  shell_inv es s w -> shell_enabled SWrite s = true -> shell_step SWrite s w = (Ok s', w') -> shell_inv (es ++ [SWrite]) s' w'.
Proof.
  intros V Hen Est. cbn [shell_enabled shell_step] in *. apply andb_prop in Hen as [Hw Hen]. destruct (i_out _ _ _ V) as (W1 & W2 & W3 & W4).
  pose proof (i_taken _ _ _ V) as Ht.
  assert (Hgo : forall n o up, s' = set_writer n o up s -> w' = w -> (n <= length (b_to_pty (s_bridge s)))%nat ->
    w_out o `prefix_of` concat (take n (b_to_pty (s_bridge s))) -> (up = true \/ limit = None -> w_out o = concat (take n (b_to_pty (s_bridge s)))) ->
    (limit = None -> w_limit o = None) -> (up = false -> limit = None -> over s = true /\ n = length (b_to_pty (s_bridge s))) -> shell_inv (es ++ [SWrite]) s' w').
  { intros n o up -> -> H1 H2 H3 H4 H5. split; rewrite ?turns_snoc, ?received_snoc, ?shown_snoc, ?app_nil_r; try (by apply V); done. }
  specialize (W2 (or_introl Hw)). destruct (b_to_pty (s_bridge s) !! s_taken s) as [d|] eqn:Ed.
  - pose proof (lookup_lt_Some _ _ _ Ed). assert (Hc : concat (take (S (s_taken s)) (b_to_pty (s_bridge s))) = w_out (s_writer s) ++ d).
    { rewrite (take_S_r _ _ _ Ed), concat_app, W2. cbn. by rewrite app_nil_r. }
    unfold write_all in Est. destruct (w_limit (s_writer s)) as [[n e]|] eqn:El.
    + destruct (len d <=? n); injection Est as <- <-; (eapply Hgo; [reflexivity|done|done|rewrite Hc; cbn|cbn; rewrite Hc|by intros ?%W3|by intros _ ?%W3]).
      * done.
      * done.
      * apply prefix_app, prefix_take.
      * by intros [|?%W3].
    + injection Est as <- <-. eapply Hgo; [reflexivity|done|done|by rewrite Hc|by rewrite Hc|done|done].
  - injection Est as <- <-. apply lookup_ge_None in Ed. rewrite bool_decide_false in Hen by (intros [? ?]; done).
    eapply Hgo; [reflexivity|done|done|by rewrite W2|done|done|]. intros _ _. split; [done|lia].
Qed.

(** The loop. *)
Lemma bridge_goes e b w : e <> BClosed -> exists b2 w2, bridge_step e b w = (Ok b2, w2).
Proof.
  intros He. assert (Hs : forall m, exists r w', try_ (on_link (DaemonTcp.send_message (b_session b) m)) w = (Ok r, w')).
  { intros m. unfold try_, on_link, zoom. destruct (send_message_outcome (b_session b) m (link w)) as [H _].
    destruct (DaemonTcp.send_message _ _ _) as [[|?|] ?]; try done; by eexists _, _. }
  destruct e as [m|d|]; [| |done]; cbn [bridge_step].
  - destruct (command m); try (by eexists _, _). destruct (Hs (mkTaskMessage (b_channel b) HeartbeatMsg (payload m))) as (r & w' & E).
    rewrite (M_bind_Ok _ _ _ _ _ E). by eexists _, _.
  - destruct (Hs (mkTaskMessage (b_channel b) ShellData d)) as (r & w' & E). rewrite (M_bind_Ok _ _ _ _ _ E). destruct r; by eexists _, _.
Qed.
Lemma typed_grows bs e : typed bs `prefix_of` typed (bs ++ [e]).
Proof. unfold typed. rewrite omap_app. by apply prefix_app_r. Qed.
Lemma closed_inv bs b w : DaemonTask.bridge_inv k sid w0 bs b w -> DaemonTask.bridge_inv k sid w0 (bs ++ [BClosed]) b w.
Proof.
  unfold DaemonTask.bridge_inv, relayed, typed. rewrite !omap_app, existsb_app. cbn. by rewrite !app_nil_r, orb_false_r.
Qed.
(** The loop goes on, or is left. *)
Lemma loop_frame es s w e b2 w2 :
  shell_inv es s w -> over s = false -> event_ok e -> bridge_step e (s_bridge s) w = (Ok b2, w2) ->
  DaemonTask.bridge_inv k sid w0 (turns es ++ [e]) b2 w2 /\ (s_taken s <= length (b_to_pty b2))%nat /\
  take (s_taken s) (b_to_pty b2) = take (s_taken s) (b_to_pty (s_bridge s)).
Proof using Hk HL.
  intros V Ho He Est. apply orb_false_iff in Ho as [Ho _]. pose proof (i_loop _ _ _ V) as Hi. pose proof (i_taken _ _ _ V) as Ht.
  assert (Hi' : DaemonTask.bridge_inv k sid w0 (turns es ++ [e]) b2 w2) by (eapply DaemonTask.bridge_step_inv; try done; unfold bridge_enabled; by rewrite Ho).
  split; [done|]. destruct Hi as (_ & _ & _ & T & _), Hi' as (_ & _ & _ & T' & _). rewrite T in Ht |- *. rewrite T'. destruct (typed_grows (turns es) e) as [x ->].
  rewrite length_app. split; [lia|]. by rewrite take_app_le.
Qed.
Lemma channel_item {A} (P : A -> Prop) o used x queue got hand up : channel_inv o used (x :: queue) got hand up -> Forall P got -> P x.
Proof. intros (_ & [rest ->] & _) H. rewrite !Forall_app in H. destruct H as [[_ H] _]. by apply Forall_cons in H as [H _]. Qed.
Lemma loop_inv es s w e s' w' :
  shell_inv es s w -> shell_enabled (SLoop e) s = true -> shell_step (SLoop e) s w = (Ok s', w') -> shell_inv (es ++ [SLoop e]) s' w'.
Proof using Hk HL.
  intros V Hen Est. destruct (i_ok _ _ _ V) as (O1 & O2 & O3). destruct (i_out _ _ _ V) as (W1 & W2 & W3 & W4).
  assert (Ho : over s = false) by (cbn in Hen; destruct (over s); [by destruct e|done]).
  pose proof (i_host _ _ _ V) as Hh. pose proof (i_pty _ _ _ V) as Hp. rewrite Ho in Hh, Hp.
  assert (Hgo : forall b2, bridge_step e (s_bridge s) w = (Ok b2, w') -> s' = set_loop b2 false (take_item e s) -> event_ok e ->
    (forall o, channel_inv o (msgs_of (turns es ++ [e])) (s_msgs (take_item e s)) (received es) (s_msg s) (s_host s)) ->
    (forall o, channel_inv o (outs_of (turns es ++ [e])) (s_outs (take_item e s)) (shown es) (s_out s) (s_pty s)) -> shell_inv (es ++ [SLoop e]) s' w').
  { intros b2 Eb -> He Hh' Hp'. destruct (loop_frame _ _ _ _ _ _ V Ho He Eb) as (Hi & Ht & Htk).
    split; rewrite ?turns_snoc, ?received_snoc, ?shown_snoc, ?app_nil_r.
    - exact Hi.
    - split_and!; try done. apply Forall_app. by split; [|constructor].
    - by destruct e.
    - by destruct e.
    - done.
    - by destruct e.
    - destruct e; cbn; rewrite Htk; split_and!; try done; intros H1 H2; destruct (W4 H1 H2); congruence. }
  cbn [shell_step shell_enabled] in *. rewrite Ho in Hen. cbn [negb andb] in Hen. destruct e as [m|d|].
  - apply bool_decide_eq_true in Hen. destruct (s_msgs s) as [|m' q] eqn:Eq; [done|]. injection Hen as ->.
    destruct (bridge_goes (BMsg m) (s_bridge s) w) as (b2 & w2 & Eb); [done|]. rewrite Eb in Est. injection Est as <- <-.
    eapply (Hgo b2 Eb eq_refl); [by eapply channel_item in Hh| |]; intros o; unfold msgs_of, outs_of; rewrite omap_app; cbn.
    + rewrite Eq. by apply channel_take.
    + rewrite app_nil_r. by apply channel_over.
  - apply bool_decide_eq_true in Hen. destruct (s_outs s) as [|d' q] eqn:Eq; [done|]. injection Hen as ->.
    destruct (bridge_goes (BOut d) (s_bridge s) w) as (b2 & w2 & Eb); [done|]. rewrite Eb in Est. injection Est as <- <-.
    eapply (Hgo b2 Eb eq_refl); [by eapply (channel_item _ _ _ _ _ _ _ _ Hp) in O3| |]; intros o; unfold msgs_of, outs_of; rewrite omap_app; cbn.
    + rewrite app_nil_r. by apply channel_over.
    + rewrite Eq. by apply channel_take.
  - injection Est as <- <-. rewrite !andb_true_iff, !negb_true_iff, !bool_decide_eq_true in Hen. destruct Hen as (((H1 & H2) & H3) & H4).
    split; rewrite ?turns_snoc, ?received_snoc, ?shown_snoc, ?app_nil_r; try (by apply V).
    + apply closed_inv, V.
    + split_and!; try done. apply Forall_app. by split; [|constructor].
    + unfold msgs_of. rewrite omap_app. cbn. rewrite app_nil_r. by apply channel_over.
    + unfold outs_of. rewrite omap_app. cbn. rewrite app_nil_r. by apply channel_over.
    + done.
    + cbn. split_and!; try done; intros H5 H6; destruct (W4 H5 H6); congruence.
Qed.
Lemma shell_step_inv es s w e s' w' :
  input_ok e -> shell_inv es s w -> shell_enabled e s = true -> shell_step e s w = (Ok s', w') -> shell_inv (es ++ [e]) s' w'.
Proof using Hk HL.
  intros He V Hen Est. destruct e; [by eapply host_inv..|by eapply pty_inv|by eapply pty_inv|by eapply pty_inv|by eapply loop_inv|by eapply writer_inv].
Qed.
Lemma new_shell_inv : link_open sid (link w0) -> shell_inv [] (new_shell k sid limit) w0.
Proof using HL.
  intros Ho. split; cbn; try done; try lia; split_and!; try done; cbn; unfold CHANNEL_CAPACITY; lia.
Qed.
Lemma shell_run_inv es s w :
  link_open sid (link w0) -> Forall input_ok es -> run shell_enabled shell_step (new_shell k sid limit) w0 es s w -> shell_inv es s w.
Proof using Hk HL.
  intros Ho Hin Hrun. revert Hin. induction Hrun as [|es s w e s' w' _ IH Hen Est]; intros Hin; [by apply new_shell_inv|].
  apply Forall_app in Hin as [Hin [He _]%Forall_cons]. by eapply shell_step_inv; [..|apply IH| |].
Qed.

(** When host and shell are gone, the loop takes what is left and comes to its end. *)
Lemma loop_comes_to_end n es s w :
  link_open sid (link w0) -> shell_inv es s w -> (length (s_msgs s) + length (s_outs s) = n)%nat -> s_host s = false -> s_pty s = false -> over s = false ->
  exists bs s' w', exec shell_enabled shell_step (map SLoop bs) s w = Some (s', w') /\ (length bs <= S n)%nat /\
    over s' = true /\ (s_panicked s' = true \/ b_ended (s_bridge s') = true).
Proof using Hk HL.
  intros Ho. revert es s w. induction n as [n IH] using lt_wf_ind. intros es s w V Hn Hh Hp Hov.
  assert (Hgo : forall e, shell_enabled (SLoop e) s = true -> e <> BClosed -> (length (s_msgs (take_item e s)) + length (s_outs (take_item e s)) < n)%nat ->
    exists bs s' w', exec shell_enabled shell_step (map SLoop bs) s w = Some (s', w') /\ (length bs <= S n)%nat /\
      over s' = true /\ (s_panicked s' = true \/ b_ended (s_bridge s') = true)).
  { intros e Hen He Hl. destruct (bridge_goes e (s_bridge s) w He) as (b2 & w2 & Eb).
    assert (Est : shell_step (SLoop e) s w = (Ok (set_loop b2 false (take_item e s)), w2)) by (cbn; by rewrite Eb).
    pose proof (loop_inv _ _ _ _ _ _ V Hen Est) as V2. destruct (b_ended b2) eqn:E2.
    - exists [e], (set_loop b2 false (take_item e s)), w2. cbn [map exec]. rewrite Hen, Est. split_and!; [done|cbn; lia|by cbn; unfold over; cbn; rewrite E2|by right].
    - destruct (IH (length (s_msgs (take_item e s)) + length (s_outs (take_item e s)))%nat Hl _ _ _ V2) as (bs & s' & w' & E & Hb & H1 & H2).
      + by destruct e.
      + by destruct e.
      + by destruct e.
      + unfold over. cbn. by rewrite E2.
      + exists (e :: bs), s', w'. cbn [map exec]. rewrite Hen, Est. split_and!; [done|cbn; lia|done|done]. }
  destruct (s_msgs s) as [|m q] eqn:Em.
  - destruct (s_outs s) as [|d q] eqn:Eo.
    + exists [BClosed], (set_loop (s_bridge s) true s), w. cbn [map exec]. unfold shell_enabled. rewrite Hov, Hh, Hp, Em, Eo. cbn.
      split_and!; [done|lia|by unfold over; cbn; rewrite orb_true_r|by left].
    + apply (Hgo (BOut d)); [|done|]; cbn; rewrite ?Hov, Eo; [by rewrite bool_decide_true|]. rewrite Em. cbn in *. lia.
  - apply (Hgo (BMsg m)); [|done|]; cbn; rewrite ?Hov, Em; [by rewrite bool_decide_true|]. cbn in *. lia.
Qed.
End Facts.

(** C26: an interactive shell at the daemon, in every interleaving of its loop, the reader of
    the host's messages and the threads of the pty.  The host is sent the shell's output and
    an echo of its heartbeats, the shell is written what the host typed; each in order and
    from the start.  While the loop runs nothing is lost: what it has not taken is in the
    channels, which hold at most 64 items, or in the hand of their sender.  The thread that
    writes ends only after everything typed is written, unless a write fails.  The loop
    ends when the host closes the channel; when the host and the shell are gone it comes to
    its end too, and if the host has not asked for it by a panic. *)
Theorem interactive_shell_serves {HA : Aead} {HL : AeadLaws HA} {OS : Os} (k sid : Z) (limit : option (Z * Error)) (w0 : World)
    (es : list SEvent) (s : Shell) (w : World) :
  u32 k -> link_open sid (link w0) -> Forall input_ok es -> run shell_enabled shell_step (new_shell k sid limit) w0 es s w ->
  puts sid (relayed k (turns es)) w0 w /\
  msgs_of (turns es) `prefix_of` received es /\ outs_of (turns es) `prefix_of` shown es /\
  w_out (s_writer s) `prefix_of` concat (typed (turns es)) /\
  (length (s_msgs s) <= CHANNEL_CAPACITY)%nat /\ (length (s_outs s) <= CHANNEL_CAPACITY)%nat /\
  (over s = false -> received es = msgs_of (turns es) ++ s_msgs s ++ option_list (s_msg s) /\
                     shown es = outs_of (turns es) ++ s_outs s ++ option_list (s_out s)) /\
  (s_writing s = false -> limit = None -> over s = true /\ w_out (s_writer s) = concat (typed (turns es))) /\
  b_ended (s_bridge s) = existsb asks_close (turns es) /\
  (s_panicked s = true -> s_host s = false /\ s_pty s = false) /\
  (s_host s = false -> s_pty s = false -> over s = false ->
   exists bs s' w', exec shell_enabled shell_step (map SLoop bs) s w = Some (s', w') /\
     (length bs <= S (length (s_msgs s) + length (s_outs s)))%nat /\ over s' = true).
Proof.
  intros Hk Ho Hin Hrun. pose proof (shell_run_inv k sid limit w0 Hk es s w Ho Hin Hrun) as V.
  destruct (i_loop _ _ _ _ _ _ _ V) as (_ & _ & Hputs & Ht & He). destruct (i_host _ _ _ _ _ _ _ V) as (H1 & H2 & H3 & _).
  destruct (i_pty _ _ _ _ _ _ _ V) as (P1 & P2 & P3 & _). destruct (i_out _ _ _ _ _ _ _ V) as (W1 & W2 & W3 & W4). rewrite <- Ht.
  split_and!; try done; try (by eapply prefix_app_l).
  - etransitivity; [exact W1|]. destruct (prefix_take (b_to_pty (s_bridge s)) (s_taken s)) as [x Hx]. rewrite Hx at 2. rewrite concat_app. by eexists.
  - intros Hov. by rewrite (H3 Hov), (P3 Hov).
  - intros Hw Hl. destruct (W4 Hw Hl) as [Hov Hk']. split; [done|]. rewrite W2 by (by right). by rewrite take_ge by lia.
  - intros Hp. by destruct (i_panic _ _ _ _ _ _ _ V Hp) as (? & ? & _).
  - intros Hh Hp Hov. destruct (loop_comes_to_end k sid limit w0 Hk _ es s w Ho V eq_refl Hh Hp Hov) as (bs & s' & w' & E & Hb & Hov' & _). by exists bs, s', w'.
Qed.

Section ShellWitness.
#[local] Existing Instance ToyAead.aead.
#[local] Existing Instance ToyAead.laws.
#[local] Existing Instance CalmOs.os.

(** The host types a command, the shell shows a prompt, and both are gone. *)
Definition shell_events : list SEvent :=
  [SHostMsg (mkTaskMessage 4 ShellData (lit "ls")); SPtyRead (lit "$ "); SHostPut; SPtyPut; SLoop (BOut (lit "$ "));
   SLoop (BMsg (mkTaskMessage 4 ShellData (lit "ls"))); SWrite; SHostGone; SPtyGone].
Lemma interactive_shell_serves_witness : exists s w s' w',
  run shell_enabled shell_step (new_shell 4 5 None) start_world shell_events s w /\ w_out (s_writer s) = lit "ls" /\
  puts 5 [mkTaskMessage 4 ShellData (lit "$ ")] start_world w /\
  exec shell_enabled shell_step [SLoop BClosed] s w = Some (s', w') /\ s_panicked s' = true.
Proof.
  destruct (exec shell_enabled shell_step shell_events (new_shell 4 5 None) start_world) as [[s w]|] eqn:E; [|by vm_compute in E].
  pose proof (exec_run _ _ _ _ _ _ _ E) as Hrun.
  destruct (interactive_shell_serves 4 5 None start_world shell_events s w) as (Hp & _).
  - ulia.
  - apply start_open.
  - repeat constructor; try apply lit_ok; try done; ulia.
  - exact Hrun.
  - exists s, w, (set_loop (s_bridge s) true s), w. split; [exact Hrun|]. split; [by vm_compute in E; injection E as <- <-|]. split; [exact Hp|].
    vm_compute in E. injection E as <- <-. by vm_compute.
Defined.
End ShellWitness.
