(* ===== verification/AuthTlv.v ===== *)
(** * The text buffer of the session handshake

    The entries a host and a daemon put in [SessionHandShake::buf]: [make_tlv],
    [parse_tlv] and [build_host_auth_buf] of [src/hdc/src/server.rs], [parse_tlv],
    [host_supports_encrypt], [extract_host_pubkey] and [build_daemon_auth_buf] of
    [src/hdcd/src/main.rs].  A slice off a character boundary panics, so the
    parsers return a [Result]. *)

From S2P Require Import Prelude RustStr Config.

Definition TLV_TAG_LEN : Z := 16.
Definition TLV_MIN_LEN : Z := 32.

(** [HashMap<String, String>]. *)
Abbreviation TlvMap := (gmap bytes bytes).

(** ** The daemon's parser *)
Module DaemonTlv.
Fixpoint parse_tlv_loop (fuel : nat) (remaining : bytes) (map : TlvMap) : Result TlvMap :=
  match fuel with
  | O => Ok map
  | S f =>
      if len remaining <? TLV_MIN_LEN then Ok map
      else
        tag ← str_slice 0 TLV_TAG_LEN remaining;
        val_len_str ← str_slice TLV_TAG_LEN TLV_MIN_LEN remaining;
        match parse_uint 64 (trim_end val_len_str) with
        | inl _ => Ok map
        | inr val_len =>
            if len remaining <? TLV_MIN_LEN + val_len then Ok map
            else
              val ← str_slice TLV_MIN_LEN (TLV_MIN_LEN + val_len) remaining;
              rest ← str_from (TLV_MIN_LEN + val_len) remaining;
              parse_tlv_loop f rest (<[trim_end tag := val]> map)
        end
  end.
(** Each iteration takes thirty-two bytes or more. *)
Definition parse_tlv (tlv : bytes) : Result TlvMap := parse_tlv_loop (S (length tlv)) tlv ∅.

Definition host_supports_encrypt (buf : bytes) : Result bool :=
  m ← parse_tlv buf;
  Ok (match m !! lit "supportfeatures" with
      | Some v => existsb (fun f => beq f FEATURE_ENCRYPT_TCP) (split_on 44 v)
      | None => false
      end).
Definition extract_host_pubkey (buf : bytes) : Result (option bytes) :=
  m ← parse_tlv buf; Ok (m !! lit "pubkey").
End DaemonTlv.

(** ** The host's parser *)
Module HostTlv.
Fixpoint parse_tlv_loop (fuel : nat) (remaining : bytes) (map : TlvMap) : Result TlvMap :=
  match fuel with
  | O => Ok map
  | S f =>
      if len remaining <? TLV_MIN_LEN then Ok map
      else
        tag ← str_slice 0 TLV_TAG_LEN remaining;
        val_len_str ← str_slice TLV_TAG_LEN TLV_MIN_LEN remaining;
        match parse_uint 64 (trim_end val_len_str) with
        | inl _ => Ok map
        | inr val_len =>
            remaining ← str_from TLV_MIN_LEN remaining;
            if len remaining <? val_len then Ok map
            else
              val ← str_slice 0 val_len remaining;
              rest ← str_from val_len remaining;
              parse_tlv_loop f rest (<[trim_end tag := val]> map)
        end
  end.
Definition parse_tlv (tlv : bytes) : Result TlvMap := parse_tlv_loop (S (length tlv)) tlv ∅.
End HostTlv.

(** ** The writers *)

Definition make_tlv (tag val : bytes) : bytes :=
  pad_right 16 tag ++ pad_right 16 (fmt_dec (len val)) ++ val.

Definition ENV_ENCRYPT_CHANNEL : bytes := lit "OHOS_HDC_ENCRYPT_CHANNEL".
(** [std::env::var(ENV_ENCRYPT_CHANNEL).ok() == Some("1")] *)
Definition encrypt_channel (env : bytes -> option bytes) : bool :=
  bool_decide (env ENV_ENCRYPT_CHANNEL = Some (lit "1")).
Definition features (env : bytes -> option bytes) : bytes :=
  join (lit ",") (FEATURE_HEARTBEAT :: (if encrypt_channel env then [FEATURE_ENCRYPT_TCP] else [])).

(** [pubkey_info] is what [crate::auth::get_public_key_info()] returned. *)
Definition build_host_auth_buf (env : bytes -> option bytes) (pubkey_info : Result bytes) : bytes :=
  make_tlv (lit "authtype") (lit "1") ++
  match pubkey_info with Ok info => make_tlv (lit "pubkey") info | _ => [] end ++
  make_tlv (lit "supportfeatures") (features env).

Definition build_daemon_auth_buf (env : bytes -> option bytes) : bytes :=
  let hostname := match env (lit "HOSTNAME") with
                  | Some h => h
                  | None => default (lit "hdcd-stub") (env (lit "COMPUTERNAME"))
                  end in
  pad_right 16 (lit "devname") ++ pad_right 16 (fmt_dec (len hostname)) ++ hostname ++
  pad_right 16 (lit "supportfeatures") ++ pad_right 16 (fmt_dec (len (features env))) ++ features env.

(** ** The two parsers agree *)

Lemma parse_tlv_loop_eq fuel r m : HostTlv.parse_tlv_loop fuel r m = DaemonTlv.parse_tlv_loop fuel r m.
Proof.
  revert r m; induction fuel as [|f IH]; intros r m; [done|].
  cbn [HostTlv.parse_tlv_loop DaemonTlv.parse_tlv_loop]. case_if; [done|].
  destruct (str_slice 0 TLV_TAG_LEN r) as [tag| |]; [|done|done]. rewrite !bind_Ok.
  destruct (str_slice TLV_TAG_LEN TLV_MIN_LEN r) as [v| |] eqn:Ev; [|done|done]. rewrite !bind_Ok.
  destruct (parse_uint 64 (trim_end v)) as [e|n] eqn:En; [done|].
  apply str_slice_inv in Ev as (Hl & _ & Hb & _).
  assert (Hn : 0 <= n) by (by eapply (parse_uint_range 64)).
  assert (Ed : str_from TLV_MIN_LEN r = Ok (drop (Z.to_nat TLV_MIN_LEN) r)).
  { unfold str_from, str_slice. rewrite Hb.
    assert (is_char_boundary r (len r) = true) as ->.
    { unfold is_char_boundary. by rewrite Z.eqb_refl, orb_true_r. }
    unfold TLV_MIN_LEN, TLV_TAG_LEN in *. tests. simpl. f_equal. unfold slice_raw.
    apply take_ge. rewrite length_drop. unfold len. lia. }
  rewrite Ed, bind_Ok.
  assert (El : len (drop (Z.to_nat TLV_MIN_LEN) r) = len r - TLV_MIN_LEN).
  { unfold len, TLV_MIN_LEN in *. rewrite length_drop. lia. }
  rewrite El. replace (len r - TLV_MIN_LEN <? n) with (len r <? TLV_MIN_LEN + n)
    by (apply Bool.eq_iff_eq_true; rewrite !Z.ltb_lt; lia).
  case_if; [done|]. unfold str_from. rewrite El, !str_slice_drop by (unfold TLV_MIN_LEN in *; lia || done).
  rewrite Z.add_0_r. replace (TLV_MIN_LEN + (len r - TLV_MIN_LEN)) with (len r) by lia.
  destruct (str_slice TLV_MIN_LEN _ r); [|done|done]. rewrite !bind_Ok.
  destruct (str_slice _ (len r) r); [|done|done]. rewrite !bind_Ok. apply IH.
Qed.

(** ** What is written is read *)

Definition tag_ok (tag : bytes) : Prop := ascii tag /\ len tag <= 16 /\ no_trailing_ws tag.
Definition entry_ok (e : bytes * bytes) : Prop :=
  tag_ok e.1 /\ utf8_valid e.2 = true /\ len e.2 < 10 ^ 16.

Lemma pad16 s : ascii s -> len s <= 16 -> len (pad_right 16 s) = 16 /\ ascii (pad_right 16 s).
Proof.
  intros Hs Hl. rewrite pad_right_ascii by done. split.
  - rewrite len_app. unfold len in *. rewrite length_replicate. lia.
  - apply Forall_app. split; [done|]. apply Forall_replicate. lia.
Qed.
Lemma make_tlv_starts tag val s : tag_ok tag -> starts_char (make_tlv tag val ++ s).
Proof.
  intros (Ha & Hl & _). unfold make_tlv. destruct (pad16 tag Ha Hl) as [Hp16 Hp].
  destruct (pad_right 16 tag) as [|b p]; [by unfold len in Hp16|]. inversion Hp; subst. simpl. unfold is_cont, in_rng. by tests.
Qed.
Lemma parse_tlv_step f tag val rest m :
  entry_ok (tag, val) -> starts_char rest ->
  DaemonTlv.parse_tlv_loop (S f) (make_tlv tag val ++ rest) m =
  DaemonTlv.parse_tlv_loop f rest (<[tag := val]> m).
Proof.
  intros ((Ha & Hl & Hw) & Hv & Hvl) Hr. cbn [fst snd] in *.
  pose proof (len_nonneg val) as Hv0. pose proof (len_nonneg rest) as Hr0.
  assert (Hd : digits (fmt_dec (len val))) by (by apply fmt_dec_digits).
  assert (Hdl : len (fmt_dec (len val)) <= 16).
  { unfold fmt_dec, len at 1. pose proof (fmt_dec_go_length 20 (len val) 16 ltac:(lia) ltac:(lia)). lia. }
  destruct (pad16 tag Ha Hl) as [Ht Hta], (pad16 _ (digits_ascii _ Hd) Hdl) as [Hn Hna].
  set (T := pad_right 16 tag) in *. set (N := pad_right 16 (fmt_dec (len val))) in *.
  assert (Hsv : starts_char (val ++ rest)).
  { destruct val; [done|]. apply starts_char_valid in Hv. done. }
  assert (Hsn : starts_char (N ++ val ++ rest)) by (by apply starts_char_ascii).
  assert (Hst : starts_char (T ++ N ++ val ++ rest)) by (by apply starts_char_ascii).
  assert (Emk : make_tlv tag val ++ rest = T ++ N ++ val ++ rest) by (unfold make_tlv; by rewrite <- !app_assoc).
  cbn [DaemonTlv.parse_tlv_loop]. rewrite Emk.
  assert (E0 : str_slice 0 TLV_TAG_LEN (T ++ N ++ val ++ rest) = Ok T).
  { apply (str_slice_mid [] T (N ++ val ++ rest)); try done. }
  rewrite E0, bind_Ok.
  rewrite (str_slice_mid T N (val ++ rest) TLV_TAG_LEN TLV_MIN_LEN), bind_Ok by (unfold TLV_TAG_LEN, TLV_MIN_LEN; done || lia).
  unfold N at 2. rewrite pad_right_ascii by (by apply digits_ascii).
  rewrite trim_end_ascii_pad by (by apply digits_ascii || by apply digits_no_trailing_ws).
  rewrite parse_fmt_dec by lia.
  rewrite (app_assoc T N (val ++ rest)).
  rewrite (str_slice_mid (T ++ N) val rest) by (rewrite ?len_app; unfold TLV_MIN_LEN; done || lia).
  rewrite (app_assoc (T ++ N) val rest).
  rewrite (str_from_app ((T ++ N) ++ val) rest) by (rewrite ?len_app; unfold TLV_MIN_LEN; done || lia).
  rewrite !len_app, Ht, Hn. unfold TLV_MIN_LEN. tests. rewrite !bind_Ok.
  f_equal. f_equal. unfold T. rewrite pad_right_ascii by done. by apply trim_end_ascii_pad.
Qed.

(** The map of a list of entries; a later entry replaces an earlier one. *)
Definition tlv_map (es : list (bytes * bytes)) (m : TlvMap) : TlvMap :=
  fold_left (fun m e => <[e.1 := e.2]> m) es m.
Definition make_tlvs (es : list (bytes * bytes)) : bytes := concat (map (fun e => make_tlv e.1 e.2) es).

Lemma make_tlvs_starts es : Forall entry_ok es -> starts_char (make_tlvs es).
Proof.
  intros H. destruct H as [|[tag val] es [Ht _] _]; [done|]. unfold make_tlvs. simpl. by apply make_tlv_starts.
Qed.
Lemma len_make_tlv tag val : tag_ok tag -> 16 <= len (make_tlv tag val).
Proof.
  intros (Ha & Hl & _). unfold make_tlv. rewrite len_app. destruct (pad16 tag Ha Hl) as [-> _].
  pose proof (len_nonneg (pad_right 16 (fmt_dec (len val)) ++ val)). lia.
Qed.
Lemma parse_tlvs f es m :
  Forall entry_ok es -> (length es < f)%nat ->
  DaemonTlv.parse_tlv_loop f (make_tlvs es) m = Ok (tlv_map es m).
Proof.
  intros H. revert f m; induction H as [|[tag val] es He Hes IH]; intros f m Hf; (destruct f as [|f]; [lia|]).
  - done.
  - change (make_tlvs ((tag, val) :: es)) with (make_tlv tag val ++ make_tlvs es).
    rewrite parse_tlv_step by (done || by apply make_tlvs_starts). apply IH. simpl in Hf. lia.
Qed.
Lemma length_make_tlvs es : Forall entry_ok es -> (length es <= length (make_tlvs es))%nat.
Proof.
  intros H. induction H as [|[tag val] es He Hes IH]; [done|].
  change (make_tlvs ((tag, val) :: es)) with (make_tlv tag val ++ make_tlvs es). rewrite length_app. simpl.
  pose proof (len_make_tlv tag val (proj1 He)) as Hl. unfold len in Hl. lia.
Qed.
Lemma parse_make_tlvs es : Forall entry_ok es -> DaemonTlv.parse_tlv (make_tlvs es) = Ok (tlv_map es ∅).
Proof. intros H. apply parse_tlvs; [done|]. pose proof (length_make_tlvs es H). lia. Qed.
Lemma parse_tlv_eq tlv : HostTlv.parse_tlv tlv = DaemonTlv.parse_tlv tlv.
Proof. apply parse_tlv_loop_eq. Qed.

(** The entries of the two buffers. *)
Definition host_entries (env : bytes -> option bytes) (info : Result bytes) : list (bytes * bytes) :=
  (lit "authtype", lit "1") :: match info with Ok i => [(lit "pubkey", i)] | _ => [] end ++
  [(lit "supportfeatures", features env)].
Definition daemon_hostname (env : bytes -> option bytes) : bytes :=
  match env (lit "HOSTNAME") with Some h => h | None => default (lit "hdcd-stub") (env (lit "COMPUTERNAME")) end.
Definition daemon_entries (env : bytes -> option bytes) : list (bytes * bytes) :=
  [(lit "devname", daemon_hostname env); (lit "supportfeatures", features env)].
Lemma host_buf_entries env info : build_host_auth_buf env info = make_tlvs (host_entries env info).
Proof. unfold build_host_auth_buf, make_tlvs, host_entries. destruct info; simpl; by rewrite ?app_nil_r, <- ?app_assoc. Qed.
Lemma daemon_buf_entries env : build_daemon_auth_buf env = make_tlvs (daemon_entries env).
Proof.
  unfold build_daemon_auth_buf, make_tlvs, daemon_entries, make_tlv. simpl.
  fold (daemon_hostname env). by rewrite ?app_nil_r, <- ?app_assoc.
Qed.
Definition tag_okb (t : bytes) : bool :=
  forallb (in_rng 0 127) t && (len t <=? 16) && match last t with Some b => negb (is_ws [b]) | None => true end.
Lemma tag_okb_ok t : tag_okb t = true -> tag_ok t.
Proof.
  unfold tag_okb. intros [[Ha Hl]%andb_prop Hw]%andb_prop. split_and!; [|lia|].
  - apply Forall_forall. intros b Hb. apply forallb_forall with (x := b) in Ha; [|by apply list_elem_of_In].
    unfold in_rng in Ha. lia.
  - intros l b ->. rewrite last_snoc in Hw. by apply negb_true_iff.
Qed.

(** What the environment and the key file give is text of a usual size. *)
Definition text_ok (s : bytes) : Prop := utf8_valid s = true /\ len s < 10 ^ 16.
Lemma features_ok env : text_ok (features env).
Proof. unfold features. destruct (encrypt_channel env); by vm_compute. Qed.
Lemma host_entries_ok env info :
  (forall i, info = Ok i -> text_ok i) -> Forall entry_ok (host_entries env info).
Proof.
  intros Hi. unfold host_entries. constructor; [by split; [apply tag_okb_ok; vm_compute|vm_compute]|].
  apply Forall_app. split.
  - destruct info as [i| |]; [|constructor|constructor]. constructor; [|constructor].
    split; [by apply tag_okb_ok; vm_compute|by apply Hi].
  - constructor; [|constructor]. split; [by apply tag_okb_ok; vm_compute|apply features_ok].
Qed.
Lemma daemon_entries_ok env : text_ok (daemon_hostname env) -> Forall entry_ok (daemon_entries env).
Proof.
  intros Hh. constructor; [by split; [apply tag_okb_ok; vm_compute|]|]. constructor; [|constructor].
  split; [by apply tag_okb_ok; vm_compute|apply features_ok].
Qed.

Lemma fold_left_cons_app {A B} (f : A -> B -> A) (x y : B) l a :
  fold_left f (x :: l ++ [y]) a = f (fold_left f (x :: l) a) y.
Proof. simpl. by rewrite fold_left_app. Qed.

(** A buffer of ASCII text is cut without a panic. *)
(** The parser stops or panics; it has no errors. *)
Lemma tlv_no_err tlv e : HostTlv.parse_tlv tlv <> Err e.
Proof.
  unfold HostTlv.parse_tlv. generalize (S (length tlv)) as fuel. intros fuel. revert tlv. generalize (∅ : TlvMap) as m.
  assert (Hstr : forall {B} a b s (k : bytes -> Result B), (forall x, k x <> Err e) -> (str_slice a b s ≫= k) <> Err e).
  { intros B a b s k Hk. unfold str_slice. case_match; [apply Hk|done]. }
  induction fuel as [|f IH]; intros m s; [done|]. cbn [HostTlv.parse_tlv_loop]. case_if; [done|].
  apply Hstr. intros tag. apply Hstr. intros n. destruct (parse_uint 64 (trim_end n)); [done|]. apply Hstr. intros r. case_if; [done|].
  apply Hstr. intros v. apply Hstr. intros rest. apply IH.
Qed.
Lemma parse_tlv_ascii s : ascii s -> exists m, HostTlv.parse_tlv s = Ok m.
Proof.
  rewrite parse_tlv_eq. unfold DaemonTlv.parse_tlv. generalize (S (length s)) as fuel. intros fuel. revert s.
  generalize (∅ : TlvMap) as m. induction fuel as [|f IH]; intros m s Hs; [by exists m|]. cbn [DaemonTlv.parse_tlv_loop].
  destruct (Z.ltb_spec (len s) TLV_MIN_LEN) as [|Hl]; [by exists m|]. unfold TLV_MIN_LEN, TLV_TAG_LEN in *.
  rewrite !str_slice_ascii, !bind_Ok by (done || lia).
  destruct (parse_uint 64 _) as [e|n] eqn:En; [by exists m|]. apply parse_uint_range in En as [En _]; [|done]. case_if; [by exists m|].
  unfold str_from. rewrite !str_slice_ascii, !bind_Ok by (done || lia). by apply IH, ascii_slice_raw.
Qed.

(** What the daemon reads in the host's buffer, and the host in the daemon's. *)
Lemma host_buf_read env info :
  (forall i, info = Ok i -> text_ok i) ->
  DaemonTlv.host_supports_encrypt (build_host_auth_buf env info) = Ok (encrypt_channel env) /\
  DaemonTlv.extract_host_pubkey (build_host_auth_buf env info) =
    Ok (match info with Ok i => Some i | _ => None end).
Proof.
  intros Hi. unfold DaemonTlv.host_supports_encrypt, DaemonTlv.extract_host_pubkey.
  rewrite host_buf_entries, !parse_make_tlvs by (by apply host_entries_ok). rewrite !bind_Ok. unfold tlv_map, host_entries.
  split.
  - rewrite fold_left_cons_app, lookup_insert_eq. f_equal. unfold features. by destruct (encrypt_channel env).
  - f_equal. destruct info as [i| |]; cbn [app fold_left fst snd];
      rewrite ?lookup_insert_ne by done; [by rewrite lookup_insert_eq|done|done].
Qed.
Lemma daemon_buf_read denv :
  text_ok (daemon_hostname denv) -> exists m, HostTlv.parse_tlv (build_daemon_auth_buf denv) = Ok m /\
  m !! lit "devname" = Some (daemon_hostname denv).
Proof.
  intros Hh. rewrite parse_tlv_eq, daemon_buf_entries, parse_make_tlvs by (by apply daemon_entries_ok).
  eexists. split; [reflexivity|]. unfold tlv_map, daemon_entries. cbn [fold_left fst snd].
  rewrite lookup_insert_ne by done. by rewrite lookup_insert_eq.
Qed.

(** The handshake's text entries.  The two parsers return the same map on every
    input; and what either side writes, the other reads: the daemon finds the
    host's public key, and its wish for encryption exactly when the variable is
    set, and the host finds the daemon's name. *)
Theorem auth_buffers_understood env denv info :
  (forall i, info = Ok i -> text_ok i) -> text_ok (daemon_hostname denv) ->
  (forall tlv, HostTlv.parse_tlv tlv = DaemonTlv.parse_tlv tlv) /\
  DaemonTlv.host_supports_encrypt (build_host_auth_buf env info) = Ok (encrypt_channel env) /\
  DaemonTlv.extract_host_pubkey (build_host_auth_buf env info) =
    Ok (match info with Ok i => Some i | _ => None end) /\
  (m ← HostTlv.parse_tlv (build_daemon_auth_buf denv); Ok (m !! lit "devname")) = Ok (Some (daemon_hostname denv)).
Proof.
  intros Hi Hh. destruct (host_buf_read env info Hi) as [H1 H2]. destruct (daemon_buf_read denv Hh) as (m & Em & Hm).
  split_and!; [apply parse_tlv_eq|done..|]. by rewrite Em, bind_Ok, Hm.
Qed.

Lemma auth_buffers_understood_witness :
  DaemonTlv.extract_host_pubkey (build_host_auth_buf (fun _ => None) (Ok (lit "host"))) = Ok (Some (lit "host")).
Proof.
  refine (proj1 (proj2 (proj2 (auth_buffers_understood (fun _ => None) (fun _ => None) (Ok (lit "host")) _ _)))).
  - intros i [= <-]. by vm_compute.
  - by vm_compute.
Defined.

(** A handshake buffer is sliced at fixed offsets, whatever characters it
    holds: a valid string with a character across the sixteenth byte makes both
    parsers panic. *)
Theorem parse_tlv_panics :
  exists buf, utf8_valid buf = true /\ DaemonTlv.parse_tlv buf = Panic /\ HostTlv.parse_tlv buf = Panic.
Proof.
  exists (replicate 15 65 ++ [195; 169] ++ replicate 15 65). by vm_compute.
Qed.
