(* ===== verification/RsaAuth.v ===== *)
(** * The keys of the host and the exchange of the session key

    [src/hdc/src/auth.rs] (key files, public key text, decryption of the session
    key) and [encrypt_psk_with_pubkey] of [src/hdcd/src/main.rs].  RSA and base64
    are crates whose code is not part of the repository: they are the interface
    [Rsa], with what their documentation promises as [RsaLaws].  A random source
    is an explicit seed.  The files of the host are a map from paths to contents. *)

From S2P Require Import Prelude RustStr Config.

Definition RSA_PRIKEY_PATH : bytes := lit ".harmony".
Definition RSA_PRIKEY_NAME : bytes := lit "hdckey".

(** A left value is the text of the error. *)
Class Rsa := {
  PrivKey : Type;
  PubKey : Type;
  rsa_new : Z -> bytes + PrivKey;
  pub_of : PrivKey -> PubKey;
  to_pkcs1_pem : PrivKey -> bytes + bytes;
  from_pkcs1_pem : bytes -> bytes + PrivKey;
  from_pkcs8_pem : bytes -> bytes + PrivKey;
  to_public_key_pem : PubKey -> bytes + bytes;
  from_public_key_pem : bytes -> bytes + PubKey;
  oaep_encrypt : Z -> PubKey -> bytes -> bytes + bytes;
  oaep_decrypt : PrivKey -> bytes -> bytes + bytes;
  pss_sign : Z -> PrivKey -> bytes -> bytes;
  b64_encode : bytes -> bytes;
  b64_decode : bytes -> bytes + bytes
}.
Class RsaLaws (HR : Rsa) := {
  pkcs1_roundtrip : forall k p, to_pkcs1_pem k = inr p -> from_pkcs1_pem p = inr k;
  public_roundtrip : forall k p, to_public_key_pem k = inr p -> from_public_key_pem p = inr k;
  (** PEM is ASCII text of printable characters and line feeds *)
  public_pem_text : forall k p, to_public_key_pem k = inr p -> ascii p /\ (HDC_HOST_DAEMON_BUF_SEPARATOR ∉ p) /\ len p < 10 ^ 6;
  pkcs1_pem_text : forall k p, to_pkcs1_pem k = inr p -> ascii p;
  (** what was encrypted with the public key is decrypted with its private key *)
  oaep_roundtrip : forall seed k m c, oaep_encrypt seed (pub_of k) m = inr c -> oaep_decrypt k c = inr m;
  b64_roundtrip : forall b, bytes_ok b -> b64_decode (b64_encode b) = inr b;
  b64_text : forall b, ascii (b64_encode b);
  b64_len : forall b, len (b64_encode b) <= 2 * len b + 4;
  (** a 3072-bit key encrypts to 384 bytes *)
  oaep_len : forall seed k m c, oaep_encrypt seed k m = inr c -> bytes_ok c /\ len c <= 1024
}.

(** ** The host's files *)

Class HostFs := {
  home_var : option bytes;            (** HOME, else USERPROFILE *)
  hostname : option bytes;            (** [gethostname], up to the first zero byte; [None] when it fails *)
  mkdir_error : bytes -> option Error;
  fs_write_error : bytes -> option Error;
  fs_read_error : bytes -> option Error
}.
Abbreviation Files := (gmap bytes bytes).

Section Auth.
Context {HR : Rsa} {HF : HostFs}.

(** [Path::join] of a relative name. *)
Definition path_join (dir name : bytes) : bytes :=
  match last dir with
  | None => name
  | Some 47 => dir ++ name
  | Some _ => dir ++ 47 :: name
  end.
Definition get_user_key_dir : Result bytes :=
  match home_var with
  | Some home => Ok (path_join home RSA_PRIKEY_PATH)
  | None => err NotFound "cannot determine home directory"
  end.
Definition get_private_key_path : Result bytes :=
  dir ← get_user_key_dir; Ok (path_join dir RSA_PRIKEY_NAME).
Definition get_public_key_path : Result bytes :=
  dir ← get_user_key_dir; Ok (path_join dir (RSA_PRIKEY_NAME ++ lit ".pub")).
Definition get_hostname : bytes :=
  match hostname with Some h => from_utf8_lossy h | None => lit "unknown" end.

Definition fs_write (path data : bytes) : M Files unit := fun fs =>
  match fs_write_error path with
  | Some e => (Err e, fs)
  | None => (Ok tt, <[path := data]> fs)
  end.
(** A file that is there, read as text. *)
Definition read_to_string (path : bytes) : M Files bytes := fun fs =>
  match fs_read_error path, fs !! path with
  | Some e, _ => (Err e, fs)
  | None, Some data =>
      if utf8_valid data then (Ok data, fs)
      else (err InvalidData "stream did not contain valid UTF-8", fs)
  | None, None => (err NotFound "No such file or directory (os error 2)", fs)
  end.
Definition crypto {A} (kind : ErrorKind) (what : string) (r : bytes + A) : M Files A :=
  lift (match r with inr a => Ok a | inl e => Err (mkError kind (lit what ++ e)) end).

Definition generate_key_pair (seed : Z) (pri_path pub_path : bytes) : M Files (PrivKey * PubKey) :=
  private_key ← crypto OtherError "RSA key generation failed: " (rsa_new seed);
  let public_key := pub_of private_key in
  _ ← lift (match rsplit_once 47 pri_path with
            | Some (parent, _) => match mkdir_error parent with Some e => Err e | None => Ok tt end
            | None => Ok tt
            end);
  pri_pem ← crypto OtherError "PEM encode private key failed: " (to_pkcs1_pem private_key);
  _ ← fs_write pri_path pri_pem;
  pub_pem ← crypto OtherError "PEM encode public key failed: " (to_public_key_pem public_key);
  _ ← fs_write pub_path pub_pem;
  mret (private_key, public_key).

Definition load_or_generate_keys (seed : Z) : M Files (PrivKey * PubKey) :=
  pri_path ← lift get_private_key_path;
  pub_path ← lift get_public_key_path;
  fs ← get;
  if bool_decide (is_Some (fs !! pri_path)) && bool_decide (is_Some (fs !! pub_path)) then
    pri_pem ← read_to_string pri_path;
    pub_pem ← read_to_string pub_path;
    private_key ← crypto InvalidData "Failed to load private key: "
      (match from_pkcs1_pem pri_pem with inr k => inr k | inl _ => from_pkcs8_pem pri_pem end);
    public_key ← crypto InvalidData "Failed to load public key: " (from_public_key_pem pub_pem);
    mret (private_key, public_key)
  else generate_key_pair seed pri_path pub_path.

Definition get_public_key_info (seed : Z) : M Files bytes :=
  '(_, public_key) ← load_or_generate_keys seed;
  pub_pem ← crypto OtherError "PEM encode public key failed: " (to_public_key_pem public_key);
  mret (get_hostname ++ HDC_HOST_DAEMON_BUF_SEPARATOR :: pub_pem).

Definition rsa_sign_challenge (seed : Z) (challenge : bytes) : M Files bytes :=
  '(private_key, _) ← load_or_generate_keys seed;
  mret (b64_encode (pss_sign seed private_key challenge)).

Definition decrypt_psk (seed : Z) (encrypted : bytes) : M Files bytes :=
  '(private_key, _) ← load_or_generate_keys seed;
  crypto InvalidData "RSA decrypt PSK failed: " (oaep_decrypt private_key encrypted).

(** ** The daemon's side *)
Definition encrypt_psk_with_pubkey (seed : Z) (pubkey_pem psk : bytes) : Result bytes :=
  let pubkey_pem := default pubkey_pem (split_on HDC_HOST_DAEMON_BUF_SEPARATOR pubkey_pem !! 1%nat) in
  match from_public_key_pem pubkey_pem with
  | inl e => Err (mkError InvalidData (lit "Invalid host public key: " ++ e))
  | inr public_key =>
      match oaep_encrypt seed public_key psk with
      | inl e => Err (mkError OtherError (lit "RSA encrypt PSK failed: " ++ e))
      | inr c => Ok c
      end
  end.
End Auth.

(** ** A concrete instance, to show that the laws can hold *)
Module ToyRsa.
Definition hex (b : bytes) : bytes := flat_map (fun x => [65 + (x / 16) mod 16; 65 + x mod 16]) b.
Fixpoint unhex (s : bytes) : bytes + bytes :=
  match s with
  | [] => inr []
  | [_] => inl (lit "Invalid padding")
  | h :: l :: t => match unhex t with inr r => inr (16 * (h - 65) + (l - 65) :: r) | inl e => inl e end
  end.
Definition seal (psk : bytes) : bytes + bytes :=
  if bool_decide (bytes_ok psk /\ len psk <= 1024) then inr psk else inl (lit "message too long").
#[export] Instance rsa : Rsa := {
  PrivKey := unit; PubKey := unit; rsa_new _ := inr tt; pub_of _ := tt;
  to_pkcs1_pem _ := inr (lit "PRIVATE"); from_pkcs1_pem p := if beq p (lit "PRIVATE") then inr tt else inl (lit "bad");
  from_pkcs8_pem _ := inl (lit "bad");
  to_public_key_pem _ := inr (lit "PUBLIC"); from_public_key_pem p := if beq p (lit "PUBLIC") then inr tt else inl (lit "bad");
  oaep_encrypt _ _ m := seal m; oaep_decrypt _ c := inr c; pss_sign _ _ _ := [1];
  b64_encode := hex; b64_decode := unhex
}.
Lemma unhex_hex b : bytes_ok b -> unhex (hex b) = inr b.
Proof.
  intros H. induction H as [|x b Hx Hb IH]; [done|]. simpl. rewrite IH. f_equal. f_equal.
  rewrite (Z.mod_small (x / 16)); [pose proof (Z.div_mod x 16); lia|].
  split; [apply Z.div_pos; ulia|]. apply Z.div_lt_upper_bound; ulia.
Qed.
#[export] Instance laws : RsaLaws rsa.
Proof.
  split; cbn -[hex unhex].
  - intros [] p [= <-]. by vm_compute.
  - intros [] p [= <-]. by vm_compute.
  - intros _ p [= <-]. split_and!; [unfold ascii|..|done]; by apply (bool_decide_unpack _); vm_compute.
  - intros _ p [= <-]. unfold ascii. by apply (bool_decide_unpack _); vm_compute.
  - intros _ k m c. unfold seal. case_bool_decide; intros; simplify_eq. done.
  - apply unhex_hex.
  - intros b. unfold hex. induction b as [|x b IH]; simpl; [constructor|].
    pose proof (Z.mod_pos_bound (x / 16) 16). pose proof (Z.mod_pos_bound x 16). repeat constructor; lia || done.
  - intros b. unfold hex. induction b as [|x b IH]; simpl; [unfold len; simpl; lia|]. rewrite !len_cons. lia.
  - intros _ k m c. unfold seal. case_bool_decide; intros; simplify_eq. done.
Qed.
#[export] Instance files : HostFs := {
  home_var := Some (lit "/root"); hostname := Some (lit "pc"); mkdir_error _ := None;
  fs_write_error _ := None; fs_read_error _ := None
}.
End ToyRsa.

(** ** The key files *)

Section KeyFacts.
Context {HR : Rsa} {HL : RsaLaws HR} {HF : HostFs}.

Lemma path_join_inj dir a b : path_join dir a = path_join dir b -> a = b.
Proof.
  unfold path_join. destruct (last dir) as [x|]; [|done].
  destruct (decide (x = 47)) as [->|Hx]; [by apply app_inj_1|].
  intros E. assert (E' : dir ++ 47 :: a = dir ++ 47 :: b) by (by repeat case_match; simplify_eq).
  by apply app_inv_head in E' as [= ->].
Qed.
Lemma key_paths_differ a b : get_private_key_path = Ok a -> get_public_key_path = Ok b -> a <> b.
Proof.
  unfold get_private_key_path, get_public_key_path. destruct get_user_key_dir as [dir| |]; [|done|done].
  rewrite !bind_Ok. intros [= <-] [= <-] E%path_join_inj. by vm_compute in E.
Qed.
Lemma crypto_inv {A} kind what (r : bytes + A) fs a fs' :
  crypto kind what r fs = (Ok a, fs') -> r = inr a /\ fs' = fs.
Proof. unfold crypto, lift. destruct r; intros; simplify_eq. done. Qed.

Definition readable : Prop := forall p, fs_read_error p = None.
(** The files hold the pair. *)
Definition holds (k : PrivKey) (p : PubKey) (fs : Files) : Prop :=
  forall seed, load_or_generate_keys seed fs = (Ok (k, p), fs).

Lemma read_there path data fs :
  readable -> fs !! path = Some data -> utf8_valid data = true -> read_to_string path fs = (Ok data, fs).
Proof. intros Hr E Hv. unfold read_to_string. by rewrite Hr, E, Hv. Qed.
Lemma fs_write_inv path data fs fs' : fs_write path data fs = (Ok tt, fs') -> fs' = <[path := data]> fs.
Proof. unfold fs_write. by destruct (fs_write_error path); intros; simplify_eq. Qed.

(** Loading from two files that hold the encodings. *)
Lemma load_there seed k p pri pub pem pem' fs :
  readable -> get_private_key_path = Ok pri -> get_public_key_path = Ok pub ->
  fs !! pri = Some pem -> fs !! pub = Some pem' -> to_pkcs1_pem k = inr pem -> to_public_key_pem p = inr pem' ->
  load_or_generate_keys seed fs = (Ok (k, p), fs).
Proof.
  intros Hr E1 E2 F1 F2 P1 P2. unfold load_or_generate_keys.
  rewrite E1, M_bind_eq. cbn [lift]. rewrite E2, M_bind_eq. cbn [lift]. rewrite M_bind_eq. cbn [get].
  rewrite F1, F2, !bool_decide_eq_true_2 by eauto. cbn [andb].
  rewrite (M_bind_Ok _ _ _ _ _ (read_there _ _ _ Hr F1 (ascii_utf8 _ (pkcs1_pem_text _ _ P1)))).
  rewrite (M_bind_Ok _ _ _ _ _ (read_there _ _ _ Hr F2 (ascii_utf8 _ (proj1 (public_pem_text _ _ P2))))).
  rewrite (pkcs1_roundtrip _ _ P1), (public_roundtrip _ _ P2). done.
Qed.

(** A pair that was generated is a pair, and is in the files. *)
Lemma generate_holds seed pri pub k p fs fs' :
  readable -> get_private_key_path = Ok pri -> get_public_key_path = Ok pub ->
  generate_key_pair seed pri pub fs = (Ok (k, p), fs') -> p = pub_of k /\ holds k p fs'.
Proof.
  intros Hr E1 E2 E. unfold generate_key_pair in E.
  apply M_bind_inv in E as (k1 & fs1 & [_ ->]%crypto_inv & E).
  apply M_bind_inv in E as (u & fs2 & Eu & E).
  assert (fs2 = fs) as -> by (unfold lift in Eu; by injection Eu). clear Eu.
  apply M_bind_inv in E as (pem & fs3 & [P1 ->]%crypto_inv & E).
  apply M_bind_inv in E as ([] & fs4 & ->%fs_write_inv & E).
  apply M_bind_inv in E as (pem' & fs5 & [P2 ->]%crypto_inv & E).
  apply M_bind_inv in E as ([] & fs6 & ->%fs_write_inv & E). injection E as -> <- <-.
  split; [done|]. intros s. eapply load_there; [done..| | |done|done].
  - rewrite lookup_insert_ne by (apply not_eq_sym; by apply key_paths_differ). by rewrite lookup_insert_eq.
  - by rewrite lookup_insert_eq.
Qed.

(** A successful call leaves files from which every later call gives the same
    pair. *)
Lemma load_or_generate_holds seed k p fs fs' :
  readable -> load_or_generate_keys seed fs = (Ok (k, p), fs') ->
  holds k p fs' /\ (fs' = fs \/ p = pub_of k).
Proof.
  intros Hr E. pose proof E as E0. unfold load_or_generate_keys in E.
  apply M_bind_inv in E as (pri & fs1 & E1 & E). injection E1 as E1 <-.
  apply M_bind_inv in E as (pub & fs2 & E2 & E). injection E2 as E2 <-.
  rewrite M_bind_eq in E. cbn [get] in E. 
  destruct (bool_decide (is_Some (fs !! pri)) && bool_decide (is_Some (fs !! pub))) eqn:Eb.
  - assert (Hfs : fs' = fs).
    { apply M_bind_inv in E as (pem & fs1 & R1 & E). apply M_bind_inv in E as (pem' & fs2 & R2 & E).
      apply M_bind_inv in E as (k' & fs3 & [_ ->]%crypto_inv & E).
      apply M_bind_inv in E as (p' & fs4 & [_ ->]%crypto_inv & E). injection E as _ _ <-.
      unfold read_to_string in R1, R2. by repeat case_match; simplify_eq. }
    subst fs'. split; [|by left]. intros s. rewrite <- E0. unfold load_or_generate_keys.
    rewrite E1, !M_bind_eq. cbn [lift]. rewrite E2, !M_bind_eq. cbn [lift]. rewrite !M_bind_eq. cbn [get]. by rewrite Eb.
  - destruct (generate_holds _ _ _ _ _ _ _ Hr E1 E2 E) as [Hp Hh]. split; [done|by right].
Qed.
Lemma public_key_info k pem seed fs :
  holds k (pub_of k) fs -> to_public_key_pem (pub_of k) = inr pem ->
  get_public_key_info seed fs = (Ok (get_hostname ++ HDC_HOST_DAEMON_BUF_SEPARATOR :: pem), fs).
Proof.
  intros Hh Ep. unfold get_public_key_info. rewrite (M_bind_Ok _ _ _ _ _ (Hh seed)). cbv beta iota.
  rewrite M_bind_eq. unfold crypto. by rewrite Ep.
Qed.
(** What is encrypted for the public key text is decrypted with the key files. *)
Lemma psk_exchange k pem psk c dseed seed fs :
  (HDC_HOST_DAEMON_BUF_SEPARATOR ∉ get_hostname) -> holds k (pub_of k) fs -> to_public_key_pem (pub_of k) = inr pem ->
  encrypt_psk_with_pubkey dseed (get_hostname ++ HDC_HOST_DAEMON_BUF_SEPARATOR :: pem) psk = Ok c ->
  oaep_encrypt dseed (pub_of k) psk = inr c /\ decrypt_psk seed c fs = (Ok psk, fs).
Proof.
  intros Hsep Hh Ep Ec. destruct (public_pem_text _ _ Ep) as (_ & Hn & _).
  unfold encrypt_psk_with_pubkey in Ec. rewrite split_on_app, (split_on_free _ pem) in Ec by done.
  cbn [lookup list_lookup default from_option id] in Ec. rewrite (public_roundtrip _ _ Ep) in Ec.
  destruct (oaep_encrypt dseed (pub_of k) psk) as [e|c'] eqn:Eo; [done|]. injection Ec as <-. split; [done|].
  unfold decrypt_psk. rewrite (M_bind_Ok _ _ _ _ _ (Hh seed)). cbv beta iota.
  by rewrite (oaep_roundtrip _ _ _ _ Eo).
Qed.
End KeyFacts.

(** C31: the host's keys and the session key.  Once the keys could be loaded or
    made, every later call gives the same pair and leaves the files alone.  So
    the session key that a daemon encrypts for the public key text a host sent is
    the one the host decrypts, for every session key and every seed, provided the
    host's name has no separator in it and the two files are a pair (which they
    are when this program wrote them). *)
Theorem session_key_exchange {HR : Rsa} {HL : RsaLaws HR} {HF : HostFs} seed k p fs fs1 psk c dseed seed2 :
  readable -> (HDC_HOST_DAEMON_BUF_SEPARATOR ∉ get_hostname) ->
  load_or_generate_keys seed fs = (Ok (k, p), fs1) -> (fs1 = fs -> p = pub_of k) ->
  forall info, get_public_key_info seed fs1 = (Ok info, fs1) ->
  encrypt_psk_with_pubkey dseed info psk = Ok c ->
  load_or_generate_keys seed2 fs1 = (Ok (k, p), fs1) /\ decrypt_psk seed2 c fs1 = (Ok psk, fs1).
Proof.
  intros Hr Hsep E Hpair info Ei Ec. destruct (load_or_generate_holds _ _ _ _ _ Hr E) as [Hh Hw].
  assert (Hp : p = pub_of k) by (by destruct Hw; auto). subst p. split; [apply Hh|].
  unfold get_public_key_info in Ei. rewrite (M_bind_Ok _ _ _ _ _ (Hh seed)) in Ei. cbv beta iota in Ei.
  apply M_bind_inv in Ei as (pem & fs2 & [Ep ->]%crypto_inv & Ei). injection Ei as <-.
  exact (proj2 (psk_exchange _ _ _ _ _ _ _ Hsep Hh Ep Ec)).
Qed.

Section KeyWitness.
#[local] Existing Instance ToyRsa.rsa.
#[local] Existing Instance ToyRsa.laws.
#[local] Existing Instance ToyRsa.files.
Definition key_dir : bytes := path_join (lit "/root") RSA_PRIKEY_PATH.
Definition toy_files : Files :=
  <[path_join key_dir (RSA_PRIKEY_NAME ++ lit ".pub") := lit "PUBLIC"]>
    (<[path_join key_dir RSA_PRIKEY_NAME := lit "PRIVATE"]> ∅).
Lemma toy_load : load_or_generate_keys 1 ∅ = (Ok (tt, tt), toy_files).
Proof.
  unfold load_or_generate_keys. rewrite M_bind_eq. cbn [lift]. unfold get_private_key_path, get_user_key_dir, home_var, ToyRsa.files.
  rewrite bind_Ok, M_bind_eq. cbn [lift]. unfold get_public_key_path, get_user_key_dir, home_var.
  rewrite bind_Ok, M_bind_eq. cbn [get]. rewrite lookup_empty. reflexivity.
Qed.
Lemma session_key_exchange_witness : exists c,
  encrypt_psk_with_pubkey 2 (lit "pc" ++ [12] ++ lit "PUBLIC") (replicate 32 7) = Ok c /\
  decrypt_psk 3 c toy_files = (Ok (replicate 32 7), toy_files).
Proof.
  assert (Hr : readable) by done.
  destruct (load_or_generate_holds (HR := ToyRsa.rsa) 1 tt tt ∅ toy_files Hr toy_load) as [Hh _].
  exists (replicate 32 7). assert (Ec : encrypt_psk_with_pubkey 2 (lit "pc" ++ [12] ++ lit "PUBLIC") (replicate 32 7) = Ok (replicate 32 7))
    by reflexivity.
  split; [exact Ec|].
  refine (proj2 (session_key_exchange (HR := ToyRsa.rsa) 1 tt tt ∅ toy_files (replicate 32 7) (replicate 32 7) 2 3 Hr _ toy_load _
    (lit "pc" ++ [12] ++ lit "PUBLIC") _ Ec)).
  - by apply (bool_decide_unpack _); vm_compute.
  - done.
  - unfold get_public_key_info. rewrite (M_bind_Ok _ _ _ _ _ (Hh 1)). reflexivity.
Defined.
End KeyWitness.
