(* ===== verification/DaemonMain.v ===== *)
(** * A connection of the daemon

    [src/hdcd/src/main.rs]: [handle_client], from the first message of a host to
    the end of the connection, [get_daemon_port] and [main].  The random session
    identifier and session key, the seed of the encryption and whether the wait for
    the host's confirmation times out are arguments. *)

From S2P Require Import Prelude RustStr Config Tlv Serializer Encrypt Transport Daemon DaemonFile DaemonForward.
From S2P Require Import Reading DaemonTask AuthTlv RsaAuth.

Definition DAEMON_PORT : Z := 0.

(** How the task of a connection ends: the loop is left, or the connection goes to
    the bridge of an interactive shell. *)
Inductive ClientEnd := Disconnected | ShellStarted (channel_id : Z).

Section Client.
Context {HA : Aead} {OS : Os} {HR : Rsa}.

Definition get_daemon_port : Z :=
  match env_var (lit "HDC_DAEMON_PORT") with
  | Some s => match parse_uint 16 s with inr p => p | inl _ => DAEMON_PORT end
  | None => DAEMON_PORT
  end.

Definition daemon_handshake (auth_type session_id : Z) (connect_key buf : bytes) : SessionHandShake.t :=
  SessionHandShake.mk HANDSHAKE_MESSAGE auth_type session_id connect_key buf
    (get_version ++ lit "47d583e40754ffe6").

(** The reply to the host's handshake, and the session key when one was made. *)
Definition handshake_reply (encrypt_enabled : bool) (psk : bytes) (seed session_id : Z)
    (connect_key host_hs_buf : bytes) : Result (SessionHandShake.t * option bytes) :=
  let plain := daemon_handshake (AuthType.as_u8 AuthType.AuthOk) session_id connect_key
                 (build_daemon_auth_buf env_var) in
  if encrypt_enabled then
    pubkey ← DaemonTlv.extract_host_pubkey host_hs_buf;
    match pubkey with
    | Some pubkey_info =>
        encrypted_psk ← encrypt_psk_with_pubkey seed pubkey_info psk;
        Ok (daemon_handshake AUTH_TYPE_SSL_TLS_PSK session_id connect_key (b64_encode encrypted_psk), Some psk)
    | None => Ok (plain, None)
    end
  else Ok (plain, None).

(** The loop of messages; each takes bytes of the connection. *)
Fixpoint client_loop (fuel : nat) (session_id : Z) : M World ClientEnd :=
  match fuel with
  | O => lift Panic
  | S f =>
      r ← try_ (on_link (DaemonTcp.unpack_task_message session_id));
      match r with
      | Ok msg =>
          if cmd_eqb (command msg) ShellInit then mret (ShellStarted (channel_id msg))
          else
            d ← try_ (dispatch_task msg session_id (mkSharedWriter session_id));
            match d with
            | Err e => if bool_decide (err_kind e = ConnectionAborted) then mret Disconnected
                       else client_loop f session_id
            | _ => client_loop f session_id
            end
      | _ => mret Disconnected
      end
  end.
Definition client_fuel (rd : Stream) : nat := S (length (flat rd) + length rd).

Definition remove_cipher (session_id : Z) : M World unit := on_link (DaemonTcp.remove_session_cipher session_id).

(** The wait for the host's confirmation. *)
Definition await_ack (timeout : bool) (session_id : Z) : M World unit :=
  if timeout then
    _ ← remove_cipher session_id; throw TimedOut "PSK-ACK timeout"
  else
    r ← try_ (on_link (DaemonTcp.unpack_task_message session_id));
    match r with
    | Ok msg =>
        if cmd_eqb (command msg) KernelHandshake then mret tt
        else _ ← remove_cipher session_id; throw InvalidData "PSK-ACK expected"
    | Err e => _ ← remove_cipher session_id; lift (Err e)
    | Panic => lift Panic
    end.

(** The session, connect key and buffer of the host's first message. *)
Definition host_handshake (rnd : Z) (first_msg : TaskMessage) : M World (Z * bytes * bytes) :=
  match SessionHandShake.deserialize (payload first_msg) with
  | Ok hs => mret (SessionHandShake.session_id hs, SessionHandShake.connect_key hs, SessionHandShake.buf hs)
  | Err _ => mret (rnd, [], [])
  | Panic => lift Panic
  end.

(** The answer to the handshake, and the session's cipher once it is out. *)
Definition answer_handshake (encrypt_enabled : bool) (psk : bytes) (seed : Z) (timeout : bool)
    (channel_id session_id : Z) (connect_key host_hs_buf : bytes) : M World Z :=
  '(response_hs, psk_option) ← lift (handshake_reply encrypt_enabled psk seed session_id connect_key host_hs_buf);
  _ ← on_link (DaemonTcp.send_message session_id
        (mkTaskMessage channel_id KernelHandshake (SessionHandShake.serialize response_hs)));
  _ ← match psk_option with
      | Some psk => on_link (DaemonTcp.set_session_cipher session_id (PskCipher_new psk false))
      | None => mret tt
      end;
  _ ← (if encrypt_enabled then await_ack timeout session_id else mret tt);
  mret session_id.

Definition start_client (rnd : Z) (psk : bytes) (seed : Z) (timeout : bool) : M World Z :=
  first_msg ← on_link (DaemonTcp.unpack_task_message 0);
  '(session_id, connect_key, host_hs_buf) ← host_handshake rnd first_msg;
  encrypt_enabled ← lift (if encrypt_channel env_var
                          then DaemonTlv.host_supports_encrypt host_hs_buf else Ok false);
  answer_handshake encrypt_enabled psk seed timeout (channel_id first_msg) session_id connect_key host_hs_buf.

Definition handle_client (rnd : Z) (psk : bytes) (seed : Z) (timeout : bool) : M World ClientEnd :=
  session_id ← start_client rnd psk seed timeout;
  w ← get;
  e ← client_loop (client_fuel (link_rd (link w))) session_id;
  match e with
  | ShellStarted _ => mret e
  | Disconnected => _ ← remove_cipher session_id; mret Disconnected
  end.

(** The process: the version is printed, or the daemon listens and starts a task with
    [handle_client] for each connection until [accept] fails; the end of [accepts] is the
    present. *)
Inductive Started (A : Type) := ShowsVersion (text : bytes) | Listens (addr : bytes) (tasks : list A) (failed : option Error).
Arguments ShowsVersion {A} text.
Arguments Listens {A} addr tasks failed.
Fixpoint accept_loop {A} (accepts : list (Error + A)) : list A * option Error :=
  match accepts with
  | [] => ([], None)
  | inl e :: _ => ([], Some e)
  | inr c :: t => let '(tasks, e) := accept_loop t in (c :: tasks, e)
  end.
Definition main {A} (args : list bytes) (local_addr_error : option Error) (accepts : list (Error + A)) : Result (Started A) :=
  if bool_decide (length args = 2%nat) && bool_decide (args !! 1%nat = Some (lit "-v")) then Ok (ShowsVersion (get_version ++ [10]))
  else
    let addr := lit "0.0.0.0:" ++ fmt_dec get_daemon_port in
    match bind_error addr, local_addr_error with
    | Some e, _ | None, Some e => Err e
    | None, None => let '(tasks, failed) := accept_loop accepts in Ok (Listens addr tasks failed)
    end.
(** The port of the environment is used only when it is a number of 16 bits. *)
Lemma daemon_port_range : 0 <= get_daemon_port < 2 ^ 16.
Proof.
  unfold get_daemon_port. destruct (env_var _) as [s|]; [|done]. destruct (parse_uint 16 s) as [e|p] eqn:E; [done|].
  by apply parse_uint_range in E.
Qed.
End Client.

Section ClientFacts.
Context {HA : Aead} {HL : AeadLaws HA} {OS : Os} {HR : Rsa}.

(** A message read from the connection, with or without a cipher. *)
Lemma unpack_consumes sid l :
  bytes_ok (flat (link_rd l)) ->
  let '(r, l') := DaemonTcp.unpack_task_message sid l in
  bytes_ok (flat (link_rd l')) /\ (weight (link_rd l') <= weight (link_rd l))%nat /\ link_wr l' = link_wr l /\
  (forall s, is_Some (ciphers l' !! s) -> is_Some (ciphers l !! s)) /\
  match r with Ok _ => (weight (link_rd l') < weight (link_rd l))%nat | Err _ => True | Panic => False end.
Proof.
  intros Hb. unfold DaemonTcp.unpack_task_message. rewrite M_bind_eq. cbn [DaemonTcp.get_session_cipher].
  assert (Hrd : forall {A} s (P : A -> Prop) (m : M Stream A) l1, consumes s P m -> bytes_ok (flat (link_rd l1)) ->
    let '(r, l2) := on_rd m l1 in
    bytes_ok (flat (link_rd l2)) /\ (weight (link_rd l2) <= weight (link_rd l1))%nat /\ link_wr l2 = link_wr l1 /\
    ciphers l2 = ciphers l1 /\
    match r with Ok a => P a /\ (s = true -> weight (link_rd l2) < weight (link_rd l1))%nat | Err _ => True | Panic => False end).
  { intros A s P m l1 Hm Hb1. unfold on_rd, zoom. specialize (Hm _ Hb1). destruct (m (link_rd l1)) as [r rd']. destruct Hm as (? & ? & ?). by split_and!. }
  rewrite M_bind_eq. destruct (ciphers l !! sid) as [c|] eqn:Ec.
  - rewrite M_bind_eq. pose proof (Hrd _ _ _ _ l (read_frame_consumes 4 ltac:(lia)) Hb) as H4.
    destruct (on_rd (DaemonTcp.read_frame 4) l) as [[lb|e|] l1]; destruct H4 as (Hb1 & Hw1 & Ewr1 & Ec1 & H4);
      [|split_and!; try done; by rewrite Ec1|done].
    destruct H4 as [[Hlb Hl4] Hlt]. specialize (Hlt eq_refl). rewrite M_bind_eq.
    assert (Hn : 0 <= from_be_bytes (slice_raw 0 4 lb)).
    { apply from_be_bytes_range. auto with hdc. }
    pose proof (Hrd _ _ _ _ l1 (read_frame_consumes _ Hn) Hb1) as Hct.
    destruct (on_rd (DaemonTcp.read_frame _) l1) as [[ct|e|] l2]; destruct Hct as (Hb2 & Hw2 & Ewr2 & Ec2 & Hct);
      [|split_and!; try done; [lia|congruence|by rewrite Ec2, Ec1]|done].
    unfold on_cipher. pose proof (decrypt_bytes ct c) as Hd.
    destruct (decrypt ct c) as [[p|e|] c']; cbn [fst] in Hd; [| |by destruct Hd].
    + destruct Hd as [_ Hp]. specialize (Hp p eq_refl). cbn [lift].
      split_and!; cbn [link_rd link_wr ciphers]; [done|lia|congruence| |].
      * intros s Hs. apply lookup_insert_is_Some in Hs as [->|[_ Hs]]; [by rewrite Ec|]. by rewrite <- Ec1, <- Ec2.
      * pose proof (unpack_task_message_no_panic p Hp) as Hnp. destruct (unpack_task_message p); [lia|done|done].
    + split_and!; cbn [link_rd link_wr ciphers]; [done|lia|congruence| |done].
      intros s Hs. apply lookup_insert_is_Some in Hs as [->|[_ Hs]]; [by rewrite Ec|]. by rewrite <- Ec1, <- Ec2.
  - pose proof (Hrd _ _ _ _ l recv_raw_frame_consumes Hb) as Hf.
    destruct (on_rd DaemonTcp.recv_raw_frame l) as [[fr|e|] l1]; destruct Hf as (Hb1 & Hw1 & Ewr1 & Ec1 & Hf);
      [|split_and!; try done; by rewrite Ec1|done].
    destruct Hf as [Hfr Hlt]. specialize (Hlt eq_refl). cbn [lift]. split_and!; try done; [by rewrite Ec1|].
    pose proof (unpack_task_message_no_panic fr Hfr) as Hnp. by destruct (unpack_task_message fr).
Qed.

(** Dispatching leaves what is still to be read alone. *)
Lemma dispatch_keeps_input msg sid wr w :
  (dispatch_task msg sid wr w).1 <> Panic /\ link_rd (link (dispatch_task msg sid wr w).2) = link_rd (link w).
Proof.
  set (J := fun l => link_rd l = link_rd (link w)).
  assert (Hsend : forall s m l, J l -> J (DaemonTcp.send_message s m l).2 /\
    match (DaemonTcp.send_message s m l).1 with Ok _ => True | Err e => True | Panic => False end).
  { intros s m l Hl. split; [|pose proof (send_message_outcome s m l) as [H _]; by destruct (DaemonTcp.send_message s m l).1].
    unfold J. rewrite <- Hl. apply send_message_rd. }
  destruct (decide (command msg = KernelChannelClose)) as [E|E].
  - unfold dispatch_task. rewrite E, M_bind_eq.
    destruct (handle_channel_close_result (channel_id msg) w) as (b & w1 & E1 & _ & El). rewrite E1.
    pose proof (handled_send J (fun _ => True) Hsend wr (channel_close (channel_id msg)) w1) as Hs.
    specialize (Hs ltac:(unfold J; by rewrite El)). destruct b.
    + destruct (send_shared _ _ w1) as [[] w2]; by destruct Hs.
    + rewrite M_bind_eq. destruct (send_shared _ _ w1) as [[] w2]; by destruct Hs.
  - destruct (handled_dispatch J (fun _ => True) Hsend ltac:(done) msg sid wr E w eq_refl) as [H1 H2].
    split; [|exact H1]. by destruct (dispatch_task msg sid wr w).1.
Qed.

(** The loop ends, whatever the host sends. *)
Lemma client_loop_ends fuel sid w :
  bytes_ok (flat (link_rd (link w))) -> (weight (link_rd (link w)) < fuel)%nat ->
  exists e w', client_loop fuel sid w = (Ok e, w').
Proof.
  revert w; induction fuel as [|f IH]; intros w Hb Hf; [lia|]. cbn [client_loop]. rewrite M_bind_eq.
  unfold try_ at 1, on_link at 1, zoom at 1. pose proof (unpack_consumes sid (link w) Hb) as Hu.
  destruct (DaemonTcp.unpack_task_message sid (link w)) as [[m|e|] l]; destruct Hu as (Hb1 & Hw1 & _ & _ & Hr);
    [|by eexists _, _|done]. cbv beta iota.
  destruct (cmd_eqb (command m) ShellInit); [by eexists _, _|]. rewrite M_bind_eq. unfold try_ at 1.
  destruct (dispatch_keeps_input m sid (mkSharedWriter sid) (set_link l w)) as [Hn Erd]. cbn [link set_link] in Erd.
  destruct (dispatch_task m sid (mkSharedWriter sid) (set_link l w)) as [[[]|e|] w2]; cbn [fst snd] in *; [| |done].
  - apply IH; rewrite Erd; [done|lia].
  - case_bool_decide; [by eexists _, _|]. apply IH; rewrite Erd; [done|lia].
Qed.
End ClientFacts.

Section ClientTheorems.
Context {HA : Aead} {HL : AeadLaws HA} {OS : Os} {HR : Rsa}.

(** What the start of a connection leaves: the input is bytes still, and a cipher
    is registered only when the start succeeded. *)
Lemma on_link_cases {A} (m : M Link A) w : on_link m w = ((m (link w)).1, set_link (m (link w)).2 w).
Proof. unfold on_link, zoom. by destruct (m (link w)). Qed.
Lemma send_message_ciphers sid m l s :
  is_Some (ciphers (DaemonTcp.send_message sid m l).2 !! s) -> is_Some (ciphers l !! s).
Proof.
  unfold DaemonTcp.send_message. rewrite M_bind_eq. cbn [DaemonTcp.get_session_cipher].
  destruct (ciphers l !! sid) as [c|] eqn:Ec; rewrite M_bind_eq.
  - unfold on_cipher. destruct (encrypt (concat_pack m) c) as [[ct|e|] c'].
    + rewrite M_bind_eq.
      match goal with |- context [on_wr (write_all ?d) ?l1] => destruct (on_wr_outcome d l1) as (o & Hr & Eo & _);
        destruct (on_wr (write_all d) l1) as [r1 l2] end.
      cbn [fst snd] in *. subst l2. assert (Hs : forall o', is_Some (ciphers (mkLink (<[sid:=c']> (ciphers l)) (link_rd l) o') !! s) -> is_Some (ciphers l !! s)).
      { intros o' H. cbn [ciphers] in H. apply lookup_insert_is_Some in H as [->|[_ H]]; [by rewrite Ec|done]. }
      destruct Hr as [->|(Hn & e & ->)]; [|by apply (Hs o)]. rewrite M_bind_eq.
      match goal with |- context [on_wr (write_all ?d) ?l1] => destruct (on_wr_outcome d l1) as (o' & Hr & Eo & _);
        destruct (on_wr (write_all d) l1) as [r1 l2] end.
      cbn [fst snd] in *. subst l2. destruct Hr as [->|(Hn & e & ->)]; by apply (Hs o').
    + cbn. intros H. apply lookup_insert_is_Some in H as [->|[_ H]]; [by rewrite Ec|done].
    + cbn. intros H. apply lookup_insert_is_Some in H as [->|[_ H]]; [by rewrite Ec|done].
  - destruct (on_wr_outcome (concat_pack m) l) as (o & Hr & Eo & _).
    destruct (on_wr (write_all (concat_pack m)) l) as [r1 l2]. cbn [fst snd] in *. subst l2.
    by destruct Hr as [->|(Hn & e & ->)].
Qed.

(** [keeps m]: bytes stay bytes, no cipher of a new session appears, and any error
    is returned as a value. *)
Definition keeps {A} (m : M World A) : Prop := forall w, bytes_ok (flat (link_rd (link w))) ->
  (m w).1 <> Panic /\ bytes_ok (flat (link_rd (link (m w).2))) /\
  forall s, is_Some (ciphers (link (m w).2) !! s) -> is_Some (ciphers (link w) !! s).
Lemma keeps_bind' {A B} (m : M World A) (f : A -> M World B) :
  keeps m -> (forall a, keeps (f a)) -> keeps (m ≫= f).
Proof.
  intros Hm Hf w Hb. rewrite M_bind_eq. destruct (Hm w Hb) as (H1 & H2 & H3).
  destruct (m w) as [[a|e|] w1]; [|done|done]. destruct (Hf a w1 H2) as (F1 & F2 & F3). split_and!; auto.
Qed.
Lemma keeps_ret' {A} (a : A) : keeps (mret a).
Proof. by intros w. Qed.
Lemma keeps_lift' {A} (r : Result A) : r <> Panic -> keeps (lift r).
Proof. by intros Hr w. Qed.
Lemma keeps_try' {A} (m : M World A) : keeps m -> keeps (try_ m).
Proof. intros Hm w Hb. destruct (Hm w Hb) as (H1 & H2 & H3). unfold try_. by destruct (m w) as [[] ?]. Qed.
Lemma keeps_unpack sid : keeps (on_link (DaemonTcp.unpack_task_message sid)).
Proof.
  intros w Hb. rewrite on_link_cases. pose proof (unpack_consumes sid (link w) Hb) as H.
  destruct (DaemonTcp.unpack_task_message sid (link w)) as [r l]. destruct H as (H1 & _ & _ & H2 & H3).
  split_and!; [by destruct r|done..].
Qed.
Lemma keeps_send' sid m : keeps (on_link (DaemonTcp.send_message sid m)).
Proof.
  intros w Hb. rewrite on_link_cases. split_and!; cbn [fst snd link set_link].
  - pose proof (send_message_outcome sid m (link w)) as [H _]. by destruct (DaemonTcp.send_message sid m (link w)).1.
  - by rewrite send_message_rd.
  - apply send_message_ciphers.
Qed.
Lemma keeps_remove sid : keeps (remove_cipher sid).
Proof. intros w Hb. split_and!; try done. simpl. intros s [x [_ Hx]%lookup_delete_Some]. eauto. Qed.

Lemma keeps_host_handshake rnd m : keeps (host_handshake rnd m).
Proof.
  unfold host_handshake. pose proof (proj1 (SessionHandShake_total (payload m))) as Hn.
  destruct (SessionHandShake.deserialize _); [apply keeps_ret'|apply keeps_ret'|done].
Qed.
Lemma keeps_throw {A} kind msg : keeps (throw kind msg : M World A).
Proof. by intros w. Qed.
Lemma keeps_ack timeout sid : keeps (await_ack timeout sid).
Proof.
  unfold await_ack. destruct timeout; [by apply keeps_bind'; [apply keeps_remove|intros; apply keeps_throw]|].
  intros w Hb. rewrite M_bind_eq. destruct (keeps_try' _ (keeps_unpack sid) w Hb) as (H1 & H2 & H3).
  assert (Hnp : forall w1, (try_ (on_link (DaemonTcp.unpack_task_message sid)) w) <> (Ok Panic, w1)).
  { intros w1. unfold try_. by destruct (on_link _ w) as [[] ?]. }
  destruct (try_ _ w) as [[r|e|] w1]; [|done|done]. cbn [fst snd] in *.
  assert (Hk : forall e : Error, keeps (_ ← remove_cipher sid; lift (Err e) : M World unit)).
  { intros e. apply keeps_bind'; [apply keeps_remove|]. intros _. by apply keeps_lift'. }
  assert (Hk2 : keeps (_ ← remove_cipher sid; throw InvalidData "PSK-ACK expected" : M World unit)).
  { apply keeps_bind'; [apply keeps_remove|]. intros _. apply keeps_throw. }
  destruct r as [m|e|]; [| |by destruct (Hnp w1)].
  - destruct (cmd_eqb _ _); [done|]. destruct (Hk2 w1 H2) as (F1 & F2 & F3). split_and!; auto.
  - destruct (Hk e w1 H2) as (F1 & F2 & F3). split_and!; auto.
Qed.

(** The reply can be made without a panic when the buffer has entries. *)
Lemma handshake_reply_no_panic en psk seed sid ck buf :
  (en = true -> DaemonTlv.parse_tlv buf <> Panic) -> handshake_reply en psk seed sid ck buf <> Panic.
Proof.
  intros Hp. unfold handshake_reply. destruct en; [|done]. specialize (Hp eq_refl).
  unfold DaemonTlv.extract_host_pubkey. destruct (DaemonTlv.parse_tlv buf) as [m| |]; [|done|done].
  rewrite !bind_Ok. destruct (m !! lit "pubkey") as [pk|]; [|done].
  unfold encrypt_psk_with_pubkey. destruct (from_public_key_pem _); [done|]. by destruct (oaep_encrypt _ _ _).
Qed.

(** [fails_clean m]: like [keeps], where a cipher of a new session may be left by
    a run that succeeds. *)
Definition fails_clean {A} (m : M World A) : Prop := forall w, bytes_ok (flat (link_rd (link w))) ->
  (m w).1 <> Panic /\ bytes_ok (flat (link_rd (link (m w).2))) /\
  forall e, (m w).1 = Err e -> forall s, is_Some (ciphers (link (m w).2) !! s) -> is_Some (ciphers (link w) !! s).
Lemma fails_clean_bind {A B} (m : M World A) (f : A -> M World B) :
  keeps m -> (forall a, fails_clean (f a)) -> fails_clean (m ≫= f).
Proof.
  intros Hm Hf w Hb. rewrite M_bind_eq. destruct (Hm w Hb) as (H1 & H2 & H3).
  destruct (m w) as [[a|e|] w1]; [|done|done]. destruct (Hf a w1 H2) as (F1 & F2 & F3). split_and!; eauto.
Qed.
Lemma keeps_fails_clean {A} (m : M World A) : keeps m -> fails_clean m.
Proof. intros Hm w Hb. destruct (Hm w Hb) as (H1 & H2 & H3). by split_and!. Qed.

(** A failed wait takes the session's cipher away. *)
Lemma await_ack_removes timeout sid w e w' :
  bytes_ok (flat (link_rd (link w))) -> await_ack timeout sid w = (Err e, w') -> ciphers (link w') !! sid = None.
Proof.
  intros Hb. unfold await_ack. destruct timeout.
  - rewrite M_bind_eq. simpl. intros [= _ <-]. simpl. apply lookup_delete_eq.
  - rewrite M_bind_eq. destruct (keeps_try' _ (keeps_unpack sid) w Hb) as (H1 & _ & _).
    unfold try_ in *. destruct (on_link _ w) as [[m|e1|] w1]; [| |done].
    + destruct (cmd_eqb _ _); [done|]. rewrite M_bind_eq. simpl. intros [= _ <-]. simpl. apply lookup_delete_eq.
    + rewrite M_bind_eq. simpl. intros [= _ <-]. simpl. apply lookup_delete_eq.
Qed.
Lemma fails_clean_answer en psk seed timeout ch sid ck buf :
  (en = true -> DaemonTlv.parse_tlv buf <> Panic) ->
  fails_clean (answer_handshake en psk seed timeout ch sid ck buf).
Proof.
  intros Hp. unfold answer_handshake. apply fails_clean_bind; [by apply keeps_lift', handshake_reply_no_panic|].
  intros [hs po]. apply fails_clean_bind; [apply keeps_send'|]. intros [].
  intros w Hb. rewrite M_bind_eq.
  destruct po as [k|]; [|by apply (keeps_fails_clean (_ ← (if en then await_ack timeout sid else mret tt); mret sid));
    [apply keeps_bind'; [destruct en; [apply keeps_ack|apply keeps_ret']|intros; apply keeps_ret']|]].
  rewrite on_link_cases. cbn [DaemonTcp.set_session_cipher modify fst snd]. set (w1 := set_link _ w).
  rewrite M_bind_eq. destruct en; [|by split_and!].
  destruct (keeps_ack timeout sid w1 Hb) as (H1 & H2 & H3).
  destruct (await_ack timeout sid w1) as [[[]|e|] w2] eqn:E; [by split_and!| |done]. split_and!; [done|done|].
  cbn [fst snd] in *. intros e' _ s Hs. specialize (H3 s Hs). cbn in H3.
  apply lookup_insert_is_Some in H3 as [<-|[_ H3]]; [|done].
  rewrite (await_ack_removes _ _ w1 _ _ Hb E) in Hs. by destruct Hs.
Qed.

(** The buffer of the first message can be cut into entries, if it is looked at. *)
Definition first_buffer_ok (w : World) : Prop := forall m l hs,
  DaemonTcp.unpack_task_message 0 (link w) = (Ok m, l) -> SessionHandShake.deserialize (payload m) = Ok hs ->
  encrypt_channel env_var = true -> DaemonTlv.parse_tlv (SessionHandShake.buf hs) <> Panic.
Lemma parse_tlv_nil : DaemonTlv.parse_tlv [] <> Panic.
Proof. done. Qed.
Lemma start_client_clean rnd psk seed timeout w :
  bytes_ok (flat (link_rd (link w))) -> first_buffer_ok w ->
  (start_client rnd psk seed timeout w).1 <> Panic /\
  bytes_ok (flat (link_rd (link (start_client rnd psk seed timeout w).2))) /\
  forall e, (start_client rnd psk seed timeout w).1 = Err e ->
  forall s, is_Some (ciphers (link (start_client rnd psk seed timeout w).2) !! s) -> is_Some (ciphers (link w) !! s).
Proof.
  intros Hb Hok. unfold start_client. rewrite M_bind_eq. destruct (keeps_unpack 0 w Hb) as (H1 & H2 & H3).
  rewrite on_link_cases in *. unfold first_buffer_ok in Hok.
  destruct (DaemonTcp.unpack_task_message 0 (link w)) as [[m|e|] l]; cbn [fst snd] in *; [|by split_and!|done].
  assert (Hf : forall sid ck buf, (encrypt_channel env_var = true -> DaemonTlv.parse_tlv buf <> Panic) ->
    fails_clean (en ← lift (if encrypt_channel env_var then DaemonTlv.host_supports_encrypt buf else Ok false);
                 answer_handshake en psk seed timeout (channel_id m) sid ck buf)).
  { intros sid ck buf Hbuf. destruct (encrypt_channel env_var).
    - specialize (Hbuf eq_refl). apply fails_clean_bind.
      + apply keeps_lift'. unfold DaemonTlv.host_supports_encrypt. by destruct (DaemonTlv.parse_tlv buf).
      + intros en. by apply fails_clean_answer.
    - intros w1 Hb1. rewrite M_bind_eq. by apply fails_clean_answer. }
  rewrite M_bind_eq. unfold host_handshake. pose proof (proj1 (SessionHandShake_total (payload m))) as Hn.
  destruct (SessionHandShake.deserialize (payload m)) as [hs|e|] eqn:Eh; [| |done].
  - destruct (Hf (SessionHandShake.session_id hs) (SessionHandShake.connect_key hs) (SessionHandShake.buf hs)
      (fun He => Hok m l hs eq_refl Eh He) (set_link l w) H2) as (F1 & F2 & F3). split_and!; eauto.
  - destruct (Hf rnd [] [] (fun _ => parse_tlv_nil) (set_link l w) H2) as (F1 & F2 & F3). split_and!; eauto.
Qed.
End ClientTheorems.

(** C24: the task of a connection ends, whatever the host sends: on every finite
    input and with every behaviour of the system and of the library the task
    returns and does not panic, unless encryption is on and the buffer of the
    first message cannot be cut into entries.  When the task fails it leaves no
    cipher that was not there before; when the host is gone the cipher of the
    session is gone too. *)
Theorem client_task_ends {HA : Aead} {HL : AeadLaws HA} {OS : Os} {HR : Rsa} rnd psk seed timeout w :
  bytes_ok (flat (link_rd (link w))) -> first_buffer_ok w ->
  exists r w', handle_client rnd psk seed timeout w = (r, w') /\ r <> Panic /\
  (forall e s, r = Err e -> is_Some (ciphers (link w') !! s) -> is_Some (ciphers (link w) !! s)) /\
  (forall sid w1, start_client rnd psk seed timeout w = (Ok sid, w1) -> r = Ok Disconnected ->
     ciphers (link w') !! sid = None).
Proof.
  intros Hb Hok. destruct (start_client_clean rnd psk seed timeout w Hb Hok) as (H1 & H2 & H3).
  unfold handle_client. rewrite M_bind_eq. destruct (start_client rnd psk seed timeout w) as [[sid|e|] w1]; cbn [fst snd] in *; [| |done].
  - rewrite M_bind_eq. cbn [get]. rewrite M_bind_eq.
    destruct (client_loop_ends (client_fuel (link_rd (link w1))) sid w1 H2) as (en & w2 & E); [unfold client_fuel, weight; lia|].
    rewrite E. destruct en as [|ch]; eexists _, _; (split; [reflexivity|]); split_and!; try done.
    intros sid' w1' [= <- <-] _. simpl. apply lookup_delete_eq.
  - eexists _, _. split; [reflexivity|]. split_and!; try done. intros e' s _. by apply H3 with (e := e).
Qed.

Section ClientWitness.
#[local] Existing Instance ToyAead.aead.
#[local] Existing Instance ToyAead.laws.
#[local] Existing Instance CalmOs.os.
#[local] Existing Instance ToyRsa.rsa.
(** A host that says hello and leaves. *)
Definition hello_world : World :=
  set_link (mkLink ∅ [Data (concat_pack (mkTaskMessage 0 KernelHandshake
    (SessionHandShake.serialize (SessionHandShake.mk HANDSHAKE_MESSAGE 0 77 [] [] []))))] (mkWriter [] None)) start_world.
Lemma client_task_ends_witness : exists r w', handle_client 1 [] 2 false hello_world = (r, w') /\ r <> Panic.
Proof.
  destruct (client_task_ends 1 [] 2 false hello_world) as (r & w' & E & Hn & _).
  - by apply (bool_decide_unpack _); vm_compute.
  - intros m l hs _ _ He. by vm_compute in He.
  - exists r, w'. by split.
Defined.
End ClientWitness.
