(* ===== verification/HostMaps.v ===== *)
(** * The host server: its tables

    [src/hdc/src/server.rs]: the table of devices ([ConnectMap]), the TCP writers
    of daemon sessions and of client channels ([TcpMap]), the queues of USB
    sessions and of waiting handlers ([UsbMap]) and the port forwarding rules
    ([ForwardMap]), with the functions that only work on them.

    A [HashMap] is iterated in an order the program cannot rely on: the order is
    an argument ([HashIter]), of which only the contents are known. *)

From S2P Require Import Prelude RustStr Config Tlv Serializer Encrypt Transport.

Class HashIter := {
  iter : forall {K V : Type} `{Countable K}, gmap K V -> list (K * V);
  iter_perm : forall {K V : Type} `{Countable K} (m : gmap K V), iter m ≡ₚ map_to_list m
}.

(** [Err(Error::new(kind, text))] with a computed text. *)
Definition fail {S A} (k : ErrorKind) (msg : bytes) : M S A := lift (Err (mkError k msg)).

(** ** Devices *)

Module DaemonInfo.
Record t := mk {
  session_id : Z; conn_type : ConnectType; conn_status : ConnStatus; dev_name : bytes; version : bytes
}.
Definition connected (i : t) : bool := bool_decide (conn_status i = Connected).
End DaemonInfo.

Module ConnectMap.
Abbreviation t := (gmap bytes DaemonInfo.t).
Section Ops.
Context {HI : HashIter}.

Definition put (connect_key : bytes) (info : DaemonInfo.t) : M t unit := modify <[connect_key := info]>.
Definition remove (connect_key : bytes) : M t unit := modify (delete connect_key).
Definition contains_key (connect_key : bytes) (m : t) : bool := bool_decide (is_Some (m !! connect_key)).
Definition update_status (connect_key : bytes) (status : ConnStatus) : M t unit :=
  modify (alter (fun i => DaemonInfo.mk (DaemonInfo.session_id i) (DaemonInfo.conn_type i) status
                            (DaemonInfo.dev_name i) (DaemonInfo.version i)) connect_key).

Definition get_session_id (connect_key : bytes) (m : t) : option Z :=
  if beq connect_key (lit "any") then
    match list_find (fun e => DaemonInfo.connected e.2 = true) (iter m) with
    | Some (_, (_, info)) => Some (DaemonInfo.session_id info)
    | None => if (size m =? 1)%nat then option_map (fun e => DaemonInfo.session_id e.2) (head (iter m)) else None
    end
  else option_map DaemonInfo.session_id (m !! connect_key).

Definition get_connect_key (session_id : Z) (m : t) : option bytes :=
  option_map (fun e => e.2.1) (list_find (fun e => DaemonInfo.session_id e.2 = session_id) (iter m)).

Definition conn_type_text (c : ConnectType) : bytes :=
  match c with
  | Tcp => lit "TCP" | Usb _ => lit "USB" | Uart => lit "UART" | Bt => lit "BT"
  | HostUsb _ => lit "HOSTUSB" | Bridge => lit "BRIDGE"
  end.
Definition status_text (s : ConnStatus) : bytes :=
  match s with
  | Ready => lit "Ready" | Connected => lit "Connected" | Offline => lit "Offline"
  | Unauthorized => lit "Unauthorized"
  end.
(** A line of [list targets -v]. *)
Definition verbose_line (key : bytes) (info : DaemonInfo.t) : bytes :=
  let dev_name := if bool_decide (DaemonInfo.dev_name info = []) then lit "unknown..." else DaemonInfo.dev_name info in
  key ++ [9; 9] ++ conn_type_text (DaemonInfo.conn_type info) ++ [9]
      ++ status_text (DaemonInfo.conn_status info) ++ [9] ++ dev_name.
Definition get_list (is_full : bool) (m : t) : list bytes :=
  flat_map (fun e => if is_full then [verbose_line e.1 e.2]
                     else if DaemonInfo.connected e.2 then [e.1] else []) (iter m).

Definition get_first_connected_key (m : t) : option bytes :=
  option_map (fun e => e.2.1) (list_find (fun e => DaemonInfo.connected e.2 = true) (iter m)).
End Ops.
End ConnectMap.

Section Resolve.
Context {HI : HashIter}.

Definition resolve_connect_key (m : ConnectMap.t) (connect_key : bytes) : Result bytes :=
  if beq connect_key (lit "any") then
    match filter (fun s => contains (lit "Connected") s = true) (ConnectMap.get_list true m) with
    | [] => err NotFound "No device connected"
    | [first] => Ok (default first (head (split_on 9 first)))
    | connected =>
        Err (mkError NotFound
          (lit "Multiple devices connected, please specify target with -t option:" ++ [10] ++ join [10] connected))
    end
  else Ok connect_key.

Definition resolve_session_id (m : ConnectMap.t) (connect_key : bytes) : Result Z :=
  actual_key ← resolve_connect_key m connect_key;
  match ConnectMap.get_session_id actual_key m with
  | Some id => Ok id
  | None => Err (mkError NotFound (lit "Device " ++ actual_key ++ lit " is not connected"))
  end.
End Resolve.

(** ** TCP writers *)

Module TcpMap.
(** A writer is owned by the map it is in; [shut_sessions] and [shut_channels] keep those
    that were shut down, the oldest first. *)
Record t := mk {
  session_writers : gmap Z Writer;
  session_ciphers : gmap Z PskCipher;
  channel_writers : gmap Z Writer;
  channel_sessions : gmap Z Z;
  keep_alive_channels : gset Z;
  shut_sessions : list Writer;
  shut_channels : list Writer
}.
Definition set_session_writers (f : gmap Z Writer -> gmap Z Writer) (m : t) : t :=
  mk (f (session_writers m)) (session_ciphers m) (channel_writers m) (channel_sessions m) (keep_alive_channels m) (shut_sessions m) (shut_channels m).
Definition set_session_ciphers (f : gmap Z PskCipher -> gmap Z PskCipher) (m : t) : t :=
  mk (session_writers m) (f (session_ciphers m)) (channel_writers m) (channel_sessions m) (keep_alive_channels m) (shut_sessions m) (shut_channels m).
Definition set_channel_writers (f : gmap Z Writer -> gmap Z Writer) (m : t) : t :=
  mk (session_writers m) (session_ciphers m) (f (channel_writers m)) (channel_sessions m) (keep_alive_channels m) (shut_sessions m) (shut_channels m).
Definition set_channel_sessions (f : gmap Z Z -> gmap Z Z) (m : t) : t :=
  mk (session_writers m) (session_ciphers m) (channel_writers m) (f (channel_sessions m)) (keep_alive_channels m) (shut_sessions m) (shut_channels m).
Definition set_keep_alive_channels (f : gset Z -> gset Z) (m : t) : t :=
  mk (session_writers m) (session_ciphers m) (channel_writers m) (channel_sessions m) (f (keep_alive_channels m)) (shut_sessions m) (shut_channels m).
(** [wr.shutdown()], when there was a writer. *)
Definition shutdown_session (wr : option Writer) (m : t) : t :=
  mk (session_writers m) (session_ciphers m) (channel_writers m) (channel_sessions m) (keep_alive_channels m)
     (shut_sessions m ++ option_list wr) (shut_channels m).
Definition shutdown_channel (wr : option Writer) (m : t) : t :=
  mk (session_writers m) (session_ciphers m) (channel_writers m) (channel_sessions m) (keep_alive_channels m)
     (shut_sessions m) (shut_channels m ++ option_list wr).
Definition new : t := mk ∅ ∅ ∅ ∅ ∅ [] [].

Section Ops.
Context {HA : Aead} {HI : HashIter}.

Definition start_session (id : Z) (wr : Writer) : M t unit := modify (set_session_writers <[id := wr]>).
Definition start_channel (id : Z) (wr : Writer) : M t unit := modify (set_channel_writers <[id := wr]>).
Definition end_session (id : Z) : M t unit :=
  modify (fun m => shutdown_session (session_writers m !! id) (set_session_writers (delete id) m)).
Definition end_channel (id : Z) : M t unit :=
  modify (fun m => shutdown_channel (channel_writers m !! id)
                     (set_channel_writers (delete id) (set_keep_alive_channels (.∖ {[id]}) m))).
Definition set_keep_alive (channel_id : Z) : M t unit := modify (set_keep_alive_channels ({[channel_id]} ∪.)).
Definition is_keep_alive (channel_id : Z) (m : t) : bool := bool_decide (channel_id ∈ keep_alive_channels m).

(** A writer of a map, used in place. *)
Definition on_session_writer {A} (id : Z) (wr : Writer) (f : M Writer A) : M t A := fun m =>
  let '(r, wr') := f wr in (r, set_session_writers <[id := wr']> m).
Definition on_channel_writer {A} (id : Z) (wr : Writer) (f : M Writer A) : M t A := fun m =>
  let '(r, wr') := f wr in (r, set_channel_writers <[id := wr']> m).
Definition on_cipher {A} (id : Z) (cipher : PskCipher) (f : M PskCipher A) : M t A := fun m =>
  let '(r, c') := f cipher in (r, set_session_ciphers <[id := c']> m).

(** The length, then the bytes. *)
Definition write_framed (data : bytes) : M Writer unit :=
  _ ← write_all (to_be_bytes 4 (wrap 32 (len data))); write_all data.

Definition send_to_session (session_id : Z) (data : bytes) : M t unit :=
  m ← get;
  match session_writers m !! session_id with
  | Some wr =>
      match session_ciphers m !! session_id with
      | Some cipher =>
          to_write ← on_cipher session_id cipher (encrypt data);
          on_session_writer session_id wr (write_framed to_write)
      | None => on_session_writer session_id wr (write_all data)
      end
  | None => throw NotFound "session not found"
  end.

Definition set_session_cipher (session_id : Z) (cipher : PskCipher) : M t unit :=
  modify (set_session_ciphers <[session_id := cipher]>).
Definition get_session_cipher (session_id : Z) (m : t) : option PskCipher := session_ciphers m !! session_id.

Definition send_channel_message (channel_id : Z) (data : bytes) : M t unit :=
  m ← get;
  match channel_writers m !! channel_id with
  | Some wr => on_channel_writer channel_id wr (write_framed data)
  | None => throw NotFound "channel not found"
  end.

Definition take_channel_writer (channel_id : Z) : M t (option Writer) :=
  _ ← modify (set_channel_sessions (delete channel_id));
  m ← get;
  _ ← modify (set_channel_writers (delete channel_id));
  mret (channel_writers m !! channel_id).
Definition associate_channel_with_session (channel_id session_id : Z) : M t unit :=
  modify (set_channel_sessions <[channel_id := session_id]>).

Definition close_session_channel (channel_id : Z) (m : t) : t :=
  shutdown_channel (channel_writers m !! channel_id)
    (set_channel_writers (delete channel_id) (set_channel_sessions (delete channel_id) m)).
Definition close_session_channels (session_id : Z) : M t unit := modify (fun m =>
  foldl (fun m cid => close_session_channel cid m) m
    (map fst (filter (fun e => e.2 = session_id) (iter (channel_sessions m))))).
End Ops.
End TcpMap.

(** ** Unbounded queues

    A queue has a name; its receiver is alive until it is dropped. *)
Record Queue A := mkQueue { q_items : list A; q_alive : bool }.
Arguments mkQueue {A}. Arguments q_items {A}. Arguments q_alive {A}.
Definition q_push {A} (a : A) (q : Queue A) : Queue A := mkQueue (q_items q ++ [a]) (q_alive q).

Module UsbMap.
(** Senders are names of queues; the queues are shared with their receivers. *)
Record t := mk {
  session_senders : gmap Z positive;
  response_channels : gmap (Z * Z) positive;
  session_queues : gmap positive (Queue bytes);
  response_queues : gmap positive (Queue TaskMessage)
}.
Definition new : t := mk ∅ ∅ ∅ ∅.
Definition set_session_senders (f : gmap Z positive -> gmap Z positive) (m : t) : t :=
  mk (f (session_senders m)) (response_channels m) (session_queues m) (response_queues m).
Definition set_response_channels (f : gmap (Z * Z) positive -> gmap (Z * Z) positive) (m : t) : t :=
  mk (session_senders m) (f (response_channels m)) (session_queues m) (response_queues m).

Definition start_session (id : Z) (tx : positive) : M t unit := modify (set_session_senders <[id := tx]>).
Definition end_session (id : Z) : M t unit := modify (set_session_senders (delete id)).
Definition end_session_with_cleanup (id : Z) : M t unit := modify (fun m =>
  set_response_channels (filter (fun e => e.1.1 <> id)) (set_session_senders (delete id) m)).

(** [tx.send(x)]: an error when the receiver is gone. *)
Definition alive {A} (qs : gmap positive (Queue A)) (tx : positive) : bool :=
  match qs !! tx with Some q => q_alive q | None => false end.
Definition send_to_session (session_id : Z) (data : bytes) : M t unit := fun m =>
  match session_senders m !! session_id with
  | Some tx =>
      if alive (session_queues m) tx
      then (Ok tt, mk (session_senders m) (response_channels m) (alter (q_push data) tx (session_queues m)) (response_queues m))
      else (err BrokenPipe "usb session closed", m)
  | None => (err NotFound "usb session not found", m)
  end.
Definition register_response_channel (session_id channel_id : Z) (tx : positive) : M t unit :=
  modify (set_response_channels <[(session_id, channel_id) := tx]>).
Definition unregister_response_channel (session_id channel_id : Z) : M t unit :=
  modify (set_response_channels (delete (session_id, channel_id))).
Definition route_response (session_id channel_id : Z) (task : TaskMessage) : M t bool := fun m =>
  match response_channels m !! (session_id, channel_id) with
  | Some tx =>
      (Ok true,
       if alive (response_queues m) tx
       then mk (session_senders m) (response_channels m) (session_queues m) (alter (q_push task) tx (response_queues m))
       else m)
  | None => (Ok false, m)
  end.
End UsbMap.

(** ** Port forwarding rules *)

Inductive ForwardDirection := Forward | Reverse.
#[global] Instance ForwardDirection_eq_dec : EqDecision ForwardDirection.
Proof. solve_decision. Defined.
Module ForwardEntry.
Record t := mk {
  channel_id : Z; session_id : Z; connect_key : bytes; direction : ForwardDirection;
  task_string : bytes; abort_handle : option positive
}.
End ForwardEntry.
Abbreviation ForwardMap := (gmap bytes ForwardEntry.t).

(** ** The state of the server

    [aborted] are the tasks that were aborted by their handle. *)
Record Host := mkHost {
  connect_map : ConnectMap.t; tcp_map : TcpMap.t; usb_map : UsbMap.t;
  forward_map : ForwardMap; aborted : gset positive
}.
Definition set_connect_map m (h : Host) : Host := mkHost m (tcp_map h) (usb_map h) (forward_map h) (aborted h).
Definition set_tcp_map m (h : Host) : Host := mkHost (connect_map h) m (usb_map h) (forward_map h) (aborted h).
Definition set_usb_map m (h : Host) : Host := mkHost (connect_map h) (tcp_map h) m (forward_map h) (aborted h).
Definition set_forward_map m (h : Host) : Host := mkHost (connect_map h) (tcp_map h) (usb_map h) m (aborted h).
Definition set_aborted s (h : Host) : Host := mkHost (connect_map h) (tcp_map h) (usb_map h) (forward_map h) s.
Definition new_host : Host := mkHost ∅ TcpMap.new UsbMap.new ∅ ∅.

Definition on_connect {A} : M ConnectMap.t A -> M Host A := zoom connect_map set_connect_map.
Definition on_tcp {A} : M TcpMap.t A -> M Host A := zoom tcp_map set_tcp_map.
Definition on_usb {A} : M UsbMap.t A -> M Host A := zoom usb_map set_usb_map.
Definition on_forward {A} : M ForwardMap A -> M Host A := zoom forward_map set_forward_map.

Section Shared.
Context {HA : Aead} {HI : HashIter}.

Definition maybe_end_channel (channel_id : Z) : M Host unit :=
  h ← get;
  if TcpMap.is_keep_alive channel_id (tcp_map h) then mret tt else on_tcp (TcpMap.end_channel channel_id).

Definition send_to_session (session_id : Z) (data : bytes) : M Host unit :=
  r ← try_ (on_tcp (TcpMap.send_to_session session_id data));
  match r with
  | Ok _ => mret tt
  | _ => on_usb (UsbMap.send_to_session session_id data)
  end.

Definition matches_filter (connect_key_filter : bytes) (entry : ForwardEntry.t) : bool :=
  bool_decide (connect_key_filter = []) || beq connect_key_filter (lit "any") ||
  beq (ForwardEntry.connect_key entry) connect_key_filter.
Definition direction_text (d : ForwardDirection) : bytes :=
  match d with Forward => lit "[Forward]" | Reverse => lit "[Reverse]" end.
Definition build_forward_list (connect_key_filter : bytes) (m : ForwardMap) : bytes :=
  join [13; 10]
    (map (fun e => ForwardEntry.connect_key e.2 ++ lit "    " ++ ForwardEntry.task_string e.2 ++ lit "    "
                   ++ direction_text (ForwardEntry.direction e.2))
      (filter (fun e => matches_filter connect_key_filter e.2 = true) (iter m))).

(** Take an entry out, stop its listener and tell the daemon. *)
Definition drop_forward_entry (key : bytes) (entry : ForwardEntry.t) : M Host unit :=
  _ ← on_forward (modify (delete key));
  _ ← match ForwardEntry.abort_handle entry with
      | Some handle => modify (fun h => set_aborted ({[handle]} ∪ aborted h) h)
      | None => mret tt
      end;
  _ ← try_ (send_to_session (ForwardEntry.session_id entry)
        (concat_pack (mkTaskMessage (ForwardEntry.channel_id entry) KernelChannelClose [0])));
  mret tt.
Fixpoint drop_forward_entries (keys : list bytes) (removed : Z) : M Host Z :=
  match keys with
  | [] => mret removed
  | key :: t =>
      h ← get;
      match forward_map h !! key with
      | Some entry => _ ← drop_forward_entry key entry; drop_forward_entries t (removed + 1)
      | None => drop_forward_entries t removed
      end
  end.

Definition spec_matches (spec key : bytes) : bool :=
  beq key spec || ends_with (32 :: spec) key || starts_with (spec ++ [32]) key.
Definition find_forward_key (connect_key_filter spec : bytes) (m : ForwardMap) : option bytes :=
  if bool_decide (is_Some (m !! spec)) then Some spec
  else option_map (fun e => e.2.1)
    (list_find (fun e => spec_matches spec e.1 && matches_filter connect_key_filter e.2 = true) (iter m)).

Definition remove_forward_entry (connect_key_filter : bytes) (request_channel_id : Z) (spec : bytes) : M Host bytes :=
  h ← get;
  if bool_decide (spec = []) then
    removed ← drop_forward_entries
      (map fst (filter (fun e => matches_filter connect_key_filter e.2 = true) (iter (forward_map h)))) 0;
    mret (lit "Remove forward ruler success, removed " ++ fmt_dec removed ++ lit " rulers")
  else
    let missing := fail NotFound (lit "Remove forward ruler failed, ruler is not exist " ++ spec) in
    match find_forward_key connect_key_filter spec (forward_map h) with
    | Some key =>
        match forward_map h !! key with
        | Some entry =>
            _ ← drop_forward_entry key entry;
            mret (lit "Remove forward ruler success, ruler:" ++ key)
        | None => missing
        end
    | None => missing
    end.

(** ** The host and port a client asks for *)
Fixpoint skip_zeros (s : bytes) : bytes :=
  match s with b :: t => if b =? 0 then skip_zeros t else s | [] => [] end.
Fixpoint up_to_zero (s : bytes) : bytes :=
  match s with b :: t => if b =? 0 then [] else b :: up_to_zero t | [] => [] end.
Definition unpack_channel_handshake (recv : bytes) : Result bytes :=
  head ← slice 0 (len HANDSHAKE_MESSAGE) recv;
  match from_utf8 head with
  | inl _ => err InvalidData "not utf-8 chars"
  | inr msg =>
      if negb (beq msg HANDSHAKE_MESSAGE) then err InvalidData "Recv server-hello failed"
      else
        key_buf ← slice_from BANNER_SIZE recv;
        (* when every byte is zero [start] is 0: the key is then empty *)
        match from_utf8 (up_to_zero (skip_zeros key_buf)) with
        | inr key => Ok key
        | inl _ => err InvalidData "unpack connect key failed"
        end
  end.
End Shared.

(** ** Devices: the target of a command *)

Section Targets.
Context {HI : HashIter}.

(** Keys and names in which the search for [Connected] finds nothing; no key has a
    tab or is the word [any]. *)
Definition tidy (m : ConnectMap.t) : Prop := map_Forall (fun key info =>
  (9 ∉ key) /\ key <> lit "any" /\ contains (lit "Connected") key = false /\
  contains (lit "Connected") (DaemonInfo.dev_name info) = false) m.

Lemma in_iter {V} (m : gmap bytes V) k v : (k, v) ∈ iter m <-> m !! k = Some v.
Proof. by rewrite iter_perm, elem_of_map_to_list. Qed.
Lemma iter_keys {V} (m : gmap bytes V) : NoDup (iter m).*1.
Proof. rewrite iter_perm. apply NoDup_fst_map_to_list. Qed.

Lemma verbose_line_connected key info :
  contains (lit "Connected") key = false -> contains (lit "Connected") (DaemonInfo.dev_name info) = false ->
  contains (lit "Connected") (ConnectMap.verbose_line key info) = DaemonInfo.connected info.
Proof.
  intros Hk Hd. unfold ConnectMap.verbose_line. cbn [app].
  assert (Hn : lit "Connected" <> []) by done.
  assert (Ht : 9 ∉ lit "Connected") by (apply (bool_decide_unpack _); by vm_compute).
  rewrite (contains_around _ 9 key), contains_after, !contains_around by done.
  rewrite Hk. set (name := if bool_decide _ then _ else _).
  assert (contains (lit "Connected") name = false) as -> by (unfold name; by case_bool_decide).
  rewrite orb_false_r. unfold DaemonInfo.connected.
  by destruct (DaemonInfo.conn_type info), (DaemonInfo.conn_status info).
Qed.

(** The connected devices, in the order of the listing. *)
Definition targets (m : ConnectMap.t) : list (bytes * DaemonInfo.t) :=
  filter (fun e => DaemonInfo.connected e.2 = true) (iter m).
Lemma in_targets m k i : (k, i) ∈ targets m <-> m !! k = Some i /\ DaemonInfo.connected i = true.
Proof. unfold targets. rewrite list_elem_of_filter, in_iter. by rewrite (comm and). Qed.
Lemma NoDup_filter_fst {K V} (P : K * V -> Prop) `{!forall x, Decision (P x)} (l : list (K * V)) :
  NoDup l.*1 -> NoDup (filter P l).*1.
Proof.
  induction l as [|[k v] l IH]; [done|]. rewrite filter_cons, fmap_cons. intros [Hk Hl]%NoDup_cons.
  case_decide; [|by apply IH]. rewrite fmap_cons. apply NoDup_cons. split; [|by apply IH].
  intros (e & E & [_ He]%list_elem_of_filter)%list_elem_of_fmap. apply Hk. rewrite E. by apply list_elem_of_fmap_2.
Qed.
Lemma connected_lines m :
  tidy m -> filter (fun s => contains (lit "Connected") s = true) (ConnectMap.get_list true m) =
            map (fun e => ConnectMap.verbose_line e.1 e.2) (targets m).
Proof.
  intros Ht. unfold ConnectMap.get_list, targets.
  assert (Hl : Forall (fun e => m !! e.1 = Some e.2) (iter m)).
  { apply Forall_forall. intros [k i] H. by apply in_iter in H. }
  induction Hl as [|[k i] l Hx Hl IH]; [done|]. simpl in Hx. cbn [flat_map map app].
  destruct (Ht _ _ Hx) as (_ & _ & H1 & H2). rewrite !filter_cons. cbn [fst snd].
  rewrite (verbose_line_connected _ _ H1 H2). destruct (DaemonInfo.connected i); simpl; [by f_equal|done].
Qed.

Lemma resolve_any m :
  tidy m -> resolve_session_id m (lit "any") =
  match targets m with
  | [] => err NotFound "No device connected"
  | [(_, info)] => Ok (DaemonInfo.session_id info)
  | es => Err (mkError NotFound (lit "Multiple devices connected, please specify target with -t option:" ++ [10] ++
            join [10] (map (fun e => ConnectMap.verbose_line e.1 e.2) es)))
  end.
Proof.
  intros Ht. unfold resolve_session_id, resolve_connect_key.
  rewrite (bool_decide_eq_true_2 (lit "any" = lit "any") eq_refl : beq (lit "any") (lit "any") = true).
  rewrite connected_lines by done. destruct (targets m) as [|[k i] [|e es]] eqn:Et; [done| |done].
  cbn [map]. rewrite bind_Ok. unfold ConnectMap.verbose_line. cbn [app fst].
  assert (Hk : m !! k = Some i) by (apply in_targets; rewrite Et; set_solver).
  destruct (Ht _ _ Hk) as (H9 & Ha & _). rewrite split_on_app by done. cbn [head default id].
  unfold ConnectMap.get_session_id, beq. rewrite bool_decide_eq_false_2 by done. by rewrite Hk.
Qed.
End Targets.

(** ** What sending changes *)

Section SendFrames.
Context {HA : Aead} {HI : HashIter}.

Lemma encrypt_total d c : (encrypt d c).1 <> Panic.
Proof. unfold encrypt. by repeat case_match. Qed.
Lemma write_all_total d : total (write_all d).
Proof. intros w. unfold write_all. by repeat case_match. Qed.

Lemma write_framed_total d : total (TcpMap.write_framed d).
Proof. apply total_bind; [apply write_all_total|]. intros _. apply write_all_total. Qed.

(** What sending to a session changes: that session's writer and cipher. *)
Definition session_frame (sid : Z) (m m' : TcpMap.t) : Prop :=
  (forall s, s <> sid -> TcpMap.session_writers m' !! s = TcpMap.session_writers m !! s) /\
  (forall s, s <> sid -> TcpMap.session_ciphers m' !! s = TcpMap.session_ciphers m !! s) /\
  TcpMap.channel_writers m' = TcpMap.channel_writers m /\ TcpMap.channel_sessions m' = TcpMap.channel_sessions m /\
  TcpMap.keep_alive_channels m' = TcpMap.keep_alive_channels m /\
  TcpMap.shut_sessions m' = TcpMap.shut_sessions m /\ TcpMap.shut_channels m' = TcpMap.shut_channels m.
Lemma send_to_session_frame sid d m :
  wp (TcpMap.send_to_session sid d) (fun _ => session_frame sid m) (fun _ => session_frame sid m) m.
Proof.
  unfold TcpMap.send_to_session. apply wp_bind, wp_get.
  destruct (TcpMap.session_writers m !! sid) as [wr|]; [|done].
  assert (Hw : forall {A} (f : M Writer A) m1, total f -> session_frame sid m m1 ->
    wp (TcpMap.on_session_writer sid wr f) (fun _ => session_frame sid m) (fun _ => session_frame sid m) m1).
  { intros A f m1 Hf (H1 & H2 & H3). unfold wp, TcpMap.on_session_writer. specialize (Hf wr).
    assert (Hs : forall wr', session_frame sid m (TcpMap.set_session_writers <[sid := wr']> m1)).
    { intros wr'. split_and!; try apply H3; [|exact H2]. intros s Hs. cbn. by rewrite lookup_insert_ne, H1 by congruence. }
    destruct (f wr) as [[a|e|] wr']; [apply Hs|apply Hs|done]. }
  destruct (TcpMap.session_ciphers m !! sid) as [c|]; [|by apply Hw; [apply write_all_total|]].
  apply wp_bind. unfold wp at 1, TcpMap.on_cipher. pose proof (encrypt_total d c) as He.
  assert (Hc : forall c', session_frame sid m (TcpMap.set_session_ciphers <[sid := c']> m)).
  { intros c'. split_and!; try done. intros s Hs. cbn. by rewrite lookup_insert_ne by congruence. }
  destruct (encrypt d c) as [[ct|e|] c']; [|apply Hc|done].
  apply Hw; [apply write_framed_total|apply Hc].
Qed.

(** Sending to a session over either transport. *)
Definition sending_only (h h' : Host) : Prop :=
  connect_map h' = connect_map h /\ forward_map h' = forward_map h /\ aborted h' = aborted h /\
  TcpMap.channel_writers (tcp_map h') = TcpMap.channel_writers (tcp_map h) /\
  UsbMap.response_channels (usb_map h') = UsbMap.response_channels (usb_map h) /\
  UsbMap.response_queues (usb_map h') = UsbMap.response_queues (usb_map h).
Lemma usb_send_wp sid d h (Q : unit -> Host -> Prop) E :
  (forall um, UsbMap.response_channels um = UsbMap.response_channels (usb_map h) ->
     UsbMap.response_queues um = UsbMap.response_queues (usb_map h) -> Q tt (set_usb_map um h) /\ forall e, E e (set_usb_map um h)) ->
  wp (on_usb (UsbMap.send_to_session sid d)) Q E h.
Proof.
  intros H. apply wp_zoom. unfold wp, UsbMap.send_to_session. repeat case_match; simplify_eq; by apply H.
Qed.
Lemma send_to_session_only sid d h :
  wp (send_to_session sid d) (fun _ => sending_only h) (fun _ => sending_only h) h.
Proof.
  apply wp_bind, wp_try, wp_zoom. eapply wp_mono; [apply send_to_session_frame|..].
  - intros [] tm (_ & _ & E & _). by apply wp_ret.
  - intros e tm (_ & _ & E & _). apply usb_send_wp. intros um E1 E2. by split_and!.
Qed.
End SendFrames.

(** ** Sending from the host's tables *)

Section HostSending.
Context {HA : Aead} {HL : AeadLaws HA}.

(** The host writes to a session what the daemon's transport would. *)
Lemma send_to_session_link sid msg m wr :
  TcpMap.session_writers m !! sid = Some wr ->
  TcpMap.send_to_session sid (concat_pack msg) m =
  let '(r, l) := DaemonTcp.send_message sid msg (mkLink (TcpMap.session_ciphers m) [] wr) in
  (r, TcpMap.set_session_writers <[sid := link_wr l]> (TcpMap.set_session_ciphers (fun _ => ciphers l) m)).
Proof.
  intros Ew. unfold TcpMap.send_to_session, DaemonTcp.send_message. rewrite M_bind_eq. cbn [get]. rewrite Ew, with_cipher.
  cbn [ciphers]. destruct (TcpMap.session_ciphers m !! sid) as [c|].
  - rewrite !M_bind_eq. unfold TcpMap.on_cipher, on_cipher. cbn [ciphers link_rd link_wr].
    destruct (encrypt (concat_pack msg) c) as [[ct|e|] c'].
    + unfold TcpMap.on_session_writer, TcpMap.write_framed. rewrite !M_bind_eq. unfold on_wr, zoom. cbn [ciphers link_rd link_wr].
      destruct (write_all (to_be_bytes 4 _) wr) as [[[]|e|] wr1]; [|done..]. rewrite M_bind_eq. cbn [ciphers link_rd link_wr].
      by destruct (write_all ct wr1) as [[[]|e|] wr2].
    + unfold TcpMap.set_session_writers. cbn. by rewrite insert_id by done.
    + unfold TcpMap.set_session_writers. cbn. by rewrite insert_id by done.
  - rewrite M_bind_eq. unfold TcpMap.on_session_writer, on_wr, zoom. cbn [ciphers link_rd link_wr].
    destruct (write_all (concat_pack msg) wr) as [[[]|e|] wr1]; by destruct m.
Qed.
Lemma send_plain sid msg m out :
  TcpMap.session_writers m !! sid = Some (mkWriter out None) -> TcpMap.session_ciphers m !! sid = None ->
  TcpMap.send_to_session sid (concat_pack msg) m =
  (Ok tt, TcpMap.set_session_writers <[sid := mkWriter (out ++ concat_pack msg) None]> m).
Proof.
  intros Ew Ec. unfold TcpMap.send_to_session. rewrite M_bind_eq. cbn [get]. by rewrite Ew, Ec.
Qed.
End HostSending.

(** ** Removing port forwarding rules *)

Section Removal.
Context {HA : Aead} {HI : HashIter}.

Lemma drop_forward_entry_wp key entry h :
  wp (drop_forward_entry key entry)
     (fun _ h' => forward_map h' = delete key (forward_map h) /\ connect_map h' = connect_map h /\
        aborted h' = from_option singleton ∅ (ForwardEntry.abort_handle entry) ∪ aborted h) (fun _ _ => False) h.
Proof.
  unfold drop_forward_entry. apply wp_bind, wp_zoom, wp_modify, wp_bind.
  set (h1 := set_forward_map _ h).
  assert (Hs : forall h2, forward_map h2 = delete key (forward_map h) -> connect_map h2 = connect_map h ->
    aborted h2 = from_option singleton ∅ (ForwardEntry.abort_handle entry) ∪ aborted h ->
    wp (_ ← try_ (send_to_session (ForwardEntry.session_id entry)
          (concat_pack (mkTaskMessage (ForwardEntry.channel_id entry) KernelChannelClose [0]))); mret tt)
       (fun _ h' => forward_map h' = delete key (forward_map h) /\ connect_map h' = connect_map h /\
          aborted h' = from_option singleton ∅ (ForwardEntry.abort_handle entry) ∪ aborted h) (fun _ _ => False) h2).
  { intros h2 E1 E2 E3. apply wp_bind, wp_try. eapply wp_mono; [apply send_to_session_only|..];
      intros ? h3 (F1 & F2 & F3 & _); apply wp_ret; split_and!; congruence. }
  destruct (ForwardEntry.abort_handle entry) as [t|].
  - apply wp_modify, Hs; done.
  - apply wp_ret, Hs; [done..|]. cbn. by rewrite (left_id_L ∅ (∪)).
Qed.

Lemma drop_forward_entries_wp keys n h :
  NoDup keys -> Forall (fun k => is_Some (forward_map h !! k)) keys ->
  wp (drop_forward_entries keys n)
     (fun c h' => c = n + len keys /\ forward_map h' = filter (fun e => e.1 ∉ keys) (forward_map h) /\
        connect_map h' = connect_map h /\
        aborted h' = list_to_set (omap (fun k => forward_map h !! k ≫= ForwardEntry.abort_handle) keys) ∪ aborted h)
     (fun _ _ => False) h.
Proof.
  intros Hnd. revert n h; induction Hnd as [|k keys Hk Hnd IH]; intros n h Hin; cbn [drop_forward_entries].
  - apply wp_ret. split_and!; [rewrite len_nil; lia| |done|cbn; by rewrite (left_id_L ∅ (∪))].
    symmetry. apply map_filter_id. intros ???. apply not_elem_of_nil.
  - apply Forall_cons in Hin as [[entry He] Hin]. apply wp_bind, wp_get. rewrite He. apply wp_bind.
    eapply wp_mono; [apply drop_forward_entry_wp| |done]. intros _ h1 (E1 & E2 & E3).
    assert (Hsame : forall k', k' ∈ keys -> forward_map h1 !! k' = forward_map h !! k').
    { intros k' Hk'. rewrite E1, lookup_delete_ne; [done|]. by intros ->. }
    eapply wp_mono; [apply IH| |done].
    + apply Forall_forall. intros k' Hk'. rewrite Hsame by done. rewrite Forall_forall in Hin. by apply Hin.
    + intros c h2 (-> & F1 & F2 & F3). rewrite len_cons. split_and!; [lia| |congruence|].
      * rewrite F1, E1. apply map_filter_strong_ext. intros i x. cbn [fst]. rewrite lookup_delete_Some, not_elem_of_cons.
        split; intros; destruct_and!; split_and!; congruence || done.
      * rewrite F3, E3. replace (omap (fun k' => forward_map h1 !! k' ≫= ForwardEntry.abort_handle) keys)
          with (omap (fun k' => forward_map h !! k' ≫= ForwardEntry.abort_handle) keys).
        -- cbn. rewrite He. cbn. destruct (ForwardEntry.abort_handle entry); cbn.
           ++ by rewrite (assoc_L (∪)), (comm_L (∪) _ {[p]}).
           ++ by rewrite (left_id_L ∅ (∪)).
        -- apply list_omap_ext, Forall_Forall2_diag, Forall_forall. intros k' Hk'. by rewrite Hsame.
Qed.
Lemma remove_rules_wp connect_key_filter request h :
  let hit e := matches_filter connect_key_filter e.2 = true in
  wp (remove_forward_entry connect_key_filter request [])
    (fun text h' => connect_map h' = connect_map h /\ forward_map h' = filter (fun e => ~ hit e) (forward_map h) /\
       text = lit "Remove forward ruler success, removed " ++ fmt_dec (Z.of_nat (size (filter hit (forward_map h)))) ++ lit " rulers" /\
       aborted h' ≡ aborted h ∪ list_to_set (omap (fun e => ForwardEntry.abort_handle e.2) (map_to_list (filter hit (forward_map h)))))
    (fun _ _ => False) h.
Proof.
  intros hit. unfold remove_forward_entry. apply wp_bind, wp_get. rewrite bool_decide_eq_true_2 by done.
  set (es := filter (fun e => matches_filter connect_key_filter e.2 = true) (iter (forward_map h))).
  assert (Hes : forall k x, (k, x) ∈ es <-> forward_map h !! k = Some x /\ matches_filter connect_key_filter x = true).
  { intros k x. unfold es. by rewrite list_elem_of_filter, in_iter, (comm and). }
  assert (Hnd : NoDup es.*1) by (apply NoDup_filter_fst, iter_keys).
  assert (Hp : es ≡ₚ map_to_list (filter hit (forward_map h))).
  { apply NoDup_Permutation; [by apply NoDup_fmap_1 in Hnd|apply NoDup_map_to_list|]. intros [k x].
    by rewrite Hes, elem_of_map_to_list, map_lookup_filter_Some. }
  apply wp_bind. eapply wp_mono; [apply (drop_forward_entries_wp es.*1 0 h Hnd)| |done].
  { apply Forall_fmap, Forall_forall. intros [k x] Hx%Hes. cbn. destruct Hx as [-> _]. eauto. }
  intros c h' (-> & F1 & F2 & F3). apply wp_ret. split_and!; [done|..].
  + rewrite F1. apply map_filter_strong_ext. intros k x. unfold hit. cbn. rewrite list_elem_of_fmap. split.
    * intros [Hk Hx]. split; [|done]. intros Hm. apply Hk. exists (k, x). split; [done|]. by apply Hes.
    * intros [Hk Hx]. split; [|done]. intros ([k' x'] & -> & [Hx' Hm]%Hes). cbn in *. congruence.
  + do 3 f_equal. unfold len. rewrite Z.add_0_l, length_fmap, Hp, length_map_to_list. done.
  + rewrite F3, (comm (∪)). f_equiv. rewrite <- Hp.
    assert (Hl : Forall (fun e => forward_map h !! e.1 = Some e.2) es)
      by (apply Forall_forall; intros [k x] [? _]%Hes; done).
    clear -Hl. induction Hl as [|[k x] es Hx Hl IH]; [done|]. cbn in *. rewrite Hx. cbn.
    destruct (ForwardEntry.abort_handle x); cbn; [by f_equiv|done].
Qed.
(** What the removal of rules does not touch. *)
Lemma drop_forward_keeps (P : Host -> Prop) :
  (forall m h, P h -> P (set_forward_map m h)) -> (forall a h, P h -> P (set_aborted a h)) ->
  (forall sid d h, P h -> wp (send_to_session sid d) (fun _ => P) (fun _ => P) h) ->
  forall keys n h, P h -> wp (drop_forward_entries keys n) (fun _ => P) (fun _ => P) h.
Proof.
  intros Hm Ha Hs keys; induction keys as [|key keys IH]; intros n h Hp; cbn [drop_forward_entries]; [by apply wp_ret|].
  apply wp_bind, wp_get. destruct (forward_map h !! key) as [entry|]; [|by apply IH]. apply wp_bind. unfold drop_forward_entry.
  apply wp_bind, wp_zoom, wp_modify, wp_bind. set (h1 := set_forward_map _ h). assert (Hp1 : P h1) by (by apply Hm).
  assert (Hgo : forall h2, P h2 -> wp (_ ← try_ (send_to_session (ForwardEntry.session_id entry)
      (concat_pack (mkTaskMessage (ForwardEntry.channel_id entry) KernelChannelClose [0]))); mret tt)
      (fun _ => wp (drop_forward_entries keys (n + 1)) (fun _ => P) (fun _ => P)) (fun _ => P) h2).
  { intros h2 H2. apply wp_bind, wp_try. eapply wp_mono; [by apply Hs|..]; intros ? h3 H3; by apply wp_ret, IH. }
  destruct (ForwardEntry.abort_handle entry); [apply wp_modify, Hgo; by apply Ha|by apply wp_ret, Hgo].
Qed.
End Removal.

(** An iteration order, to show that the orders can exist. *)
Module SomeOrder.
#[export] Instance order : HashIter := { iter _ _ _ _ m := map_to_list m; iter_perm _ _ _ _ m := reflexivity _ }.
End SomeOrder.

(** ** Theorems *)

(** [-t any], or no [-t], finds the connected device when there is exactly one,
    and a key its device; every other case is the error [NotFound]. *)
Theorem resolve_session_id_spec {HI : HashIter} (m : ConnectMap.t) (key : bytes) :
  tidy m ->
  (forall id, resolve_session_id m key = Ok id <->
     exists k i, m !! k = Some i /\ DaemonInfo.session_id i = id /\
       (key = k \/ key = lit "any" /\ DaemonInfo.conn_status i = Connected /\
          forall k' i', m !! k' = Some i' -> DaemonInfo.conn_status i' = Connected -> k' = k)) /\
  ((exists id, resolve_session_id m key = Ok id) \/
   (exists text, resolve_session_id m key = Err (mkError NotFound text))).
Proof.
  intros Ht. destruct (decide (key = lit "any")) as [->|Hn].
  - rewrite resolve_any by done. split.
    + intros id. pose proof (in_targets m) as Hin. unfold DaemonInfo.connected in Hin.
      setoid_rewrite bool_decide_eq_true in Hin. pose proof (iter_keys m) as Hnd.
      destruct (targets m) as [|[k i] [|[k2 i2] es]] eqn:Et; (split; [intros E|intros (k' & i' & Hk & <- & [<-|(_ & Hc & Hu)])]);
        try (by destruct (Ht _ _ Hk) as (_ & ? & _)).
      * done.
      * assert (H : (k', i') ∈ @nil (bytes * DaemonInfo.t)) by (by apply Hin). set_solver.
      * injection E as <-. destruct (proj1 (Hin k i)) as [Hk Hc]; [by left|]. exists k, i. split_and!; [done..|].
        right. split_and!; [done..|]. intros k' i' Hk' Hc'.
        assert (H : (k', i') ∈ [(k, i)]) by (by apply Hin). apply list_elem_of_singleton in H. congruence.
      * assert (H : (k', i') ∈ [(k, i)]) by (by apply Hin). apply list_elem_of_singleton in H. congruence.
      * done.
      * exfalso. assert (k <> k2).
        { intros ->. apply (NoDup_filter_fst (fun e => DaemonInfo.connected e.2 = true)) in Hnd.
          fold (targets m) in Hnd. rewrite Et in Hnd. apply NoDup_cons in Hnd as [Hs _]. apply Hs. by left. }
        destruct (proj1 (Hin k i)) as [Hk1 Hc1]; [by left|].
        destruct (proj1 (Hin k2 i2)) as [Hk2 Hc2]; [by right; left|].
        pose proof (Hu _ _ Hk1 Hc1). pose proof (Hu _ _ Hk2 Hc2). congruence.
    + destruct (targets m) as [|[k i] [|e es]]; eauto.
  - unfold resolve_session_id, resolve_connect_key, beq. rewrite bool_decide_eq_false_2, bind_Ok by done.
    unfold ConnectMap.get_session_id, beq. rewrite bool_decide_eq_false_2 by done.
    destruct (m !! key) as [i|] eqn:Ei; cbn [option_map]; split; eauto.
    + intros id. split; [intros [= <-]; exists key, i; eauto|]. intros (k & i' & Hk & <- & [<-|[? _]]); congruence.
    + intros id. split; [done|]. intros (k & i' & Hk & <- & [<-|[? _]]); congruence.
Qed.

Section TargetWitness.
#[local] Existing Instance SomeOrder.order.
Definition two_devices : ConnectMap.t :=
  <[lit "10.0.0.1:5555" := DaemonInfo.mk 7 Tcp Connected (lit "phone") []]>
    {[lit "A1" := DaemonInfo.mk 8 (Usb (lit "1-2")) Offline [] []]}.
Lemma resolve_session_id_spec_witness : resolve_session_id two_devices (lit "any") = Ok 7.
Proof.
  apply (resolve_session_id_spec two_devices (lit "any")).
  - apply map_Forall_insert_2; [|apply map_Forall_singleton]; by apply (bool_decide_unpack _); vm_compute.
  - exists (lit "10.0.0.1:5555"), (DaemonInfo.mk 7 Tcp Connected (lit "phone") []). unfold two_devices.
    rewrite lookup_insert_eq. split_and!; [done..|]. right. split_and!; [done..|]. intros k i.
    rewrite lookup_insert_Some, lookup_singleton_Some. intros [[<- _]|[_ [_ <-]]]; done.
Defined.
End TargetWitness.

(** Removing rules removes exactly what was asked for.  Without a rule: all rules of
    the device (of every device for [any] or no device), each listener stopped, and
    the number of rules reported.  With a rule: one, which is the named rule itself or
    one of the device that begins or ends with the given part; the error means that
    there is none, and changes nothing. *)
Theorem forward_removal_exact {HA : Aead} {HI : HashIter} (connect_key_filter : bytes) (request : Z) (spec : bytes) (h : Host) :
  let hit e := matches_filter connect_key_filter e.2 = true in
  wp (remove_forward_entry connect_key_filter request spec)
    (fun text h' => connect_map h' = connect_map h /\
       if bool_decide (spec = []) then
         forward_map h' = filter (fun e => ~ hit e) (forward_map h) /\
         text = lit "Remove forward ruler success, removed " ++ fmt_dec (Z.of_nat (size (filter hit (forward_map h)))) ++ lit " rulers" /\
         aborted h' ≡ aborted h ∪ list_to_set (omap (fun e => ForwardEntry.abort_handle e.2) (map_to_list (filter hit (forward_map h))))
       else exists key entry, forward_map h !! key = Some entry /\ forward_map h' = delete key (forward_map h) /\
         text = lit "Remove forward ruler success, ruler:" ++ key /\
         aborted h' = from_option singleton ∅ (ForwardEntry.abort_handle entry) ∪ aborted h /\
         (key = spec \/ (forward_map h !! spec = None /\ spec_matches spec key = true /\ hit (key, entry))))
    (fun e h' => h' = h /\ err_kind e = NotFound /\ spec <> [] /\
       forall key entry, forward_map h !! key = Some entry -> key <> spec /\ ~ (spec_matches spec key = true /\ hit (key, entry))) h.
Proof.
  intros hit. destruct (decide (spec = [])) as [->|Hs].
  { eapply wp_mono; [apply remove_rules_wp| |done]. by intros text h' (? & ? & ? & ?). }
  unfold remove_forward_entry. apply wp_bind, wp_get. rewrite !bool_decide_eq_false_2 by done.
  unfold find_forward_key. case_bool_decide as Hd.
  - destruct Hd as [entry He]. rewrite He. apply wp_bind. eapply wp_mono; [apply drop_forward_entry_wp| |done].
    intros _ h' (F1 & F2 & F3). apply wp_ret. split; [done|]. exists spec, entry. split_and!; try done. by left.
  - apply eq_None_not_Some in Hd. destruct (list_find _ _) as [[i [key entry]]|] eqn:Ef; cbn [option_map fst snd].
    + apply list_find_Some in Ef as (Hi & [Hm Hf]%andb_prop & _). apply list_elem_of_lookup_2, in_iter in Hi. cbn in Hm, Hf.
      rewrite Hi. apply wp_bind. eapply wp_mono; [apply drop_forward_entry_wp| |done].
      intros _ h' (F1 & F2 & F3). apply wp_ret. split; [done|]. exists key, entry. split_and!; try done. by right.
    + apply list_find_None in Ef. unfold fail. cbn. split_and!; [done..|]. intros key entry He. split; [congruence|].
      intros [Hm Hf]. rewrite Forall_forall in Ef. apply (Ef (key, entry)); [by apply in_iter|]. cbn. by rewrite Hm, Hf.
Qed.
