(* ===== verification/HostChannels.v ===== *)
(** * The host server: what the clients receive

    A client of the server has a channel: a TCP connection on which the server
    sends framed messages.  [ChannelSpec] says what the table of channels promises
    (each open channel has the messages sent to it, in order; a channel is closed by
    name, or with the device session it was associated with); [TcpMap] of
    [src/hdc/src/server.rs] is proved to implement it. *)

From S2P Require Import Prelude RustStr Config Tlv Serializer Encrypt Transport HostMaps.

(** ** The specification *)

Module ChannelSpec.
(** [closed] are the messages of the channels that were shut down. *)
Record t := mk { open : gmap Z (list bytes); owner : gmap Z Z; kept : gset Z; closed : list (list bytes) }.
Definition init : t := mk ∅ ∅ ∅ [].
Inductive op :=
  | Start (id : Z) | Finish (id : Z) | MaybeFinish (id : Z) | KeepAlive (id : Z)
  | Message (id : Z) (data : bytes) | Take (id : Z) | Associate (id session : Z) | CloseSession (session : Z).
Definition finish (id : Z) (a : t) : t :=
  mk (delete id (open a)) (owner a) (kept a ∖ {[id]}) (closed a ++ option_list (open a !! id)).
(** The new state, and whether the operation succeeds. *)
Definition step (o : op) (a : t) : bool * t :=
  match o with
  | Start id => (true, mk (<[id := []]> (open a)) (owner a) (kept a) (closed a))
  | Finish id => (true, finish id a)
  | MaybeFinish id => (true, if bool_decide (id ∈ kept a) then a else finish id a)
  | KeepAlive id => (true, mk (open a) (owner a) ({[id]} ∪ kept a) (closed a))
  | Message id data =>
      match open a !! id with
      | Some ms => (true, mk (<[id := ms ++ [data]]> (open a)) (owner a) (kept a) (closed a))
      | None => (false, a)
      end
  | Take id => (true, mk (delete id (open a)) (delete id (owner a)) (kept a) (closed a))
  | Associate id s => (true, mk (open a) (<[id := s]> (owner a)) (kept a) (closed a))
  | CloseSession s =>
      (true, mk (filter (fun e => owner a !! e.1 <> Some s) (open a)) (filter (fun e => e.2 <> s) (owner a)) (kept a)
               (closed a ++ (map_to_list (filter (fun e => owner a !! e.1 = Some s) (open a))).*2))
  end.
Fixpoint steps (os : list op) (a : t) : list bool * t :=
  match os with
  | [] => ([], a)
  | o :: t => let '(b, a1) := step o a in let '(bs, a2) := steps t a1 in (b :: bs, a2)
  end.
End ChannelSpec.

Section Channels.
Context {HA : Aead} {HI : HashIter}.

(** ** The operations of the server *)
Definition perform (o : ChannelSpec.op) : M Host unit :=
  match o with
  | ChannelSpec.Start id => on_tcp (TcpMap.start_channel id (mkWriter [] None))
  | ChannelSpec.Finish id => on_tcp (TcpMap.end_channel id)
  | ChannelSpec.MaybeFinish id => maybe_end_channel id
  | ChannelSpec.KeepAlive id => on_tcp (TcpMap.set_keep_alive id)
  | ChannelSpec.Message id data => on_tcp (TcpMap.send_channel_message id data)
  | ChannelSpec.Take id => _ ← on_tcp (TcpMap.take_channel_writer id); mret tt
  | ChannelSpec.Associate id s => on_tcp (TcpMap.associate_channel_with_session id s)
  | ChannelSpec.CloseSession s => on_tcp (TcpMap.close_session_channels s)
  end.
(** Each operation is tried; the outcomes are those of [ChannelSpec.steps]. *)
Fixpoint perform_all (os : list ChannelSpec.op) (h : Host) : list bool * Host :=
  match os with
  | [] => ([], h)
  | o :: t => let '(r, h1) := perform o h in let '(bs, h2) := perform_all t h1 in (is_ok r :: bs, h2)
  end.

(** ** Correspondence of the states *)
Definition channel_frame (data : bytes) : bytes := to_be_bytes 4 (wrap 32 (len data)) ++ data.
Definition sent (ms : list bytes) : Writer := mkWriter (concat (map channel_frame ms)) None.
Definition implements (h : Host) (a : ChannelSpec.t) : Prop :=
  TcpMap.channel_writers (tcp_map h) = sent <$> ChannelSpec.open a /\
  TcpMap.channel_sessions (tcp_map h) = ChannelSpec.owner a /\
  TcpMap.keep_alive_channels (tcp_map h) = ChannelSpec.kept a /\
  TcpMap.shut_channels (tcp_map h) ≡ₚ map sent (ChannelSpec.closed a).

Lemma sent_snoc ms data : sent (ms ++ [data]) = mkWriter (w_out (sent ms) ++ channel_frame data) None.
Proof. unfold sent. rewrite map_app, concat_app. cbn [map concat]. by rewrite app_nil_r. Qed.
Lemma send_message_sent id data m ms :
  TcpMap.channel_writers m !! id = Some (sent ms) ->
  TcpMap.send_channel_message id data m =
    (Ok tt, TcpMap.set_channel_writers <[id := sent (ms ++ [data])]> m).
Proof.
  intros E. unfold TcpMap.send_channel_message. rewrite M_bind_eq. cbn [get]. rewrite E.
  rewrite sent_snoc. unfold TcpMap.on_channel_writer, channel_frame. by rewrite app_assoc.
Qed.

(** *** Closing the channels of a session *)
Lemma filter_out_cons {V} (c : Z) (l : list Z) (m : gmap Z V) :
  filter (fun e => e.1 ∉ c :: l) m = filter (fun e => e.1 ∉ l) (delete c m).
Proof.
  apply map_filter_strong_ext. intros i x. cbn [fst].
  rewrite lookup_delete_Some, not_elem_of_cons. split; intros; destruct_and!; split_and!; congruence || done.
Qed.
Lemma close_fold l m :
  NoDup l ->
  let m' := foldl (fun m cid => TcpMap.close_session_channel cid m) m l in
  TcpMap.channel_writers m' = filter (fun e => e.1 ∉ l) (TcpMap.channel_writers m) /\
  TcpMap.channel_sessions m' = filter (fun e => e.1 ∉ l) (TcpMap.channel_sessions m) /\
  TcpMap.keep_alive_channels m' = TcpMap.keep_alive_channels m /\
  TcpMap.shut_channels m' = TcpMap.shut_channels m ++ omap (fun c => TcpMap.channel_writers m !! c) l.
Proof.
  intros Hl. revert m; induction Hl as [|c l Hc Hl IH]; intros m; cbn zeta; cbn [foldl].
  - split_and!; [..|done|by rewrite app_nil_r];
      symmetry; apply map_filter_id; intros ???; by apply not_elem_of_nil.
  - destruct (IH (TcpMap.close_session_channel c m)) as (-> & -> & -> & ->).
    rewrite !filter_out_cons. split_and!; [done..|]. cbn. rewrite <- app_assoc. f_equal.
    replace (omap (fun c0 => delete c (TcpMap.channel_writers m) !! c0) l)
      with (omap (fun c0 => TcpMap.channel_writers m !! c0) l).
    + by destruct (TcpMap.channel_writers m !! c).
    + apply list_omap_ext, Forall_Forall2_diag, Forall_forall. intros x Hx.
      rewrite lookup_delete_ne; [done|]. by intros ->.
Qed.
(** The writers found under a list of keys are those of the map at the keys. *)
Lemma omap_lookup_perm {V} (P : Z -> Prop) `{!forall k, Decision (P k)} (m : gmap Z V) (l : list Z) :
  NoDup l -> (forall k, k ∈ l <-> P k) ->
  omap (fun k => m !! k) l ≡ₚ (map_to_list (filter (fun e => P e.1) m)).*2.
Proof.
  intros Hl Hp.
  assert (E : omap (fun k => m !! k) l = (omap (fun k => pair k <$> m !! k) l).*2).
  { clear. induction l as [|k l IH]; [done|]. cbn. destruct (m !! k); cbn; by rewrite IH. }
  rewrite E. apply Permutation_map, NoDup_Permutation; [|apply NoDup_map_to_list|].
  - apply (NoDup_fmap_1 fst).
    assert (E1 : (omap (fun k => pair k <$> m !! k) l).*1 = filter (fun k => is_Some (m !! k)) l).
    { clear. induction l as [|k l IH]; [done|]. rewrite filter_cons. cbn.
      destruct (m !! k); cbn; rewrite IH; case_decide as Hd; [done| |by destruct Hd|done]. by destruct Hd. }
    rewrite E1. by apply NoDup_filter.
  - intros [k v]. rewrite list_elem_of_omap, elem_of_map_to_list, map_lookup_filter_Some. cbn. split.
    + intros (k' & Hk & Hm). destruct (m !! k') as [v'|] eqn:Ev; [|done]. injection Hm as -> ->. by rewrite <- Hp.
    + intros [Hm HP]. exists k. rewrite Hp, Hm. done.
Qed.

(** The channels that close with a session. *)
Lemma close_session_implements s h a :
  implements h a -> implements (set_tcp_map (TcpMap.close_session_channels s (tcp_map h)).2 h)
                      (ChannelSpec.step (ChannelSpec.CloseSession s) a).2.
Proof.
  intros (Hw & Ho & Hk & Hs). unfold implements. cbn [set_tcp_map tcp_map snd TcpMap.close_session_channels modify].
  set (l := map fst _).
  assert (Hl : NoDup l) by (apply NoDup_filter_fst; rewrite iter_perm; apply NoDup_fst_map_to_list).
  assert (Hin : forall k, k ∈ l <-> ChannelSpec.owner a !! k = Some s).
  { intros k. unfold l. rewrite <- Ho. rewrite list_elem_of_fmap. split.
    - intros ([k' s'] & -> & [Hs' He]%list_elem_of_filter). rewrite iter_perm in He.
      apply elem_of_map_to_list in He. cbn in *. by subst.
    - intros He. exists (k, s). split; [done|]. apply list_elem_of_filter. split; [done|].
      by rewrite iter_perm, elem_of_map_to_list. }
  destruct (close_fold l (tcp_map h) Hl) as (-> & -> & -> & ->). cbn [ChannelSpec.step snd ChannelSpec.open ChannelSpec.owner
    ChannelSpec.kept ChannelSpec.closed]. rewrite Hw, Ho, Hk. split_and!; [..|done|].
  - rewrite map_filter_fmap. f_equal. apply map_filter_ext. intros i x _. cbn. by rewrite Hin.
  - apply map_filter_ext. intros i x Hi. cbn. rewrite Hin, Hi. split; congruence.
  - rewrite map_app, Hs. f_equiv. rewrite (omap_lookup_perm (fun k => ChannelSpec.owner a !! k = Some s) _ _ Hl Hin).
    rewrite map_filter_fmap, map_to_list_fmap, <- !list_fmap_compose. done.
Qed.

Lemma finish_implements id h a :
  implements h a -> implements (set_tcp_map (TcpMap.end_channel id (tcp_map h)).2 h) (ChannelSpec.finish id a).
Proof.
  intros (Hw & Ho & Hk & Hs). split_and!; try done; cbn.
  - by rewrite fmap_delete, Hw.
  - by rewrite Hk.
  - rewrite Hw, lookup_fmap, map_app, Hs. by destruct (ChannelSpec.open a !! id).
Qed.
(** Every operation of the table is the specification's. *)
Lemma perform_implements o h a :
  implements h a ->
  let '(r, h') := perform o h in
  is_ok r = (ChannelSpec.step o a).1 /\ implements h' (ChannelSpec.step o a).2.
Proof.
  intros Hi. pose proof Hi as (Hw & Ho & Hk & Hs). destruct o as [id|id|id|id|id data|id|id s|s];
    cbn [perform ChannelSpec.step].
  - split; [done|]. split_and!; try done. cbn. by rewrite fmap_insert, Hw.
  - split; [done|]. by apply finish_implements.
  - unfold maybe_end_channel. rewrite M_bind_eq. cbn [get]. unfold TcpMap.is_keep_alive. rewrite Hk.
    case_bool_decide; [done|]. split; [done|]. by apply finish_implements.
  - split; [done|]. split_and!; try done. cbn. by rewrite Hk.
  - unfold on_tcp, zoom. destruct (ChannelSpec.open a !! id) as [ms|] eqn:Em.
    + rewrite (send_message_sent id data _ ms) by (by rewrite Hw, lookup_fmap, Em).
      split; [done|]. split_and!; try done. cbn. by rewrite fmap_insert, Hw.
    + unfold TcpMap.send_channel_message. rewrite M_bind_eq. cbn [get]. rewrite Hw, lookup_fmap, Em.
      split; [done|]. by destruct h.
  - split; [done|]. split_and!; try done; cbn.
    + by rewrite fmap_delete, Hw.
    + by rewrite Ho.
  - split; [done|]. split_and!; try done. cbn. by rewrite Ho.
  - split; [done|]. by apply close_session_implements.
Qed.
Lemma perform_all_implements os h a :
  implements h a ->
  let '(bs, h') := perform_all os h in
  bs = (ChannelSpec.steps os a).1 /\ implements h' (ChannelSpec.steps os a).2.
Proof.
  revert h a; induction os as [|o os IH]; intros h a Hi; [done|]. cbn [perform_all ChannelSpec.steps].
  pose proof (perform_implements o h a Hi) as Hp. destruct (perform o h) as [r h1], (ChannelSpec.step o a) as [b a1].
  destruct Hp as [-> Hi1]. specialize (IH h1 a1 Hi1).
  destruct (perform_all os h1) as [bs h2], (ChannelSpec.steps os a1) as [bs' a2]. by destruct IH as [-> ?].
Qed.

(** ** The client's end *)

Fixpoint recv_messages (n : nat) : M Stream (list bytes) :=
  match n with
  | O => mret []
  | S k => m ← HostTcp.recv_channel_message; ms ← recv_messages k; mret (m :: ms)
  end.
(** A client that reads the bytes of a writer gets the messages, and then the end
    of the stream. *)
Definition client_reads (wr : Writer) (ms : list bytes) : Prop := forall rd,
  clean rd -> flat rd = w_out wr -> exists rd',
  recv_messages (length ms) rd = (Ok ms, rd') /\
  (HostTcp.recv_channel_message rd').1 = err ConnectionAborted "peer shutdown".

Lemma recv_channel_frame m rest rd :
  u32 (len m) -> clean rd -> flat rd = channel_frame m ++ rest -> exists rd',
  HostTcp.recv_channel_message rd = (Ok m, rd') /\ clean rd' /\ flat rd' = rest.
Proof.
  intros Hm Hc Ef. unfold channel_frame in Ef. rewrite <- app_assoc in Ef. unfold HostTcp.recv_channel_message.
  rewrite host_read_frame_eq.
  destruct (read_frame_exact _ _ _ 4 Hc Ef) as (rd1 & E1 & Hc1 & Ef1); [by rewrite len_to_be_bytes|].
  rewrite (M_bind_Ok _ _ _ _ _ E1). apply (read_frame_exact m rest rd1 _ Hc1 Ef1).
  rewrite <- (app_nil_r (to_be_bytes _ _)), slice_raw_prefix by (by rewrite len_to_be_bytes).
  by rewrite wrap_small, from_to_be_bytes_id by done.
Qed.
Lemma client_reads_sent ms : Forall (fun m => u32 (len m)) ms -> client_reads (sent ms) ms.
Proof.
  intros Hms rd. cbn [sent w_out]. revert rd; induction Hms as [|m ms Hm Hms IH]; intros rd Hc Ef.
  - exists rd. split; [done|]. unfold HostTcp.recv_channel_message. rewrite host_read_frame_eq.
    destruct (read_frame_flat 4 rd Hc ltac:(lia)) as (rd' & E & _). rewrite Ef in E.
    change (4 <=? len []) with false in E. cbn iota in E. by rewrite M_bind_eq, E.
  - cbn [map concat] in Ef. destruct (recv_channel_frame m _ _ Hm Hc Ef) as (rd1 & E1 & Hc1 & Ef1).
    destruct (IH rd1 Hc1 Ef1) as (rd2 & E2 & Hend). exists rd2. split; [|done].
    cbn [length recv_messages]. by rewrite (M_bind_Ok _ _ _ _ _ E1), (M_bind_Ok _ _ _ _ _ E2).
Qed.

(** The length of a message is written as a [u32]. *)
Definition messages_fit (os : list ChannelSpec.op) : Prop :=
  Forall (fun o => match o with ChannelSpec.Message _ data => u32 (len data) | _ => True end) os.
Definition spec_fits (a : ChannelSpec.t) : Prop :=
  map_Forall (fun _ ms => Forall (fun m => u32 (len m)) ms) (ChannelSpec.open a) /\
  Forall (Forall (fun m => u32 (len m))) (ChannelSpec.closed a).
Lemma steps_fit os a : messages_fit os -> spec_fits a -> spec_fits (ChannelSpec.steps os a).2.
Proof.
  intros Hos. revert a; induction Hos as [|o os Ho Hos IH]; intros a Ha; [done|]. cbn [ChannelSpec.steps].
  assert (H1 : spec_fits (ChannelSpec.step o a).2).
  { destruct Ha as [Hop Hcl].
    assert (Hf : forall id, spec_fits (ChannelSpec.finish id a)).
    { intros id. split; cbn; [by apply map_Forall_delete|]. apply Forall_app. split; [done|].
      destruct (ChannelSpec.open a !! id) eqn:E; [|constructor]. constructor; [by apply (Hop id)|constructor]. }
    destruct o as [id|id|id|id|id data|id|id s|s]; cbn; try done.
    - split; [|done]. apply map_Forall_insert_2; [constructor|done].
    - by case_bool_decide.
    - destruct (ChannelSpec.open a !! id) as [ms|] eqn:E; [|done]. split; [|done]. apply map_Forall_insert_2; [|done].
      apply Forall_app. split; [by apply (Hop id)|by constructor].
    - split; [by apply map_Forall_delete|done].
    - split; cbn; [by intros k ms [He _]%map_lookup_filter_Some; apply (Hop k)|]. apply Forall_app. split; [done|]. apply Forall_fmap, Forall_forall.
      intros [k ms] [He _]%elem_of_map_to_list%map_lookup_filter_Some. by apply (Hop k). }
  specialize (IH _ H1). destruct (ChannelSpec.step o a) as [b a1]. cbn in IH.
  by destruct (ChannelSpec.steps os a1).
Qed.

(** C39: the table of client channels implements its specification: over any sequence
    of operations the outcomes are those of [ChannelSpec], a client reads from an
    open channel exactly the messages the specification has for it, in order, and
    the channels that were shut down had exactly theirs. *)
Theorem channels_refine_spec (os : list ChannelSpec.op) :
  messages_fit os ->
  let '(bs, h) := perform_all os new_host in
  let '(bs', a) := ChannelSpec.steps os ChannelSpec.init in
  bs = bs' /\
  (forall id, match ChannelSpec.open a !! id, TcpMap.channel_writers (tcp_map h) !! id with
              | Some ms, Some wr => client_reads wr ms
              | None, None => True
              | _, _ => False
              end) /\
  (exists wrs, TcpMap.shut_channels (tcp_map h) ≡ₚ wrs /\ Forall2 client_reads wrs (ChannelSpec.closed a)).
Proof.
  intros Hos. assert (Hi : implements new_host ChannelSpec.init) by done.
  pose proof (perform_all_implements os _ _ Hi) as H. pose proof (steps_fit os ChannelSpec.init Hos ltac:(done)) as Hf.
  destruct (perform_all os new_host) as [bs h], (ChannelSpec.steps os ChannelSpec.init) as [bs' a].
  destruct H as [-> (Hw & _ & _ & Hs)]. destruct Hf as [Hop Hcl]. cbn [fst snd] in *. split_and!; [done| |].
  - intros id. rewrite Hw, lookup_fmap. destruct (ChannelSpec.open a !! id) as [ms|] eqn:E; [|done].
    apply client_reads_sent. by apply (Hop id).
  - exists (map sent (ChannelSpec.closed a)). split; [done|]. rewrite Forall2_fmap_l.
    apply Forall_Forall2_diag. eapply Forall_impl; [exact Hcl|]. apply client_reads_sent.
Qed.
End Channels.

Section Witness.
#[local] Existing Instance ToyAead.aead.
#[local] Existing Instance SomeOrder.order.
Import ChannelSpec.
(** Two clients of one device: the messages are interleaved, one channel is kept
    open by its client, and both are closed when the device goes away. *)
Definition two_clients : list op :=
  [Start 1; Associate 1 7; Start 2; Associate 2 7; KeepAlive 2; Message 1 (lit "a"); Message 2 (lit "b");
   Message 1 (lit "c"); MaybeFinish 2; Message 3 (lit "x"); CloseSession 7].
Lemma channels_refine_spec_witness :
  messages_fit two_clients /\ (steps two_clients init).1 = [true; true; true; true; true; true; true; true; true; false; true] /\
  (perform_all two_clients new_host).1 = (steps two_clients init).1.
Proof.
  assert (H : messages_fit two_clients) by (repeat constructor; by vm_compute).
  split_and!; [done|by vm_compute|]. pose proof (channels_refine_spec two_clients H) as Ht.
  destruct (perform_all two_clients new_host) as [bs h], (steps two_clients init) as [bs' a].
  exact (proj1 Ht).
Defined.
End Witness.
