(* ===== verification/HostSession.v ===== *)
(** * The host server: a session with a daemon over TCP

    [src/hdc/src/server.rs]: [start_tcp_daemon_session], which connects to a daemon,
    answers its requests for authentication and registers the device, and the two
    tasks it starts: the heartbeat and the reader that hands the daemon's messages
    to their receivers.  The random session identifier, the seeds of the
    cryptography and which waits time out are arguments. *)

From S2P Require Import Prelude RustStr Config Tlv Serializer Encrypt Transport Reading AuthTlv RsaAuth HostMaps.
From S2P Require Import HostChannels.

(** The system of the host: its environment, and whether a connection is refused. *)
Class HostSys := {
  host_env : bytes -> option bytes;
  tcp_connect_error : bytes -> option Error
}.

(** The server's tables, the read half of the connection and the key files. *)
Record Session := mkSession { s_host : Host; s_rd : Stream; s_files : Files }.
Definition on_host {A} : M Host A -> M Session A := zoom s_host (fun h s => mkSession h (s_rd s) (s_files s)).
Definition on_read {A} : M Stream A -> M Session A := zoom s_rd (fun rd s => mkSession (s_host s) rd (s_files s)).
Definition on_files {A} : M Files A -> M Session A := zoom s_files (fun f s => mkSession (s_host s) (s_rd s) f).

Definition MAX_AUTH_ATTEMPTS : nat := 10.
Definition ENV_SERVER_HEARTBEAT : bytes := lit "OHOS_HDC_HEARTBEAT".

Section Session.
Context {HA : Aead} {HI : HashIter} {HR : Rsa} {HF : HostFs} {HS : HostSys}.

(** [1-5 digits, value in 1..=65535]. *)
Definition check_target_port (addr : bytes) : Result unit :=
  let port_str := match rsplit_once 58 addr with Some (_, p) => p | None => [] end in
  if bool_decide (port_str = []) || (5 <? len port_str) || negb (forallb is_ascii_digit port_str)
  then err InvalidInput "The port must be digit str"
  else match parse_uint 16 port_str with
       | inr port => if 0 <? port then Ok tt else err InvalidInput "Port range incorrect"
       | inl _ => err InvalidInput "Port range incorrect"
       end.

Definition host_version : bytes := get_version ++ lit "47d583e40754ffe6".
Definition host_handshake_message (auth_type session_id : Z) (connect_key buf : bytes) : TaskMessage :=
  mkTaskMessage 0 KernelHandshake
    (SessionHandShake.serialize
       (SessionHandShake.mk HANDSHAKE_MESSAGE auth_type session_id connect_key buf host_version)).
Definition send_handshake (auth_type session_id : Z) (connect_key buf : bytes) : M Session unit :=
  on_host (on_tcp (TcpMap.send_to_session session_id
    (concat_pack (host_handshake_message auth_type session_id connect_key buf)))).
(** [end_session] and the error. *)
Definition abandon {A} (session_id : Z) (k : ErrorKind) (msg : bytes) : M Session A :=
  _ ← on_host (on_tcp (TcpMap.end_session session_id)); fail k msg.
(** A result whose error ends the session. *)
Definition or_abandon {A} (session_id : Z) (k : ErrorKind) (what : string) (m : M Session A) : M Session A :=
  r ← try_ m;
  match r with
  | Ok a => mret a
  | Err e => abandon session_id k (lit what ++ err_msg e)
  | Panic => lift Panic
  end.

(** What is to be done after an answer of the daemon: [None] is another round. *)
Definition answer_auth (seed session_id : Z) (connect_key : bytes) (daemon_hs : SessionHandShake.t)
    : M Session (option bytes) :=
  let auth_type := SessionHandShake.auth_type daemon_hs in
  let buf := SessionHandShake.buf daemon_hs in
  if auth_type =? AuthType.as_u8 AuthType.AuthOk then mret (Some buf)
  else if auth_type =? AuthType.as_u8 AuthType.AuthFail then
    abandon session_id PermissionDenied (lit "TCP authentication rejected by daemon")
  else if auth_type =? AUTH_TYPE_SSL_TLS_PSK then
    if negb (encrypt_channel host_env) then
      abandon session_id PermissionDenied
        (lit "Daemon requested encrypted TCP channel but OHOS_HDC_ENCRYPT_CHANNEL is not set to 1")
    else
      match b64_decode buf with
      | inl e => abandon session_id InvalidData (lit "Failed to base64-decode daemon PSK: " ++ e)
      | inr encrypted_psk =>
          psk_bytes ← or_abandon session_id PermissionDenied "Failed to decrypt daemon PSK: "
                        (on_files (decrypt_psk seed encrypted_psk));
          if negb (len psk_bytes =? 32) then
            abandon session_id InvalidData
              (lit "Daemon PSK length is " ++ fmt_dec (len psk_bytes) ++ lit ", expected 32")
          else
            _ ← on_host (on_tcp (TcpMap.set_session_cipher session_id (PskCipher_new psk_bytes true)));
            _ ← send_handshake AUTH_TYPE_SSL_TLS_PSK session_id connect_key [];
            mret (Some buf)
      end
  else if auth_type =? AuthType.as_u8 AuthType.Publickey then
    pubkey_info ← or_abandon session_id OtherError "Failed to get public key info: "
                    (on_files (get_public_key_info seed));
    _ ← send_handshake (AuthType.as_u8 AuthType.Publickey) session_id connect_key pubkey_info;
    mret None
  else if auth_type =? AuthType.as_u8 AuthType.Signature then
    signature ← or_abandon session_id OtherError "Failed to sign challenge: "
                  (on_files (rsa_sign_challenge seed buf));
    _ ← send_handshake (AuthType.as_u8 AuthType.Signature) session_id connect_key signature;
    mret None
  else if auth_type =? AuthType.as_u8 AuthType.Token then
    abandon session_id PermissionDenied (lit "Token auth not supported")
  else abandon session_id InvalidData (lit "Unknown auth type from daemon: " ++ fmt_dec auth_type).

(** The rounds that are left; [timeout i] says whether the wait with [i] rounds left
    times out.  The value is the buffer of the daemon's last answer. *)
Fixpoint auth_rounds (timeout : nat -> bool) (seed session_id : Z) (connect_key : bytes) (left : nat)
    : M Session bytes :=
  match left with
  | O => abandon session_id PermissionDenied (lit "TCP authentication failed")
  | S n =>
      if timeout left then abandon session_id TimedOut (lit "TCP authentication timeout")
      else
        r ← try_ (on_read HostTcp.unpack_task_message);
        match r with
        | Err e => _ ← on_host (on_tcp (TcpMap.end_session session_id)); lift (Err e)
        | Panic => lift Panic
        | Ok daemon_resp =>
            if negb (cmd_eqb (command daemon_resp) KernelHandshake)
            then auth_rounds timeout seed session_id connect_key n
            else
              match SessionHandShake.deserialize (payload daemon_resp) with
              | Err e => abandon session_id InvalidData
                           (lit "Failed to deserialize daemon handshake: " ++ err_msg e)
              | Panic => lift Panic
              | Ok daemon_hs =>
                  o ← answer_auth seed session_id connect_key daemon_hs;
                  match o with
                  | Some last_daemon_buf => mret last_daemon_buf
                  | None => auth_rounds timeout seed session_id connect_key n
                  end
              end
        end
  end.

(** Up to the start of the two tasks; whether the heartbeat is started.  [limit] is how
    much the new connection takes before it fails. *)
Definition start_tcp_daemon_session (timeout : nat -> bool) (limit : option (Z * Error)) (seed session_id : Z)
    (addr : bytes) : M Session bool :=
  _ ← lift (check_target_port addr);
  _ ← lift (match tcp_connect_error addr with Some e => Err e | None => Ok tt end);
  _ ← on_host (on_tcp (TcpMap.start_session session_id (mkWriter [] limit)));
  info ← try_ (on_files (get_public_key_info seed));
  _ ← send_handshake (AuthType.as_u8 AuthType.NoAuth) session_id addr (build_host_auth_buf host_env info);
  last_daemon_buf ← auth_rounds timeout seed session_id addr MAX_AUTH_ATTEMPTS;
  tlv_map ← lift (HostTlv.parse_tlv last_daemon_buf);
  _ ← on_host (on_connect (ConnectMap.put addr
        (DaemonInfo.mk session_id Tcp Connected (default [] (tlv_map !! lit "devname")) [])));
  mret (negb (bool_decide (host_env ENV_SERVER_HEARTBEAT = Some (lit "1")))).

(** ** The heartbeat: one tick, and whether the task goes on *)
Definition heartbeat_tick (session_id : Z) : M Host bool :=
  r ← try_ (on_tcp (TcpMap.send_to_session session_id (concat_pack (mkTaskMessage 0 HeartbeatMsg []))));
  mret (is_ok r).

(** ** The reader *)

(** A frame; the cipher is the session's, shared with the senders. *)
Definition recv_session_frame (session_id : Z) : M Session bytes := fun s =>
  let tm := tcp_map (s_host s) in
  let '(r, (c', rd')) := HostTcp.recv_tcp_frame (TcpMap.get_session_cipher session_id tm, s_rd s) in
  let tm' := match c' with Some c => TcpMap.set_session_ciphers <[session_id := c]> tm | None => tm end in
  (r, mkSession (set_tcp_map tm' (s_host s)) rd' (s_files s)).

(** A late request for a signature. *)
Definition late_handshake (seed session_id : Z) (connect_key : bytes) (task : TaskMessage) : M Session unit :=
  match SessionHandShake.deserialize (payload task) with
  | Ok daemon_hs =>
      if SessionHandShake.auth_type daemon_hs =? AuthType.as_u8 AuthType.Signature then
        r ← try_ (on_files (rsa_sign_challenge seed (SessionHandShake.buf daemon_hs)));
        match r with
        | Ok signature =>
            _ ← try_ (send_handshake (AuthType.as_u8 AuthType.Signature) session_id connect_key signature); mret tt
        | _ => mret tt
        end
      else mret tt
  | Err _ => mret tt
  | Panic => lift Panic
  end.

(** A message for a client. *)
Definition deliver (task : TaskMessage) : M Host unit :=
  let to_client data := _ ← try_ (on_tcp (TcpMap.send_channel_message (channel_id task) data)); mret tt in
  if cmd_eqb (command task) KernelEcho then to_client (match payload task with [] => [] | _ :: t => t end)
  else if cmd_eqb (command task) KernelEchoRaw then to_client (payload task)
  else if cmd_eqb (command task) KernelChannelClose then on_tcp (TcpMap.end_channel (channel_id task))
  else if cmd_eqb (command task) FileInit || cmd_eqb (command task) FileCheck
          || cmd_eqb (command task) UnityBugreportInit then mret tt
  else to_client (payload task).

(** One turn of the loop; [false] leaves it. *)
Definition reader_turn (seed session_id : Z) (connect_key : bytes) : M Session bool :=
  r ← try_ (recv_session_frame session_id);
  match r with
  | Ok frame =>
      match Serializer.unpack_task_message frame with
      | Ok task =>
          if cmd_eqb (command task) HeartbeatMsg then mret true
          else
            routed ← on_host (on_usb (UsbMap.route_response session_id (channel_id task) task));
            if routed : bool then mret true
            else if cmd_eqb (command task) KernelHandshake then
              _ ← late_handshake seed session_id connect_key task; mret true
            else _ ← on_host (deliver task); mret true
      | Err _ => mret true
      | Panic => lift Panic
      end
  | Err _ =>
      _ ← on_host (on_connect (ConnectMap.remove connect_key));
      _ ← on_host (on_tcp (TcpMap.end_session session_id));
      mret false
  | Panic => lift Panic
  end.
(** The loop: each turn takes bytes of the stream or leaves it. *)
Fixpoint reader_loop (fuel : nat) (seed session_id : Z) (connect_key : bytes) : M Session unit :=
  match fuel with
  | O => lift Panic
  | S f =>
      continue ← reader_turn seed session_id connect_key;
      if continue : bool then reader_loop f seed session_id connect_key else mret tt
  end.
Definition reader_fuel (rd : Stream) : nat := S (length (flat rd) + length rd).
End Session.

(** ** The reader's turns *)

Section Turns.
Context {HA : Aead} {HL : AeadLaws HA} {HI : HashIter} {HR : Rsa} {HF : HostFs} {HS : HostSys}.

Lemma crypto_total {A} k what (r : bytes + A) : total (crypto k what r).
Proof. apply total_lift. by destruct r. Qed.
Lemma load_keys_total seed : total (load_or_generate_keys seed).
Proof.
  unfold load_or_generate_keys, get_private_key_path, get_public_key_path, get_user_key_dir.
  destruct home_var as [home|]; [|by intros s]. rewrite !bind_Ok.
  apply total_bind; [done|]. intros pri. apply total_bind; [done|]. intros pub. apply total_bind; [done|]. intros fs.
  assert (Hr : forall p, total (read_to_string p)).
  { intros p s. unfold read_to_string. by repeat case_match. }
  assert (Hw : forall p d, total (fs_write p d)).
  { intros p d s. unfold fs_write. by repeat case_match. }
  case_if.
  - repeat (apply total_bind; [apply Hr || apply crypto_total|]; intros). done.
  - unfold generate_key_pair. apply total_bind; [apply crypto_total|]. intros k.
    apply total_bind; [intros s; simpl; by repeat case_match|]. intros _.
    repeat (apply total_bind; [apply Hw || apply crypto_total|]; intros). done.
Qed.
Lemma sign_total seed c : total (rsa_sign_challenge seed c).
Proof. apply total_bind; [apply load_keys_total|]. by intros [k p]. Qed.
Lemma public_key_total seed : total (get_public_key_info seed).
Proof. apply total_bind; [apply load_keys_total|]. intros [k p]. apply total_bind; [apply crypto_total|done]. Qed.

(** Handing a message to a client touches the client channels only. *)
Definition channels_only (h h' : Host) : Prop :=
  connect_map h' = connect_map h /\ usb_map h' = usb_map h /\ forward_map h' = forward_map h /\ aborted h' = aborted h /\
  TcpMap.session_writers (tcp_map h') = TcpMap.session_writers (tcp_map h) /\
  TcpMap.session_ciphers (tcp_map h') = TcpMap.session_ciphers (tcp_map h) /\
  TcpMap.shut_sessions (tcp_map h') = TcpMap.shut_sessions (tcp_map h).
Lemma send_channel_total id d : total (TcpMap.send_channel_message id d).
Proof.
  intros m. unfold TcpMap.send_channel_message. rewrite M_bind_eq. cbn [get].
  destruct (TcpMap.channel_writers m !! id) as [wr|]; [|done]. unfold TcpMap.on_channel_writer.
  pose proof (write_framed_total d wr). by destruct (TcpMap.write_framed d wr).
Qed.
Lemma send_channel_frame id d h :
  channels_only h (on_tcp (TcpMap.send_channel_message id d) h).2.
Proof.
  unfold on_tcp, zoom, TcpMap.send_channel_message. rewrite M_bind_eq. cbn [get].
  destruct (TcpMap.channel_writers (tcp_map h) !! id) as [wr|]; [|by destruct h].
  unfold TcpMap.on_channel_writer. by destruct (TcpMap.write_framed d wr).
Qed.
Lemma deliver_frame task h : exists h', deliver task h = (Ok tt, h') /\ channels_only h h'.
Proof.
  assert (Hc : forall d, exists h', (_ ← try_ (on_tcp (TcpMap.send_channel_message (channel_id task) d)); mret tt) h = (Ok tt, h') /\
    channels_only h h').
  { intros d. pose proof (total_zoom tcp_map set_tcp_map _ (send_channel_total (channel_id task) d) h) as Ht.
    pose proof (send_channel_frame (channel_id task) d h) as Hf. rewrite M_bind_eq. unfold try_, on_tcp in *.
    destruct (zoom _ _ _ h) as [[u|e|] h']; [eauto..|done]. }
  unfold deliver. repeat case_if; try apply Hc; eexists; (split; [reflexivity|]); by destruct h.
Qed.

Lemma late_handshake_frame seed sid key task s :
  wp (late_handshake seed sid key task)
     (fun _ s' => s_rd s' = s_rd s /\ exists tm, s_host s' = set_tcp_map tm (s_host s) /\
        session_frame sid (tcp_map (s_host s)) tm)
     (fun _ _ => False) s.
Proof.
  assert (H0 : forall f, exists tm, s_host (mkSession (s_host s) (s_rd s) f) = set_tcp_map tm (s_host s) /\
    session_frame sid (tcp_map (s_host s)) tm) by (exists (tcp_map (s_host s)); by destruct (s_host s)).
  assert (Hs : s_rd s = s_rd s /\ exists tm, s_host s = set_tcp_map tm (s_host s) /\ session_frame sid (tcp_map (s_host s)) tm).
  { split; [done|]. destruct (H0 (s_files s)) as (tm & E & H). by exists tm. }
  unfold late_handshake. pose proof (proj1 (SessionHandShake_total (payload task))) as Hn.
  destruct (SessionHandShake.deserialize (payload task)) as [hs|e|]; [|done|done]. case_if; [|done].
  apply wp_bind, wp_try, wp_zoom. pose proof (sign_total seed (SessionHandShake.buf hs) (s_files s)) as Ht. unfold wp at 1.
  destruct (rsa_sign_challenge _ _ (s_files s)) as [[sg|e|] f]; [|done|done].
  apply wp_bind, wp_try. apply wp_zoom. apply wp_zoom. cbn [s_host].
  eapply wp_mono; [apply send_to_session_frame|..]; (intros ? tm Htm; split; [done|]; by exists tm).
Qed.

(** A frame from the daemon: bytes are taken, and the session's cipher moves on. *)
Lemma recv_session_frame_consumes sid s :
  bytes_ok (flat (s_rd s)) ->
  wp (recv_session_frame sid)
     (fun f s' => bytes_ok f /\ bytes_ok (flat (s_rd s')) /\ (weight (s_rd s') < weight (s_rd s))%nat /\
        exists tm, s_host s' = set_tcp_map tm (s_host s) /\ session_frame sid (tcp_map (s_host s)) tm)
     (fun _ s' => exists tm, s_host s' = set_tcp_map tm (s_host s) /\ session_frame sid (tcp_map (s_host s)) tm) s.
Proof.
  intros Hb. unfold wp, recv_session_frame, TcpMap.get_session_cipher. set (tm := tcp_map (s_host s)).
  assert (Hsame : exists tm', set_tcp_map tm (s_host s) = set_tcp_map tm' (s_host s) /\ session_frame sid tm tm') by (by exists tm).
  assert (Hset : forall c, exists tm', set_tcp_map (TcpMap.set_session_ciphers <[sid := c]> tm) (s_host s) = set_tcp_map tm' (s_host s) /\
    session_frame sid tm tm').
  { intros c. eexists. split; [reflexivity|]. split_and!; try done. intros s0 Hs. cbn. by rewrite lookup_insert_ne by congruence. }
  destruct (TcpMap.session_ciphers tm !! sid) as [c|]; unfold HostTcp.recv_tcp_frame.
  - rewrite host_read_frame_eq.
    pose proof (recv_sized_consumes (fun d => bytes_ok d) mret ltac:(intros; by apply consumes_ret) (s_rd s) Hb) as Hc.
    assert (E : forall rd, (l ← DaemonTcp.read_frame 4; d ← DaemonTcp.read_frame (from_be_bytes (slice_raw 0 4 l)); mret d) rd =
      (l ← DaemonTcp.read_frame 4; DaemonTcp.read_frame (from_be_bytes (slice_raw 0 4 l))) rd).
    { intros rd. rewrite !M_bind_eq. destruct (DaemonTcp.read_frame 4 rd) as [[l|e|] rd1]; [|done..].
      rewrite M_bind_eq. by destruct (DaemonTcp.read_frame _ rd1) as [[d|e|] rd2]. }
    rewrite E in Hc. destruct ((l ← DaemonTcp.read_frame 4; _) (s_rd s)) as [[ct|e|] rd']; [|apply Hset|by destruct Hc as (_ & _ & ?)].
    destruct Hc as (H1 & H2 & H3 & H4). destruct (decrypt_bytes ct c) as [Hn Hd].
    destruct (decrypt ct c) as [[p|e|] c']; [|apply Hset|done]. split_and!; auto. apply Hset.
  - pose proof (recv_raw_hdc_frame_consumes (s_rd s) Hb) as Hc.
    destruct (HostTcp.recv_raw_hdc_frame (s_rd s)) as [[f|e|] rd']; [|apply Hsame|by destruct Hc as (_ & _ & ?)].
    destruct Hc as (H1 & H2 & H3 & H4). by split_and!; auto.
Qed.

(** What the reader of a session may change of the other sessions and devices. *)
Definition others_same (sid : Z) (h h' : Host) : Prop :=
  connect_map h' = connect_map h /\ forward_map h' = forward_map h /\ aborted h' = aborted h /\
  (forall s, s <> sid -> TcpMap.session_writers (tcp_map h') !! s = TcpMap.session_writers (tcp_map h) !! s) /\
  (forall s, s <> sid -> TcpMap.session_ciphers (tcp_map h') !! s = TcpMap.session_ciphers (tcp_map h) !! s).
Lemma others_same_trans sid h1 h2 h3 : others_same sid h1 h2 -> others_same sid h2 h3 -> others_same sid h1 h3.
Proof.
  intros (A1 & A2 & A3 & A4 & A5) (B1 & B2 & B3 & B4 & B5).
  split_and!; [congruence..| |]; intros s Hs; [by rewrite B4, A4|by rewrite B5, A5].
Qed.
Lemma session_frame_others sid tm h : session_frame sid (tcp_map h) tm -> others_same sid h (set_tcp_map tm h).
Proof. intros (H1 & H2 & _). by split_and!. Qed.
Lemma channels_only_others sid h h' : channels_only h h' -> others_same sid h h'.
Proof. intros (H1 & H2 & H3 & H4 & H5 & H6 & _). split_and!; try done; intros s _; congruence. Qed.

(** The device and the session are gone, all else of the tables is as it was. *)
Definition session_over (sid : Z) (key : bytes) (h h' : Host) : Prop :=
  connect_map h' = delete key (connect_map h) /\ forward_map h' = forward_map h /\ aborted h' = aborted h /\
  TcpMap.session_writers (tcp_map h') !! sid = None /\
  (forall s, s <> sid -> TcpMap.session_writers (tcp_map h') !! s = TcpMap.session_writers (tcp_map h) !! s) /\
  (forall s, s <> sid -> TcpMap.session_ciphers (tcp_map h') !! s = TcpMap.session_ciphers (tcp_map h) !! s).
Lemma others_same_over sid key h1 h2 h3 : others_same sid h1 h2 -> session_over sid key h2 h3 -> session_over sid key h1 h3.
Proof.
  intros (A1 & A2 & A3 & A4 & A5) (B1 & B2 & B3 & B4 & B5 & B6).
  split_and!; [congruence..|done| |]; intros s Hs; [by rewrite B5, A4|by rewrite B6, A5].
Qed.
Lemma route_response_wp sid id task h (Q : bool -> Host -> Prop) E :
  (forall b um, Q b (set_usb_map um h)) -> wp (on_usb (UsbMap.route_response sid id task)) Q E h.
Proof.
  intros HQ. apply wp_zoom. unfold wp, UsbMap.route_response.
  destruct (UsbMap.response_channels _ !! _) as [tx|]; apply HQ.
Qed.

Lemma reader_turn_wp seed sid key s :
  bytes_ok (flat (s_rd s)) ->
  wp (reader_turn seed sid key)
     (fun b s' => if b : bool
        then bytes_ok (flat (s_rd s')) /\ (weight (s_rd s') < weight (s_rd s))%nat /\ others_same sid (s_host s) (s_host s')
        else session_over sid key (s_host s) (s_host s'))
     (fun _ _ => False) s.
Proof.
  intros Hb. apply wp_bind, wp_try. eapply wp_mono; [by apply recv_session_frame_consumes|..].
  - intros f s1 (Hf & Hb1 & Hw & tm & E1 & Htm). apply session_frame_others in Htm. rewrite <- E1 in Htm.
    pose proof (unpack_task_message_no_panic f Hf) as Hn.
    destruct (Serializer.unpack_task_message f) as [task|e|]; [|by apply wp_ret|done].
    case_if; [by apply wp_ret|]. apply wp_bind. unfold on_host at 1. apply wp_zoom. apply route_response_wp. intros routed um.
    set (h2 := set_usb_map um (s_host s1)). assert (H2 : others_same sid (s_host s) h2) by (by apply (others_same_trans _ _ (s_host s1))).
    destruct routed; [by apply wp_ret|]. case_if; apply wp_bind.
    + eapply wp_mono; [apply late_handshake_frame| |done]. intros _ s3 (Erd & tm3 & E3 & Htm3). apply wp_ret.
      rewrite Erd. split_and!; try done. apply (others_same_trans _ _ h2); [done|]. rewrite E3. by apply session_frame_others.
    + apply wp_zoom. cbn [s_host]. destruct (deliver_frame task h2) as (h3 & E3 & H3). unfold wp at 1. rewrite E3.
      apply wp_ret. split_and!; try done. apply (others_same_trans _ _ h2); [done|]. by apply channels_only_others.
  - intros e s1 (tm & E1 & Htm). apply session_frame_others in Htm. rewrite <- E1 in Htm.
    apply wp_bind. do 2 apply wp_zoom. apply wp_modify, wp_bind. do 2 apply wp_zoom. apply wp_modify, wp_ret.
    apply (others_same_over _ _ _ (s_host s1)); [done|]. split_and!; try done; cbn; [by rewrite lookup_delete_eq|].
    intros s0 Hs0. by rewrite lookup_delete_ne by congruence.
Qed.

Lemma reader_loop_wp fuel seed sid key s :
  bytes_ok (flat (s_rd s)) -> (weight (s_rd s) < fuel)%nat ->
  wp (reader_loop fuel seed sid key) (fun _ s' => session_over sid key (s_host s) (s_host s')) (fun _ _ => False) s.
Proof.
  revert s; induction fuel as [|f IH]; intros s Hb Hf; [lia|]. apply wp_bind.
  eapply wp_mono; [by apply reader_turn_wp| |done]. intros [] s1.
  - intros (Hb1 & Hw1 & H1). eapply wp_mono; [apply IH; [done|lia]| |done]. intros [] s2. by apply others_same_over.
  - intros H. by apply wp_ret.
Qed.
End Turns.

(** The task that reads from a daemon ends, whatever the daemon sends: on every
    finite input, with any cipher, any state of the tables and any key files it
    returns without a panic, having unregistered the device and ended the session,
    and with the other devices and sessions as they were. *)
Theorem reader_ends {HA : Aead} {HL : AeadLaws HA} {HI : HashIter} {HR : Rsa} {HF : HostFs} (seed sid : Z) (key : bytes) (s : Session) :
  bytes_ok (flat (s_rd s)) ->
  exists s', reader_loop (reader_fuel (s_rd s)) seed sid key s = (Ok tt, s') /\ session_over sid key (s_host s) (s_host s').
Proof.
  intros Hb. destruct (wp_value _ _ _ (reader_loop_wp (reader_fuel (s_rd s)) seed sid key s Hb ltac:(unfold reader_fuel, weight; lia)))
    as ([] & s' & E & H). by exists s'.
Qed.

(** ** From the daemon to the clients *)

Section Delivery.
Context {HA : Aead} {HL : AeadLaws HA} {HI : HashIter} {HR : Rsa} {HF : HostFs}.

(** A message that was sent by an end that agrees with the host is what the reader
    takes from the stream. *)
Lemma recv_session_message sid m ls ls' frame rest s :
  transfers sid ls ls' frame (m ← DaemonTcp.unpack_task_message sid; mret [m]) [m] ->
  agree (ciphers ls !! sid) (TcpMap.session_ciphers (tcp_map (s_host s)) !! sid) ->
  clean (s_rd s) -> flat (s_rd s) = frame ++ rest -> exists f s1 tm,
  recv_session_frame sid s = (Ok f, s1) /\ Serializer.unpack_task_message f = Ok m /\
  clean (s_rd s1) /\ flat (s_rd s1) = rest /\ s_host s1 = set_tcp_map tm (s_host s) /\
  session_frame sid (tcp_map (s_host s)) tm /\ agree (ciphers ls' !! sid) (TcpMap.session_ciphers tm !! sid).
Proof.
  intros Ht Ha Hc Ef. set (tm := tcp_map (s_host s)) in *.
  destruct (Ht (mkLink (TcpMap.session_ciphers tm) (s_rd s) (mkWriter [] None)) rest Ha Hc Ef) as (lr & E & Hc1 & Ef1 & Ha1).
  apply M_bind_inv in E as (m' & lr1 & E & [= -> ->]). apply host_recv_eq in E. cbn [ciphers link_rd] in E.
  unfold host_recv_message in E. apply M_bind_inv in E as (f & [c' rd'] & Er & Eu). cbn [lift] in Eu.
  injection Eu as Eu Ec Erd. subst rd'. unfold recv_session_frame, TcpMap.get_session_cipher. fold tm. rewrite Er.
  destruct (TcpMap.session_ciphers tm !! sid) as [c|] eqn:Etm.
  - assert (exists c1, c' = Some c1) as [c1 ->].
    { unfold HostTcp.recv_tcp_frame in Er. destruct ((_ ← HostTcp.read_frame 4; _) (s_rd s)) as [[ct|e|] rd]; [|done..].
      destruct (decrypt ct c). injection Er as _ <- _. eauto. }
    eexists f, _, _. do 4 (split; [done|]). split; [reflexivity|]. split.
    + split_and!; try done. intros s0 Hs0. cbn. by rewrite lookup_insert_ne by congruence.
    + cbn. by rewrite lookup_insert_eq, Ec.
  - assert (c' = None) as ->.
    { unfold HostTcp.recv_tcp_frame in Er. destruct (HostTcp.recv_raw_hdc_frame (s_rd s)). by injection Er as _ <- _. }
    eexists f, _, tm. split; [reflexivity|]. split_and!; try done. by rewrite Etm, Ec.
Qed.

(** What becomes of a message: nothing when it is a heartbeat or a handler waits for
    the channel's messages, else it goes to the client, or closes the channel. *)
Definition client_ops (registered : Z -> bool) (m : TaskMessage) : list ChannelSpec.op :=
  if cmd_eqb (command m) HeartbeatMsg || registered (channel_id m) then []
  else if cmd_eqb (command m) KernelEcho then [ChannelSpec.Message (channel_id m) (tail (payload m))]
  else if cmd_eqb (command m) KernelEchoRaw then [ChannelSpec.Message (channel_id m) (payload m)]
  else if cmd_eqb (command m) KernelChannelClose then [ChannelSpec.Finish (channel_id m)]
  else if cmd_eqb (command m) FileInit || cmd_eqb (command m) FileCheck || cmd_eqb (command m) UnityBugreportInit then []
  else [ChannelSpec.Message (channel_id m) (payload m)].
(** The messages a waiting handler gets. *)
Definition inbox (k : Z) (ms : list TaskMessage) : list TaskMessage :=
  filter (fun m => command m <> HeartbeatMsg /\ channel_id m = k) ms.
Definition waiting (sid : Z) (h : Host) (k : Z) : bool :=
  bool_decide (is_Some (UsbMap.response_channels (usb_map h) !! (sid, k))).
(** The handlers that wait, each with a queue of its own, got their messages. *)
Definition handlers_got (sid : Z) (ms : list TaskMessage) (um um' : UsbMap.t) : Prop :=
  UsbMap.response_channels um' = UsbMap.response_channels um /\
  forall k tx items, UsbMap.response_channels um !! (sid, k) = Some tx ->
    (forall k', UsbMap.response_channels um !! (sid, k') = Some tx -> k' = k) ->
    UsbMap.response_queues um !! tx = Some (mkQueue items true) ->
    UsbMap.response_queues um' !! tx = Some (mkQueue (items ++ inbox k ms) true).

Lemma deliver_implements m h a :
  implements h a -> exists h', deliver m h = (Ok tt, h') /\ channels_only h h' /\
  (command m <> HeartbeatMsg -> implements h' (ChannelSpec.steps (client_ops (fun _ => false) m) a).2).
Proof.
  intros Hi. destruct (deliver_frame m h) as (h' & E & Hf). exists h'. split_and!; [done..|]. intros Hb.
  assert (Hc : forall d, (_ ← try_ (on_tcp (TcpMap.send_channel_message (channel_id m) d)); mret tt) h = (Ok tt, h') ->
    implements h' (ChannelSpec.steps [ChannelSpec.Message (channel_id m) d] a).2).
  { intros d Ed. pose proof (perform_implements (ChannelSpec.Message (channel_id m) d) h a Hi) as Hp. cbn [perform] in Hp.
    rewrite M_bind_eq in Ed. unfold try_ in Ed. cbn [ChannelSpec.steps].
    destruct (on_tcp _ h) as [r h1]. destruct (ChannelSpec.step _ a) as [b a1]. destruct Hp as [_ Hp]. cbn [snd] in *.
    destruct r; [injection Ed as <-; exact Hp..|done]. }
  unfold client_ops. destruct (cmd_eqb (command m) HeartbeatMsg) eqn:Eh; [by apply cmd_eqb_spec in Eh|]. cbn [orb].
  unfold deliver in E. repeat case_if; try (by apply Hc).
  - pose proof (perform_implements (ChannelSpec.Finish (channel_id m)) h a Hi) as Hp. cbn [perform] in Hp. rewrite E in Hp.
    cbn [ChannelSpec.steps]. destruct (ChannelSpec.step _ a) as [b a1]. by destruct Hp.
  - by injection E as <-.
Qed.

Lemma session_frame_implements sid tm h a :
  session_frame sid (tcp_map h) tm -> implements h a -> implements (set_tcp_map tm h) a.
Proof. intros (_ & _ & E1 & E2 & E3 & _ & E4) (H1 & H2 & H3 & H4). unfold implements. cbn. by rewrite E1, E2, E3, E4. Qed.
Lemma steps_app os1 os2 a :
  (ChannelSpec.steps (os1 ++ os2) a).2 = (ChannelSpec.steps os2 (ChannelSpec.steps os1 a).2).2.
Proof.
  revert a; induction os1 as [|o os1 IH]; intros a; [done|]. cbn [app ChannelSpec.steps].
  destruct (ChannelSpec.step o a) as [b a1]. specialize (IH a1).
  destruct (ChannelSpec.steps (os1 ++ os2) a1), (ChannelSpec.steps os1 a1). done.
Qed.
Lemma handlers_got_trans sid ms1 ms2 um1 um2 um3 :
  handlers_got sid ms1 um1 um2 -> handlers_got sid ms2 um2 um3 -> handlers_got sid (ms1 ++ ms2) um1 um3.
Proof.
  intros [E1 H1] [E2 H2]. split; [congruence|]. intros k tx items Hk Hu Hq. unfold inbox. rewrite filter_app, app_assoc.
  apply H2; [by rewrite E1|by rewrite E1|]. by apply H1.
Qed.
(** Routing one message. *)
Lemma route_got sid m um :
  command m <> HeartbeatMsg -> exists b um',
  UsbMap.route_response sid (channel_id m) m um = (Ok b, um') /\ handlers_got sid [m] um um' /\
  b = bool_decide (is_Some (UsbMap.response_channels um !! (sid, channel_id m))).
Proof.
  intros Hm. unfold UsbMap.route_response.
  destruct (UsbMap.response_channels um !! (sid, channel_id m)) as [tx|] eqn:Er.
  - eexists true, _. split; [reflexivity|]. split; [|done].
    split; [by case_if|]. intros k tx' items Hk Hu Hq. unfold inbox. rewrite filter_cons.
    destruct (decide (channel_id m = k)) as [<-|Hne].
    + rewrite decide_True by done. assert (tx' = tx) as -> by congruence.
      unfold UsbMap.alive. rewrite Hq. cbn. by rewrite lookup_alter_eq, Hq.
    + rewrite decide_False by (by intros [_ ?]). rewrite filter_nil, app_nil_r.
      assert (tx' <> tx) by (intros ->; by apply Hne, Hu). case_if; [|done]. cbn. by rewrite lookup_alter_ne by congruence.
  - eexists false, um. split; [reflexivity|]. split; [|done]. split; [done|]. intros k tx' items Hk Hu Hq.
    unfold inbox. rewrite filter_cons, decide_False by (intros [_ E]; congruence). by rewrite filter_nil, app_nil_r.
Qed.

(** One turn of the reader on a message of the session. *)
Lemma reader_turn_message seed sid key m ls ls' frame rest s a :
  transfers sid ls ls' frame (m ← DaemonTcp.unpack_task_message sid; mret [m]) [m] ->
  agree (ciphers ls !! sid) (TcpMap.session_ciphers (tcp_map (s_host s)) !! sid) ->
  clean (s_rd s) -> flat (s_rd s) = frame ++ rest -> command m <> KernelHandshake -> implements (s_host s) a ->
  exists s', reader_turn seed sid key s = (Ok true, s') /\ clean (s_rd s') /\ flat (s_rd s') = rest /\
  agree (ciphers ls' !! sid) (TcpMap.session_ciphers (tcp_map (s_host s')) !! sid) /\
  implements (s_host s') (ChannelSpec.steps (client_ops (waiting sid (s_host s)) m) a).2 /\
  handlers_got sid [m] (usb_map (s_host s)) (usb_map (s_host s')) /\ connect_map (s_host s') = connect_map (s_host s).
Proof.
  intros Ht Ha Hc Ef Hh Hi.
  destruct (recv_session_message sid m ls ls' frame rest s Ht Ha Hc Ef) as (f & s1 & tm & E1 & Eu & Hc1 & Ef1 & Es1 & Htm & Ha1).
  pose proof (session_frame_implements _ _ _ _ Htm Hi) as Hi1. rewrite <- Es1 in Hi1.
  unfold reader_turn. rewrite M_bind_eq. unfold try_. rewrite E1, Eu. unfold client_ops.
  destruct (cmd_eqb (command m) HeartbeatMsg) eqn:Eb.
  { exists s1. split_and!; try done; rewrite ?Es1; try done. split; [done|]. intros k tx items Hk Hu Hq.
    apply cmd_eqb_spec in Eb. unfold inbox. rewrite filter_cons, decide_False by (by intros [? _]).
    by rewrite filter_nil, app_nil_r. }
  assert (Hb : command m <> HeartbeatMsg) by (intros E; rewrite E in Eb; done).
  destruct (route_got sid m (usb_map (s_host s1)) Hb) as (b & um & Er & Hg & ->).
  rewrite M_bind_eq. unfold on_host at 1, on_usb at 1, zoom at 1, zoom at 1. rewrite Er.
  assert (Eum : usb_map (s_host s1) = usb_map (s_host s)) by (by rewrite Es1). rewrite Eum in *.
  cbn [orb]. unfold waiting. set (h2 := set_usb_map um (s_host s1)).
  assert (Hi2 : implements h2 a) by exact Hi1.
  assert (Etm : TcpMap.session_ciphers (tcp_map h2) = TcpMap.session_ciphers tm) by (unfold h2; by rewrite Es1).
  assert (Ecm : connect_map h2 = connect_map (s_host s)) by (unfold h2; by rewrite Es1).
  case_bool_decide as Hw.
  - eexists. split; [reflexivity|]. cbn [s_rd s_host]. split_and!; try done. by rewrite Etm.
  - destruct (cmd_eqb (command m) KernelHandshake) eqn:Ek; [by apply cmd_eqb_spec in Ek|].
    destruct (deliver_implements m h2 a Hi2) as (h3 & E3 & (F1 & F2 & _ & _ & F3 & F4 & _) & Hi3).
    rewrite M_bind_eq. unfold on_host, zoom. cbn [s_host]. rewrite E3. eexists. split; [reflexivity|]. cbn [s_rd s_host].
    split_and!; try done; [by rewrite F4, Etm| |by rewrite F2|by rewrite F1].
    specialize (Hi3 Hb). unfold client_ops in Hi3. rewrite Eb in Hi3. exact Hi3.
Qed.

Lemma waiting_got sid ms h h' : handlers_got sid ms (usb_map h) (usb_map h') -> waiting sid h' = waiting sid h.
Proof. intros [E _]. unfold waiting. by rewrite E. Qed.
Lemma reader_at_end fuel seed sid key s a :
  clean (s_rd s) -> flat (s_rd s) = [] -> implements (s_host s) a -> exists s',
  reader_loop (S fuel) seed sid key s = (Ok tt, s') /\ implements (s_host s') a /\
  usb_map (s_host s') = usb_map (s_host s) /\ connect_map (s_host s') = delete key (connect_map (s_host s)).
Proof.
  intros Hc Ef Hi. assert (Erd : s_rd s = []).
  { destruct (s_rd s) as [|[b|e] rd]; [done| |by inversion Hc]. apply Forall_cons in Hc as [Hb _].
    by destruct b. }
  assert (Hr : exists e, HostTcp.recv_tcp_frame (TcpMap.get_session_cipher sid (tcp_map (s_host s)), s_rd s) =
    (Err e, (TcpMap.get_session_cipher sid (tcp_map (s_host s)), []))).
  { rewrite Erd. unfold HostTcp.recv_tcp_frame. destruct (TcpMap.get_session_cipher _ _); by eexists. }
  destruct Hr as (e & Er). cbn [reader_loop]. unfold reader_turn. rewrite !M_bind_eq. unfold try_, recv_session_frame.
  rewrite Er. eexists. split; [reflexivity|]. cbn [s_host].
  set (tm := match TcpMap.get_session_cipher _ _ with Some _ => _ | None => _ end).
  assert (Htm : session_frame sid (tcp_map (s_host s)) tm).
  { unfold tm. destruct (TcpMap.get_session_cipher _ _); split_and!; try done. intros s0 Hs0. cbn. by rewrite lookup_insert_ne by congruence. }
  split_and!; [|done..]. exact (session_frame_implements _ _ _ _ Htm Hi).
Qed.

Lemma reader_delivers fuel seed sid key ms ls out wire s a :
  Forall sendable ms -> Forall (fun m => command m <> KernelHandshake) ms ->
  link_wr ls = mkWriter out None -> sender_ok (ciphers ls !! sid) ->
  w_out (link_wr (send_all sid ms ls).2) = out ++ wire -> clean (s_rd s) -> flat (s_rd s) = wire ->
  agree (ciphers ls !! sid) (TcpMap.session_ciphers (tcp_map (s_host s)) !! sid) -> implements (s_host s) a ->
  (length ms < fuel)%nat -> exists s',
  reader_loop fuel seed sid key s = (Ok tt, s') /\
  implements (s_host s') (ChannelSpec.steps (flat_map (client_ops (waiting sid (s_host s))) ms) a).2 /\
  handlers_got sid ms (usb_map (s_host s)) (usb_map (s_host s')) /\
  connect_map (s_host s') = delete key (connect_map (s_host s)).
Proof.
  intros Hms Hh. revert fuel ls out wire s a. induction Hms as [|m ms Hm Hms IH]; intros fuel ls out wire s a Hwr Hs Ew Hc Ef Ha Hi Hf.
  - cbn in Ew. rewrite Hwr in Ew. cbn in Ew. assert (wire = []) as ->.
    { apply (f_equal length) in Ew. rewrite length_app in Ew. destruct wire; [done|cbn in Ew; lia]. }
    destruct fuel as [|f]; [lia|]. destruct (reader_at_end f seed sid key s a Hc Ef Hi) as (s' & E & Hi' & Eu & Ec).
    exists s'. split_and!; try done. rewrite Eu. split; [done|]. intros k tx items _ _ Hq. by rewrite Hq, app_nil_r.
  - apply Forall_cons in Hh as [Hh1 Hh].
    destruct (send_recv_one sid m ls out Hm Hwr Hs) as (frame & ls1 & E1 & Hs1 & Hwr1 & Ht1).
    cbn [send_all] in Ew. rewrite (M_bind_Ok _ _ _ _ _ E1) in Ew.
    destruct (send_recv_all sid ms ls1 _ Hms Hwr1 Hs1) as (wire2 & ls2 & E2 & _ & Hwr2 & _).
    rewrite E2 in Ew. cbn [snd] in Ew. rewrite Hwr2 in Ew. cbn [w_out] in Ew. rewrite <- app_assoc in Ew.
    apply app_inv_head in Ew as <-.
    destruct (reader_turn_message seed sid key m ls ls1 frame wire2 s a Ht1 Ha Hc Ef Hh1 Hi)
      as (s1 & Et & Hc1 & Ef1 & Ha1 & Hi1 & Hg1 & Ec1).
    destruct fuel as [|f]; [lia|].
    destruct (IH Hh f ls1 (out ++ frame) wire2 s1 _ Hwr1 Hs1 ltac:(rewrite E2; cbn [snd]; by rewrite Hwr2) Hc1 Ef1 Ha1 Hi1 ltac:(cbn in Hf; lia))
      as (s2 & El & Hi2 & Hg2 & Ec2).
    exists s2. cbn [reader_loop flat_map]. rewrite (M_bind_Ok _ _ _ _ _ Et), steps_app.
    rewrite (waiting_got _ _ _ _ Hg1) in Hi2. split_and!; [done|done| |by rewrite Ec2, Ec1].
    exact (handlers_got_trans sid [m] ms _ _ _ Hg1 Hg2).
Qed.
End Delivery.

(** C6: what a daemon sends over a session reaches its receivers, in order and whole,
    with or without encryption and however the stream is cut: a handler that waits
    for a channel gets every message of it, a client gets the data of the messages of
    its channel that no handler waits for, up to the message that closes it, and a
    message that would make the host write files is dropped.  When the stream ends,
    so does the reader, and the device is unregistered. *)
Theorem daemon_messages_delivered {HA : Aead} {HL : AeadLaws HA} {HI : HashIter} {HR : Rsa} {HF : HostFs}
    (seed sid : Z) (key : bytes) (ms : list TaskMessage) (cs : gmap Z PskCipher) (s : Session) (a : ChannelSpec.t) :
  Forall sendable ms -> Forall (fun m => command m <> KernelHandshake) ms -> sender_ok (cs !! sid) ->
  agree (cs !! sid) (TcpMap.session_ciphers (tcp_map (s_host s)) !! sid) -> clean (s_rd s) ->
  flat (s_rd s) = w_out (link_wr (send_all sid ms (mkLink cs [] (mkWriter [] None))).2) -> implements (s_host s) a ->
  exists s', reader_loop (S (length ms)) seed sid key s = (Ok tt, s') /\
  implements (s_host s') (ChannelSpec.steps (flat_map (client_ops (waiting sid (s_host s))) ms) a).2 /\
  handlers_got sid ms (usb_map (s_host s)) (usb_map (s_host s')) /\
  connect_map (s_host s') = delete key (connect_map (s_host s)).
Proof.
  intros Hms Hh Hs Ha Hc Ef Hi.
  by eapply (reader_delivers _ seed sid key ms (mkLink cs [] (mkWriter [] None)) []); [..|lia].
Qed.

Section SessionWitness.
#[local] Existing Instance ToyAead.aead.
#[local] Existing Instance ToyAead.laws.
#[local] Existing Instance SomeOrder.order.
#[local] Existing Instance ToyRsa.rsa.
#[local] Existing Instance ToyRsa.files.
(** A client on channel 5 of session 7 is sent a line and the end. *)
Definition some_messages : list TaskMessage :=
  [mkTaskMessage 5 KernelEcho (2 :: lit "hi"); mkTaskMessage 0 HeartbeatMsg []; mkTaskMessage 5 KernelChannelClose [0]].
Definition some_channels : ChannelSpec.t := ChannelSpec.mk {[5 := []]} ∅ ∅ [].
Definition some_session : Session :=
  mkSession (set_tcp_map (TcpMap.set_channel_writers (fun _ => {[5 := mkWriter [] None]}) TcpMap.new) new_host)
    [Data (w_out (link_wr (send_all 7 some_messages (mkLink ∅ [] (mkWriter [] None))).2))] ∅.
Lemma some_implements : implements (s_host some_session) some_channels.
Proof. split_and!; reflexivity. Qed.

Lemma daemon_messages_delivered_witness :
  exists s', reader_loop 4 1 7 (lit "k") some_session = (Ok tt, s') /\
  implements (s_host s') (ChannelSpec.mk ∅ ∅ ∅ [[lit "hi"]]).
Proof.
  destruct (daemon_messages_delivered (HR := ToyRsa.rsa) 1 7 (lit "k") some_messages ∅ some_session some_channels) as (s' & E & Hi & _).
  - repeat constructor; by apply (bool_decide_unpack _); vm_compute.
  - repeat constructor; done.
  - done.
  - done.
  - by apply (bool_decide_unpack _); vm_compute.
  - by vm_compute.
  - apply some_implements.
  - exists s'. split; [exact E|exact Hi].
Defined.

Lemma reader_ends_witness :
  exists s', reader_loop (reader_fuel (s_rd some_session)) 1 7 (lit "k") some_session = (Ok tt, s') /\
  session_over 7 (lit "k") (s_host some_session) (s_host s').
Proof.
  apply (reader_ends (HR := ToyRsa.rsa) 1 7 (lit "k") some_session). by apply (bool_decide_unpack _); vm_compute.
Defined.
End SessionWitness.
