(* ===== verification/Handshake.v ===== *)
(** * Host and daemon: the start of a session

    [start_tcp_daemon_session] of the host and [handle_client] of the daemon, played
    against each other: each reads what the other writes.  Both finish, the device is
    registered, and the two ends agree on the session, with a cipher on each side
    exactly when both environments ask for encryption. *)

From S2P Require Import Prelude RustStr Config Tlv Serializer Encrypt Transport Reading AuthTlv RsaAuth.
From S2P Require Import Daemon DaemonTask DaemonMain HostMaps HostChannels HostSession.

(** ** Texts of a handshake *)

(** A text of the protocol of at most [n] bytes. *)
Definition small (n : Z) (s : bytes) : Prop := utf8_valid s = true /\ bytes_ok s /\ len s <= n.

Lemma small_ascii n s : ascii s -> len s <= n -> small n s.
Proof. intros Hs Hl. split_and!; [by apply ascii_utf8|by apply ascii_bytes_ok|done]. Qed.
Lemma small_app n k a b : small n a -> small k b -> small (n + k) (a ++ b).
Proof.
  intros (Ha & Ha' & Hl) (Hb & Hb' & Hk). split_and!; [by rewrite utf8_valid_app|by apply bytes_ok_app|rewrite len_app; lia].
Qed.
Lemma small_weaken n k s : small n s -> n <= k -> small k s.
Proof. intros (? & ? & ?) ?. split_and!; auto with lia. Qed.
Lemma small_make_tlv n tag val : tag_ok tag -> n < 10 ^ 16 -> small n val -> small (32 + n) (make_tlv tag val).
Proof.
  intros (Ha & Hl & _) Hn Hv. unfold make_tlv. pose proof Hv as (_ & _ & Hvl). pose proof (len_nonneg val).
  assert (Hd : digits (fmt_dec (len val))) by (by apply fmt_dec_digits).
  assert (Hdl : len (fmt_dec (len val)) <= 16).
  { unfold fmt_dec, len at 1. pose proof (fmt_dec_go_length 20 (len val) 16 ltac:(lia) ltac:(lia)). lia. }
  destruct (pad16 tag Ha Hl) as [Ht Hta], (pad16 _ (digits_ascii _ Hd) Hdl) as [Hd16 Hda].
  replace (32 + n) with (16 + (16 + n)) by lia. repeat apply small_app; [apply small_ascii; [done|lia]..|done].
Qed.
Lemma small_make_tlvs n es :
  n < 10 ^ 16 -> Forall (fun e => tag_ok e.1 /\ small n e.2) es -> small ((32 + n) * len es) (make_tlvs es).
Proof.
  intros Hn. induction 1 as [|[t v] es [Ht Hv] Hes IH].
  - rewrite len_nil. apply small_ascii; [apply Forall_nil_2|]; rewrite ?Z.mul_0_r; done.
  - change (make_tlvs ((t, v) :: es)) with (make_tlv t v ++ make_tlvs es).
    rewrite len_cons. replace ((32 + n) * (1 + len es)) with (32 + n + (32 + n) * len es) by lia.
    apply small_app; [by apply small_make_tlv|done].
Qed.
Lemma small_text_ok n s : n < 10 ^ 16 -> small n s -> text_ok s.
Proof. intros Hn (Hu & _ & Hl). split; [done|lia]. Qed.
Lemma features_small env : small 64 (features env).
Proof. unfold features. destruct (encrypt_channel env); apply small_ascii; by apply (bool_decide_unpack _); vm_compute. Qed.
Lemma fixed_tag t : tag_okb t = true -> tag_ok t.
Proof. apply tag_okb_ok. Qed.

Lemma host_buf_small env info : small (2 ^ 21) info -> small (2 ^ 23) (build_host_auth_buf env (Ok info)).
Proof.
  intros Hi. rewrite host_buf_entries. eapply small_weaken; [apply (small_make_tlvs (2 ^ 21)); [done|]|].
  - unfold host_entries. cbn [app]. pose proof (features_small env).
    repeat (apply Forall_cons; split); [split; [by apply fixed_tag; vm_compute|]; cbn [snd]..|apply Forall_nil_2]; [|done|].
    + apply small_ascii; by apply (bool_decide_unpack _); vm_compute.
    + eapply small_weaken; [done|lia].
  - unfold host_entries, len. cbn [length app]. lia.
Qed.
Lemma daemon_buf_small env : small (2 ^ 21) (daemon_hostname env) -> small (2 ^ 23) (build_daemon_auth_buf env).
Proof.
  intros Hi. rewrite daemon_buf_entries. eapply small_weaken; [apply (small_make_tlvs (2 ^ 21)); [done|]|].
  - unfold daemon_entries. pose proof (features_small env).
    repeat (apply Forall_cons; split); [split; [by apply fixed_tag; vm_compute|]; cbn [snd]..|apply Forall_nil_2]; [done|].
    eapply small_weaken; [done|lia].
  - unfold daemon_entries, len. cbn [length]. lia.
Qed.

(** A handshake with such texts is sent, and read back. *)
Definition hs_small (hs : SessionHandShake.t) : Prop :=
  0 <= SessionHandShake.auth_type hs < 128 /\ u32 (SessionHandShake.session_id hs) /\
  small (2 ^ 24) (SessionHandShake.banner hs) /\ small (2 ^ 24) (SessionHandShake.connect_key hs) /\
  small (2 ^ 24) (SessionHandShake.buf hs) /\ small (2 ^ 24) (SessionHandShake.version hs).
Lemma handshake_read hs : hs_small hs -> SessionHandShake.deserialize (SessionHandShake.serialize hs) = Ok hs.
Proof.
  intros (Ha & Hs & (H1 & _ & L1) & (H2 & _ & L2) & (H3 & _ & L3) & (H4 & _ & L4)).
  apply (SessionHandShake_roundtrip hs).
  assert (Hstr : forall s, utf8_valid s = true -> len s <= 2 ^ 24 -> str_ok s).
  { intros s Hu Hl. split; [done|]. pose proof (len_nonneg s). ulia. }
  split; [split_and!; auto; ulia|]. unfold SessionHandShake.raw_ok. lia.
Qed.
Lemma handshake_sendable ch hs : u32 ch -> hs_small hs ->
  sendable (mkTaskMessage ch KernelHandshake (SessionHandShake.serialize hs)).
Proof.
  intros Hch (Ha & Hs & (_ & H1 & L1) & (_ & H2 & L2) & (_ & H3 & L3) & (_ & H4 & L4)).
  split; [split; [done|]|]; cbn [payload]; unfold SessionHandShake.serialize.
  - rewrite !bytes_ok_app. split_and!; try (by apply write_string_field_ok); [by apply write_tag_ok| |].
    + constructor; [ulia|constructor].
    + case_if; [apply write_u32_field_ok; ulia|constructor].
  - rewrite !len_app. change (len [SessionHandShake.auth_type hs]) with 1. repeat match goal with |- context [len (write_string_field ?f ?v)] =>
      pose proof (len_write_string_field f v); generalize dependent (len (write_string_field f v)); intros end.
    pose proof (len_write_varint 5 (make_tag 2 WIRE_VARINT)). unfold write_tag, write_varint_u32.
    pose proof (len_write_u32_field 3 (SessionHandShake.session_id hs)).
    unfold HDC_BUF_MAX_SIZE. destruct (negb _); rewrite ?(len_nil (A := Z)); lia.
Qed.

(** ** The messages of the exchange *)

#[local] Arguments concat_pack : simpl never.
#[local] Arguments lit : simpl never.

Section Exchange.
Context {HA : Aead} {HL : AeadLaws HA} {HI : HashIter} {HR : Rsa} {HRL : RsaLaws HR} {HF : HostFs} {HS : HostSys} {OS : Os}.
(** The key pair of the host with its public text, the address, the session and the
    key and seeds of the two ends. *)
Variables (k : PrivKey) (pem : bytes) (files : Files) (addr : bytes) (seed sid dseed rnd : Z) (psk enc : bytes).
Hypothesis Hkeys : holds k (pub_of k) files.
Hypothesis Hpem : to_public_key_pem (pub_of k) = inr pem.
Hypothesis Hhost : small (2 ^ 20) get_hostname /\ (HDC_HOST_DAEMON_BUF_SEPARATOR ∉ get_hostname).
Hypothesis Hname : small (2 ^ 20) (daemon_hostname env_var).
Hypothesis Haddr : small (2 ^ 20) addr /\ check_target_port addr = Ok tt /\ tcp_connect_error addr = None.
Hypothesis Hsid : u32 sid.
Hypothesis Hpsk : len psk = 32 /\ bytes_ok psk.
Hypothesis Henc : oaep_encrypt dseed (pub_of k) psk = inr enc.

Definition info : bytes := get_hostname ++ HDC_HOST_DAEMON_BUF_SEPARATOR :: pem.
Definition hello : TaskMessage :=
  host_handshake_message (AuthType.as_u8 AuthType.NoAuth) sid addr (build_host_auth_buf host_env (Ok info)).
Definition answer (hs : SessionHandShake.t) : TaskMessage := mkTaskMessage 0 KernelHandshake (SessionHandShake.serialize hs).
Definition ok_answer : SessionHandShake.t :=
  daemon_handshake (AuthType.as_u8 AuthType.AuthOk) sid addr (build_daemon_auth_buf env_var).
Definition psk_answer : SessionHandShake.t := daemon_handshake AUTH_TYPE_SSL_TLS_PSK sid addr (b64_encode enc).
Definition ack : TaskMessage := host_handshake_message AUTH_TYPE_SSL_TLS_PSK sid addr [].

Lemma info_small : small (2 ^ 21) info.
Proof using Hhost Hpem HRL.
  destruct (public_pem_text _ _ Hpem) as (Ha & _ & Hl). unfold info. eapply small_weaken;
    [apply small_app; [apply Hhost|apply (small_ascii (1 + 10 ^ 6))]|lia].
  - constructor; [by vm_compute|done].
  - rewrite len_cons. lia.
Qed.
Lemma const_small b : forallb (in_rng 0 127) b && (len b <=? 2 ^ 24) = true -> small (2 ^ 24) b.
Proof.
  intros [Hb Hl]%andb_prop. apply small_ascii; [|lia]. apply Forall_forall. intros x Hx.
  rewrite forallb_forall in Hb. specialize (Hb x ltac:(by apply list_elem_of_In)). unfold in_rng in Hb. lia.
Qed.
Lemma hs_small_mk a key buf :
  0 <= a < 128 -> small (2 ^ 24) key -> small (2 ^ 24) buf ->
  hs_small (SessionHandShake.mk HANDSHAKE_MESSAGE a sid key buf host_version).
Proof using Hsid.
  intros Ha Hk Hb. assert (small (2 ^ 24) HANDSHAKE_MESSAGE) by (by apply const_small; vm_compute).
  assert (small (2 ^ 24) host_version) by (by apply const_small; vm_compute). by do 5 (split; [done|]).
Qed.
Lemma addr_small : small (2 ^ 24) addr.
Proof using Haddr. eapply small_weaken; [apply Haddr|lia]. Qed.
Lemma hello_small : hs_small (SessionHandShake.mk HANDSHAKE_MESSAGE (AuthType.as_u8 AuthType.NoAuth) sid addr
  (build_host_auth_buf host_env (Ok info)) host_version).
Proof using Hhost Hpem HRL Haddr Hsid.
  apply hs_small_mk; [done|apply addr_small|]. eapply small_weaken; [apply host_buf_small, info_small|lia].
Qed.
Lemma ok_answer_small : hs_small ok_answer.
Proof using Hname Haddr Hsid.
  apply hs_small_mk; [done|apply addr_small|].
  eapply small_weaken; [apply daemon_buf_small; eapply small_weaken; [apply Hname|lia]|lia].
Qed.
Lemma psk_answer_small : hs_small psk_answer.
Proof using Henc Haddr Hsid HRL.
  destruct (oaep_len _ _ _ _ Henc) as [_ Hl]. pose proof (b64_len enc).
  apply hs_small_mk; [done|apply addr_small|]. apply small_ascii; [apply b64_text|lia].
Qed.
Lemma ack_small : hs_small (SessionHandShake.mk HANDSHAKE_MESSAGE AUTH_TYPE_SSL_TLS_PSK sid addr [] host_version).
Proof using Haddr Hsid.
  apply hs_small_mk; [done|apply addr_small|]. by apply const_small; vm_compute.
Qed.

(** *** The host *)

Definition no_timeout (n : nat) : bool := false.
Lemma answer_exact hs rest rd :
  hs_small hs -> clean rd -> flat rd = concat_pack (answer hs) ++ rest -> exists rd',
  HostTcp.unpack_task_message rd = (Ok (answer hs), rd') /\ clean rd' /\ flat rd' = rest.
Proof.
  intros Hs Hc Ef. destruct (sendable_fits (answer hs)) as (H1 & H2 & H3); [by apply handshake_sendable|].
  by apply host_unpack_exact.
Qed.
Lemma auth_round hs n s rd' :
  hs_small hs -> HostTcp.unpack_task_message (s_rd s) = (Ok (answer hs), rd') ->
  auth_rounds no_timeout seed sid addr (S n) s =
  (o ← answer_auth seed sid addr hs;
   match o with Some b => mret b | None => auth_rounds no_timeout seed sid addr n end) (mkSession (s_host s) rd' (s_files s)).
Proof.
  intros Hs E. cbn [auth_rounds]. unfold no_timeout at 1. rewrite M_bind_eq. unfold try_, on_read, zoom. rewrite E.
  cbn [command answer]. change (cmd_eqb KernelHandshake KernelHandshake) with true. cbn [negb].
  change (payload (answer hs)) with (SessionHandShake.serialize hs). by rewrite handshake_read.
Qed.

(** The tables after the host's first message. *)
Definition greeted (h : Host) : Host :=
  set_tcp_map (TcpMap.set_session_writers <[sid := mkWriter (concat_pack hello) None]> (tcp_map h)) h.
Lemma host_greets h rd :
  TcpMap.session_ciphers (tcp_map h) !! sid = None ->
  start_tcp_daemon_session no_timeout None seed sid addr (mkSession h rd files) =
  (last_daemon_buf ← auth_rounds no_timeout seed sid addr MAX_AUTH_ATTEMPTS;
   tlv_map ← lift (HostTlv.parse_tlv last_daemon_buf);
   _ ← on_host (on_connect (ConnectMap.put addr
         (DaemonInfo.mk sid Tcp Connected (default [] (tlv_map !! lit "devname")) [])));
   mret (negb (bool_decide (host_env ENV_SERVER_HEARTBEAT = Some (lit "1"))))) (mkSession (greeted h) rd files).
Proof using Hkeys Hpem Haddr.
  intros Hc. destruct Haddr as (_ & Ep & Ec). unfold start_tcp_daemon_session.
  rewrite Ep, M_bind_eq. cbn [lift]. rewrite Ec, M_bind_eq. cbn [lift].
  rewrite M_bind_eq. unfold on_host at 1, on_tcp at 1, zoom at 1, zoom at 1. cbn [TcpMap.start_session modify s_host s_rd s_files].
  rewrite M_bind_eq. unfold try_ at 1, on_files at 1, zoom at 1. cbn [s_host s_rd s_files].
  rewrite (public_key_info k pem seed files Hkeys Hpem). fold info. rewrite M_bind_eq.
  unfold send_handshake at 1, on_host at 1, on_tcp at 1, zoom at 1, zoom at 1. fold hello. cbn [s_host s_rd s_files].
  erewrite (send_plain sid hello _ []); [|cbn; by rewrite lookup_insert_eq|done].
  cbn [app]. match goal with |- _ (mkSession ?h1 _ _) = _ => assert (h1 = greeted h) as -> end; [|done].
  unfold greeted, TcpMap.set_session_writers, set_tcp_map.
  cbn [tcp_map connect_map usb_map forward_map aborted TcpMap.session_writers TcpMap.session_ciphers TcpMap.channel_writers
       TcpMap.channel_sessions TcpMap.keep_alive_channels TcpMap.shut_sessions TcpMap.shut_channels].
  by rewrite insert_insert_eq.
Qed.

(** The device as it is registered at the end. *)
Definition registered (name : bytes) (h : Host) : Prop :=
  connect_map h !! addr = Some (DaemonInfo.mk sid Tcp Connected name []).

Lemma host_plain h rd :
  TcpMap.session_ciphers (tcp_map h) !! sid = None -> clean rd -> flat rd = concat_pack (answer ok_answer) -> exists hb s',
  start_tcp_daemon_session no_timeout None seed sid addr (mkSession h rd files) = (Ok hb, s') /\
  registered (daemon_hostname env_var) (s_host s') /\ flat (s_rd s') = [] /\
  TcpMap.session_writers (tcp_map (s_host s')) !! sid = Some (mkWriter (concat_pack hello) None) /\
  TcpMap.session_ciphers (tcp_map (s_host s')) !! sid = None.
Proof using Hkeys Hpem Haddr Hname Hsid.
  intros Hc Hcl Ef. rewrite host_greets by done. rewrite <- (app_nil_r (concat_pack _)) in Ef.
  destruct (answer_exact ok_answer [] rd ok_answer_small Hcl Ef) as (rd' & Er & _ & Ef').
  rewrite M_bind_eq. unfold MAX_AUTH_ATTEMPTS.
  rewrite (auth_round ok_answer 9 (mkSession (greeted h) rd files) rd' ok_answer_small Er).
  rewrite M_bind_eq. change (answer_auth seed sid addr ok_answer) with (mret (M := M Session) (Some (build_daemon_auth_buf env_var))).
  cbn [mret M_ret s_host s_files].
  destruct (daemon_buf_read env_var) as (m & Em & Hm); [eapply small_text_ok; [|apply Hname]; lia|].
  rewrite Em, M_bind_eq. cbn [lift]. rewrite Hm. eexists _, _. split; [reflexivity|].
  unfold registered, greeted. cbn [s_host s_rd set_connect_map connect_map tcp_map set_tcp_map TcpMap.session_writers
    TcpMap.session_ciphers TcpMap.set_session_writers]. by rewrite !lookup_insert_eq.
Qed.

(** The host's cipher, and the confirmation it sends with it. *)
Definition after_ack (c : PskCipher) : PskCipher :=
  mkPskCipher (send_key c) (recv_key c) (wrap 64 (send_counter c + 1)) (recv_counter c).
Definition ack_frame (f : bytes) : bytes := to_be_bytes 4 (wrap 32 (len f)) ++ f.

Lemma write_framed_free d out : TcpMap.write_framed d (mkWriter out None) = (Ok tt, mkWriter (out ++ ack_frame d) None).
Proof. unfold TcpMap.write_framed, ack_frame. rewrite app_assoc. done. Qed.
Lemma answer_psk h rd f out :
  encrypt_channel host_env = true -> encrypt (concat_pack ack) (PskCipher_new psk true) = (Ok f, after_ack (PskCipher_new psk true)) ->
  TcpMap.session_writers (tcp_map h) !! sid = Some (mkWriter out None) -> exists tm,
  answer_auth seed sid addr psk_answer (mkSession h rd files) =
    (Ok (Some (b64_encode enc)), mkSession (set_tcp_map tm h) rd files) /\
  TcpMap.session_writers tm !! sid = Some (mkWriter (out ++ ack_frame f) None) /\
  TcpMap.session_ciphers tm !! sid = Some (after_ack (PskCipher_new psk true)).
Proof using Hkeys Henc Hpsk HRL.
  intros He Ea Ew. unfold answer_auth. cbn [psk_answer daemon_handshake SessionHandShake.auth_type SessionHandShake.buf].
  change (AUTH_TYPE_SSL_TLS_PSK =? AuthType.as_u8 AuthType.AuthOk) with false.
  change (AUTH_TYPE_SSL_TLS_PSK =? AuthType.as_u8 AuthType.AuthFail) with false. rewrite Z.eqb_refl, He. cbn [negb].
  rewrite b64_roundtrip by (by apply (oaep_len _ _ _ _ Henc)).
  assert (Ed : decrypt_psk seed enc files = (Ok psk, files)).
  { unfold decrypt_psk. rewrite (M_bind_Ok _ _ _ _ _ (Hkeys seed)). cbv beta iota. by rewrite (oaep_roundtrip _ _ _ _ Henc). }
  rewrite M_bind_eq. unfold or_abandon. rewrite M_bind_eq. unfold try_ at 1, on_files at 1, zoom at 1. cbn [s_host s_rd s_files].
  rewrite Ed. cbn [mret M_ret]. rewrite (proj1 Hpsk), Z.eqb_refl. cbn [negb].
  rewrite M_bind_eq. unfold on_host at 1, on_tcp at 1, zoom at 1, zoom at 1. cbn [TcpMap.set_session_cipher modify s_host s_rd s_files].
  rewrite M_bind_eq. unfold send_handshake at 1, on_host at 1, on_tcp at 1, zoom at 1, zoom at 1. fold ack. cbn [s_host s_rd s_files].
  unfold TcpMap.send_to_session. rewrite M_bind_eq.
  cbn [get tcp_map set_tcp_map TcpMap.session_writers TcpMap.session_ciphers TcpMap.set_session_ciphers].
  rewrite Ew, lookup_insert_eq, M_bind_eq. unfold TcpMap.on_cipher. rewrite Ea. unfold TcpMap.on_session_writer.
  rewrite write_framed_free. eexists. split; [reflexivity|]. cbn [TcpMap.session_writers TcpMap.session_ciphers
    TcpMap.set_session_writers TcpMap.set_session_ciphers]. by rewrite !lookup_insert_eq.
Qed.

Lemma host_encrypted h rd f :
  encrypt_channel host_env = true -> encrypt (concat_pack ack) (PskCipher_new psk true) = (Ok f, after_ack (PskCipher_new psk true)) ->
  TcpMap.session_ciphers (tcp_map h) !! sid = None -> clean rd -> flat rd = concat_pack (answer psk_answer) -> exists hb s' name,
  start_tcp_daemon_session no_timeout None seed sid addr (mkSession h rd files) = (Ok hb, s') /\
  registered name (s_host s') /\ flat (s_rd s') = [] /\
  TcpMap.session_writers (tcp_map (s_host s')) !! sid = Some (mkWriter (concat_pack hello ++ ack_frame f) None) /\
  TcpMap.session_ciphers (tcp_map (s_host s')) !! sid = Some (after_ack (PskCipher_new psk true)).
Proof using Hkeys Hpem Haddr Hhost Hsid Henc Hpsk HRL.
  intros He Ea Hc Hcl Ef. rewrite host_greets by done. rewrite <- (app_nil_r (concat_pack _)) in Ef.
  destruct (answer_exact psk_answer [] rd psk_answer_small Hcl Ef) as (rd' & Er & _ & Ef').
  rewrite M_bind_eq. unfold MAX_AUTH_ATTEMPTS.
  rewrite (auth_round psk_answer 9 (mkSession (greeted h) rd files) rd' psk_answer_small Er).
  destruct (answer_psk (greeted h) rd' f (concat_pack hello) He Ea) as (tm & Et & Hw & Hcc).
  { cbn. by rewrite lookup_insert_eq. }
  cbn [s_host s_files]. rewrite (M_bind_Ok _ _ _ _ _ Et). cbn [mret M_ret]. rewrite M_bind_eq. cbn [lift].
  destruct (parse_tlv_ascii (b64_encode enc) (b64_text enc)) as [m Em]. rewrite Em. eexists _, _, _. split; [reflexivity|].
  unfold registered. cbn [s_host s_rd set_connect_map connect_map tcp_map set_tcp_map]. by rewrite lookup_insert_eq.
Qed.

(** *** The daemon *)

Definition both_encrypt : bool := encrypt_channel env_var && encrypt_channel host_env.
Lemma daemon_greeted w rest :
  ciphers (link w) !! 0 = None -> clean (link_rd (link w)) -> flat (link_rd (link w)) = concat_pack hello ++ rest -> exists rd',
  start_client rnd psk dseed false w =
    answer_handshake both_encrypt psk dseed false 0 sid addr (build_host_auth_buf host_env (Ok info))
      (set_link (mkLink (ciphers (link w)) rd' (link_wr (link w))) w) /\ clean rd' /\ flat rd' = rest.
Proof using Hpem Hhost Haddr Hsid HRL.
  intros Hc Hcl Ef. pose proof hello_small as Hs.
  destruct (unpack_plain 0 hello (link w) rest) as (rd' & Eu & Hcl' & Ef'); [by apply handshake_sendable|done..|].
  exists rd'. split; [|done]. unfold start_client. rewrite M_bind_eq. unfold on_link at 1, zoom at 1. rewrite Eu.
  rewrite M_bind_eq. unfold host_handshake. change (payload hello) with (SessionHandShake.serialize
    (SessionHandShake.mk HANDSHAKE_MESSAGE (AuthType.as_u8 AuthType.NoAuth) sid addr (build_host_auth_buf host_env (Ok info)) host_version)).
  rewrite (handshake_read _ Hs). cbn [mret M_ret SessionHandShake.session_id SessionHandShake.connect_key SessionHandShake.buf].
  rewrite M_bind_eq. destruct (host_buf_read host_env (Ok info)) as [-> _].
  { intros i [= <-]. eapply small_text_ok; [|apply info_small]; lia. }
  unfold both_encrypt. by destruct (encrypt_channel env_var).
Qed.

Lemma daemon_sends hs w out :
  hs_small hs -> ciphers (link w) !! sid = None -> link_wr (link w) = mkWriter out None ->
  on_link (DaemonTcp.send_message sid (answer hs)) w =
    (Ok tt, set_link (mkLink (ciphers (link w)) (link_rd (link w)) (mkWriter (out ++ concat_pack (answer hs)) None)) w).
Proof.
  intros Hs Hc Hw. unfold on_link, zoom, DaemonTcp.send_message. rewrite with_cipher, Hc.
  by rewrite (M_bind_Ok _ _ _ _ _ (write_all_free _ _ _ Hw)).
Qed.

Lemma daemon_plain w rest :
  both_encrypt = false -> ciphers (link w) !! 0 = None -> ciphers (link w) !! sid = None ->
  link_wr (link w) = mkWriter [] None -> clean (link_rd (link w)) -> flat (link_rd (link w)) = concat_pack hello ++ rest ->
  exists w', start_client rnd psk dseed false w = (Ok sid, w') /\ ciphers (link w') = ciphers (link w) /\
  link_wr (link w') = mkWriter (concat_pack (answer ok_answer)) None /\ flat (link_rd (link w')) = rest.
Proof using Hpem Hhost Haddr Hsid HRL Hname.
  intros He Hc0 Hc Hw Hcl Ef. destruct (daemon_greeted w rest Hc0 Hcl Ef) as (rd' & -> & _ & Ef').
  unfold answer_handshake. rewrite He, M_bind_eq. cbn [handshake_reply lift]. fold ok_answer. rewrite M_bind_eq.
  change (mkTaskMessage 0 KernelHandshake (SessionHandShake.serialize ok_answer)) with (answer ok_answer).
  rewrite (daemon_sends ok_answer _ []); [|apply ok_answer_small|done..].
  eexists. split; [reflexivity|]. done.
Qed.

Lemma daemon_encrypted w rest f :
  both_encrypt = true -> encrypt (concat_pack ack) (PskCipher_new psk true) = (Ok f, after_ack (PskCipher_new psk true)) -> u32 (len f) ->
  ciphers (link w) !! 0 = None -> ciphers (link w) !! sid = None ->
  link_wr (link w) = mkWriter [] None -> clean (link_rd (link w)) ->
  flat (link_rd (link w)) = concat_pack hello ++ ack_frame f ++ rest ->
  exists w', start_client rnd psk dseed false w = (Ok sid, w') /\
  ciphers (link w') !! sid = Some (mkPskCipher (send_key (PskCipher_new psk false)) (recv_key (PskCipher_new psk false)) 0 1) /\
  link_wr (link w') = mkWriter (concat_pack (answer psk_answer)) None /\ flat (link_rd (link w')) = rest.
Proof using Hpem Hhost Haddr Hsid HRL Hpsk Henc HL.
  intros He Ea Hf Hc0 Hc Hw Hcl Ef. destruct (daemon_greeted w _ Hc0 Hcl Ef) as (rd' & -> & Hcl' & Ef').
  unfold answer_handshake. rewrite He, M_bind_eq. unfold handshake_reply.
  destruct (host_buf_read host_env (Ok info)) as [_ ->].
  { intros i [= <-]. eapply small_text_ok; [|apply info_small]; lia. }
  rewrite bind_Ok. assert (Epsk : encrypt_psk_with_pubkey dseed info psk = Ok enc).
  { destruct (public_pem_text _ _ Hpem) as (_ & Hn & _). unfold encrypt_psk_with_pubkey, info.
    rewrite split_on_app, (split_on_free _ pem) by (done || apply Hhost).
    cbn [lookup list_lookup default from_option id]. by rewrite (public_roundtrip _ _ Hpem), Henc. }
  rewrite Epsk, bind_Ok. cbn [lift]. fold psk_answer. rewrite M_bind_eq.
  change (mkTaskMessage 0 KernelHandshake (SessionHandShake.serialize psk_answer)) with (answer psk_answer).
  rewrite (daemon_sends psk_answer _ []); [|apply psk_answer_small|done..]. cbn [app].
  rewrite M_bind_eq. unfold on_link at 1, zoom at 1. cbn [DaemonTcp.set_session_cipher modify]. rewrite M_bind_eq.
  unfold await_ack. rewrite M_bind_eq. unfold try_ at 1, on_link at 1, zoom at 1.
  match goal with |- context [DaemonTcp.unpack_task_message sid ?l] =>
    destruct (unpack_cipher sid ack l rest (PskCipher_new psk true) (PskCipher_new psk false) f
      (after_ack (PskCipher_new psk true))) as (rd2 & Eu & Hcl2 & Ef2) end;
    [apply handshake_sendable; [done|apply ack_small]|exact Ea|done|exact (paired_new psk true (proj1 Hpsk))|done| |done|exact Ef'|].
  { cbn [link set_link ciphers]. by rewrite lookup_insert_eq. }
  rewrite Eu. change (cmd_eqb (command ack) KernelHandshake) with true. eexists. split; [reflexivity|].
  cbn [link set_link ciphers link_wr link_rd]. by rewrite lookup_insert_eq.
Qed.

(** *** The two ends together *)

(** What the host does when the daemon answers [wire_d], and the daemon when the host
    sends [wire_h]; [ch] and [cd] are the ciphers they end with. *)
Definition host_starts (wire_h wire_d : bytes) (ch : option PskCipher) : Prop := forall h rd,
  TcpMap.session_ciphers (tcp_map h) !! sid = None -> clean rd -> flat rd = wire_d -> exists hb s' name,
  start_tcp_daemon_session no_timeout None seed sid addr (mkSession h rd files) = (Ok hb, s') /\
  registered name (s_host s') /\ flat (s_rd s') = [] /\
  TcpMap.session_writers (tcp_map (s_host s')) !! sid = Some (mkWriter wire_h None) /\
  TcpMap.session_ciphers (tcp_map (s_host s')) !! sid = ch.
Definition daemon_starts (wire_h wire_d : bytes) (cd : option PskCipher) : Prop := forall w rest,
  ciphers (link w) !! 0 = None -> ciphers (link w) !! sid = None -> link_wr (link w) = mkWriter [] None ->
  clean (link_rd (link w)) -> flat (link_rd (link w)) = wire_h ++ rest -> exists w',
  start_client rnd psk dseed false w = (Ok sid, w') /\ ciphers (link w') !! sid = cd /\
  link_wr (link w') = mkWriter wire_d None /\ flat (link_rd (link w')) = rest.

Lemma ends_meet : exists wire_h wire_d ch cd,
  host_starts wire_h wire_d ch /\ daemon_starts wire_h wire_d cd /\ agree ch cd /\ agree cd ch /\
  (is_Some ch <-> encrypt_channel env_var = true /\ encrypt_channel host_env = true).
Proof using All.
  destruct both_encrypt eqn:Eb.
  - destruct (encrypt_message (PskCipher_new psk true) ack) as (f & Ea & Hf).
    { apply handshake_sendable; [done|apply ack_small]. }
    { apply (paired_new psk true (proj1 Hpsk)). }
    pose proof (paired_new psk true (proj1 Hpsk)) as Hp1. pose proof (paired_new psk false (proj1 Hpsk)) as Hp2.
    pose proof Eb as [Ed Eh]%andb_prop.
    exists (concat_pack hello ++ ack_frame f), (concat_pack (answer psk_answer)). eexists _, _. split_and!.
    + intros h rd Hc Hcl Ef. exact (host_encrypted h rd f Eh Ea Hc Hcl Ef).
    + intros w rest Hc0 Hc Hw Hcl Ef. rewrite <- app_assoc in Ef. exact (daemon_encrypted w rest f Eb Ea Hf Hc0 Hc Hw Hcl Ef).
    + split; [exact Hp1|]. cbn. auto with hdc.
    + split; [exact Hp2|done].
    + split; [done|]. intros _. by eexists.
  - exists (concat_pack hello), (concat_pack (answer ok_answer)), None, None. split_and!; try done.
    + intros h rd Hc Hcl Ef. destruct (host_plain h rd Hc Hcl Ef) as (hb & s' & H). eauto.
    + intros w rest Hc0 Hc Hw Hcl Ef. destruct (daemon_plain w rest Eb Hc0 Hc Hw Hcl Ef) as (w' & E & Ec & H).
      exists w'. by rewrite Ec.
    + split; [by intros []|]. intros [E1 E2]. unfold both_encrypt in Eb. by rewrite E1, E2 in Eb.
Qed.
End Exchange.

(** C2: a session is established.  A host with its key pair that connects to a daemon:
    each reads what the other writes (cut into reads in any way), both finish without
    an error, the host registers the device as connected under its address with the
    session the daemon uses too, and the two ends agree on the session in both
    directions; there is a cipher exactly when both environments ask for
    encryption, and then its key is the one the daemon chose. *)
Theorem session_established {HA : Aead} {HL : AeadLaws HA} {HI : HashIter} {HR : Rsa} {HRL : RsaLaws HR} {HF : HostFs} {HS : HostSys} {OS : Os}
    k pem files addr seed sid dseed rnd psk enc :
  holds k (pub_of k) files -> to_public_key_pem (pub_of k) = inr pem ->
  small (2 ^ 20) get_hostname -> (HDC_HOST_DAEMON_BUF_SEPARATOR ∉ get_hostname) -> small (2 ^ 20) (daemon_hostname env_var) ->
  small (2 ^ 20) addr -> check_target_port addr = Ok tt -> tcp_connect_error addr = None -> u32 sid ->
  len psk = 32 -> bytes_ok psk -> oaep_encrypt dseed (pub_of k) psk = inr enc ->
  exists wire_h wire_d ch cd,
  host_starts files addr seed sid wire_h wire_d ch /\ daemon_starts sid dseed rnd psk wire_h wire_d cd /\
  agree ch cd /\ agree cd ch /\
  (is_Some ch <-> encrypt_channel env_var = true /\ encrypt_channel host_env = true).
Proof. intros. by eapply ends_meet. Qed.

Section HandshakeWitness.
#[local] Existing Instance ToyAead.aead.
#[local] Existing Instance ToyAead.laws.
#[local] Existing Instance SomeOrder.order.
#[local] Existing Instance ToyRsa.rsa.
#[local] Existing Instance ToyRsa.laws.
#[local] Existing Instance ToyRsa.files.
(** Both ends ask for encryption. *)
Definition asks_encryption (name : bytes) : option bytes := if beq name ENV_ENCRYPT_CHANNEL then Some (lit "1") else None.
#[local] Instance encrypting_host : HostSys := { host_env := asks_encryption; tcp_connect_error _ := None }.
#[local] Instance encrypting_daemon : Os := {
  create_error _ := None; open_error _ := None; stat_other _ := inl (lit "No such file");
  read_error _ _ := None; read_amount _ _ n := n; write_error _ _ _ := None;
  command_output _ _ := inr (mkCmdOutput [] [] true);
  connect_error _ := None; bind_error _ := None; env_var := asks_encryption }.
Lemma session_established_witness : exists wire_h wire_d ch cd,
  host_starts toy_files (lit "10.0.0.2:5555") 1 77 wire_h wire_d ch /\
  daemon_starts 77 2 5 (replicate 32 7) wire_h wire_d cd /\ agree ch cd /\ agree cd ch /\ is_Some ch.
Proof.
  destruct (session_established (HR := ToyRsa.rsa) tt (lit "PUBLIC") toy_files (lit "10.0.0.2:5555") 1 77 2 5 (replicate 32 7) (replicate 32 7))
    as (wire_h & wire_d & ch & cd & H1 & H2 & H3 & H4 & H5).
  - exact (proj1 (load_or_generate_holds (HR := ToyRsa.rsa) 1 tt tt ∅ toy_files (fun p => eq_refl) toy_load)).
  - reflexivity.
  - apply small_ascii; by apply (bool_decide_unpack _); vm_compute.
  - by apply (bool_decide_unpack _); vm_compute.
  - apply small_ascii; by apply (bool_decide_unpack _); vm_compute.
  - apply small_ascii; by apply (bool_decide_unpack _); vm_compute.
  - by vm_compute.
  - done.
  - done.
  - done.
  - by apply (bool_decide_unpack _); vm_compute.
  - by vm_compute.
  - exists wire_h, wire_d, ch, cd. split_and!; try done. by apply H5; vm_compute.
Defined.
End HandshakeWitness.
