(* ===== verification/HostTask.v ===== *)
(** * The host server: the tasks that talk to a device

    [src/hdc/src/server.rs]: what the handlers of [file], [install] and the flash
    commands share.  A handler registers a queue for the daemon's answers, sends
    messages over the session, waits on the queue, tells the client, and unregisters
    the queue.  What each wait meets (a message, the end of the queue, or the end of
    the allowed time) is an argument, the list [t_rx].

    The second half is how the handlers are reasoned about: [in_talk] says which
    messages went to the daemon and what the clients received since a handler began. *)

From S2P Require Import Prelude RustStr Config Tlv Serializer Encrypt Transport HostMaps HostChannels.

(** What a wait on the queue meets. *)
Inductive RxEvent := RxMsg (m : TaskMessage) | RxClosed | RxTimeout.
(** The tables of the server, what the waits will meet, and the disk. *)
Record Task := mkTask { t_host : Host; t_rx : list RxEvent; t_fs : gmap bytes bytes }.
Definition on_host {A} : M Host A -> M Task A := zoom t_host (fun h t => mkTask h (t_rx t) (t_fs t)).
(** [rx.recv()]: at the end of the list the queue is closed. *)
Definition rx_recv : M Task RxEvent := fun t =>
  match t_rx t with
  | [] => (Ok RxClosed, t)
  | e :: es => (Ok e, mkTask (t_host t) es (t_fs t))
  end.
Definition queue_closed {A} : M Task A := throw ConnectionAborted "Response channel closed".
(** The fuel of a loop that waits once an iteration. *)
Definition rx_fuel (t : Task) : nat := S (length (t_rx t)).

Section Tasks.
Context {HA : Aead} {HI : HashIter}.

Definition to_daemon (session_id : Z) (m : TaskMessage) : M Task unit :=
  on_host (send_to_session session_id (concat_pack m)).
Definition to_client (channel_id : Z) (data : bytes) : M Task unit :=
  on_host (on_tcp (TcpMap.send_channel_message channel_id data)).
(** [.ok()]. *)
Definition to_client_ok (channel_id : Z) (data : bytes) : M Task unit :=
  _ ← try_ (to_client channel_id data); mret tt.

(** Create the queue and register it. *)
Definition register (session_id channel_id : Z) : M Task positive := fun t =>
  let um := usb_map (t_host t) in
  let tx := fresh (dom (UsbMap.response_queues um)) in
  let um := UsbMap.mk (UsbMap.session_senders um) (<[(session_id, channel_id) := tx]> (UsbMap.response_channels um))
              (UsbMap.session_queues um) (<[tx := mkQueue [] true]> (UsbMap.response_queues um)) in
  (Ok tx, mkTask (set_usb_map um (t_host t)) (t_rx t) (t_fs t)).
(** Unregister it; the receiver is dropped at the end of the handler. *)
Definition unregister (session_id channel_id : Z) (tx : positive) : M Task unit := fun t =>
  let um := usb_map (t_host t) in
  let um := UsbMap.mk (UsbMap.session_senders um) (delete (session_id, channel_id) (UsbMap.response_channels um))
              (UsbMap.session_queues um) (alter (fun q => mkQueue (q_items q) false) tx (UsbMap.response_queues um)) in
  (Ok tt, mkTask (set_usb_map um (t_host t)) (t_rx t) (t_fs t)).
(** [register; let result = async { body }.await; unregister; result]. *)
Definition with_queue {A} (session_id channel_id : Z) (body : M Task A) : M Task A :=
  tx ← register session_id channel_id;
  r ← try_ body;
  _ ← unregister session_id channel_id tx;
  lift r.
End Tasks.

(** ** Talking to a device over TCP *)

Section Talks.
Context {HA : Aead} {HL : AeadLaws HA} {HI : HashIter}.

(** A session of the host as an end of a connection. *)
Definition session_of (sid : Z) (h : Host) : option Link :=
  mkLink (TcpMap.session_ciphers (tcp_map h)) [] <$> TcpMap.session_writers (tcp_map h) !! sid.
(** The session takes messages. *)
Definition ready (sid : Z) (h : Host) : Prop := exists l, session_of sid h = Some l /\ link_open sid l.
(** The messages went out over the session, as [send_all] puts them on a connection. *)
Definition said (sid : Z) (ms : list TaskMessage) (h h' : Host) : Prop :=
  exists l l', session_of sid h = Some l /\ send_all sid ms l = (Ok tt, l') /\ session_of sid h' = Some l'.
Definition same_tables (h h' : Host) : Prop :=
  connect_map h' = connect_map h /\ usb_map h' = usb_map h /\ forward_map h' = forward_map h /\ aborted h' = aborted h.

Lemma said_nil sid h : ready sid h -> said sid [] h h.
Proof. intros (l & E & _). by exists l, l. Qed.
Lemma said_trans sid ms1 ms2 h1 h2 h3 : said sid ms1 h1 h2 -> said sid ms2 h2 h3 -> said sid (ms1 ++ ms2) h1 h3.
Proof.
  intros (l1 & l2 & E1 & S1 & E2) (l2' & l3 & E2' & S2 & E3). exists l1, l3. split_and!; [done| |done].
  rewrite send_all_app, S1. congruence.
Qed.
Lemma same_tables_refl h : same_tables h h.
Proof. done. Qed.
Lemma same_tables_trans h1 h2 h3 : same_tables h1 h2 -> same_tables h2 h3 -> same_tables h1 h3.
Proof. intros (?&?&?&?) (?&?&?&?). split_and!; congruence. Qed.

(** One message: it goes out, and the clients see nothing of it. *)
Lemma send_ready sid m h :
  ready sid h -> sendable m -> exists h',
  send_to_session sid (concat_pack m) h = (Ok tt, h') /\ said sid [m] h h' /\ ready sid h' /\ same_tables h h' /\
  forall a, implements h a -> implements h' a.
Proof.
  intros (l & El & Ho) Hm. destruct (send_open sid [m] l Ho ltac:(by constructor)) as (l' & Es & Ho').
  unfold session_of in El. destruct (TcpMap.session_writers (tcp_map h) !! sid) as [wr|] eqn:Ew; [|done].
  injection El as <-. unfold send_to_session. rewrite M_bind_eq. unfold try_, on_tcp, zoom.
  rewrite (send_to_session_link sid m _ wr Ew).
  pose proof Es as Es1. cbn [send_all] in Es1. rewrite M_bind_eq in Es1.
  destruct (DaemonTcp.send_message sid m _) as [[[]|e|] l1] eqn:E1; try done. injection Es1 as ->.
  set (h' := set_tcp_map _ h). exists h'.
  assert (Hl : session_of sid h' = Some l').
  { unfold session_of, h'. cbn. rewrite lookup_insert_eq. cbn.
    assert (link_rd l' = []) as <-; [|by destruct l'].
    pose proof (f_equal (fun p => link_rd p.2) E1) as E. cbn in E. rewrite <- E. apply send_message_rd. }
  split_and!; try done.
  - exists (mkLink (TcpMap.session_ciphers (tcp_map h)) [] wr), l'. split_and!; [|done..]. unfold session_of. by rewrite Ew.
  - by exists l'.
Qed.

(** Since the tables were [h0], the messages [ms] went to the daemon; the clients have
    [a] now, [evs] is still to come from the queue, the disk is [fs], and the other
    tables are as they were. *)
Definition in_talk (sid : Z) (h0 : Host) (ms : list TaskMessage) (a : ChannelSpec.t) (evs : list RxEvent)
    (fs : gmap bytes bytes) (t : Task) : Prop :=
  said sid ms h0 (t_host t) /\ ready sid (t_host t) /\ implements (t_host t) a /\ same_tables h0 (t_host t) /\
  t_rx t = evs /\ t_fs t = fs.
Lemma wp_Ok {S A} (x : A) (Q : A -> S -> Prop) E s : Q x s -> wp (lift (Ok x)) Q E s.
Proof. done. Qed.
Definition no_error {S} (e : Error) (s : S) : Prop := False.
(** The state of the clients after a message or the end of a handler. *)
Definition tell (ch : Z) (text : bytes) (a : ChannelSpec.t) : ChannelSpec.t := (ChannelSpec.step (ChannelSpec.Message ch text) a).2.
Definition end_of (ch : Z) (a : ChannelSpec.t) : ChannelSpec.t := (ChannelSpec.step (ChannelSpec.MaybeFinish ch) a).2.
Definition listening (ch : Z) (a : ChannelSpec.t) : Prop := is_Some (ChannelSpec.open a !! ch).
Lemma listening_tell ch ch' text a : listening ch a -> listening ch (tell ch' text a).
Proof.
  unfold listening, tell. cbn. intros [ms H]. destruct (ChannelSpec.open a !! ch') as [ms'|] eqn:E; [|by exists ms].
  cbn. destruct (decide (ch = ch')) as [->|]; [rewrite lookup_insert_eq|rewrite lookup_insert_ne by done]; eauto.
Qed.
Definition tell_all (ch : Z) (texts : list bytes) (a : ChannelSpec.t) : ChannelSpec.t := foldl (fun a text => tell ch text a) a texts.
Lemma tell_all_app ch xs ys a : tell_all ch (xs ++ ys) a = tell_all ch ys (tell_all ch xs a).
Proof. apply foldl_app. Qed.
Lemma listening_tell_all ch texts a : listening ch a -> listening ch (tell_all ch texts a).
Proof. revert a; induction texts as [|x texts IH]; intros a H; [done|]. by apply IH, listening_tell. Qed.

(** What only changes the channels leaves the sessions alone. *)
Lemma perform_frame o h sid :
  match o with ChannelSpec.Message _ _ | ChannelSpec.MaybeFinish _ => True | _ => False end ->
  let '(r, h') := perform o h in session_of sid h' = session_of sid h /\ same_tables h h'.
Proof.
  intros Ho. destruct o as [| |id| |id data| | |]; try done.
  - cbn. unfold maybe_end_channel. rewrite M_bind_eq. cbn [get]. by destruct (TcpMap.is_keep_alive _ _).
  - cbn. unfold on_tcp, zoom, TcpMap.send_channel_message. rewrite M_bind_eq. cbn [get].
    destruct (TcpMap.channel_writers _ !! id); [|by destruct h].
    unfold TcpMap.on_channel_writer. by destruct (TcpMap.write_framed _ _).
Qed.

Section Steps.
Context (sid : Z) (h0 : Host).

Lemma to_daemon_talk m ms a evs fs t :
  in_talk sid h0 ms a evs fs t -> sendable m ->
  wp (to_daemon sid m) (fun _ => in_talk sid h0 (ms ++ [m]) a evs fs) no_error t.
Proof.
  intros (Hs & Hr & Hi & Ht & Ee & Ef) Hm. destruct (send_ready sid m _ Hr Hm) as (h' & E & S & R & T & I).
  unfold wp, to_daemon, on_host, zoom. rewrite E. cbn. split_and!; cbn; try done.
  - by eapply said_trans.
  - by apply I.
  - by eapply same_tables_trans.
Qed.

Lemma perform_talk o ms a evs fs t :
  match o with ChannelSpec.Message _ _ | ChannelSpec.MaybeFinish _ => True | _ => False end ->
  (ChannelSpec.step o a).1 = true -> in_talk sid h0 ms a evs fs t ->
  wp (on_host (perform o)) (fun _ => in_talk sid h0 ms (ChannelSpec.step o a).2 evs fs) no_error t.
Proof.
  intros Ho Hok (Hs & Hr & Hi & Ht & Ee & Ef). pose proof (perform_implements o _ a Hi) as Hp. rewrite Hok in Hp.
  pose proof (perform_frame o (t_host t) sid Ho) as Hf.
  unfold wp, on_host, zoom. destruct (perform o (t_host t)) as [r h']. destruct Hp as [Hr1 Hi1], Hf as [Hl Hst].
  destruct r as [[]| |]; try done. split_and!; cbn; try done.
  - destruct Hs as (l & l' & S1 & S2 & S3). exists l, l'. by rewrite Hl.
  - unfold ready. by rewrite Hl.
  - by eapply same_tables_trans.
Qed.
Lemma to_client_talk ch text ms a evs fs t :
  listening ch a -> in_talk sid h0 ms a evs fs t ->
  wp (to_client ch text) (fun _ => in_talk sid h0 ms (tell ch text a) evs fs) no_error t.
Proof.
  intros [texts Hl] H. apply (perform_talk (ChannelSpec.Message ch text) ms a); [done| |done]. cbn. by rewrite Hl.
Qed.
Lemma to_client_ok_talk ch text ms a evs fs t :
  in_talk sid h0 ms a evs fs t ->
  wp (to_client_ok ch text) (fun _ => in_talk sid h0 ms (tell ch text a) evs fs) no_error t.
Proof.
  intros H. destruct (ChannelSpec.open a !! ch) as [texts|] eqn:Eo.
  - apply wp_bind, wp_try. eapply wp_mono; [apply (to_client_talk ch text ms a evs fs); [by exists texts|done]| |done].
    intros u t' Ht. by apply wp_ret.
  - destruct H as (Hs & Hr & Hi & Ht & Ee & Ef). unfold wp, to_client_ok. rewrite M_bind_eq. unfold try_, to_client, on_host, on_tcp, zoom.
    destruct Hi as (Hw & Hrest). unfold TcpMap.send_channel_message. rewrite M_bind_eq. cbn [get].
    rewrite Hw, lookup_fmap, Eo. cbn. unfold tell. cbn. rewrite Eo. by destruct t as [[]], Hrest.
Qed.
Lemma end_talk ch ms a evs fs t :
  in_talk sid h0 ms a evs fs t ->
  wp (on_host (maybe_end_channel ch)) (fun _ => in_talk sid h0 ms (end_of ch a) evs fs) no_error t.
Proof. intros H. by apply (perform_talk (ChannelSpec.MaybeFinish ch) ms a). Qed.

Lemma rx_recv_talk e ms a evs fs t (Q : RxEvent -> Task -> Prop) E :
  in_talk sid h0 ms a (e :: evs) fs t -> (forall t', in_talk sid h0 ms a evs fs t' -> Q e t') -> wp rx_recv Q E t.
Proof. intros (Hs & Hr & Hi & Ht & Ee & Ef) HQ. unfold wp, rx_recv. rewrite Ee. by apply HQ. Qed.
Lemma rx_recv_done ms a fs t (Q : RxEvent -> Task -> Prop) E :
  in_talk sid h0 ms a [] fs t -> Q RxClosed t -> wp rx_recv Q E t.
Proof. intros (Hs & Hr & Hi & Ht & Ee & Ef) HQ. unfold wp, rx_recv. by rewrite Ee. Qed.
Lemma talk_fuel ms a evs fs t : in_talk sid h0 ms a evs fs t -> rx_fuel t = S (length evs).
Proof. intros (_ & _ & _ & _ & Ee & _). unfold rx_fuel. by rewrite Ee. Qed.
End Steps.

(** A queue is registered: the conversation begins. *)
Lemma register_talk (sid ch : Z) (a : ChannelSpec.t) (t : Task) :
  ready sid (t_host t) -> implements (t_host t) a -> exists tx t1,
  register sid ch t = (Ok tx, t1) /\ in_talk sid (t_host t1) [] a (t_rx t) (t_fs t) t1 /\ said sid [] (t_host t) (t_host t1) /\
  connect_map (t_host t1) = connect_map (t_host t) /\ forward_map (t_host t1) = forward_map (t_host t) /\
  UsbMap.response_channels (usb_map (t_host t1)) = <[(sid, ch) := tx]> (UsbMap.response_channels (usb_map (t_host t))) /\
  UsbMap.response_queues (usb_map (t_host t1)) !! tx = Some (mkQueue [] true).
Proof.
  intros Hr Hi. eexists _, _. split; [reflexivity|]. split; [by split_and!; try done; apply said_nil|].
  split; [exact (said_nil sid (t_host t) Hr)|]. split_and!; try done. cbn. by rewrite lookup_insert_eq.
Qed.

(** A handler that is done: what it said, what the clients have, and that its queue is
    not registered any more. *)
Definition finished (sid ch : Z) (ms : list TaskMessage) (a : ChannelSpec.t) (evs : list RxEvent) (fs : gmap bytes bytes)
    (t t' : Task) : Prop :=
  said sid ms (t_host t) (t_host t') /\ ready sid (t_host t') /\ implements (t_host t') a /\ t_rx t' = evs /\ t_fs t' = fs /\
  connect_map (t_host t') = connect_map (t_host t) /\ forward_map (t_host t') = forward_map (t_host t) /\
  UsbMap.response_channels (usb_map (t_host t')) = delete (sid, ch) (UsbMap.response_channels (usb_map (t_host t))).

Lemma with_queue_talk {A} (sid ch : Z) (body : M Task A) (a : ChannelSpec.t) (t : Task)
    (P : A -> list TaskMessage -> ChannelSpec.t -> list RxEvent -> gmap bytes bytes -> Prop)
    (E : Error -> list TaskMessage -> ChannelSpec.t -> list RxEvent -> gmap bytes bytes -> Prop) :
  ready sid (t_host t) -> implements (t_host t) a ->
  (forall h0 t1, in_talk sid h0 [] a (t_rx t) (t_fs t) t1 ->
     wp body (fun r t' => exists ms a' evs fs, in_talk sid h0 ms a' evs fs t' /\ P r ms a' evs fs)
             (fun e t' => exists ms a' evs fs, in_talk sid h0 ms a' evs fs t' /\ E e ms a' evs fs) t1) ->
  wp (with_queue sid ch body)
     (fun r t' => exists ms a' evs fs, finished sid ch ms a' evs fs t t' /\ P r ms a' evs fs)
     (fun e t' => exists ms a' evs fs, finished sid ch ms a' evs fs t t' /\ E e ms a' evs fs) t.
Proof.
  intros Hr Hi Hb. unfold with_queue. apply wp_bind. unfold register, wp at 1.
  set (tx := fresh _). set (um := UsbMap.mk _ _ _ _). set (h0 := set_usb_map um (t_host t)).
  assert (H0 : in_talk sid h0 [] a (t_rx t) (t_fs t) (mkTask h0 (t_rx t) (t_fs t))).
  { split_and!; try done. by apply said_nil. }
  assert (Hu : forall ms a' evs fs t', in_talk sid h0 ms a' evs fs t' ->
    finished sid ch ms a' evs fs t (unregister sid ch tx t').2).
  { intros ms a' evs fs t' (Hs & Hr' & Hi' & (T1 & T2 & T3 & T4) & Ee & Ef). split_and!; try done. cbn. rewrite T2. cbn. apply delete_insert_eq. }
  apply wp_bind, wp_try. eapply wp_mono; [apply (Hb h0); exact H0|..].
  - intros r t' (ms & a' & evs & fs & Ht & HP). apply wp_bind. unfold wp at 1. unfold unregister at 1. cbn. exists ms, a', evs, fs.
    split; [by apply Hu|done].
  - intros e t' (ms & a' & evs & fs & Ht & HE). apply wp_bind. unfold wp at 1. unfold unregister at 1. cbn. exists ms, a', evs, fs.
    split; [by apply Hu|done].
Qed.

(** A handler that cannot fail. *)
Lemma with_queue_ok {A} (sid ch : Z) (body : M Task A) (a : ChannelSpec.t) (t : Task)
    (P : A -> list TaskMessage -> ChannelSpec.t -> list RxEvent -> gmap bytes bytes -> Prop) :
  ready sid (t_host t) -> implements (t_host t) a ->
  (forall h0 t1, in_talk sid h0 [] a (t_rx t) (t_fs t) t1 ->
     wp body (fun r t' => exists ms a' evs fs, in_talk sid h0 ms a' evs fs t' /\ P r ms a' evs fs) no_error t1) ->
  exists r t' ms a' evs fs, with_queue sid ch body t = (Ok r, t') /\ finished sid ch ms a' evs fs t t' /\ P r ms a' evs fs.
Proof.
  intros Hr Hi Hb. assert (H : wp (with_queue sid ch body)
    (fun r t' => exists ms a' evs fs, finished sid ch ms a' evs fs t t' /\ P r ms a' evs fs)
    (fun e t' => exists ms a' evs fs, finished sid ch ms a' evs fs t t' /\ False) t).
  { apply (with_queue_talk sid ch body a t P (fun _ _ _ _ _ => False)); [done..|]. intros h0 t1 Ht. by eapply wp_mono; [apply Hb|..]. }
  unfold wp in H. destruct (with_queue sid ch body t) as [[r|e|] t']; [|by destruct H as (?&?&?&?&_&[])|done].
  destruct H as (ms & a' & evs & fs & Hf & HP). by exists r, t', ms, a', evs, fs.
Qed.
(** A handler that fails. *)
Lemma with_queue_err {A} (sid ch : Z) (body : M Task A) (a : ChannelSpec.t) (t : Task)
    (P : Error -> list TaskMessage -> ChannelSpec.t -> list RxEvent -> gmap bytes bytes -> Prop) :
  ready sid (t_host t) -> implements (t_host t) a ->
  (forall h0 t1, in_talk sid h0 [] a (t_rx t) (t_fs t) t1 ->
     wp body (fun _ _ => False) (fun e t' => exists ms a' evs fs, in_talk sid h0 ms a' evs fs t' /\ P e ms a' evs fs) t1) ->
  exists e t' ms a' evs fs, with_queue sid ch body t = (Err e, t') /\ finished sid ch ms a' evs fs t t' /\ P e ms a' evs fs.
Proof.
  intros Hr Hi Hb. assert (H : wp (with_queue sid ch body)
    (fun r t' => exists ms a' evs fs, finished sid ch ms a' evs fs t t' /\ False)
    (fun e t' => exists ms a' evs fs, finished sid ch ms a' evs fs t t' /\ P e ms a' evs fs) t).
  { apply (with_queue_talk sid ch body a t (fun _ _ _ _ _ => False) P); [done..|]. intros h0 t1 Ht. by eapply wp_mono; [apply Hb|..]. }
  unfold wp in H. destruct (with_queue sid ch body t) as [[r|e|] t']; [by destruct H as (?&?&?&?&_&[])| |done].
  destruct H as (ms & a' & evs & fs & Hf & HP). by exists e, t', ms, a', evs, fs.
Qed.
End Talks.

(** A step of a handler by its lemma; what it leaves is named. *)
Tactic Notation "talk" tactic3(tac) "as" simple_intropattern(p) :=
  apply wp_bind; eapply wp_mono; [tac|intros ? ? p|done].
