(* ===== verification/HostFile.v ===== *)
(** * The host server: file transfers

    [src/hdc/src/server.rs]: the handlers of [file send] and [file recv], on the tasks of
    [HostTask].  The disk of the host is a map from paths to contents with the system's
    choices in [HostDisk]; the piece-wise sending of a file is shared with [HostApp].
    Paths are those of a system with [/] as separator. *)

From S2P Require Import Prelude RustStr Config Tlv Serializer Encrypt Transport HostMaps HostChannels HostTask.

(** ** The host's disk *)

Class HostDisk := {
  (** [metadata] of a path that is not a regular file: an error text or a size *)
  disk_stat : bytes -> bytes + Z;
  disk_open_error : bytes -> option Error;
  disk_create_error : bytes -> option Error;
  (** a failing read or write at an offset; how much of what is there a read returns *)
  disk_read_error : bytes -> Z -> option Error;
  disk_read_amount : bytes -> Z -> Z -> Z;
  disk_write_error : bytes -> Z -> option Error;
  (** what is still buffered cannot be written *)
  disk_flush_error : bytes -> option Error
}.

Section Files.
Context {HA : Aead} {HI : HashIter} {HD : HostDisk}.

(** ** Reading and writing *)

Definition metadata (path : bytes) (t : Task) : bytes + Z :=
  match t_fs t !! path with Some content => inr (len content) | None => disk_stat path end.
Definition open_file (path : bytes) : M Task unit :=
  lift (match disk_open_error path with Some e => Err e | None => Ok tt end).
(** [file.read(&mut buf)] at an offset, with a buffer of [n] bytes. *)
Definition read_file (path : bytes) (pos n : Z) : M Task bytes := fun t =>
  match disk_read_error path pos with
  | Some e => (Err e, t)
  | None =>
      let content := default [] (t_fs t !! path) in
      let avail := Z.min n (len content - pos) in
      let k := if avail <=? 0 then 0 else Z.max 1 (Z.min avail (disk_read_amount path pos avail)) in
      (Ok (slice_raw pos (pos + k) content), t)
  end.
Definition create_file (path : bytes) : M Task unit := fun t =>
  match disk_create_error path with
  | Some e => (Err e, t)
  | None => (Ok tt, mkTask (t_host t) (t_rx t) (<[path := []]> (t_fs t)))
  end.
(** [file.write_all(data)] at the end of the file that was created. *)
Definition append_file (path data : bytes) : M Task unit := fun t =>
  let content := default [] (t_fs t !! path) in
  match disk_write_error path (len content) with
  | Some e => (Err e, t)
  | None => (Ok tt, mkTask (t_host t) (t_rx t) (<[path := content ++ data]> (t_fs t)))
  end.
Definition flush_file (path : bytes) : M Task unit :=
  lift (match disk_flush_error path with Some e => Err e | None => Ok tt end).

(** ** Arguments *)

Definition strip_quotes (s : bytes) : bytes :=
  let s := trim s in
  if (2 <=? len s) && starts_with [34] s && ends_with [34] s then slice_raw 1 (len s - 1) s else s.

Definition resolve_file_paths (params : list bytes) : Result (bytes * bytes) :=
  if (length params <? 4)%nat then err InvalidInput "Missing file path arguments"
  else
    let has_cwd := (3 <? length params)%nat && beq (nth 2 params []) (lit "-cwd") in
    let cwd := if has_cwd then nth 3 params [] else [] in
    let idx := if has_cwd then 4%nat else 2%nat in
    if (length params <? idx + 2)%nat then err InvalidInput "Missing local or remote path"
    else
      let local_raw := strip_quotes (nth idx params []) in
      let remote_raw := strip_quotes (nth (idx + 1) params []) in
      let local_path := if bool_decide (cwd = []) then local_raw else trim_end_matches 47 cwd ++ [47] ++ local_raw in
      Ok (local_path, remote_raw).

Definition is_host_receive_child_path (path : bytes) : bool :=
  if existsb (fun b => b =? 0) path then false
  else negb (existsb (fun c => beq c (lit "..")) (flat_map (split_on 92) (split_on 47 path))).

(** The 64 bytes in front of a piece of data. *)
Definition payload_head (offset n : Z) : bytes :=
  let head_bytes := TransferPayload.serialize (TransferPayload.mk offset 0 (wrap 32 n) (wrap 32 n)) in
  take 64 head_bytes ++ replicate (64 - length head_bytes) 0.
Definition CHUNK_SIZE : Z := MAX_SIZE_IOBUF - 64.

(** Send a file in pieces with their heads; each read but the last returns a byte or more. *)
Fixpoint stream_file (fuel : nat) (cmd : HdcCommand) (session_id channel_id : Z) (path : bytes) (offset : Z)
    : M Task unit :=
  match fuel with
  | O => lift Panic
  | S f =>
      data ← read_file path offset CHUNK_SIZE;
      match data with
      | [] => mret tt
      | _ =>
          _ ← to_daemon session_id (mkTaskMessage channel_id cmd (payload_head offset (len data) ++ data));
          stream_file f cmd session_id channel_id path (offset + len data)
      end
  end.
Definition stream_fuel (path : bytes) (t : Task) : nat := S (length (default [] (t_fs t !! path))).

Definition expected (what : string) (c : HdcCommand) : bytes := lit "Expected " ++ lit what ++ lit ", got " ++ debug_name c.

(** ** [file send] *)

Definition file_check (channel_id file_size : Z) (path optional_name : bytes) : TaskMessage :=
  mkTaskMessage channel_id FileCheck
    (TransferConfig.serialize (TransferConfig.mk file_size 0 0 [] path optional_name false 0 false [] [] [] [])).

Definition is_slash (b : Z) : bool := (b =? 47) || (b =? 92).

(** The wait for [FileBegin]; [path] and [optional_name] are those of the last
    [FileCheck]. *)
Fixpoint await_file_begin (fuel : nat) (session_id channel_id file_size : Z) (local_filename path : bytes)
    (retried : bool) : M Task unit :=
  match fuel with
  | O => lift Panic
  | S f =>
      e ← rx_recv;
      match e with
      | RxMsg task =>
          if cmd_eqb (command task) FileBegin then mret tt
          else if contains (lit "illegal operation on a directory") (from_utf8_lossy (payload task))
                  && negb (bool_decide (local_filename = [])) && negb retried then
            let path := drop_while_end is_slash path in
            _ ← to_daemon session_id (file_check channel_id file_size path local_filename);
            await_file_begin f session_id channel_id file_size local_filename path true
          else if retried && (cmd_eqb (command task) KernelChannelClose || cmd_eqb (command task) KernelWakeupSlavetask) then
            await_file_begin f session_id channel_id file_size local_filename path retried
          else fail InvalidData (expected "FileBegin" (command task))
      | RxClosed => queue_closed
      | RxTimeout => throw TimedOut "Timeout waiting for FileBegin"
      end
  end.

(** The text for the client at the end of the transfer. *)
Fixpoint await_file_finish (fuel : nat) : M Task bytes :=
  match fuel with
  | O => lift Panic
  | S f =>
      e ← rx_recv;
      match e with
      | RxMsg task =>
          if cmd_eqb (command task) FileFinish then
            match payload task with
            | [] => mret (lit "FileTransfer finish" ++ [13; 10])
            | b :: _ => if b =? 0 then mret (lit "FileTransfer finish" ++ [13; 10]) else await_file_finish f
            end
          else if cmd_eqb (command task) KernelChannelClose then mret (lit "FileTransfer finish" ++ [13; 10])
          else await_file_finish f
      | RxClosed => mret (lit "[Fail]FileTransfer failed: Response channel closed" ++ [13; 10])
      | RxTimeout => mret (lit "[Fail]FileTransfer timeout" ++ [13; 10])
      end
  end.

Definition file_send_body (session_id channel_id file_size : Z) (local_path remote_path : bytes) : M Task unit :=
  let local_filename := default [] (path_file_name local_path) in
  _ ← to_daemon session_id (mkTaskMessage channel_id KernelWakeupSlavetask []);
  _ ← to_daemon session_id (file_check channel_id file_size remote_path []);
  t ← get;
  _ ← await_file_begin (rx_fuel t) session_id channel_id file_size local_filename remote_path false;
  _ ← open_file local_path;
  t ← get;
  _ ← stream_file (stream_fuel local_path t) FileData session_id channel_id local_path 0;
  _ ← to_daemon session_id (mkTaskMessage channel_id FileFinish [1]);
  t ← get;
  text ← await_file_finish (rx_fuel t);
  _ ← to_client channel_id text;
  on_host (maybe_end_channel channel_id).

Definition handle_server_file_send (session_id channel_id : Z) (params : list bytes) : M Task unit :=
  '(local_path, remote_path) ← lift (resolve_file_paths params);
  t ← get;
  match metadata local_path t with
  | inl e => fail NotFound (lit "Local file not found: " ++ e)
  | inr file_size => with_queue session_id channel_id (file_send_body session_id channel_id file_size local_path remote_path)
  end.

(** ** [file recv] *)

Fixpoint await_file_check (fuel : nat) : M Task TaskMessage :=
  match fuel with
  | O => lift Panic
  | S f =>
      e ← rx_recv;
      match e with
      | RxMsg task =>
          if cmd_eqb (command task) KernelWakeupSlavetask then await_file_check f
          else if cmd_eqb (command task) FileCheck then mret task
          else fail InvalidData (expected "FileCheck" (command task))
      | RxClosed => queue_closed
      | RxTimeout => throw TimedOut "Timeout waiting for FileCheck"
      end
  end.

(** The data of the file; the value is the number of bytes received. *)
Fixpoint recv_file_data (fuel : nat) (session_id channel_id file_size : Z) (local_path : bytes)
    (total_received : Z) (file_finish_sent : bool) : M Task Z :=
  match fuel with
  | O => lift Panic
  | S f =>
      e ← rx_recv;
      match e with
      | RxMsg task =>
          match command task with
          | FileData =>
              if len (payload task) <? 64 then
                recv_file_data f session_id channel_id file_size local_path total_received file_finish_sent
              else
                match TransferPayload.deserialize (take 64 (payload task)) with
                | Ok tp =>
                    let data_bytes := drop 64 (payload task) in
                    _ ← append_file local_path data_bytes;
                    let total_received := total_received + len data_bytes in
                    if negb file_finish_sent && (file_size <=? total_received) then
                      _ ← to_daemon session_id (mkTaskMessage channel_id FileFinish [1]);
                      recv_file_data f session_id channel_id file_size local_path total_received true
                    else recv_file_data f session_id channel_id file_size local_path total_received file_finish_sent
                | Err _ =>
                    _ ← append_file local_path (payload task);
                    recv_file_data f session_id channel_id file_size local_path
                      (total_received + len (payload task)) file_finish_sent
                | Panic => lift Panic
                end
          | FileFinish =>
              _ ← match payload task with
                  | b :: _ => if b =? 1 then to_daemon session_id (mkTaskMessage channel_id FileFinish [0]) else mret tt
                  | [] => mret tt
                  end;
              mret total_received
          | KernelEcho | KernelEchoRaw =>
              _ ← to_client channel_id (from_utf8_lossy (payload task));
              recv_file_data f session_id channel_id file_size local_path total_received file_finish_sent
          | KernelChannelClose => mret total_received
          | _ => recv_file_data f session_id channel_id file_size local_path total_received file_finish_sent
          end
      | RxClosed => queue_closed
      | RxTimeout => throw TimedOut "Timeout waiting for file data"
      end
  end.

Definition file_recv_body (session_id channel_id : Z) (remote_path local_path : bytes) : M Task unit :=
  _ ← to_daemon session_id (mkTaskMessage channel_id FileInit (lit "recv " ++ remote_path ++ [32] ++ local_path));
  t ← get;
  file_check_msg ← await_file_check (rx_fuel t);
  file_size ← match TransferConfig.deserialize (payload file_check_msg) with
              | Ok cfg => mret (TransferConfig.file_size cfg)
              | Err _ => mret 0
              | Panic => lift Panic
              end;
  _ ← create_file local_path;
  _ ← to_daemon session_id (mkTaskMessage channel_id FileBegin []);
  t ← get;
  total_received ← recv_file_data (rx_fuel t) session_id channel_id file_size local_path 0 false;
  _ ← flush_file local_path;
  _ ← to_client channel_id (lit "FileTransfer finish, Size:" ++ fmt_dec total_received ++ lit " bytes" ++ [13; 10]);
  on_host (maybe_end_channel channel_id).

(** The best-effort [create_dir_all] of the parent directory has no part here: directories are not part
    of the disk, and what it cannot create shows as [disk_create_error]. *)
Definition handle_server_file_recv (session_id channel_id : Z) (params : list bytes) : M Task unit :=
  '(remote_path, local_path) ← lift (resolve_file_paths params);
  with_queue session_id channel_id (file_recv_body session_id channel_id remote_path local_path).
End Files.

(** ** The head of a piece of data

    The zeros behind the fields are read as fields, two bytes each: a head whose
    fields have an odd length ends in the middle of one. *)

Definition head_fields (offset n : Z) : bytes := TransferPayload.serialize (TransferPayload.mk offset 0 n n).

Lemma len_write_u64_field fn v : len (write_u64_field fn v) <= 15.
Proof.
  unfold write_u64_field, write_tag, write_varint_u32, write_varint_u64. case_if; [by rewrite (len_nil (A := Z))|].
  rewrite len_app. pose proof (len_write_varint 5 (make_tag fn WIRE_VARINT)). pose proof (len_write_varint 10 v). lia.
Qed.
Lemma head_fields_len offset n : len (head_fields offset n) <= 35.
Proof.
  unfold head_fields, TransferPayload.serialize. cbn [TransferPayload.index TransferPayload.compress_type
    TransferPayload.compress_size TransferPayload.uncompress_size]. change (write_raw_u8_field 2 0) with (@nil Z).
  rewrite !len_app. pose proof (len_write_u64_field 1 offset). pose proof (len_write_u32_field 3 n). pose proof (len_write_u32_field 4 n).
  destruct (negb (n =? 0)); rewrite ?(len_nil (A := Z)); lia.
Qed.
Lemma payload_head_eq offset n :
  u32 n -> payload_head offset n = head_fields offset n ++ replicate (64 - length (head_fields offset n)) 0.
Proof.
  intros Hn. unfold payload_head. rewrite wrap_small by done. fold (head_fields offset n).
  pose proof (head_fields_len offset n). rewrite take_ge; [done|]. unfold len in *. lia.
Qed.
Lemma len_payload_head offset n : u32 n -> len (payload_head offset n) = 64.
Proof.
  intros Hn. rewrite payload_head_eq by done. pose proof (head_fields_len offset n).
  rewrite len_app. unfold len in *. rewrite length_replicate. lia.
Qed.
Lemma payload_head_ok offset n : 0 <= offset -> u32 n -> bytes_ok (payload_head offset n).
Proof.
  intros Ho Hn. rewrite payload_head_eq by done. apply bytes_ok_app. split; [|apply Forall_replicate; ulia].
  unfold head_fields, TransferPayload.serialize. rewrite !bytes_ok_app. cbn [TransferPayload.index TransferPayload.compress_type
    TransferPayload.compress_size TransferPayload.uncompress_size]. split_and!.
  - unfold write_u64_field. case_if; [constructor|]. apply bytes_ok_app. split; [by apply write_tag_ok|by apply write_varint_u64_ok].
  - constructor.
  - destruct (negb _); [|constructor]. apply write_u32_field_ok. ulia.
  - destruct (negb _); [|constructor]. apply write_u32_field_ok. ulia.
Qed.

Lemma zero_field (r : TransferPayload.t) : consumes TransferPayload.step [0; 0] r r.
Proof. apply (consumes_unknown TransferPayload.step 0 ltac:(lia) WIRE_VARINT [0] r); [by apply (body_varint 0)|done]. Qed.
Lemma zero_fields (r : TransferPayload.t) k : consumes TransferPayload.step (replicate (k + k) 0) r r.
Proof.
  induction k as [|k IH]; [apply consumes_nil|]. replace (S k + S k)%nat with (2 + (k + k))%nat by lia.
  rewrite replicate_add. eapply consumes_app; [apply zero_field|done].
Qed.
Lemma head_consumes offset n : u64 offset -> u32 n ->
  consumes TransferPayload.step (head_fields offset n) TransferPayload.default (TransferPayload.mk offset 0 n n).
Proof. intros Ho Hn. by apply TransferPayload.tpayload_consumes. Qed.

Lemma payload_head_even offset n :
  u64 offset -> u32 n -> Nat.even (length (head_fields offset n)) = true ->
  TransferPayload.deserialize (payload_head offset n) = Ok (TransferPayload.mk offset 0 n n).
Proof.
  intros Ho Hn [k Hk]%Nat.even_spec. rewrite payload_head_eq by done. pose proof (head_fields_len offset n) as Hl. unfold len in Hl.
  replace (64 - length (head_fields offset n))%nat with ((32 - k) + (32 - k))%nat by lia.
  apply (consumes_run TransferPayload.step). eapply consumes_app; [by apply head_consumes|apply zero_fields].
Qed.
Lemma payload_head_odd offset n :
  u64 offset -> u32 n -> Nat.even (length (head_fields offset n)) = false ->
  TransferPayload.deserialize (payload_head offset n) = err InvalidData "truncated varint".
Proof.
  intros Ho Hn Hodd. rewrite <- Nat.negb_odd, negb_false_iff in Hodd. apply Nat.odd_spec in Hodd as [k Hk].
  rewrite payload_head_eq by done. pose proof (head_fields_len offset n) as Hl. unfold len in Hl.
  replace (64 - length (head_fields offset n))%nat with (((31 - k) + (31 - k)) + 1)%nat by lia.
  rewrite replicate_add, app_assoc. set (bs := head_fields offset n ++ replicate _ 0).
  assert (Hc : consumes TransferPayload.step bs TransferPayload.default (TransferPayload.mk offset 0 n n)).
  { eapply consumes_app; [by apply head_consumes|apply zero_fields]. }
  assert (Hbs : len bs = 63) by (unfold bs, len; rewrite length_app, length_replicate; lia).
  unfold TransferPayload.deserialize. rewrite (Hc (bs ++ replicate 1 0) 0 [0]); [|lia|by rewrite rest_from_0].
  rewrite Z.add_0_l, Hbs, (tlv_run_unfold TransferPayload.step) by lia.
  rewrite len_app, Hbs. change (len (replicate 1 0)) with 1. change (63 <? 63 + 1) with true. cbn iota.
  assert (Hr : rest_from 63 (bs ++ [0]) = [0]).
  { unfold rest_from. rewrite len_app, Hbs. change (63 <? _) with true. cbn iota.
    rewrite drop_app_length' by (unfold len in Hbs; lia). done. }
  unfold read_varint_u32. cbn [replicate]. rewrite Hr. change (read_varint_loop 32 0 0 63 [0]) with (Ok (0, 64)).
  cbn [mbind Result_bind]. change (read_tag_wire_type 0) with (0, 0). cbn [fst snd TransferPayload.step].
  unfold skip_field, read_varint_u64, rest_from. rewrite len_app, Hbs. done.
Qed.

(** How many bytes a varint takes. *)
Lemma varint_length fuel k v :
  (S k <= fuel)%nat -> 2 ^ (7 * Z.of_nat k) <= v < 2 ^ (7 * Z.of_nat (S k)) -> length (write_varint_loop fuel v) = S k.
Proof.
  revert fuel v; induction k as [|k IH]; intros [|fuel] v Hf Hv; try lia; cbn [write_varint_loop]; rewrite Z.shiftr_div_pow2 by lia.
  - rewrite Z.div_small by (change (2 ^ 7) with (2 ^ (7 * Z.of_nat 1)); lia). done.
  - assert (Hp : 2 ^ (7 * Z.of_nat (S k)) = 2 ^ 7 * 2 ^ (7 * Z.of_nat k)) by (rewrite <- Z.pow_add_r by lia; f_equal; lia).
    assert (Hq : 2 ^ (7 * Z.of_nat (S (S k))) = 2 ^ 7 * 2 ^ (7 * Z.of_nat (S k))) by (rewrite <- Z.pow_add_r by lia; f_equal; lia).
    assert (Hd : 2 ^ (7 * Z.of_nat k) <= v / 2 ^ 7 < 2 ^ (7 * Z.of_nat (S k))).
    { split; [apply Z.div_le_lower_bound; lia|apply Z.div_lt_upper_bound; lia]. }
    pose proof (Z.pow_pos_nonneg 2 (7 * Z.of_nat k)). rewrite (proj2 (Z.eqb_neq _ 0)) by lia. cbn [length]. by rewrite IH by lia.
Qed.
Lemma head_parity offset n :
  Nat.even (length (head_fields offset n)) = (offset =? 0) || Nat.odd (length (write_varint_u64 offset)).
Proof.
  unfold head_fields, TransferPayload.serialize. cbn [TransferPayload.index TransferPayload.compress_type
    TransferPayload.compress_size TransferPayload.uncompress_size]. change (write_raw_u8_field 2 0) with (@nil Z).
  rewrite !length_app. assert (E : length (write_u32_field 4 n) = length (write_u32_field 3 n)).
  { unfold write_u32_field. case_if; [done|]. by rewrite !length_app. }
  set (k := length (if negb (n =? 0) then write_u32_field 3 n else [])) in *.
  assert (E' : @length Z (if negb (n =? 0) then write_u32_field 4 n else []) = k) by (unfold k; by destruct (negb _)).
  rewrite E'. unfold write_u64_field. destruct (offset =? 0); cbn [length orb].
  - replace (0 + (0 + (k + k)))%nat with (2 * k)%nat by lia. apply Nat.even_even.
  - rewrite length_app. change (length (write_tag 1 WIRE_VARINT)) with 1%nat.
    replace (1 + length (write_varint_u64 offset) + (0 + (k + k)))%nat with (S (length (write_varint_u64 offset)) + 2 * k)%nat by lia.
    by rewrite Nat.even_add_mul_2, Nat.even_succ.
Qed.

(** The offsets whose heads are read back, and those of the next 254 MiB, which are not. *)
Definition head_readable (offset : Z) : Prop := offset = 0 \/ 1 <= offset < 2 ^ 7 \/ 2 ^ 14 <= offset < 2 ^ 21.
Definition head_broken (offset : Z) : Prop := 2 ^ 7 <= offset < 2 ^ 14 \/ 2 ^ 21 <= offset < 2 ^ 28.
Lemma readable_head offset n :
  head_readable offset -> u32 n -> TransferPayload.deserialize (payload_head offset n) = Ok (TransferPayload.mk offset 0 n n).
Proof.
  intros Ho Hn. apply payload_head_even; [unfold head_readable in Ho; ulia|done|]. rewrite head_parity.
  destruct Ho as [->|[Ho|Ho]]; [done|..]; rewrite (proj2 (Z.eqb_neq offset 0)) by lia; unfold write_varint_u64.
  - by rewrite (varint_length 10 0) by lia.
  - by rewrite (varint_length 10 2) by lia.
Qed.
Lemma broken_head offset n :
  head_broken offset -> u32 n -> TransferPayload.deserialize (payload_head offset n) = err InvalidData "truncated varint".
Proof.
  intros Ho Hn. apply payload_head_odd; [unfold head_broken in Ho; ulia|done|]. rewrite head_parity.
  destruct Ho as [Ho|Ho]; rewrite (proj2 (Z.eqb_neq offset 0)) by lia; unfold write_varint_u64.
  - by rewrite (varint_length 10 1) by lia.
  - by rewrite (varint_length 10 3) by lia.
Qed.

(** ** Sending a file *)

(** The data messages of the pieces of a file. *)
Fixpoint chunk_messages (cmd : HdcCommand) (ch offset : Z) (ds : list bytes) : list TaskMessage :=
  match ds with
  | [] => []
  | d :: t => mkTaskMessage ch cmd (payload_head offset (len d) ++ d) :: chunk_messages cmd ch (offset + len d) t
  end.
Definition pieces (ds : list bytes) (content : bytes) : Prop :=
  concat ds = content /\ Forall (fun d => 0 < len d <= CHUNK_SIZE) ds.

Section SendFacts.
Context {HA : Aead} {HL : AeadLaws HA} {HI : HashIter} {HD : HostDisk}.
Context (sid : Z) (h0 : Host).

Definition readable (path : bytes) : Prop :=
  disk_open_error path = None /\ forall pos, disk_read_error path pos = None.

Lemma read_file_wp path pos content t (Q : bytes -> Task -> Prop) :
  readable path -> t_fs t !! path = Some content -> 0 <= pos <= len content ->
  (forall d rest, rest_from pos content = d ++ rest -> len d <= CHUNK_SIZE -> (d = [] -> rest = []) -> Q d t) ->
  wp (read_file path pos CHUNK_SIZE) Q no_error t.
Proof.
  intros [_ Hr] Hc Hp HQ. unfold wp, read_file. rewrite Hr, Hc. cbn [default from_option]. unfold id.
  set (avail := Z.min CHUNK_SIZE (len content - pos)).
  set (k := if avail <=? 0 then 0 else Z.max 1 (Z.min avail (disk_read_amount path pos avail))).
  assert (Hcs : 0 < CHUNK_SIZE) by done.
  assert (Hk : 0 <= k <= CHUNK_SIZE /\ k <= len content - pos /\ (k = 0 -> len content = pos)).
  { unfold k, avail. destruct (Z.leb_spec (Z.min CHUNK_SIZE (len content - pos)) 0); lia. }
  assert (Hs : rest_from pos content = slice_raw pos (pos + k) content ++ rest_from (pos + k) content).
  { unfold rest_from, slice_raw. destruct (Z.ltb_spec pos (len content)).
    - replace (Z.to_nat (pos + k - pos)) with (Z.to_nat k) by lia. destruct (Z.ltb_spec (pos + k) (len content)).
      + replace (Z.to_nat (pos + k)) with (Z.to_nat pos + Z.to_nat k)%nat by lia. by rewrite <- drop_drop, take_drop.
      + rewrite app_nil_r, take_ge; [done|]. rewrite length_drop. unfold len in *. lia.
    - replace k with 0 by lia. destruct (Z.ltb_spec (pos + 0) (len content)); [lia|]. by rewrite Z.add_0_r, Z.sub_diag, app_nil_r. }
  assert (Hl : len (slice_raw pos (pos + k) content) = k).
  { rewrite slice_raw_length by lia. lia. }
  apply (HQ _ _ Hs); [lia|]. intros Hn. apply (f_equal len) in Hn. rewrite Hl, len_nil in Hn.
  apply (proj2 (rest_from_nil (pos + k) content ltac:(lia))). lia.
Qed.

Lemma chunk_sendable cmd ch offset d :
  u32 ch -> 0 <= offset -> bytes_ok d -> len d <= CHUNK_SIZE ->
  sendable (mkTaskMessage ch cmd (payload_head offset (len d) ++ d)).
Proof.
  intros Hch Ho Hd Hl. assert (Hn : u32 (len d)) by (pose proof (len_nonneg d); unfold CHUNK_SIZE, MAX_SIZE_IOBUF in Hl; ulia).
  apply small_sendable; [done| |].
  - apply bytes_ok_app. split; [by apply payload_head_ok|done].
  - rewrite len_app, len_payload_head by done. unfold CHUNK_SIZE, MAX_SIZE_IOBUF in Hl. lia.
Qed.

(** The whole rest of the file goes out in pieces. *)
Lemma stream_file_talk fuel cmd ch path offset content ms a evs fs t :
  u32 ch -> readable path -> fs !! path = Some content -> bytes_ok content -> 0 <= offset <= len content ->
  (Z.to_nat (len content - offset) < fuel)%nat -> in_talk sid h0 ms a evs fs t ->
  wp (stream_file fuel cmd sid ch path offset)
    (fun _ t' => exists ds, pieces ds (rest_from offset content) /\
       in_talk sid h0 (ms ++ chunk_messages cmd ch offset ds) a evs fs t') no_error t.
Proof.
  intros Hch Hrd Hfs Hok. revert offset ms t; induction fuel as [|fuel IH]; intros offset ms t Ho Hf Ht; [lia|].
  cbn [stream_file]. apply wp_bind. assert (Hc : t_fs t !! path = Some content) by (destruct Ht as (_&_&_&_&_&->); done).
  apply (read_file_wp path offset content); [done..|]. intros d rest E Hl Hd.
  destruct d as [|b d].
  { apply wp_ret. exists []. rewrite app_nil_r. split; [|done]. split; [|done]. rewrite E, Hd by done. done. }
  set (piece := b :: d) in *. assert (Hp : 0 < len piece) by (unfold piece; rewrite len_cons; pose proof (len_nonneg d); lia).
  assert (Hpo : bytes_ok piece).
  { pose proof (rest_from_ok offset content Hok) as H. rewrite E in H. by apply bytes_ok_app in H as [H _]. }
  pose proof (rest_from_len offset content _ ltac:(lia) E) as Hlen. rewrite len_app in Hlen. pose proof (len_nonneg rest).
  apply wp_bind. eapply wp_mono; [apply (to_daemon_talk sid h0 _ ms a evs fs); [done|apply chunk_sendable; done || lia]| |done].
  intros u t1 Ht1. eapply wp_mono; [eapply (IH (offset + len piece)); [lia|lia|exact Ht1]| |done].
  intros u' t2 (ds & [Hds Hall] & Ht2). exists (piece :: ds). split; [split|].
  - cbn [concat]. rewrite Hds, E. f_equal. by rewrite (rest_from_app offset content piece rest) by (lia || done).
  - constructor; [lia|done].
  - cbn [chunk_messages]. by rewrite <- app_assoc in Ht2.
Qed.

(** The answers that let a transfer begin, with the messages they make the host repeat:
    the daemon may say first that the path is a directory, and then the name of the
    file goes along. *)
Inductive granted (ch size : Z) (name path : bytes) : list RxEvent -> list TaskMessage -> Prop :=
  | granted_at_once m : command m = FileBegin -> granted ch size name path [RxMsg m] []
  | granted_in_directory m skipped b :
      command m <> FileBegin -> contains (lit "illegal operation on a directory") (from_utf8_lossy (payload m)) = true ->
      name <> [] -> Forall (fun s => command s = KernelChannelClose \/ command s = KernelWakeupSlavetask) skipped ->
      command b = FileBegin ->
      granted ch size name path (RxMsg m :: map RxMsg skipped ++ [RxMsg b])
        [file_check ch size (drop_while_end is_slash path) name].

Lemma cmd_eqb_true c d : c = d -> cmd_eqb c d = true.
Proof. by intros ->%cmd_eqb_spec. Qed.
Lemma cmd_eqb_false c d : c <> d -> cmd_eqb c d = false.
Proof. intros H. destruct (cmd_eqb c d) eqn:E; [|done]. by apply cmd_eqb_spec in E. Qed.

Lemma await_retried fuel ch size name path skipped b ms a evs fs t :
  Forall (fun s => command s = KernelChannelClose \/ command s = KernelWakeupSlavetask) skipped -> command b = FileBegin ->
  (length skipped < fuel)%nat -> in_talk sid h0 ms a (map RxMsg skipped ++ RxMsg b :: evs) fs t ->
  wp (await_file_begin fuel sid ch size name path true) (fun _ => in_talk sid h0 ms a evs fs) no_error t.
Proof.
  intros Hs Hb. revert fuel t; induction Hs as [|s skipped Hs Hss IH]; intros [|fuel] t Hf Ht; cbn [length] in *; try lia;
    cbn [await_file_begin]; apply wp_bind; (eapply rx_recv_talk; [exact Ht|]); intros t' Ht'; cbv beta iota.
  - rewrite (cmd_eqb_true _ _ Hb). by apply wp_ret.
  - assert (E : cmd_eqb (command s) FileBegin = false) by (apply cmd_eqb_false; destruct Hs as [-> | ->]; done).
    rewrite E, andb_false_r, (proj2 (orb_true_iff _ _)) by (destruct Hs as [-> | ->]; [by left|by right]). cbn [andb]. apply IH; [lia|done].
Qed.
Lemma await_granted fuel ch size name path evs0 checks ms a evs fs t :
  granted ch size name path evs0 checks -> Forall sendable checks -> (length evs0 < fuel)%nat ->
  in_talk sid h0 ms a (evs0 ++ evs) fs t ->
  wp (await_file_begin fuel sid ch size name path false) (fun _ => in_talk sid h0 (ms ++ checks) a evs fs) no_error t.
Proof.
  intros Hg Hc Hf Ht. destruct fuel as [|fuel]; [lia|]. cbn [await_file_begin]. apply wp_bind.
  destruct Hg as [m Hm|m skipped b Hm Hd Hn Hs Hb]; cbn [app] in Ht; (eapply rx_recv_talk; [exact Ht|]); intros t' Ht'; cbv beta iota.
  - rewrite (cmd_eqb_true _ _ Hm), app_nil_r. by apply wp_ret.
  - rewrite (cmd_eqb_false _ _ Hm), Hd, bool_decide_eq_false_2 by done. cbn [andb negb].
    apply Forall_cons in Hc as [Hc _]. apply wp_bind. eapply wp_mono; [by apply (to_daemon_talk sid h0 _ ms a); [exact Ht'|]| |done].
    intros u t1 Ht1. rewrite <- app_assoc in Ht1. eapply await_retried; [exact Hs|exact Hb| |exact Ht1].
    cbn [length] in Hf. rewrite length_app, length_map in Hf. cbn [length] in Hf. lia.
Qed.

(** What the client is told: the first event that ends the transfer decides. *)
Definition ends_transfer (e : RxEvent) : bool :=
  match e with
  | RxMsg m => cmd_eqb (command m) FileFinish && (bool_decide (payload m = []) || bool_decide (head (payload m) = Some 0))
               || cmd_eqb (command m) KernelChannelClose
  | _ => true
  end.
Definition finish_text (evs : list RxEvent) : bytes :=
  match head (filter (fun e => ends_transfer e = true) evs) with
  | Some (RxMsg _) => lit "FileTransfer finish"
  | Some RxTimeout => lit "[Fail]FileTransfer timeout"
  | Some RxClosed | None => lit "[Fail]FileTransfer failed: Response channel closed"
  end ++ [13; 10].
Lemma await_finish_talk fuel ms a evs fs t :
  (length evs < fuel)%nat -> in_talk sid h0 ms a evs fs t ->
  wp (await_file_finish fuel) (fun text t' => text = finish_text evs /\ exists evs', in_talk sid h0 ms a evs' fs t') no_error t.
Proof.
  revert fuel t; induction evs as [|e evs IH]; intros [|fuel] t Hf Ht; cbn [length] in Hf; try lia;
    cbn [await_file_finish]; apply wp_bind.
  { eapply rx_recv_done; [exact Ht|]. apply wp_ret. split; [done|by eexists]. }
  eapply rx_recv_talk; [exact Ht|]. intros t' Ht'; cbv beta iota. unfold finish_text. rewrite filter_cons.
  assert (Hdone : forall text, text = finish_text (e :: evs) -> wp (mret text)
    (fun text t' => text = finish_text (e :: evs) /\ exists evs', in_talk sid h0 ms a evs' fs t') no_error t').
  { intros text ->. apply wp_ret. split; [done|by eexists]. }
  unfold finish_text in Hdone. rewrite filter_cons in Hdone.
  assert (Hmore : ends_transfer e = false -> wp (await_file_finish fuel)
    (fun text t' => text = finish_text (e :: evs) /\ exists evs', in_talk sid h0 ms a evs' fs t') no_error t').
  { intros He. unfold finish_text. rewrite filter_cons, decide_False by congruence. apply IH; [lia|done]. }
  unfold finish_text in Hmore. rewrite filter_cons in Hmore.
  destruct e as [m| |]; [|by apply Hdone..]. cbn [ends_transfer] in *. destruct (cmd_eqb (command m) FileFinish) eqn:Ef.
  - destruct (payload m) as [|b p]; [by apply Hdone|]. destruct (Z.eqb_spec b 0) as [->|Hb]; [by apply Hdone|].
    apply Hmore. apply cmd_eqb_spec in Ef as ->. cbn. rewrite bool_decide_eq_false_2 by congruence. done.
  - destruct (cmd_eqb (command m) KernelChannelClose); [by apply Hdone|]. by apply Hmore.
Qed.
End SendFacts.

(** What [file send] says to the daemon. *)
Definition send_dialogue (ch size : Z) (remote : bytes) (checks : list TaskMessage) (ds : list bytes) : list TaskMessage :=
  [mkTaskMessage ch KernelWakeupSlavetask []; file_check ch size remote []] ++ checks ++
  chunk_messages FileData ch 0 ds ++ [mkTaskMessage ch FileFinish [1]].

(** C16: [file send] to a device whose session is open and that grants the transfer: the
    messages said to the daemon are exactly the wake-up, the check with the size (and
    once more with the name of the file if the path is a directory), the content of the
    file in order in pieces of bounded size, each behind its head, and the end; the
    client is told the outcome and its channel ends unless it keeps it; the queue is not
    registered any more and nothing else of the tables changed. *)
Theorem file_send_protocol {HA : Aead} {HL : AeadLaws HA} {HI : HashIter} {HD : HostDisk}
    (sid ch : Z) (params : list bytes) (local remote content : bytes) (evs0 evs : list RxEvent)
    (checks : list TaskMessage) (a : ChannelSpec.t) (t : Task) :
  resolve_file_paths params = Ok (local, remote) -> t_fs t !! local = Some content -> readable local -> bytes_ok content ->
  u32 ch -> granted ch (len content) (default [] (path_file_name local)) remote evs0 checks ->
  sendable (file_check ch (len content) remote []) -> Forall sendable checks ->
  ready sid (t_host t) -> implements (t_host t) a -> listening ch a -> t_rx t = evs0 ++ evs ->
  exists ds evs' t', handle_server_file_send sid ch params t = (Ok tt, t') /\ pieces ds content /\
    finished sid ch (send_dialogue ch (len content) remote checks ds) (end_of ch (tell ch (finish_text evs) a)) evs' (t_fs t) t t'.
Proof.
  intros Hp Hc Hrd Hok Hch Hg Hs1 Hs2 Hr Hi Hl Hev.
  assert (Hw : sendable (mkTaskMessage ch KernelWakeupSlavetask [])) by (apply small_sendable; [done|constructor|done]).
  assert (He : sendable (mkTaskMessage ch FileFinish [1])) by (apply small_sendable; [done|by repeat constructor|done]).
  unfold handle_server_file_send. rewrite Hp. rewrite M_bind_eq. cbn [lift]. rewrite M_bind_eq. cbn [get].
  unfold metadata. rewrite Hc.
  destruct (with_queue_ok sid ch (file_send_body sid ch (len content) local remote) a t (fun _ ms a2 _ fs =>
    exists ds, pieces ds content /\ ms = send_dialogue ch (len content) remote checks ds /\
      a2 = end_of ch (tell ch (finish_text evs) a) /\ fs = t_fs t)) as ([] & t' & ? & ? & evs' & ? & E & Hf & ds & Hds & -> & -> & ->);
    [done..| |by exists ds, evs', t'].
  intros h0 t1 Ht. rewrite Hev in Ht. unfold file_send_body.
  talk by apply (to_daemon_talk sid h0 _ _ _ _ _ _ Ht) as Ht2. talk by apply (to_daemon_talk sid h0 _ _ _ _ _ _ Ht2) as Ht3.
  apply wp_bind, wp_get.
  talk (eapply (await_granted sid h0); [exact Hg|done| |exact Ht3]; rewrite (talk_fuel _ _ _ _ _ _ _ Ht3), length_app; lia) as Ht4.
  unfold open_file. rewrite (proj1 Hrd). apply wp_bind, wp_Ok, wp_bind, wp_get.
  talk (eapply (stream_file_talk sid h0 _ FileData ch local 0 content); [done|done|exact Hc|done| | |exact Ht4]) as (ds & Hds & Ht5).
  { pose proof (len_nonneg content). lia. }
  { unfold stream_fuel. destruct Ht4 as (_&_&_&_&_&->). rewrite Hc. cbn. unfold len. lia. }
  rewrite rest_from_0 in Hds. talk by apply (to_daemon_talk sid h0 _ _ _ _ _ _ Ht5) as Ht6.
  apply wp_bind, wp_get.
  talk (eapply (await_finish_talk sid h0); [|exact Ht6]; rewrite (talk_fuel _ _ _ _ _ _ _ Ht6); lia) as (-> & evs' & Ht7).
  talk by apply (to_client_talk sid h0 ch _ _ _ _ _ _ Hl Ht7) as Ht8.
  eapply wp_mono; [by apply (end_talk sid h0 ch _ _ _ _ _ Ht8)| |done]. intros ? ? Ht9.
  eexists _, _, _, _. split; [exact Ht9|]. exists ds. split_and!; try done.
  unfold send_dialogue. cbn [app]. by rewrite <- !app_assoc.
Qed.

(** ** Receiving a file *)

Instance head_broken_dec offset : Decision (head_broken offset).
Proof. unfold head_broken. apply _. Defined.

(** The offsets of the pieces, and what receiving them writes: a piece whose head is
    broken is written with its head. *)
Fixpoint offsets (offset : Z) (ds : list bytes) : list Z :=
  match ds with [] => [] | d :: t => offset :: offsets (offset + len d) t end.
Fixpoint stored (offset : Z) (ds : list bytes) : bytes :=
  match ds with
  | [] => []
  | d :: t => (if bool_decide (head_broken offset) then payload_head offset (len d) ++ d else d) ++ stored (offset + len d) t
  end.
Lemma stored_readable offset ds : Forall head_readable (offsets offset ds) -> stored offset ds = concat ds.
Proof.
  revert offset; induction ds as [|d ds IH]; intros offset H; [done|]. apply Forall_cons in H as [Ho H]. cbn [stored concat].
  rewrite bool_decide_eq_false_2 by (unfold head_broken, head_readable in *; lia). by rewrite IH.
Qed.
Lemma len_stored offset ds :
  Forall (fun d => len d <= CHUNK_SIZE) ds ->
  len (stored offset ds) = len (concat ds) + 64 * len (filter head_broken (offsets offset ds)).
Proof.
  intros Hd. revert offset; induction Hd as [|d ds Hd _ IH]; intros offset; [done|]. cbn [stored concat offsets].
  assert (Hn : u32 (len d)) by (pose proof (len_nonneg d); unfold CHUNK_SIZE, MAX_SIZE_IOBUF in Hd; ulia).
  rewrite filter_cons, !len_app, IH. case_bool_decide; case_decide; try done; rewrite ?len_app, ?len_cons, ?len_payload_head by done; lia.
Qed.

Section RecvFacts.
Context {HA : Aead} {HL : AeadLaws HA} {HI : HashIter} {HD : HostDisk}.
Context (sid : Z) (h0 : Host).

Definition writable (path : bytes) : Prop :=
  disk_create_error path = None /\ (forall pos, disk_write_error path pos = None) /\ disk_flush_error path = None.
Lemma append_talk path content data ms a evs fs t :
  writable path -> fs !! path = Some content -> in_talk sid h0 ms a evs fs t ->
  wp (append_file path data) (fun _ => in_talk sid h0 ms a evs (<[path := content ++ data]> fs)) no_error t.
Proof.
  intros (_ & Hw & _) Hc (Hs & Hr & Hi & Ht & Ee & Ef). unfold wp, append_file. rewrite Ef, Hc. cbn [default from_option]. unfold id.
  by rewrite Hw.
Qed.
Lemma create_talk path ms a evs fs t :
  writable path -> in_talk sid h0 ms a evs fs t ->
  wp (create_file path) (fun _ => in_talk sid h0 ms a evs (<[path := []]> fs)) no_error t.
Proof. intros [Hw _] (Hs & Hr & Hi & Ht & Ee & Ef). unfold wp, create_file. rewrite Hw, Ef. done. Qed.

Definition finish_message (ch b : Z) : TaskMessage := mkTaskMessage ch FileFinish [b].
Lemma finish_sendable ch b : u32 ch -> u8 b -> sendable (finish_message ch b).
Proof. intros. apply small_sendable; [done|constructor; [done|constructor]|done]. Qed.

(** The pieces of a file are written one after the other; the end is announced once, at
    the latest with the last piece. *)
Lemma recv_pieces fuel ch k size path ds offset total sent content ms a evs fs t (Q : Z -> Task -> Prop) :
  u32 ch -> writable path -> fs !! path = Some content ->
  Forall (fun d => 0 < len d <= CHUNK_SIZE) ds -> Forall (fun o => head_readable o \/ head_broken o) (offsets offset ds) ->
  in_talk sid h0 ms a (map RxMsg (chunk_messages FileData k offset ds) ++ evs) fs t ->
  (forall acks sent' t',
     in_talk sid h0 (ms ++ acks) a evs (<[path := content ++ stored offset ds]> fs) t' ->
     (acks = [] /\ sent' = sent \/ acks = [finish_message ch 1] /\ sent = false) ->
     (sent = false -> ds <> [] -> Forall head_readable (offsets offset ds) -> size <= total + len (concat ds) -> acks <> []) ->
     wp (recv_file_data fuel sid ch size path (total + len (stored offset ds)) sent') Q no_error t') ->
  wp (recv_file_data (length ds + fuel) sid ch size path total sent) Q no_error t.
Proof.
  intros Hch Hw. revert offset total sent content ms fs t; induction ds as [|d ds IH];
    intros offset total sent content ms fs t Hc Hd Ho Ht HQ.
  { replace total with (total + len (stored offset [])) by (cbn; rewrite len_nil; lia). apply (HQ [] sent t); [|by left|done].
    by rewrite !app_nil_r, insert_id. }
  apply Forall_cons in Hd as [Hd Hds], Ho as [Ho Hos]. cbn [length]. change (S (length ds) + fuel)%nat with (S (length ds + fuel))%nat.
  cbn [recv_file_data chunk_messages map app] in *. apply wp_bind.
  assert (Hn : u32 (len d)) by (unfold CHUNK_SIZE, MAX_SIZE_IOBUF in Hd; ulia).
  eapply rx_recv_talk; [exact Ht|]. intros t' Ht'; cbv beta iota. cbn [command payload].
  assert (Hlen : len (payload_head offset (len d) ++ d) = 64 + len d) by (by rewrite len_app, len_payload_head).
  rewrite (proj2 (Z.ltb_ge _ 64)) by lia.
  assert (Hh : length (payload_head offset (len d)) = 64%nat) by (pose proof (len_payload_head offset (len d) Hn); unfold len in *; lia).
  rewrite take_app_length', drop_app_length' by done. destruct Ho as [Hr|Hb].
  - rewrite readable_head by done. cbn iota.
    assert (Hst : stored offset (d :: ds) = d ++ stored (offset + len d) ds).
    { cbn [stored]. rewrite bool_decide_eq_false_2; [done|]. unfold head_broken, head_readable in *. lia. }
    rewrite Hst in HQ. cbn [concat offsets] in HQ. rewrite !len_app in HQ.
    talk by apply (append_talk path content d _ _ _ _ _ Hw Hc Ht') as Ht1.
    destruct (negb sent && (size <=? total + len d)) eqn:Es.
    + apply andb_prop in Es as [Es Hsz]. destruct sent; [done|]. apply Z.leb_le in Hsz.
      talk (by apply (to_daemon_talk sid h0 _ _ _ _ _ _ Ht1), finish_sendable) as Ht2.
      eapply (IH (offset + len d)); [apply lookup_insert_eq|done..|exact Ht2|]. intros acks sent' t3 Ht3 Ha _.
      destruct Ha as [[-> ->]|[_ ?]]; [|done]. rewrite insert_insert_eq, app_nil_r in Ht3. rewrite <- app_assoc in Ht3.
      rewrite <- Z.add_assoc. apply (HQ [finish_message ch 1] true t3); [done|by right|done].
    + eapply (IH (offset + len d)); [apply lookup_insert_eq|done..|exact Ht1|]. intros acks sent' t3 Ht3 Ha Hall.
      rewrite insert_insert_eq, <- app_assoc in Ht3. rewrite <- Z.add_assoc. apply (HQ acks sent' t3); [done..|].
      intros -> _ Hr2 Hsz. apply Forall_cons in Hr2 as [_ Hr2]. cbn [negb andb] in Es. apply Z.leb_gt in Es.
      apply Hall; [done| |done|lia]. intros ->. cbn in Hsz. rewrite len_nil in Hsz. lia.
  - rewrite broken_head by done. cbn iota.
    assert (Hst : stored offset (d :: ds) = (payload_head offset (len d) ++ d) ++ stored (offset + len d) ds).
    { cbn [stored]. by rewrite bool_decide_eq_true_2. }
    rewrite Hst in HQ. cbn [concat offsets] in HQ. rewrite !(len_app (payload_head _ _ ++ _)) in HQ.
    talk by apply (append_talk path content (payload_head offset (len d) ++ d) _ _ _ _ _ Hw Hc Ht') as Ht1.
    eapply (IH (offset + len d)); [apply lookup_insert_eq|done..|exact Ht1|]. intros acks sent' t3 Ht3 Ha Hall.
    rewrite insert_insert_eq, <- app_assoc in Ht3. rewrite <- Z.add_assoc. apply (HQ acks sent' t3); [done..|].
    intros _ _ Hr2. apply Forall_cons in Hr2 as [Hr2 _]. unfold head_broken, head_readable in *. lia.
Qed.
Lemma length_chunk_messages cmd ch offset ds : length (chunk_messages cmd ch offset ds) = length ds.
Proof. revert offset; induction ds as [|d ds IH]; intros offset; [done|]. cbn. by rewrite IH. Qed.

(** Wake-ups in front of the check are skipped. *)
Lemma await_check_talk fuel w check ms a evs fs t :
  command w = KernelWakeupSlavetask -> command check = FileCheck -> (2 <= fuel)%nat ->
  in_talk sid h0 ms a (RxMsg w :: RxMsg check :: evs) fs t ->
  wp (await_file_check fuel) (fun m t' => m = check /\ in_talk sid h0 ms a evs fs t') no_error t.
Proof.
  intros Hw Hc Hf Ht. destruct fuel as [|[|fuel]]; try lia. cbn [await_file_check].
  apply wp_bind. eapply rx_recv_talk; [exact Ht|]. intros t1 Ht1; cbv beta iota. rewrite (cmd_eqb_true _ _ Hw).
  apply wp_bind. eapply rx_recv_talk; [exact Ht1|]. intros t2 Ht2; cbv beta iota.
  rewrite (cmd_eqb_true _ _ Hc), Hc, cmd_eqb_false by done. by apply wp_ret.
Qed.
(** The end of the data. *)
Lemma recv_end fuel ch size path total sent m ms a evs fs t :
  u32 ch -> command m = FileFinish -> payload m = [1] -> in_talk sid h0 ms a (RxMsg m :: evs) fs t ->
  wp (recv_file_data (S fuel) sid ch size path total sent)
    (fun n t' => n = total /\ in_talk sid h0 (ms ++ [finish_message ch 0]) a evs fs t') no_error t.
Proof.
  intros Hch Hm Hp Ht. cbn [recv_file_data]. apply wp_bind. eapply rx_recv_talk; [exact Ht|]. intros t1 Ht1; cbv beta iota.
  rewrite Hm, Hp. change (1 =? 1) with true. cbn iota.
  talk (by apply (to_daemon_talk sid h0 _ _ _ _ _ _ Ht1), finish_sendable) as Ht2. by apply wp_ret.
Qed.
End RecvFacts.

(** [file recv], fed with what [file send] says for a file of this size. *)
Lemma file_recv_dialogue {HA : Aead} {HL : AeadLaws HA} {HI : HashIter} {HD : HostDisk}
    (sid ch k size : Z) (params : list bytes) (remote local path : bytes) (ds : list bytes) (a : ChannelSpec.t) (t : Task) :
  resolve_file_paths params = Ok (remote, local) -> writable local -> u32 ch ->
  sendable (mkTaskMessage ch FileInit (lit "recv " ++ remote ++ [32] ++ local)) ->
  u64 size -> str_ok path -> Forall (fun d => 0 < len d <= CHUNK_SIZE) ds ->
  Forall (fun o => head_readable o \/ head_broken o) (offsets 0 ds) ->
  ready sid (t_host t) -> implements (t_host t) a -> listening ch a ->
  t_rx t = map RxMsg (send_dialogue k size path [] ds) ->
  exists acks t', handle_server_file_recv sid ch params t = (Ok tt, t') /\
    finished sid ch ([mkTaskMessage ch FileInit (lit "recv " ++ remote ++ [32] ++ local); mkTaskMessage ch FileBegin []] ++
                     acks ++ [finish_message ch 0])
      (end_of ch (tell ch (lit "FileTransfer finish, Size:" ++ fmt_dec (len (stored 0 ds)) ++ lit " bytes" ++ [13; 10]) a))
      [] (<[local := stored 0 ds]> (t_fs t)) t t' /\
    (acks = [] \/ acks = [finish_message ch 1]) /\
    (ds <> [] -> Forall head_readable (offsets 0 ds) -> size <= len (concat ds) -> acks = [finish_message ch 1]).
Proof.
  intros Hp Hw Hch Hinit Hsz Hpath Hd Ho Hr Hi Hl Hev.
  unfold handle_server_file_recv. rewrite Hp, M_bind_eq. cbn [lift].
  destruct (with_queue_ok sid ch (file_recv_body sid ch remote local) a t (fun _ ms a2 evs fs => exists acks,
    ms = [mkTaskMessage ch FileInit (lit "recv " ++ remote ++ [32] ++ local); mkTaskMessage ch FileBegin []] ++ acks ++ [finish_message ch 0] /\
    a2 = end_of ch (tell ch (lit "FileTransfer finish, Size:" ++ fmt_dec (len (stored 0 ds)) ++ lit " bytes" ++ [13; 10]) a) /\
    evs = [] /\ fs = <[local := stored 0 ds]> (t_fs t) /\ (acks = [] \/ acks = [finish_message ch 1]) /\
    (ds <> [] -> Forall head_readable (offsets 0 ds) -> size <= len (concat ds) -> acks = [finish_message ch 1])))
    as ([] & t' & ? & ? & ? & ? & E & Hf & acks & -> & -> & -> & -> & Ha); [done..| |by exists acks, t'].
  intros h0 t1 Ht. rewrite Hev in Ht. unfold file_recv_body, send_dialogue in *. cbn [map app] in Ht. rewrite map_app in Ht.
  talk by apply (to_daemon_talk sid h0 _ _ _ _ _ _ Ht) as Ht2. apply wp_bind, wp_get.
  set (check := file_check k size path []) in *.
  talk (eapply (await_check_talk sid h0); [..|exact Ht2]; [done..|rewrite (talk_fuel _ _ _ _ _ _ _ Ht2); cbn [length]; lia]) as (-> & Ht3).
  assert (Ec : TransferConfig.deserialize (payload check) =
    Ok (TransferConfig.mk size 0 0 [] path [] false 0 false [] [] [] [])).
  { apply (consumes_run TransferConfig.step), TransferConfig.config_consumes; [|done].
    unfold TransferConfig.wf. cbn. split_and!; try done. }
  rewrite Ec. apply wp_bind, wp_ret. cbn [TransferConfig.file_size].
  talk by apply (create_talk sid h0 local _ _ _ _ _ Hw Ht3) as Ht4.
  talk (apply (to_daemon_talk sid h0 _ _ _ _ _ _ Ht4), small_sendable; [done|constructor|done]) as Ht5.
  apply wp_bind, wp_get. rewrite (talk_fuel _ _ _ _ _ _ _ Ht5), length_app, length_map, length_chunk_messages.
  cbn [map length]. replace (S (length ds + 1))%nat with (length ds + 2)%nat by lia. apply wp_bind.
  eapply (recv_pieces sid h0); [done|done|apply lookup_insert_eq|done|done|exact Ht5|]. intros acks sent' t6 Ht6 Ha Hall.
  rewrite insert_insert_eq in Ht6. cbn [app] in Ht6. rewrite Z.add_0_l.
  eapply wp_mono; [eapply (recv_end sid h0); [..|exact Ht6]; done| |done]. intros n t7 (-> & Ht7).
  unfold flush_file. rewrite (proj2 (proj2 Hw)). apply wp_bind, wp_Ok.
  talk by apply (to_client_talk sid h0 ch _ _ _ _ _ _ Hl Ht7) as Ht8.
  eapply wp_mono; [by apply (end_talk sid h0 ch _ _ _ _ _ Ht8)| |done]. intros ? ? Ht9.
  eexists _, _, _, _. split; [exact Ht9|]. exists acks. split_and!; try done.
  - destruct Ha as [[-> _]|[-> _]]; [by left|by right].
  - intros H1 H2 H3. destruct Ha as [[-> _]|[-> _]]; [|done]. by destruct (Hall eq_refl H1 H2 H3).
Qed.

(** C17: what one host's [file send] says, [file recv] stores: the local file is the content
    that was sent, the end is acknowledged exactly once, and the client is told the
    number of bytes, for any pieces whose heads can be read back (the first 2 MiB of a
    file that is read in full pieces). *)
Theorem file_transfer_roundtrip {HA : Aead} {HL : AeadLaws HA} {HI : HashIter} {HD : HostDisk}
    (sid ch k : Z) (params : list bytes) (remote local path content : bytes) (ds : list bytes) (a : ChannelSpec.t) (t : Task) :
  resolve_file_paths params = Ok (remote, local) -> writable local -> u32 ch ->
  sendable (mkTaskMessage ch FileInit (lit "recv " ++ remote ++ [32] ++ local)) ->
  u64 (len content) -> str_ok path -> content <> [] -> pieces ds content -> Forall head_readable (offsets 0 ds) ->
  ready sid (t_host t) -> implements (t_host t) a -> listening ch a ->
  t_rx t = map RxMsg (send_dialogue k (len content) path [] ds) ->
  exists t', handle_server_file_recv sid ch params t = (Ok tt, t') /\
    finished sid ch [mkTaskMessage ch FileInit (lit "recv " ++ remote ++ [32] ++ local); mkTaskMessage ch FileBegin [];
                     finish_message ch 1; finish_message ch 0]
      (end_of ch (tell ch (lit "FileTransfer finish, Size:" ++ fmt_dec (len content) ++ lit " bytes" ++ [13; 10]) a))
      [] (<[local := content]> (t_fs t)) t t'.
Proof.
  intros Hp Hw Hch Hinit Hsz Hpath Hne [Hc Hd] Ho Hr Hi Hl Hev.
  destruct (file_recv_dialogue sid ch k (len content) params remote local path ds a t) as (acks & t' & E & Hf & _ & Ha); try done.
  { eapply Forall_impl; [exact Ho|]. tauto. }
  exists t'. rewrite Ha in Hf by (done || (by rewrite Hc) || (by intros ->)). by rewrite stored_readable, Hc in Hf.
Qed.

(** Beyond 2 MiB the zeros that pad a head are not read back, and the piece is written
    with its head: the stored file has 64 bytes more for every such piece, and the
    client is told the wrong number of bytes. *)
Theorem large_file_corrupted {HA : Aead} {HL : AeadLaws HA} {HI : HashIter} {HD : HostDisk}
    (sid ch k : Z) (params : list bytes) (remote local path content : bytes) (ds : list bytes) (a : ChannelSpec.t) (t : Task) :
  resolve_file_paths params = Ok (remote, local) -> writable local -> u32 ch ->
  sendable (mkTaskMessage ch FileInit (lit "recv " ++ remote ++ [32] ++ local)) ->
  u64 (len content) -> str_ok path -> pieces ds content ->
  Forall (fun o => head_readable o \/ head_broken o) (offsets 0 ds) -> Exists head_broken (offsets 0 ds) ->
  ready sid (t_host t) -> implements (t_host t) a -> listening ch a ->
  t_rx t = map RxMsg (send_dialogue k (len content) path [] ds) ->
  exists t' got, handle_server_file_recv sid ch params t = (Ok tt, t') /\ t_fs t' !! local = Some got /\
    len got = len content + 64 * len (filter head_broken (offsets 0 ds)) /\ len content < len got.
Proof.
  intros Hp Hw Hch Hinit Hsz Hpath [Hc Hd] Ho Hb Hr Hi Hl Hev.
  destruct (file_recv_dialogue sid ch k (len content) params remote local path ds a t) as (acks & t' & E & Hf & _); try done.
  destruct Hf as (_ & _ & _ & _ & Hfs & _). exists t', (stored 0 ds).
  assert (Hlen : len (stored 0 ds) = len content + 64 * len (filter head_broken (offsets 0 ds))).
  { rewrite len_stored, Hc; [done|]. eapply Forall_impl; [exact Hd|]. by intros ? []. }
  assert (0 < len (filter head_broken (offsets 0 ds))).
  { apply len_pos. intros Hn. apply Exists_exists in Hb as (o & Hin & Hob).
    assert (o ∈ filter head_broken (offsets 0 ds)) as Hx by (by apply list_elem_of_filter). rewrite Hn in Hx. by apply not_elem_of_nil in Hx. }
  split_and!; [done|by rewrite Hfs, lookup_insert_eq|done|lia].
Qed.

(** ** Examples *)

Module CalmDisk.
#[export] Instance disk : HostDisk := {
  disk_stat _ := inl (lit "No such file"); disk_open_error _ := None; disk_create_error _ := None;
  disk_read_error _ _ := None; disk_read_amount _ _ n := n; disk_write_error _ _ := None;
  disk_flush_error _ := None
}.
End CalmDisk.

Section FileWitness.
#[local] Existing Instance ToyAead.aead.
#[local] Existing Instance ToyAead.laws.
#[local] Existing Instance SomeOrder.order.
#[local] Existing Instance CalmDisk.disk.
(** A client on channel 5, a device with session 7. *)
Definition device_host : Host :=
  set_tcp_map (TcpMap.set_session_writers (fun _ => {[7 := mkWriter [] None]})
    (TcpMap.set_channel_writers (fun _ => {[5 := mkWriter [] None]}) TcpMap.new)) new_host.
Definition one_client : ChannelSpec.t := ChannelSpec.mk {[5 := []]} ∅ ∅ [].
Lemma device_ready : ready 7 device_host.
Proof. exists (mkLink ∅ [] (mkWriter [] None)). split; [reflexivity|split; done]. Qed.
Lemma client_listens : implements device_host one_client /\ listening 5 one_client.
Proof. split; [split_and!; reflexivity|]. exists []. reflexivity. Qed.

Definition send_words : list bytes := map lit ["file"; "send"; "/a/x.txt"; "/data/"]%string.
Definition recv_words : list bytes := map lit ["file"; "recv"; "/data/x"; "/b/y"]%string.
Definition sending_task : Task :=
  mkTask device_host [RxMsg (mkTaskMessage 5 KernelEchoRaw (lit "illegal operation on a directory"));
                      RxMsg (mkTaskMessage 5 KernelChannelClose []); RxMsg (mkTaskMessage 5 FileBegin []);
                      RxMsg (mkTaskMessage 5 FileFinish [0])] {[lit "/a/x.txt" := lit "hello"]}.
Lemma file_send_protocol_witness : exists ds evs' t',
  handle_server_file_send 7 5 send_words sending_task = (Ok tt, t') /\ pieces ds (lit "hello") /\
  finished 7 5 (send_dialogue 5 5 (lit "/data/") [file_check 5 5 (lit "/data") (lit "x.txt")] ds)
    (end_of 5 (tell 5 (lit "FileTransfer finish" ++ [13; 10]) one_client)) evs' (t_fs sending_task) sending_task t'.
Proof.
  apply (file_send_protocol 7 5 send_words (lit "/a/x.txt") (lit "/data/") (lit "hello")
    [RxMsg (mkTaskMessage 5 KernelEchoRaw (lit "illegal operation on a directory"));
     RxMsg (mkTaskMessage 5 KernelChannelClose []); RxMsg (mkTaskMessage 5 FileBegin [])]
    [RxMsg (mkTaskMessage 5 FileFinish [0])] [file_check 5 5 (lit "/data") (lit "x.txt")] one_client sending_task).
  - by vm_compute.
  - by vm_compute.
  - done.
  - by apply (bool_decide_unpack _); vm_compute.
  - by vm_compute.
  - change [file_check 5 5 (lit "/data") (lit "x.txt")]
      with [file_check 5 5 (drop_while_end is_slash (lit "/data/")) (default [] (path_file_name (lit "/a/x.txt")))].
    apply (granted_in_directory 5 5 (default [] (path_file_name (lit "/a/x.txt"))) (lit "/data/") _ [mkTaskMessage 5 KernelChannelClose []]
      (mkTaskMessage 5 FileBegin [])); try done; [by vm_compute..|]. constructor; [by left|constructor].
  - by apply (bool_decide_unpack _); vm_compute.
  - constructor; [by apply (bool_decide_unpack _); vm_compute|constructor].
  - apply device_ready.
  - apply client_listens.
  - apply client_listens.
  - done.
Defined.

Definition receiving_task (size : Z) (ds : list bytes) : Task :=
  mkTask device_host (map RxMsg (send_dialogue 9 size (lit "/b/y") [] ds)) ∅.
Lemma file_transfer_roundtrip_witness : exists t',
  handle_server_file_recv 7 5 recv_words (receiving_task 5 [lit "he"; lit "llo"]) = (Ok tt, t') /\
  t_fs t' !! lit "/b/y" = Some (lit "hello").
Proof.
  destruct (file_transfer_roundtrip 7 5 9 recv_words (lit "/data/x") (lit "/b/y") (lit "/b/y") (lit "hello")
    [lit "he"; lit "llo"] one_client (receiving_task 5 [lit "he"; lit "llo"])) as (t' & E & Hf).
  - by vm_compute.
  - done.
  - by vm_compute.
  - by apply (bool_decide_unpack _); vm_compute.
  - by vm_compute.
  - by vm_compute.
  - done.
  - split; [done|by apply (bool_decide_unpack _); vm_compute].
  - constructor; [by left|]. constructor; [right; left; by vm_compute|constructor].
  - apply device_ready.
  - apply client_listens.
  - apply client_listens.
  - done.
  - exists t'. split; [exact E|]. destruct Hf as (_ & _ & _ & _ & -> & _). apply lookup_insert_eq.
Defined.

(** Two pieces of 128 bytes and one byte: the second has a head of odd length. *)
Lemma large_file_corrupted_witness : exists t' got,
  handle_server_file_recv 7 5 recv_words (receiving_task 129 [replicate 128 7; [8]]) = (Ok tt, t') /\
  t_fs t' !! lit "/b/y" = Some got /\ len got = 193.
Proof.
  destruct (large_file_corrupted 7 5 9 recv_words (lit "/data/x") (lit "/b/y") (lit "/b/y") (replicate 128 7 ++ [8])
    [replicate 128 7; [8]] one_client (receiving_task 129 [replicate 128 7; [8]])) as (t' & got & E & Hg & Hl & _).
  - by vm_compute.
  - done.
  - by vm_compute.
  - by apply (bool_decide_unpack _); vm_compute.
  - by vm_compute.
  - by vm_compute.
  - split; [done|by apply (bool_decide_unpack _); vm_compute].
  - constructor; [left; by left|]. constructor; [right; left; by vm_compute|constructor].
  - right. left. left. by vm_compute.
  - apply device_ready.
  - apply client_listens.
  - apply client_listens.
  - done.
  - exists t', got. split_and!; [exact E|exact Hg|rewrite Hl; by vm_compute].
Defined.
End FileWitness.
