(* ===== verification/HostApp.v ===== *)
(** * The host server: installing apps and flashing

    [src/hdc/src/server.rs]: [handle_server_app_install] with the packages of an [.app]
    archive, and [handle_server_flashd].  They stream files as [file send] does.  The
    reader of zip archives is a library: what it finds in a file is an argument
    ([Zip]).  The progress in percent is computed in binary64, as the code does. *)

From Stdlib Require Import SpecFloat Sorted.
From S2P Require Import Prelude RustStr Config Tlv Serializer Encrypt Transport HostMaps HostChannels HostTask HostFile.

(** ** Archives *)

(** An entry that can be opened has a name and the bytes that are read from it, up to an
    error. *)
Record ZipEntry := mkZipEntry { entry_name : bytes; entry_data : bytes; entry_error : option bytes }.
Class Zip := {
  (** [ZipArchive::new], then [by_index] of each index; errors are their texts *)
  zip_entries : bytes -> bytes + list (bytes + ZipEntry);
  dir_create_error : bytes -> option Error;
  temp_dir : bytes
}.

(** The order of paths in one directory is that of the bytes of their names. *)
Fixpoint bytes_leb (a b : bytes) : bool :=
  match a, b with
  | [], _ => true
  | _ :: _, [] => false
  | x :: a, y :: b => (x <? y) || ((x =? y) && bytes_leb a b)
  end.
Fixpoint insert_path (p : bytes) (l : list bytes) : list bytes :=
  match l with
  | [] => [p]
  | q :: t => if bytes_leb p q then p :: l else q :: insert_path p t
  end.
Definition sort_paths (l : list bytes) : list bytes := foldr insert_path [] l.

Section Install.
Context {HA : Aead} {HI : HashIter} {HD : HostDisk} {HZ : Zip}.

(** [out_dir.join(file_name)], for a name without separators. *)
Definition path_join (dir name : bytes) : bytes := dir ++ [47] ++ name.

Fixpoint extract_entries (entries : list (bytes + ZipEntry)) (out_dir : bytes) (haps : list bytes) : M Task (list bytes) :=
  match entries with
  | [] => mret haps
  | inl e :: _ => fail InvalidData (lit "Zip entry error: " ++ e)
  | inr entry :: t =>
      let name := entry_name entry in
      if ends_with (lit ".hap") (to_ascii_lowercase name) then
        let file_name := default name (path_file_name name) in
        let out_path := path_join out_dir file_name in
        _ ← create_file out_path;
        copied ← try_ (append_file out_path (entry_data entry));
        match copied, entry_error entry with
        | Ok _, None => extract_entries t out_dir (haps ++ [out_path])
        | Ok _, Some e => fail InvalidData (lit "Extract failed: " ++ e)
        | Err e, _ => fail InvalidData (lit "Extract failed: " ++ err_msg e)
        | Panic, _ => lift Panic
        end
      else extract_entries t out_dir haps
  end.
Definition extract_haps_from_app (app_path out_dir : bytes) : M Task (list bytes) :=
  _ ← open_file app_path;
  t ← get;
  match zip_entries (default [] (t_fs t !! app_path)) with
  | inl e => fail InvalidData (lit "Failed to open .app as zip: " ++ e)
  | inr entries => haps ← extract_entries entries out_dir []; mret (sort_paths haps)
  end.

(** ** One package *)

Definition app_check (channel_id file_size : Z) (options remote_path file_name : bytes) : TaskMessage :=
  mkTaskMessage channel_id AppCheck
    (TransferConfig.serialize
       (TransferConfig.mk file_size 0 0 options remote_path file_name false 0 false (lit "install") [] [] [])).

Fixpoint await_app_begin (fuel : nat) : M Task unit :=
  match fuel with
  | O => lift Panic
  | S f =>
      e ← rx_recv;
      match e with
      | RxMsg task =>
          if cmd_eqb (command task) KernelWakeupSlavetask then await_app_begin f
          else if cmd_eqb (command task) AppBegin then mret tt
          else fail InvalidData (expected "AppBegin" (command task))
      | RxClosed => queue_closed
      | RxTimeout => throw TimedOut "Timeout waiting for AppBegin"
      end
  end.

(** The mode, the result and the message; [None] is the end of the allowed time. *)
Fixpoint await_app_finish (fuel : nat) (channel_id : Z) : M Task (option (Z * bool * bytes)) :=
  match fuel with
  | O => lift Panic
  | S f =>
      e ← rx_recv;
      match e with
      | RxMsg task =>
          match command task with
          | AppFinish =>
              match payload task with
              | mode :: status :: msg => mret (Some (mode, status =? 0, from_utf8_lossy msg))
              | _ => mret (Some (0, false, lit "Invalid AppFinish payload"))
              end
          | KernelEcho | KernelEchoRaw =>
              _ ← to_client_ok channel_id (from_utf8_lossy (payload task));
              await_app_finish f channel_id
          | KernelChannelClose => mret (Some (0, false, lit "Channel closed"))
          | _ => await_app_finish f channel_id
          end
      | RxClosed => mret (Some (0, false, lit "Response channel closed"))
      | RxTimeout => mret None
      end
  end.

Definition mode_str (mode : Z) : bytes :=
  if mode =? 1 then lit "install" else if mode =? 2 then lit "uninstall"
  else if mode =? 3 then lit "sideload" else lit "unknown".

Definition install_single_hap (session_id channel_id : Z) (app_path options : bytes) : M Task unit :=
  let file_name := default (lit "app.hap") (path_file_name app_path) in
  let remote_path := lit "/data/local/tmp/" ++ file_name in
  t ← get;
  match metadata app_path t with
  | inl e => fail NotFound (lit "App file not found: " ++ e)
  | inr file_size =>
      _ ← to_daemon session_id (mkTaskMessage channel_id AppInit []);
      _ ← to_daemon session_id (app_check channel_id file_size options remote_path file_name);
      t ← get;
      _ ← await_app_begin (rx_fuel t);
      _ ← open_file app_path;
      t ← get;
      _ ← stream_file (stream_fuel app_path t) AppData session_id channel_id app_path 0;
      t ← get;
      r ← await_app_finish (rx_fuel t) channel_id;
      match r with
      | Some (mode, true, msg) => to_client channel_id (lit "AppMod finish: " ++ file_name ++ [13; 10])
      | Some (mode, false, msg) => fail OtherError (lit "[Fail]App " ++ mode_str mode ++ lit " failed: " ++ msg)
      | None => throw TimedOut "Timeout waiting for app install result"
      end
  end.
Fixpoint install_haps (session_id channel_id : Z) (haps : list bytes) (options : bytes) : M Task unit :=
  match haps with
  | [] => mret tt
  | hap :: t => _ ← install_single_hap session_id channel_id hap options; install_haps session_id channel_id t options
  end.

(** ** The command *)

(** The working directory, the options and the packages of the arguments. *)
Record InstallArgs := mkInstallArgs { client_cwd : bytes; install_options : bytes; packages : list bytes }.
Fixpoint install_args (args : list bytes) (acc : InstallArgs) : InstallArgs :=
  match args with
  | [] => acc
  | arg :: t =>
      let option := fun _ : unit =>
        let options := install_options acc in
        mkInstallArgs (client_cwd acc) (if bool_decide (options = []) then arg else options ++ [32] ++ arg) (packages acc) in
      let package := fun _ : unit => mkInstallArgs (client_cwd acc) (install_options acc) (packages acc ++ [arg]) in
      if beq arg (lit "-cwd") then
        match t with
        | dir :: t => install_args t (mkInstallArgs dir (install_options acc) (packages acc))
        | [] => install_args t (option tt)
        end
      else if starts_with [45] arg then install_args t (option tt)
      else install_args t (package tt)
  end.

Definition is_app_pack (app_path : bytes) : bool :=
  match path_extension app_path with Some ext => beq (to_ascii_lowercase ext) (lit "app") | None => false end.
Definition create_dir_all (dir : bytes) : M Task unit :=
  lift (match dir_create_error dir with Some e => Err e | None => Ok tt end).
(** [remove_dir_all], with the error ignored. *)
Definition remove_dir_all (dir : bytes) : M Task unit :=
  modify (fun t => mkTask (t_host t) (t_rx t) (filter (fun e => starts_with (dir ++ [47]) e.1 = false) (t_fs t))).

(** The package files of an argument: the file itself, or what an archive unpacks to in [dir]. *)
Definition package_path (cwd package : bytes) : bytes :=
  if negb (bool_decide (cwd = [])) && negb (starts_with [47] package) then cwd ++ package else package.
Definition unpack_package (dir app_path : bytes) : M Task (list bytes) :=
  if is_app_pack app_path then
    _ ← create_dir_all dir;
    haps ← extract_haps_from_app app_path dir;
    match haps with
    | [] => throw InvalidData "No .hap found in .app package"
    | _ => mret haps
    end
  else mret [app_path].
Definition extract_dir (rnd : list Z) : bytes := path_join temp_dir (lit "hdc_app_extract_" ++ fmt_dec (default 0 (head rnd))).

(** The packages in order; [rnd] are the random numbers of the directories.  The value
    has the directories to remove, whatever the outcome. *)
Fixpoint install_packages (session_id channel_id : Z) (rnd : list Z) (cwd options : bytes) (pkgs cleanup_dirs : list bytes)
    : M Task (list bytes * Result unit) :=
  match pkgs with
  | [] => _ ← on_host (maybe_end_channel channel_id); mret (cleanup_dirs, Ok tt)
  | package :: rest =>
      let app_path := package_path cwd package in
      let dir := extract_dir rnd in
      haps ← try_ (unpack_package dir app_path);
      match haps with
      | Ok haps =>
          let cleanup_dirs := if is_app_pack app_path then cleanup_dirs ++ [dir] else cleanup_dirs in
          r ← try_ (install_haps session_id channel_id haps options);
          match r with
          | Ok _ => install_packages session_id channel_id (if is_app_pack app_path then tail rnd else rnd) cwd options rest cleanup_dirs
          | Err e => mret (cleanup_dirs, Err e)
          | Panic => lift Panic
          end
      | Err e => mret (cleanup_dirs, Err e)
      | Panic => lift Panic
      end
  end.
Definition handle_server_app_install (rnd : list Z) (session_id channel_id : Z) (params : list bytes) : M Task unit :=
  let args := install_args (tail params) (mkInstallArgs [] [] []) in
  match packages args with
  | [] => throw InvalidInput "[E006001] Not any installation package was found"
  | pkgs =>
      '(cleanup_dirs, result) ← with_queue session_id channel_id
        (install_packages session_id channel_id rnd (client_cwd args) (install_options args) pkgs []);
      _ ← foldr (fun dir k => _ ← remove_dir_all dir; k) (mret tt) cleanup_dirs;
      lift result
  end.

(** ** Flashing *)

Definition parse_flashd_file_args (params : list bytes) (is_update : bool) : Result (bytes * bool) :=
  match params with
  | [] => err InvalidInput "Missing flashd command"
  | _ :: args =>
      let min_count := if is_update then 1%nat else 2%nat in
      let file_index := if is_update then 0%nat else 1%nat in
      let has_force := existsb (fun p => beq p (lit "-f")) args in
      let count := if has_force then S min_count else min_count in
      if negb (length args =? count)%nat || (length args <=? file_index)%nat then
        Err (mkError InvalidInput (lit "Invalid flashd " ++ (if is_update then lit "update" else lit "flash") ++ lit " arguments"))
      else Ok (nth (if has_force then S file_index else file_index) args [], has_force)
  end.

Definition validate_flashd_file (path : bytes) : Result unit :=
  let ext := to_ascii_lowercase (default [] (path_extension path)) in
  if existsb (beq ext) (map lit ["img"; "bin"; "fd"; "cpio"; "zip"]%string) then Ok tt
  else Err (mkError InvalidInput (lit "Invalid flashd file type: " ++ ext ++ lit " (expected .img/.bin/.fd/.cpio/.zip)")).

Fixpoint wait_flashd_response (fuel : nat) (want : HdcCommand) (ch : Z) : M Task TaskMessage :=
  match fuel with
  | O => lift Panic
  | S f =>
      e ← rx_recv;
      match e with
      | RxMsg task =>
          if negb (channel_id task =? ch) then wait_flashd_response f want ch
          else if cmd_eqb (command task) KernelWakeupSlavetask then wait_flashd_response f want ch
          else if cmd_eqb (command task) want then mret task
          else fail InvalidData (lit "Expected " ++ debug_name want ++ lit ", got " ++ debug_name (command task))
      | RxClosed => queue_closed
      | RxTimeout => fail TimedOut (lit "Timeout waiting for " ++ debug_name want)
      end
  end.

Definition processing (percent : Z) : bytes := [13] ++ lit "Processing: " ++ fmt_dec percent ++ lit "%".

Fixpoint wait_flashd_finish (fuel : nat) (ch : Z) : M Task unit :=
  match fuel with
  | O => lift Panic
  | S f =>
      e ← rx_recv;
      match e with
      | RxMsg task =>
          if negb (channel_id task =? ch) then wait_flashd_finish f ch
          else
            match command task with
            | FlashdFinish =>
                match payload task with
                | _ :: level :: rest =>
                    let info := from_utf8_lossy rest in
                    if level =? MessageLevel.as_u8 MessageLevel.LOk then
                      to_client_ok ch (match info with [] => [13; 10] | _ => [13; 10] ++ info ++ [13; 10] end)
                    else fail OtherError (lit "[Fail]Flashd failed: " ++ info)
                | _ => throw InvalidData "Invalid FlashdFinish payload"
                end
            | FlashdProgress =>
                _ ← match payload task with
                    | pct :: _ => to_client_ok ch (processing pct)
                    | [] => mret tt
                    end;
                wait_flashd_finish f ch
            | KernelEcho | KernelEchoRaw =>
                _ ← to_client_ok ch (from_utf8_lossy (payload task));
                wait_flashd_finish f ch
            | KernelChannelClose => throw ConnectionAborted "Channel closed"
            | _ => wait_flashd_finish f ch
            end
      | RxClosed => queue_closed
      | RxTimeout => throw TimedOut "Timeout waiting for FlashdFinish"
      end
  end.

(** *** The progress

    [((offset as f64 / file_size as f64) * 100.0) as u8], in binary64. *)
Definition f64_of_u64 (v : Z) : spec_float := binary_normalize 53 1024 v 0 false.
Definition u8_of_f64 (x : spec_float) : Z :=
  match x with
  | S754_finite false m e => Z.min 255 (if 0 <=? e then Z.pos m * 2 ^ e else Z.pos m / 2 ^ (- e))
  | S754_infinity false => 255
  | _ => 0
  end.
Definition percent_of (offset file_size : Z) : Z :=
  if 0 <? file_size
  then u8_of_f64 (SFmul 53 1024 (SFdiv 53 1024 (f64_of_u64 offset) (f64_of_u64 file_size)) (f64_of_u64 100))
  else 100.

(** The data of an image, with the progress for the client. *)
Fixpoint stream_image (fuel : nat) (session_id channel_id file_size : Z) (path : bytes) (offset last_percent : Z)
    : M Task unit :=
  match fuel with
  | O => lift Panic
  | S f =>
      data ← read_file path offset CHUNK_SIZE;
      match data with
      | [] => mret tt
      | _ =>
          _ ← to_daemon session_id (mkTaskMessage channel_id FlashdData (payload_head offset (len data) ++ data));
          let offset := offset + len data in
          let percent := percent_of offset file_size in
          _ ← if negb (percent =? last_percent) then to_client_ok channel_id (processing percent) else mret tt;
          stream_image f session_id channel_id file_size path offset percent
      end
  end.

Definition flashd_check (channel_id file_size : Z) (options local_path file_name function_name : bytes) : TaskMessage :=
  mkTaskMessage channel_id FlashdCheck
    (replicate 8 0 ++ TransferConfig.serialize
       (TransferConfig.mk file_size 0 0 options local_path file_name false 0 false function_name [] [] [])).

Definition flashd_image (session_id channel_id : Z) (is_update : bool) (params : list bytes) : M Task unit :=
  '(local_path, _) ← lift (parse_flashd_file_args params is_update);
  _ ← lift (validate_flashd_file local_path);
  let function_name := if is_update then lit "flashd_update" else lit "flashd_flash" in
  t ← get;
  match metadata local_path t with
  | inl e => fail NotFound (lit "Flashd file not found: " ++ e)
  | inr file_size =>
      let file_name := default [] (path_file_name local_path) in
      _ ← to_daemon session_id (flashd_check channel_id file_size (join [32] params) local_path file_name function_name);
      t ← get;
      _ ← wait_flashd_response (rx_fuel t) FlashdBegin channel_id;
      _ ← to_client_ok channel_id (processing 0);
      _ ← open_file local_path;
      t ← get;
      _ ← stream_image (stream_fuel local_path t) session_id channel_id file_size local_path 0 0;
      _ ← to_daemon session_id (mkTaskMessage channel_id FlashdFinish [1]);
      t ← get;
      wait_flashd_finish (rx_fuel t) channel_id
  end.
Definition handle_server_flashd (session_id channel_id : Z) (cmd : HdcCommand) (params : list bytes) : M Task unit :=
  with_queue session_id channel_id (
    _ ← match cmd with
        | FlashdUpdateInit => flashd_image session_id channel_id true params
        | FlashdFlashInit => flashd_image session_id channel_id false params
        | FlashdErase | FlashdFormat =>
            _ ← to_daemon session_id (mkTaskMessage channel_id cmd (join [32] params));
            t ← get;
            wait_flashd_finish (rx_fuel t) channel_id
        | _ => mret tt
        end;
    on_host (maybe_end_channel channel_id)).
End Install.

(** ** What is extracted from an archive *)

Lemma bytes_leb_total a b : bytes_leb a b = false -> bytes_leb b a = true.
Proof.
  revert b; induction a as [|x a IH]; intros [|y b]; cbn; try done. intros [H1 H2]%orb_false_elim.
  apply Z.ltb_ge in H1. destruct (Z.ltb_spec y x); [done|]. assert (x = y) as -> by lia. rewrite Z.eqb_refl in *. cbn in *. by apply IH.
Qed.
Definition bytes_le (a b : bytes) : Prop := bytes_leb a b = true.
Lemma sort_paths_sorted l : Sorted bytes_le (sort_paths l).
Proof.
  assert (Hi : forall p t, Sorted bytes_le t -> Sorted bytes_le (insert_path p t)).
  { intros p t Ht. induction Ht as [|q t Ht IH Hq]; cbn; [repeat constructor|].
    destruct (bytes_leb p q) eqn:E; [by repeat constructor|].
    constructor; [done|]. apply bytes_leb_total in E. destruct Hq as [|r t Hr]; cbn; [by constructor|]. case_match; by constructor. }
  induction l as [|p l IH]; cbn; [constructor|]. by apply Hi.
Qed.
Lemma sort_paths_perm l : sort_paths l ≡ₚ l.
Proof.
  assert (Hi : forall p t, insert_path p t ≡ₚ p :: t).
  { intros p t. induction t as [|q t IH]; cbn; [reflexivity|]. destruct (bytes_leb p q); [reflexivity|]. rewrite IH. apply perm_swap. }
  induction l as [|p l IH]; cbn; [reflexivity|]. by rewrite Hi, IH.
Qed.

Definition is_hap (e : ZipEntry) : Prop := ends_with (lit ".hap") (to_ascii_lowercase (entry_name e)) = true.
#[global] Instance is_hap_dec e : Decision (is_hap e).
Proof. unfold is_hap. apply _. Defined.
Definition hap_path (dir : bytes) (e : ZipEntry) : bytes :=
  path_join dir (default (entry_name e) (path_file_name (entry_name e))).
(** Only files directly in the directory changed. *)
Definition confined (dir : bytes) (fs fs' : gmap bytes bytes) : Prop :=
  forall p, (forall n, 47 ∉ n -> n <> [] -> n <> lit "." -> n <> lit ".." -> p <> path_join dir n) -> fs' !! p = fs !! p.

Lemma lowercase_slash b : (if in_rng 65 90 b then b + 32 else b) = 47 -> b = 47.
Proof. unfold in_rng. destruct (Z.leb_spec 65 b), (Z.leb_spec b 90); cbn; lia. Qed.
Lemma ends_with_spec p s : ends_with p s = true <-> exists t, s = t ++ p.
Proof.
  unfold ends_with. rewrite starts_with_spec. split; intros [t E].
  - exists (reverse t). apply (f_equal reverse) in E. by rewrite reverse_involutive, reverse_app, reverse_involutive in E.
  - exists (reverse t). by rewrite E, reverse_app.
Qed.
(** A package has a name, whatever the archive calls it. *)
Lemma hap_path_inside dir e : is_hap e -> exists n, hap_path dir e = path_join dir n /\ (47 ∉ n) /\ n <> [] /\ n <> lit "." /\ n <> lit "..".
Proof.
  intros [t E]%ends_with_spec. unfold hap_path.
  assert (Hs : is_Some (path_file_name (entry_name e))).
  { unfold to_ascii_lowercase in E. apply map_eq_app in E as (a & b & E & _ & Eb).
    apply (path_file_name_suffix _ b); [| |by exists a].
    - intros H. assert (47 ∈ lit ".hap") as Hn; [|revert Hn; by apply (bool_decide_unpack _)].
      rewrite <- Eb. apply list_elem_of_fmap. exists 47. done.
    - assert (length b = length (lit ".hap")) as Hb by (rewrite <- Eb; by rewrite length_map). unfold len. by rewrite Hb. }
  destruct Hs as [n En]. rewrite En. exists n. cbn [default from_option]. unfold id. split; [done|]. by apply path_file_name_ok in En.
Qed.

Section ExtractFacts.
Context {HD : HostDisk} {HZ : Zip}.

Definition only_disk (t t' : Task) : Prop := t_host t' = t_host t /\ t_rx t' = t_rx t.
Definition unpacked (dir : bytes) (entries : list ZipEntry) (fs : gmap bytes bytes) : Prop :=
  forall e, e ∈ entries -> exists e', e' ∈ entries /\ hap_path dir e' = hap_path dir e /\ fs !! hap_path dir e = Some (entry_data e').

Lemma extract_entries_wp entries dir haps done t :
  Forall is_hap done -> unpacked dir done (t_fs t) ->
  wp (extract_entries entries dir haps)
    (fun r t' => only_disk t t' /\ confined dir (t_fs t) (t_fs t') /\ exists es, entries = map inr es /\
       r = haps ++ map (hap_path dir) (filter is_hap es) /\ unpacked dir (done ++ filter is_hap es) (t_fs t'))
    (fun _ t' => only_disk t t' /\ confined dir (t_fs t) (t_fs t')) t.
Proof.
  revert haps done t; induction entries as [|[err|e] entries IH]; intros haps done t Hd Hu; cbn [extract_entries].
  - apply wp_ret. split_and!; [done..|]. exists []. by rewrite filter_nil, !app_nil_r.
  - by split.
  - destruct (ends_with _ _) eqn:Eh.
    2: { eapply wp_mono; [apply (IH haps done t Hd Hu)| |done]. intros r t' (H1 & H2 & es & -> & -> & Hu'). split_and!; [done..|].
         exists (e :: es). rewrite filter_cons, decide_False by (unfold is_hap; by rewrite Eh). by split_and!. }
    assert (He : is_hap e) by done. cbv zeta. fold (hap_path dir e). set (path := hap_path dir e).
    assert (Hput : forall data, confined dir (t_fs t) (<[path := data]> (t_fs t))).
    { intros data p Hp. destruct (hap_path_inside dir e He) as (n & En & H1 & H2 & H3 & H4). apply lookup_insert_ne.
      unfold path. rewrite En. by apply not_eq_sym, Hp. }
    unfold create_file, append_file. apply wp_bind. unfold wp at 1. destruct (disk_create_error path); [by split|].
    apply wp_bind, wp_try. unfold wp at 1. cbn [t_fs t_host t_rx]. rewrite lookup_insert_eq. cbn [default from_option]. unfold id.
    destruct (disk_write_error path (len [])); [by split_and!; try apply Hput|]. rewrite insert_insert_eq. cbn [app].
    destruct (entry_error e); [by split_and!; try apply Hput|].
    eapply wp_mono; [apply (IH (haps ++ [path]) (done ++ [e]))|..].
    + apply Forall_app. by split; [|constructor].
    + intros e1 He1. cbn [t_fs]. destruct (decide (hap_path dir e1 = path)) as [Ep|Ep].
      * exists e. rewrite Ep. split_and!; [apply elem_of_app; right; by left|done|apply lookup_insert_eq].
      * apply elem_of_app in He1 as [He1|He1]; [|apply list_elem_of_singleton in He1 as ->; done]. destruct (Hu e1 He1) as (e' & H1 & H2 & H3).
        exists e'. split_and!; [by apply elem_of_app; left|done|by rewrite lookup_insert_ne].
    + intros r t' (H1 & H2 & es & -> & -> & Hu'). split_and!; [exact H1| |].
      * intros p Hp. rewrite H2 by done. by apply Hput.
      * exists (e :: es). rewrite filter_cons, decide_True by done. rewrite <- app_assoc in Hu'. cbn [map]. by rewrite <- app_assoc.
    + intros err t' (H1 & H2). split; [exact H1|]. intros p Hp. rewrite H2 by done. by apply Hput.
Qed.
End ExtractFacts.

(** Whatever an archive contains and calls its entries, extracting it writes only files
    directly in the given directory, also when it fails; when it succeeds every entry
    could be read, the result are the paths of the [.hap] entries in order, and each of
    them holds the bytes of such an entry. *)
Lemma extract_confined_wp {HD : HostDisk} {HZ : Zip} (app_path out_dir : bytes) (t : Task) :
  wp (extract_haps_from_app app_path out_dir)
    (fun haps t' => only_disk t t' /\ confined out_dir (t_fs t) (t_fs t') /\ Sorted bytes_le haps /\
       exists es, zip_entries (default [] (t_fs t !! app_path)) = inr (map inr es) /\
         haps ≡ₚ map (hap_path out_dir) (filter is_hap es) /\ unpacked out_dir (filter is_hap es) (t_fs t'))
    (fun _ t' => only_disk t t' /\ confined out_dir (t_fs t) (t_fs t')) t.
Proof.
  unfold extract_haps_from_app, open_file. apply wp_bind. destruct (disk_open_error app_path); [by split|]. apply wp_Ok, wp_bind, wp_get.
  destruct (zip_entries _) as [e|entries] eqn:Ez; [by split|]. apply wp_bind.
  eapply wp_mono; [apply (extract_entries_wp entries out_dir [] [] t); [constructor|by intros e ?%not_elem_of_nil]| |done].
  intros haps t' (H1 & H2 & es & -> & -> & Hu). apply wp_ret. split_and!; [done..|apply sort_paths_sorted|].
  exists es. split_and!; [done|apply sort_paths_perm|done].
Qed.

(** ** Installing packages *)

(** A package file: its path, its content, what the daemon prints while it installs, and its
    answer: the mode, the status, which is zero when the package is accepted, and a text. *)
Record Package := mkPackage {
  pkg_path : bytes; pkg_content : bytes; pkg_output : list bytes; pkg_mode : Z; pkg_status : Z; pkg_text : bytes
}.
Definition accepted (p : Package) : bool := pkg_status p =? 0.
Definition pkg_name (p : Package) : bytes := default (lit "app.hap") (path_file_name (pkg_path p)).
Definition pkg_check (ch : Z) (options : bytes) (p : Package) : TaskMessage :=
  app_check ch (len (pkg_content p)) options (lit "/data/local/tmp/" ++ pkg_name p) (pkg_name p).
(** The daemon's answers to a package. *)
Definition pkg_answers (ch : Z) (p : Package) : list RxEvent :=
  map RxMsg ([mkTaskMessage ch AppBegin []] ++ map (mkTaskMessage ch KernelEcho) (pkg_output p) ++
             [mkTaskMessage ch AppFinish (pkg_mode p :: pkg_status p :: pkg_text p)]).
(** What the host says about it, and what the client is told. *)
Definition pkg_dialogue (ch : Z) (options : bytes) (p : Package) (ds : list bytes) : list TaskMessage :=
  [mkTaskMessage ch AppInit []; pkg_check ch options p] ++ chunk_messages AppData ch 0 ds.
Definition pkg_told (ch : Z) (a : ChannelSpec.t) (p : Package) : ChannelSpec.t :=
  let a := tell_all ch (map from_utf8_lossy (pkg_output p)) a in
  if accepted p then tell ch (lit "AppMod finish: " ++ pkg_name p ++ [13; 10]) a else a.
(** The first package that is refused ends the command. *)
Definition pkg_refusal (p : Package) : Error :=
  mkError OtherError (lit "[Fail]App " ++ mode_str (pkg_mode p) ++ lit " failed: " ++ from_utf8_lossy (pkg_text p)).
Fixpoint served (ps : list Package) : list Package :=
  match ps with [] => [] | p :: ps => p :: if accepted p then served ps else [] end.
Fixpoint verdict (ps : list Package) : Result unit :=
  match ps with [] => Ok tt | p :: ps => if accepted p then verdict ps else Err (pkg_refusal p) end.
Lemma served_app ps qs : served (ps ++ qs) = if is_ok (verdict ps) then ps ++ served qs else served ps.
Proof.
  induction ps as [|p ps IH]; [done|]. cbn [app served verdict]. destruct (accepted p); [|done]. rewrite IH. by destruct (is_ok _).
Qed.
Lemma served_all ps : is_ok (verdict ps) = true -> served ps = ps.
Proof. intros H. pose proof (served_app ps []) as E. by rewrite H, !app_nil_r in E. Qed.
Lemma verdict_app ps qs : verdict (ps ++ qs) = if is_ok (verdict ps) then verdict qs else verdict ps.
Proof. induction ps as [|p ps IH]; [done|]. cbn [app verdict]. by destruct (accepted p). Qed.
Lemma verdict_cases ps : verdict ps = Ok tt \/ exists e, verdict ps = Err e.
Proof. induction ps as [|p ps IH]; [by left|]. cbn [verdict]. destruct (accepted p); [done|]. right. by eexists. Qed.

Section InstallFacts.
Context {HA : Aead} {HL : AeadLaws HA} {HI : HashIter} {HD : HostDisk}.
Context (sid : Z) (h0 : Host) (ch : Z) (options : bytes).

Lemma await_app_finish_talk fuel mode status text texts ms a evs fs t :
  (length texts < fuel)%nat ->
  in_talk sid h0 ms a (map RxMsg (map (mkTaskMessage ch KernelEcho) texts ++ [mkTaskMessage ch AppFinish (mode :: status :: text)]) ++ evs) fs t ->
  wp (await_app_finish fuel ch) (fun r t' => r = Some (mode, status =? 0, from_utf8_lossy text) /\
    in_talk sid h0 ms (tell_all ch (map from_utf8_lossy texts) a) evs fs t') no_error t.
Proof.
  revert fuel a t; induction texts as [|x texts IH]; intros [|fuel] a t Hf Ht; cbn [length] in Hf; try lia;
    cbn [await_app_finish map app] in *; apply wp_bind; (eapply rx_recv_talk; [exact Ht|]); intros t1 Ht1; cbv beta iota;
    cbn [command payload].
  - by apply wp_ret.
  - talk by apply (to_client_ok_talk sid h0 ch _ _ _ _ _ _ Ht1) as Ht2. apply IH; [lia|exact Ht2].
Qed.

(** The package can be read, and its check fits a message. *)
Definition pkg_ok (fs : gmap bytes bytes) (p : Package) : Prop :=
  readable (pkg_path p) /\ fs !! pkg_path p = Some (pkg_content p) /\ bytes_ok (pkg_content p) /\ sendable (pkg_check ch options p).
(** Some packages were gone through, in this order. *)
Definition gone_through (ps : list Package) (ms : list TaskMessage) (a : ChannelSpec.t) (evs : list RxEvent) (fs : gmap bytes bytes) (t : Task) : Prop :=
  exists dss, Forall2 (fun ds p => pieces ds (pkg_content p)) dss ps /\
    in_talk sid h0 (ms ++ concat (zip_with (pkg_dialogue ch options) ps dss)) (foldl (pkg_told ch) a ps) evs fs t.

Lemma install_hap_talk p ms a evs fs t :
  u32 ch -> pkg_ok fs p -> listening ch a -> in_talk sid h0 ms a (pkg_answers ch p ++ evs) fs t ->
  wp (install_single_hap sid ch (pkg_path p) options)
    (fun _ t' => accepted p = true /\ gone_through [p] ms a evs fs t')
    (fun e t' => accepted p = false /\ e = pkg_refusal p /\ gone_through [p] ms a evs fs t') t.
Proof.
  intros Hch (Hrd & Hc & Hok & Hsend) Hl Ht. unfold install_single_hap. apply wp_bind, wp_get.
  assert (Hfs : t_fs t = fs) by (by destruct Ht as (_&_&_&_&_&->)). unfold metadata. rewrite Hfs, Hc.
  assert (Hi : sendable (mkTaskMessage ch AppInit [])) by (apply small_sendable; [done|constructor|done]).
  talk by apply (to_daemon_talk sid h0 _ _ _ _ _ _ Ht) as Ht2. talk by apply (to_daemon_talk sid h0 _ _ _ _ _ _ Ht2) as Ht3.
  apply wp_bind, wp_get, wp_bind. unfold pkg_answers in Ht3. cbn [map app] in Ht3.
  unfold rx_fuel at 1. cbn [await_app_begin]. apply wp_bind. eapply rx_recv_talk; [exact Ht3|]. intros t4 Ht4; cbv beta iota.
  apply wp_ret. unfold open_file. rewrite (proj1 Hrd). apply wp_bind, wp_Ok, wp_bind, wp_get.
  talk (eapply (stream_file_talk sid h0 _ AppData ch (pkg_path p) 0 (pkg_content p)); [done|done|exact Hc|done| | |exact Ht4]) as (ds & Hds & Ht5).
  { pose proof (len_nonneg (pkg_content p)). lia. }
  { unfold stream_fuel. destruct Ht4 as (_&_&_&_&_&->). rewrite Hc. cbn. unfold len. lia. }
  rewrite rest_from_0 in Hds. apply wp_bind, wp_get.
  talk (eapply (await_app_finish_talk _ (pkg_mode p) (pkg_status p) (pkg_text p) (pkg_output p)); [|exact Ht5];
        rewrite (talk_fuel _ _ _ _ _ _ _ Ht5), length_app, length_map, length_app, length_map; lia) as (-> & Ht6).
  assert (Hdone : forall t7 a', in_talk sid h0 ((ms ++ [mkTaskMessage ch AppInit []]) ++ [pkg_check ch options p] ++ chunk_messages AppData ch 0 ds) a' evs fs t7 ->
    a' = pkg_told ch a p -> gone_through [p] ms a evs fs t7).
  { intros t7 a' H ->. exists [ds]. split; [by apply Forall2_cons; split; [|apply Forall2_nil]|]. cbn [zip_with concat]. unfold pkg_dialogue. rewrite app_nil_r. cbn [app foldl] in *.
    by rewrite <- !app_assoc in H. }
  rewrite <- !app_assoc in Ht6. unfold pkg_told in Hdone. fold (accepted p). destruct (accepted p) eqn:Ea; cbv iota.
  - eapply wp_mono; [by apply (to_client_talk sid h0 ch _ _ _ _ _ _ (listening_tell_all _ _ _ Hl) Ht6)| |done].
    intros u t7 Ht7. split; [done|]. eapply Hdone; [|done]. rewrite <- !app_assoc. exact Ht7.
  - split_and!; [done..|]. eapply Hdone; [|done]. rewrite <- !app_assoc. exact Ht6.
Qed.
Lemma listening_told p a : listening ch a -> listening ch (pkg_told ch a p).
Proof. intros H. unfold pkg_told. destruct (accepted p); [apply listening_tell|]; by apply listening_tell_all. Qed.
Lemma listening_told_all ps a : listening ch a -> listening ch (foldl (pkg_told ch) a ps).
Proof. revert a; induction ps as [|p ps IH]; intros a H; [done|]. by apply IH, listening_told. Qed.
Lemma gone_app ps qs ms a evs fs t1 t ds :
  Forall2 (fun ds p => pieces ds (pkg_content p)) ds ps -> 
  gone_through qs (ms ++ concat (zip_with (pkg_dialogue ch options) ps ds)) (foldl (pkg_told ch) a ps) evs fs t ->
  t1 = t -> gone_through (ps ++ qs) ms a evs fs t1.
Proof.
  intros Hp (dq & Hq & Ht) ->. exists (ds ++ dq). split; [by apply Forall2_app|].
  rewrite zip_with_app, concat_app, foldl_app, app_assoc; [done|]. symmetry. by eapply Forall2_length.
Qed.
Lemma install_haps_talk ps ms a evs fs t :
  u32 ch -> Forall (pkg_ok fs) ps -> listening ch a -> in_talk sid h0 ms a (concat (map (pkg_answers ch) (served ps)) ++ evs) fs t ->
  wp (install_haps sid ch (map pkg_path ps) options)
    (fun _ t' => verdict ps = Ok tt /\ gone_through (served ps) ms a evs fs t')
    (fun e t' => verdict ps = Err e /\ gone_through (served ps) ms a evs fs t') t.
Proof.
  intros Hch Hps. revert ms a t; induction Hps as [|p ps Hp Hps IH]; intros ms a t Hl Ht.
  - apply wp_ret. split; [done|]. exists []. split; [constructor|]. cbn. by rewrite app_nil_r.
  - cbn [map install_haps served verdict concat] in *. rewrite <- app_assoc in Ht. apply wp_bind.
    eapply wp_mono; [by apply (install_hap_talk p _ _ _ _ _ Hch Hp Hl Ht)|..].
    + intros u t1 (-> & dss & Hds & Ht1). destruct dss as [|ds [|]]; [by inversion Hds| |by inversion Hds as [|????? H]; inversion H].
      eapply wp_mono; [apply (IH _ _ _ (listening_told p a Hl) Ht1)|..]; (intros r t2 [Hv Hg]; split; [done|]; by eapply (gone_app [p])).
    + intros e t1 (-> & -> & Hg). done.
Qed.

(** The arguments in turn, with the packages each stands for, the directories of the archives
    and the disk: up to the argument with a package that is refused. *)
Context {HZ : Zip}.
Inductive argued (cwd : bytes) : list Z -> gmap bytes bytes -> list bytes -> list (list Package) -> list bytes -> gmap bytes bytes -> Prop :=
  | argued_nil rnd fs : argued cwd rnd fs [] [] [] fs
  | argued_cons rnd fs pk pkgs ps pss dirs fs1 fs2 :
      let path := package_path cwd pk in
      (forall h rx, unpack_package (extract_dir rnd) path (mkTask h rx fs) = (Ok (map pkg_path ps), mkTask h rx fs1)) ->
      Forall (pkg_ok fs1) ps -> verdict ps = Ok tt ->
      argued cwd (if is_app_pack path then tail rnd else rnd) fs1 pkgs pss dirs fs2 ->
      argued cwd rnd fs (pk :: pkgs) (ps :: pss) (if is_app_pack path then extract_dir rnd :: dirs else dirs) fs2
  | argued_refused rnd fs pk pkgs ps fs1 :
      let path := package_path cwd pk in
      (forall h rx, unpack_package (extract_dir rnd) path (mkTask h rx fs) = (Ok (map pkg_path ps), mkTask h rx fs1)) ->
      Forall (pkg_ok fs1) ps -> verdict ps <> Ok tt ->
      argued cwd rnd fs (pk :: pkgs) [ps] (if is_app_pack path then [extract_dir rnd] else []) fs1.

Lemma in_talk_disk ms a evs fs fs1 t : in_talk sid h0 ms a evs fs t -> in_talk sid h0 ms a evs fs1 (mkTask (t_host t) (t_rx t) fs1).
Proof. by intros (H1 & H2 & H3 & H4 & H5 & H6). Qed.
Definition close_if (v : Result unit) (a : ChannelSpec.t) : ChannelSpec.t := if is_ok v then end_of ch a else a.
Lemma install_packages_talk cwd rnd fs pkgs pss dirs fs2 : argued cwd rnd fs pkgs pss dirs fs2 -> u32 ch -> forall dirs0 ms a t,
  listening ch a -> in_talk sid h0 ms a (concat (map (pkg_answers ch) (served (concat pss)))) fs t ->
  wp (install_packages sid ch rnd cwd options pkgs dirs0)
    (fun r t' => r = (dirs0 ++ dirs, verdict (concat pss)) /\ exists dss,
       Forall2 (fun ds p => pieces ds (pkg_content p)) dss (served (concat pss)) /\
       in_talk sid h0 (ms ++ concat (zip_with (pkg_dialogue ch options) (served (concat pss)) dss))
         (close_if (verdict (concat pss)) (foldl (pkg_told ch) a (served (concat pss)))) [] fs2 t') no_error t.
Proof.
  intros Har Hch. induction Har as [rnd fs|rnd fs pk pkgs ps pss dirs fs1 fs2 path Hun Hok Hv Har IH|rnd fs pk pkgs ps fs1 path Hun Hok Hv];
    intros dirs0 ms a t Hl Ht; cbn [install_packages].
  - talk by apply (end_talk sid h0 ch _ _ _ _ _ Ht) as Ht1. apply wp_ret. rewrite app_nil_r. split; [done|]. exists []. cbn. by rewrite app_nil_r.
  - fold path. cbv zeta. assert (Hfs : mkTask (t_host t) (t_rx t) fs = t) by (destruct Ht as (_&_&_&_&_&<-); by destruct t).
    apply wp_bind, wp_try. unfold wp at 1. rewrite <- Hfs, Hun. apply wp_bind, wp_try.
    cbn [concat] in Ht |- *. rewrite served_app, verdict_app, Hv in *. cbn [is_ok] in *. rewrite map_app, concat_app in Ht.
    rewrite <- (served_all ps) in Ht by (by rewrite Hv).
    eapply wp_mono; [apply (install_haps_talk ps _ _ _ _ _ Hch Hok Hl (in_talk_disk _ _ _ _ fs1 _ Ht))|..]; [|by intros e t1 [He _]; congruence].
    intros u t1 (_ & ds & Hds & Ht1). cbv beta iota. rewrite served_all in Hds, Ht1 by (by rewrite Hv).
    eapply wp_mono; [apply (IH _ _ _ _ (listening_told_all ps a Hl) Ht1)| |done]. intros r t2 (-> & dss & Hdss & Ht2). split.
    + destruct (is_app_pack path); [by rewrite <- app_assoc|done].
    + exists (ds ++ dss). split; [by apply Forall2_app|]. rewrite zip_with_app by (symmetry; by eapply Forall2_length).
      by rewrite concat_app, foldl_app, app_assoc.
  - fold path. cbv zeta. assert (Hfs : mkTask (t_host t) (t_rx t) fs = t) by (destruct Ht as (_&_&_&_&_&<-); by destruct t).
    apply wp_bind, wp_try. unfold wp at 1. rewrite <- Hfs, Hun. apply wp_bind, wp_try. cbn [concat] in Ht |- *. rewrite !app_nil_r in *.
    destruct (verdict_cases ps) as [|[e He]]; [done|]. rewrite <- (app_nil_r (concat _)) in Ht.
    eapply wp_mono; [apply (install_haps_talk ps _ _ _ _ _ Hch Hok Hl (in_talk_disk _ _ _ _ fs1 _ Ht))|..]; [by intros u t1 [Hu _]; congruence|].
    intros e1 t1 [He1 Hg]. apply wp_ret. rewrite He1. split; [destruct (is_app_pack path); by rewrite ?app_nil_r|]. exact Hg.
Qed.
(** Outside the directories of the archives the disk is the same. *)
Lemma argued_outside cwd rnd fs pkgs pss dirs fs2 q : argued cwd rnd fs pkgs pss dirs fs2 ->
  Forall (fun dir => starts_with (dir ++ [47]) q = false) dirs -> fs2 !! q = fs !! q.
Proof.
  assert (Hone : forall rnd path ps fs fs1 h rx, unpack_package (extract_dir rnd) path (mkTask h rx fs) = (Ok (map pkg_path ps), mkTask h rx fs1) ->
    (is_app_pack path = true -> starts_with (extract_dir rnd ++ [47]) q = false) -> fs1 !! q = fs !! q).
  { clear. intros rnd path ps fs fs1 h rx E Hq. unfold unpack_package in E. destruct (is_app_pack path); [|by injection E as _ <-].
    specialize (Hq eq_refl). set (t0 := mkTask h rx fs) in *. unfold create_dir_all in E. destruct (dir_create_error _); [done|].
    rewrite M_bind_lift, M_bind_eq in E. pose proof (extract_confined_wp path (extract_dir rnd) t0) as Hc. unfold wp in Hc.
    destruct (extract_haps_from_app path _ t0) as [[haps|e|] t1]; [|done..]. destruct Hc as (_ & Hc & _).
    assert (t1 = mkTask h rx fs1) as -> by (destruct haps; by injection E). apply Hc. intros n Hn _ _ _ ->. unfold path_join in Hq.
    rewrite app_assoc in Hq. by rewrite (proj2 (starts_with_spec _ _) (ex_intro _ n eq_refl)) in Hq. }
  induction 1 as [|rnd fs pk pkgs ps pss dirs fs1 fs2 path Hun _ _ _ IH|rnd fs pk pkgs ps fs1 path Hun _ _]; intros Hd; [done| |].
  - rewrite IH by (destruct (is_app_pack path); [by apply Forall_cons in Hd as [_ Hd]|done]).
    eapply (Hone rnd path ps fs fs1 new_host []); [apply Hun|]. intros Ea. rewrite Ea in Hd. by apply Forall_cons in Hd as [Hd _].
  - eapply (Hone rnd path ps fs fs1 new_host []); [apply Hun|]. intros Ea. rewrite Ea in Hd. by apply Forall_cons in Hd as [Hd _].
Qed.
Lemma remove_dirs dirs t : exists t', foldr (fun dir k => _ ← remove_dir_all dir; k) (mret tt) dirs t = (Ok tt, t') /\ only_disk t t' /\
  forall q, t_fs t' !! q = if bool_decide (Forall (fun dir => starts_with (dir ++ [47]) q = false) dirs) then t_fs t !! q else None.
Proof.
  revert t; induction dirs as [|dir dirs IH]; intros t; cbn [foldr].
  - exists t. by split_and!.
  - rewrite M_bind_eq. cbn [remove_dir_all modify]. destruct (IH (mkTask (t_host t) (t_rx t) (filter (fun e => starts_with (dir ++ [47]) e.1 = false) (t_fs t))))
      as (t' & -> & [H1 H2] & H3). exists t'. split_and!; [done|by split|]. intros q. rewrite H3. cbn [t_fs].
    destruct (bool_decide_reflect (Forall (fun d => starts_with (d ++ [47]) q = false) dirs)) as [Hd|Hd];
      destruct (bool_decide_reflect (Forall (fun d => starts_with (d ++ [47]) q = false) (dir :: dirs))) as [Hc|Hc]; try done.
    + apply Forall_cons in Hc as [Hc _]. rewrite map_lookup_filter. destruct (t_fs t !! q) as [x|]; [|done]. cbn. by rewrite option_guard_True.
    + apply map_lookup_filter_None. right. intros x _ Hx. apply Hc. by constructor.
    + destruct Hd. by apply Forall_cons in Hc as [_ Hc].
Qed.
End InstallFacts.

(** C18: [install] of packages that can be read and that the daemon answers for.  Each argument
    stands for the package it names, relative to the client's directory, or for the packages of
    its [.app] archive, unpacked in a new directory.  In the order of the arguments each package
    is announced, checked with the options and streamed completely before the next one; the
    client is told what the daemon prints and that each accepted package is done.  The first
    package that is refused ends the command with the daemon's reason, without a word about the
    later ones; otherwise it succeeds and the client's channel ends.  The queue is not registered
    any more, and the disk is as it was. *)
Theorem install_protocol {HA : Aead} {HL : AeadLaws HA} {HI : HashIter} {HD : HostDisk} {HZ : Zip}
    (rnd : list Z) (sid ch : Z) (params : list bytes) (pss : list (list Package)) (dirs : list bytes) (fs : gmap bytes bytes)
    (a : ChannelSpec.t) (t : Task) :
  let args := install_args (tail params) (mkInstallArgs [] [] []) in
  let ps := served (concat pss) in
  packages args <> [] -> u32 ch -> argued ch (install_options args) (client_cwd args) rnd (t_fs t) (packages args) pss dirs fs ->
  (forall dir q, dir ∈ dirs -> starts_with (dir ++ [47]) q = true -> t_fs t !! q = None) ->
  ready sid (t_host t) -> implements (t_host t) a -> listening ch a ->
  t_rx t = concat (map (pkg_answers ch) ps) ->
  exists dss t', handle_server_app_install rnd sid ch params t = (verdict (concat pss), t') /\
    Forall2 (fun ds p => pieces ds (pkg_content p)) dss ps /\
    finished sid ch (concat (zip_with (pkg_dialogue ch (install_options args)) ps dss))
      (close_if ch (verdict (concat pss)) (foldl (pkg_told ch) a ps)) [] (t_fs t) t t'.
Proof.
  intros args ps Hne Hch Har Hnew Hr Hi Hl Hev. unfold handle_server_app_install. fold args.
  destruct (packages args) as [|pk pkgs] eqn:Ep; [done|]. rewrite <- Ep in *.
  destruct (with_queue_ok sid ch (install_packages sid ch rnd (client_cwd args) (install_options args) (packages args) []) a t
    (fun r ms a2 evs fs' => r = (dirs, verdict (concat pss)) /\ exists dss, Forall2 (fun ds p => pieces ds (pkg_content p)) dss ps /\
      ms = concat (zip_with (pkg_dialogue ch (install_options args)) ps dss) /\
      a2 = close_if ch (verdict (concat pss)) (foldl (pkg_told ch) a ps) /\ evs = [] /\ fs' = fs))
    as (r & t1 & ? & ? & ? & ? & E & Hf & -> & dss & Hdss & -> & -> & -> & ->); [done..| |].
  - intros h0 t1 Ht. rewrite Hev in Ht.
    eapply wp_mono; [by apply (install_packages_talk sid h0 ch (install_options args) (client_cwd args) rnd (t_fs t) (packages args) pss dirs fs Har Hch [] _ _ _ Hl Ht)| |done].
    intros r t2 (-> & dss & Hdss & Ht2). eexists _, _, _, _. split; [exact Ht2|]. split; [done|]. by exists dss.
  - rewrite (M_bind_Ok _ _ _ _ _ E). cbv beta iota. destruct (remove_dirs dirs t1) as (t' & Er & [D1 D2] & D3).
    rewrite (M_bind_Ok _ _ _ _ _ Er). exists dss, t'. split_and!; [done..|].
    destruct Hf as (F1 & F2 & F3 & F4 & F5 & F6). unfold finished. rewrite D1, D2. destruct F6 as (F6 & F7 & F8). split_and!; try done.
    apply map_eq. intros q. rewrite D3, F5. case_bool_decide as Hb.
    + by eapply argued_outside.
    + apply not_Forall_Exists in Hb; [|apply _]. apply Exists_exists in Hb as (dir & Hd & Hx). symmetry. apply (Hnew dir); [done|].
      by apply not_false_iff_true.
Qed.

(** ** Flashing an image *)

(** The progress that is shown while the pieces go out: each change of the percentage. *)
Fixpoint percents (size offset last : Z) (ds : list bytes) : list Z :=
  match ds with
  | [] => []
  | d :: t =>
      let p := percent_of (offset + len d) size in
      (if p =? last then [] else [p]) ++ percents size (offset + len d) p t
  end.

Section FlashFacts.
Context {HA : Aead} {HL : AeadLaws HA} {HI : HashIter} {HD : HostDisk}.
Context (sid : Z) (h0 : Host) (ch : Z).

Lemma stream_image_talk fuel size path offset last content ms a evs fs t :
  u32 ch -> readable path -> fs !! path = Some content -> bytes_ok content -> 0 <= offset <= len content ->
  (Z.to_nat (len content - offset) < fuel)%nat -> in_talk sid h0 ms a evs fs t ->
  wp (stream_image fuel sid ch size path offset last)
    (fun _ t' => exists ds, pieces ds (rest_from offset content) /\
       in_talk sid h0 (ms ++ chunk_messages FlashdData ch offset ds) (tell_all ch (map processing (percents size offset last ds)) a) evs fs t')
    no_error t.
Proof.
  intros Hch Hrd Hfs Hok. revert offset last ms a t; induction fuel as [|fuel IH]; intros offset last ms a t Ho Hf Ht; [lia|].
  cbn [stream_image]. apply wp_bind. assert (Hc : t_fs t !! path = Some content) by (destruct Ht as (_&_&_&_&_&->); done).
  apply (read_file_wp path offset content); [done..|]. intros d rest E Hl Hd.
  destruct d as [|b d].
  { apply wp_ret. exists []. rewrite app_nil_r. split; [|done]. split; [|done]. rewrite E, Hd by done. done. }
  set (piece := b :: d) in *. assert (Hp : 0 < len piece) by (unfold piece; rewrite len_cons; pose proof (len_nonneg d); lia).
  assert (Hpo : bytes_ok piece).
  { pose proof (rest_from_ok offset content Hok) as H. rewrite E in H. by apply bytes_ok_app in H as [H _]. }
  pose proof (rest_from_len offset content _ ltac:(lia) E) as Hlen. rewrite len_app in Hlen. pose proof (len_nonneg rest).
  talk (apply (to_daemon_talk sid h0 _ ms a evs fs); [done|apply chunk_sendable; done || lia]) as Ht1.
  set (p := percent_of (offset + len piece) size).
  assert (Htell : wp (if negb (p =? last) then to_client_ok ch (processing p) else mret tt)
    (fun _ => in_talk sid h0 (ms ++ [mkTaskMessage ch FlashdData (payload_head offset (len piece) ++ piece)])
        (tell_all ch (map processing (if p =? last then [] else [p])) a) evs fs) no_error s').
  { destruct (p =? last); cbn [negb]; [by apply wp_ret|]. by apply to_client_ok_talk. }
  talk (exact Htell) as Ht2.
  eapply wp_mono; [eapply (IH (offset + len piece) p); [lia|lia|exact Ht2]| |done].
  intros u' t2 (ds & [Hds Hall] & Ht3). exists (piece :: ds). split; [split|].
  - cbn [concat]. rewrite Hds, E. f_equal. by rewrite (rest_from_app offset content piece rest) by (lia || done).
  - constructor; [lia|done].
  - cbn [chunk_messages percents]. fold p. rewrite map_app, tell_all_app. by rewrite <- app_assoc in Ht3.
Qed.

(** What the daemon reports before the end: its own progress and lines for the client. *)
Inductive Report := Progress (pct : Z) | Line (text : bytes).
Definition report_message (r : Report) : TaskMessage :=
  match r with Progress pct => mkTaskMessage ch FlashdProgress [pct] | Line text => mkTaskMessage ch KernelEcho text end.
Definition report_text (r : Report) : bytes :=
  match r with Progress pct => processing pct | Line text => from_utf8_lossy text end.
Definition flash_end_text (info : bytes) : bytes := match info with [] => [13; 10] | _ => [13; 10] ++ info ++ [13; 10] end.

Lemma wait_finish_talk fuel b info reports ms a evs fs t :
  (length reports < fuel)%nat ->
  in_talk sid h0 ms a (map RxMsg (map report_message reports ++ [mkTaskMessage ch FlashdFinish (b :: 2 :: info)]) ++ evs) fs t ->
  wp (wait_flashd_finish fuel ch)
    (fun _ => in_talk sid h0 ms (tell_all ch (map report_text reports ++ [flash_end_text (from_utf8_lossy info)]) a) evs fs) no_error t.
Proof.
  revert fuel a t; induction reports as [|r reports IH]; intros [|fuel] a t Hf Ht; cbn [length] in Hf; try lia;
    cbn [wait_flashd_finish map app] in *; apply wp_bind; (eapply rx_recv_talk; [exact Ht|]); intros t1 Ht1; cbv beta iota.
  - cbn [channel_id command payload]. rewrite Z.eqb_refl. cbn [negb]. by apply to_client_ok_talk.
  - destruct r as [pct|text]; cbn [report_message channel_id command payload]; rewrite Z.eqb_refl; cbn [negb];
      (talk by apply (to_client_ok_talk sid h0 ch _ _ _ _ _ _ Ht1) as Ht2); (apply IH; [lia|exact Ht2]).
Qed.
End FlashFacts.

(** Flashing an image (or updating with one) the daemon accepts: the check with the name
    and the size behind its eight zeros, the whole image in pieces of bounded size, the
    end; the client sees the progress at every change of the percentage, what the daemon
    reports, and the end; the queue is not registered any more. *)
Theorem flash_protocol {HA : Aead} {HL : AeadLaws HA} {HI : HashIter} {HD : HostDisk}
    (sid ch : Z) (is_update force : bool) (params : list bytes) (path content info : bytes) (b : Z) (reports : list Report)
    (a : ChannelSpec.t) (t : Task) :
  let check := flashd_check ch (len content) (join [32] params) path (default [] (path_file_name path))
                 (if is_update then lit "flashd_update" else lit "flashd_flash") in
  parse_flashd_file_args params is_update = Ok (path, force) -> validate_flashd_file path = Ok tt ->
  t_fs t !! path = Some content -> readable path -> bytes_ok content -> u32 ch -> sendable check ->
  ready sid (t_host t) -> implements (t_host t) a ->
  t_rx t = map RxMsg ([mkTaskMessage ch FlashdBegin []] ++ map (report_message ch) reports ++ [mkTaskMessage ch FlashdFinish (b :: 2 :: info)]) ->
  exists ds t', handle_server_flashd sid ch (if is_update then FlashdUpdateInit else FlashdFlashInit) params t = (Ok tt, t') /\
    pieces ds content /\
    finished sid ch ([check] ++ chunk_messages FlashdData ch 0 ds ++ [mkTaskMessage ch FlashdFinish [1]])
      (end_of ch (tell_all ch (map processing (0 :: percents (len content) 0 0 ds) ++ map report_text reports ++
                                [flash_end_text (from_utf8_lossy info)]) a))
      [] (t_fs t) t t'.
Proof.
  intros check Hp Hv Hc Hrd Hok Hch Hs Hr Hi Hev. unfold handle_server_flashd.
  destruct (with_queue_ok sid ch (_ ← flashd_image sid ch is_update params; on_host (maybe_end_channel ch)) a t
    (fun _ ms a2 evs fs => exists ds, pieces ds content /\
      ms = [check] ++ chunk_messages FlashdData ch 0 ds ++ [mkTaskMessage ch FlashdFinish [1]] /\
      a2 = end_of ch (tell_all ch (map processing (0 :: percents (len content) 0 0 ds) ++ map report_text reports ++
                                [flash_end_text (from_utf8_lossy info)]) a) /\ evs = [] /\ fs = t_fs t))
    as ([] & t' & ? & ? & ? & ? & E & Hf & ds & Hds & -> & -> & -> & ->); [done..| |exists ds, t'; by destruct is_update].
  intros h0 t1 Ht. rewrite Hev in Ht. apply wp_bind. unfold flashd_image. rewrite Hp. apply wp_bind, wp_Ok. cbv iota beta.
  rewrite Hv. apply wp_bind, wp_Ok, wp_bind, wp_get.
  assert (Hfs : t_fs t1 = t_fs t) by (by destruct Ht as (_&_&_&_&_&->)). unfold metadata. rewrite Hfs, Hc. fold check.
  talk by apply (to_daemon_talk sid h0 _ _ _ _ _ _ Ht) as Ht2. apply wp_bind, wp_get, wp_bind.
  unfold rx_fuel at 1. cbn [wait_flashd_response map app] in *. apply wp_bind. eapply rx_recv_talk; [exact Ht2|]. intros t3 Ht3; cbv beta iota.
  cbn [channel_id command]. rewrite Z.eqb_refl. cbn [negb]. apply wp_ret.
  talk by apply (to_client_ok_talk sid h0 ch _ _ _ _ _ _ Ht3) as Ht4.
  unfold open_file. rewrite (proj1 Hrd). apply wp_bind, wp_Ok, wp_bind, wp_get.
  talk (eapply (stream_image_talk sid h0 ch _ _ path 0 0 content); [done|done|exact Hc|done| | |exact Ht4]) as (ds & Hds & Ht5).
  { pose proof (len_nonneg content). lia. }
  { unfold stream_fuel. destruct Ht4 as (_&_&_&_&_&->). rewrite Hc. cbn. unfold len. lia. }
  rewrite rest_from_0 in Hds.
  talk (apply (to_daemon_talk sid h0 _ _ _ _ _ _ Ht5), small_sendable; [done|by repeat constructor|done]) as Ht6.
  apply wp_bind, wp_get.
  rewrite <- (app_nil_r (map RxMsg (map (report_message ch) reports ++ _))) in Ht6.
  eapply wp_mono; [eapply (wait_finish_talk sid h0 ch); [|exact Ht6];
    rewrite (talk_fuel _ _ _ _ _ _ _ Ht6), !length_app, length_map, length_app, length_map; lia| |done]. intros u t7 Ht7.
  eapply wp_mono; [by apply (end_talk sid h0 ch _ _ _ _ _ Ht7)| |done]. intros u' t8 Ht8.
  eexists _, _, _, _. split; [exact Ht8|]. exists ds. split_and!; try done.
  cbn [map app]. unfold tell_all at 3. cbn [foldl]. fold (tell_all ch). by rewrite <- tell_all_app.
Qed.

(** ** Examples *)

(** No archive can be read. *)
Module NoZip.
#[export] Instance zip : Zip := { zip_entries _ := inl (lit "invalid Zip archive"); dir_create_error _ := None; temp_dir := lit "/tmp" }.
End NoZip.
(** An archive of one package, and what is none. *)
Module OneZip.
Definition entries : list ZipEntry := [mkZipEntry (lit "lib/README") (lit "text") None; mkZipEntry (lit "lib/A.HAP") (lit "aa") None].
#[export] Instance zip : Zip := {
  zip_entries file := if beq file (lit "PK") then inr (map inr entries) else inl (lit "invalid Zip archive");
  dir_create_error _ := None; temp_dir := lit "/tmp" }.
End OneZip.

Section AppWitness.
#[local] Existing Instance ToyAead.aead.
#[local] Existing Instance ToyAead.laws.
#[local] Existing Instance SomeOrder.order.
#[local] Existing Instance CalmDisk.disk.
#[local] Existing Instance OneZip.zip.

Definition install_words : list bytes := map lit ["install"; "-cwd"; "/w/"; "-r"; "a.app"; "/b.hap"; "c.hap"]%string.
(** The archive's package is accepted, the second one is not; the third is not looked at. *)
Definition two_packages : list (list Package) :=
  [[mkPackage (lit "/tmp/hdc_app_extract_9/A.HAP") (lit "aa") [lit "working"] 1 0 (lit "ok")];
   [mkPackage (lit "/b.hap") (lit "bbb") [] 1 1 (lit "no signature")]].
Definition install_disk : gmap bytes bytes := <[lit "/w/a.app" := lit "PK"]> {[lit "/b.hap" := lit "bbb"]}.
Definition install_task : Task := mkTask device_host (concat (map (pkg_answers 5) (concat two_packages))) install_disk.
Lemma install_protocol_witness : exists dss t',
  handle_server_app_install [9] 7 5 install_words install_task =
    (Err (mkError OtherError (lit "[Fail]App install failed: no signature")), t') /\
  Forall2 (fun ds p => pieces ds (pkg_content p)) dss (concat two_packages) /\
  finished 7 5 (concat (zip_with (pkg_dialogue 5 (lit "-r")) (concat two_packages) dss))
    (foldl (pkg_told 5) one_client (concat two_packages)) [] install_disk install_task t'.
Proof.
  set (dir := lit "/tmp/hdc_app_extract_9"). set (fs1 := <[lit "/tmp/hdc_app_extract_9/A.HAP" := lit "aa"]> install_disk).
  assert (Hok : forall fs, bool_decide (fs !! lit "/tmp/hdc_app_extract_9/A.HAP" = Some (lit "aa")) = true ->
    bool_decide (fs !! lit "/b.hap" = Some (lit "bbb")) = true -> Forall (Forall (pkg_ok 5 (lit "-r") fs)) two_packages).
  { intros fs Ha%bool_decide_eq_true Hb%bool_decide_eq_true. repeat apply Forall_cons_2; try apply Forall_nil_2;
      (split_and!; try done; try assumption; try (by apply (bool_decide_unpack _); vm_compute); by vm_compute). }
  apply (install_protocol [9] 7 5 install_words two_packages [dir] fs1 one_client install_task).
  - by vm_compute.
  - done.
  - specialize (Hok fs1 ltac:(by vm_compute) ltac:(by vm_compute)). apply Forall_cons in Hok as [Ha Hb]. apply Forall_cons in Hb as [Hb _].
    replace (install_args (tail install_words) (mkInstallArgs [] [] [])) with (mkInstallArgs (lit "/w/") (lit "-r") (map lit ["a.app"; "/b.hap"; "c.hap"]%string))
      by by vm_compute.
    replace [dir] with (if is_app_pack (package_path (lit "/w/") (lit "a.app")) then [extract_dir [9]] else []) by by vm_compute.
    apply (argued_cons 5 (lit "-r") (lit "/w/") [9] install_disk (lit "a.app") [lit "/b.hap"; lit "c.hap"] _ _ [] fs1 fs1).
    + intros h rx. by vm_compute.
    + done.
    + done.
    + apply (argued_refused 5 (lit "-r") (lit "/w/") [] fs1 (lit "/b.hap") [lit "c.hap"] _ fs1); [by intros h rx; vm_compute|done|by vm_compute].
  - intros d q ->%list_elem_of_singleton Hq. unfold install_task, install_disk. cbn [t_fs].
    rewrite lookup_insert_ne, lookup_singleton_ne; [done|by intros <-|by intros <-].
  - apply device_ready.
  - apply client_listens.
  - apply client_listens.
  - done.
Defined.

Definition flash_words : list bytes := map lit ["flash"; "-f"; "boot"; "/x/boot.img"]%string.
Definition flash_task : Task :=
  mkTask device_host (map RxMsg ([mkTaskMessage 5 FlashdBegin []] ++ map (report_message 5) [Line (lit "erasing"); Progress 50] ++
                                 [mkTaskMessage 5 FlashdFinish [0; 2]])) {[lit "/x/boot.img" := lit "image"]}.
Lemma flash_protocol_witness : exists ds t',
  handle_server_flashd 7 5 FlashdFlashInit flash_words flash_task = (Ok tt, t') /\ pieces ds (lit "image").
Proof.
  destruct (flash_protocol 7 5 false true flash_words (lit "/x/boot.img") (lit "image") [] 0 [Line (lit "erasing"); Progress 50]
    one_client flash_task) as (ds & t' & E & Hds & _).
  - by vm_compute.
  - by vm_compute.
  - by vm_compute.
  - done.
  - by apply (bool_decide_unpack _); vm_compute.
  - by vm_compute.
  - by apply (bool_decide_unpack _); vm_compute.
  - apply device_ready.
  - apply client_listens.
  - done.
  - exists ds, t'. split; [exact E|exact Hds].
Defined.
Example percent_examples : map (fun o => percent_of o 3) [0; 1; 2; 3] = [0; 33; 66; 100].
Proof. by vm_compute. Qed.
End AppWitness.
