(* ===== verification/HostForward.v ===== *)
(** * The host server: port forwarding

    [src/hdc/src/server.rs]: [handle_server_forward] ([fport]) and [handle_server_rport]
    ([rport]) set a rule up with the daemon and register it; what they leave running is a
    task that hands the daemon's messages to the connections of the rule, and one task for
    each connection.  Those are state machines over the events that reach them.  Sockets
    are the system's: whether an address can be bound or reached is an argument. *)

From S2P Require Import Prelude RustStr Config Tlv Serializer Encrypt Transport HostMaps HostChannels HostTask HostFile.

Class HostNet := {
  get_forward_listen_ip : bytes;
  (** the text of a failure: the first and the second attempt of a handler *)
  host_bind_error : nat -> bytes -> option bytes;
  local_connect_error : bytes -> option bytes
}.

Definition parse_forward_port (spec : bytes) : Result Z :=
  match split_once 58 spec with
  | None => err InvalidInput "Invalid forward spec, expected proto:port"
  | Some (proto, port) =>
      if negb (beq proto (lit "tcp")) then
        Err (mkError InvalidInput (lit "Host only supports tcp: forward spec, got " ++ proto))
      else
        match parse_uint 16 port with
        | inr p => Ok p
        | inl e => Err (mkError InvalidInput (lit "Invalid port number: " ++ fmt_int_error e))
        end
  end.

(** Identifier, eight bytes of parameters, text, zero. *)
Definition context_payload (ctx_id : Z) (spec : bytes) : bytes := to_be_bytes 4 ctx_id ++ replicate 8 0 ++ spec ++ [0].
Definition payload_id (payload : bytes) : Z := from_be_bytes (take 4 payload).
Fixpoint until_nul (bs : bytes) : bytes :=
  match bs with [] => [] | b :: t => if b =? 0 then [] else b :: until_nul t end.
Definition nth_byte (n : nat) (bs : bytes) : Z := nth n bs 0.

Section Forward.
Context {HA : Aead} {HI : HashIter} {HN : HostNet}.

Definition to_usb (session_id : Z) (m : TaskMessage) : M Task unit :=
  on_host (on_usb (UsbMap.send_to_session session_id (concat_pack m))).
Definition send_forward_check_result (session_id ch ctx_id : Z) (ok : bool) : M Task unit :=
  to_usb session_id (mkTaskMessage ch ForwardCheckResult (to_be_bytes 4 ctx_id ++ [if ok then 1 else 0])).

Definition known_remote (spec : bytes) : bool :=
  existsb (fun p => starts_with p spec)
    (map lit ["tcp:"; "ark:"; "jdwp:"; "localabstract:"; "localreserved:"; "localfilesystem:"; "dev:"]%string).
Definition is_debug (spec : bytes) : bool := starts_with (lit "ark:") spec || starts_with (lit "jdwp:") spec.

Definition bind (attempt : nat) (local_port : Z) : M Task unit :=
  let addr := get_forward_listen_ip ++ [58] ++ fmt_dec local_port in
  match host_bind_error attempt addr with
  | None => mret tt
  | Some e => fail AddrInUse (lit "Failed to bind " ++ addr ++ lit ": " ++ e)
  end.

(** *** The waits of a set-up *)

Fixpoint await_check_result (fuel : nat) (ctx_id : Z) : M Task bool :=
  match fuel with
  | O => lift Panic
  | S f =>
      e ← rx_recv;
      match e with
      | RxMsg task =>
          match command task with
          | ForwardCheckResult =>
              if (5 <=? len (payload task)) && (payload_id (payload task) =? ctx_id)
              then mret (negb (nth_byte 4 (payload task) =? 0))
              else await_check_result f ctx_id
          | KernelChannelClose => throw ConnectionAborted "Channel closed by daemon during forward setup"
          | _ => await_check_result f ctx_id
          end
      | RxClosed => throw ConnectionAborted "Response channel closed while waiting for ForwardCheckResult"
      | RxTimeout => throw TimedOut "Timeout waiting for ForwardCheckResult from daemon"
      end
  end.
(** The context and the remote node the daemon names. *)
Fixpoint await_forward_check (fuel : nat) : M Task (Z * bytes) :=
  match fuel with
  | O => lift Panic
  | S f =>
      e ← rx_recv;
      match e with
      | RxMsg task =>
          match command task with
          | ForwardCheck =>
              if len (payload task) <? 13 then throw InvalidData "ForwardCheck payload too short"
              else mret (payload_id (payload task), from_utf8_lossy (until_nul (drop 12 (payload task))))
          | KernelChannelClose => throw ConnectionAborted "Channel closed by daemon during forward setup"
          | _ => await_forward_check f
          end
      | RxClosed => throw ConnectionAborted "Response channel closed while waiting for ForwardCheck"
      | RxTimeout => throw TimedOut "Timeout waiting for ForwardCheck from daemon"
      end
  end.
(** What comes of it is ignored, also when the time is over. *)
Fixpoint await_forward_success (fuel : nat) : M Task unit :=
  match fuel with
  | O => lift Panic
  | S f =>
      e ← rx_recv;
      match e with
      | RxMsg task =>
          match command task with
          | ForwardSuccess => mret tt
          | KernelEcho | KernelEchoRaw =>
              if contains (lit "Forwardport result") (from_utf8_lossy (payload task)) then mret tt else await_forward_success f
          | _ => await_forward_success f
          end
      | RxClosed | RxTimeout => mret tt
      end
  end.
Fixpoint await_second_check (fuel : nat) (ctx_id : Z) : M Task unit :=
  match fuel with
  | O => lift Panic
  | S f =>
      e ← rx_recv;
      match e with
      | RxMsg task =>
          match command task with
          | ForwardCheckResult =>
              if (5 <=? len (payload task)) && (payload_id (payload task) =? ctx_id) then mret tt else await_second_check f ctx_id
          | KernelChannelClose => mret tt
          | _ => await_second_check f ctx_id
          end
      | RxClosed | RxTimeout => mret tt
      end
  end.

Definition forward_ok (ch : Z) : M Task unit :=
  _ ← to_client ch (lit "Forwardport result:OK" ++ [13; 10]);
  on_host (maybe_end_channel ch).

(** The flow that begins with [ForwardCheck]; the value is the context and the remote node. *)
Definition check_flow (session_id ch local_port ctx_id : Z) (tx : positive) (remote_spec : bytes) : M Task (Z * bytes) :=
  if is_debug remote_spec then throw OtherError "Debug forward uses ForwardInit flow"
  else
    _ ← bind 0 local_port;
    _ ← on_host (on_usb (UsbMap.register_response_channel session_id ctx_id tx));
    _ ← to_daemon session_id (mkTaskMessage ch ForwardCheck (context_payload ctx_id remote_spec));
    t ← get;
    ok ← await_check_result (rx_fuel t) ctx_id;
    if negb ok then throw ConnectionRefused "Daemon rejected ForwardCheck"
    else _ ← forward_ok ch; mret (ctx_id, remote_spec).

(** The flow that begins with [ForwardInit]: for debuggers, with a second check, and as
    the fallback of the other one. *)
Definition init_flow (session_id ch local_port : Z) (local_spec remote_spec : bytes) : M Task (Z * bytes) :=
  _ ← to_daemon session_id (mkTaskMessage ch ForwardInit (local_spec ++ [32] ++ remote_spec));
  t ← get;
  '(ctx_id, daemon_remote_spec) ← await_forward_check (rx_fuel t);
  bound ← try_ (bind 1 local_port);
  match bound with
  | Ok _ =>
      _ ← send_forward_check_result session_id ch ctx_id true;
      t ← get;
      _ ← await_forward_success (rx_fuel t);
      _ ← if is_debug remote_spec then
            _ ← to_daemon session_id (mkTaskMessage ch ForwardCheck (context_payload ctx_id daemon_remote_spec));
            t ← get;
            await_second_check (rx_fuel t) ctx_id
          else mret tt;
      _ ← forward_ok ch;
      mret (ctx_id, daemon_remote_spec)
  | Err e =>
      _ ← try_ (send_forward_check_result session_id ch ctx_id false);
      _ ← on_host (on_usb (UsbMap.unregister_response_channel session_id ch));
      lift (Err e)
  | Panic => lift Panic
  end.

(** The receiver is dropped when the handler fails; otherwise it is the dispatcher's. *)
Definition drop_receiver (tx : positive) : M Task unit :=
  on_host (on_usb (modify (fun m =>
    UsbMap.mk (UsbMap.session_senders m) (UsbMap.response_channels m) (UsbMap.session_queues m)
      (alter (fun q => mkQueue (q_items q) false) tx (UsbMap.response_queues m))))).
Definition or_drop {A} (tx : positive) (m : M Task A) : M Task A :=
  r ← try_ m;
  match r with
  | Ok a => mret a
  | Err e => _ ← drop_receiver tx; lift (Err e)
  | Panic => lift Panic
  end.

(** What a rule leaves running: the queue of its dispatcher, and the remote node of its
    listener. *)
Record Rule := mkRule { rule_queue : positive; rule_remote : bytes }.

Definition add_rule (ch session_id : Z) (connect_key : bytes) (dir : ForwardDirection) (task_string : bytes) (handle : option positive)
    : M Task unit :=
  on_host (on_forward (modify <[task_string := ForwardEntry.mk ch session_id connect_key dir task_string handle]>)).

(** [ctx_id] is the random context, [handle] the task of the listener. *)
Definition handle_server_forward (ctx_id : Z) (handle : positive) (connect_key : bytes) (session_id ch : Z) (params : list bytes)
    : M Task Rule :=
  match params with
  | _ :: local_spec :: remote_spec :: _ =>
      if negb (starts_with (lit "tcp:") local_spec) then throw InvalidInput "Local forward node must be tcp:<port>"
      else
        local_port ← lift (parse_forward_port local_spec);
        if negb (known_remote remote_spec) then fail InvalidInput (lit "Unsupported remote forward node: " ++ remote_spec)
        else
          tx ← register session_id ch;
          '(_, daemon_remote_spec) ← or_drop tx (
            handshake ← try_ (check_flow session_id ch local_port ctx_id tx remote_spec);
            match handshake with
            | Ok v => mret v
            | Err _ => init_flow session_id ch local_port local_spec remote_spec
            | Panic => lift Panic
            end);
          _ ← add_rule ch session_id connect_key Forward (local_spec ++ [32] ++ remote_spec) (Some handle);
          mret (mkRule tx daemon_remote_spec)
  | _ => throw InvalidInput "Invalid forward parameters. Usage: fport tcp:local tcp:remote|ark:pid@bundle|jdwp:pid"
  end.

(** *** [rport] *)

(** The answer to a [ForwardCheck]: can the local port be reached? *)
Definition reachable_flag (local_spec : bytes) : Z :=
  match parse_forward_port local_spec with
  | Ok port => match local_connect_error (lit "127.0.0.1:" ++ fmt_dec port) with None => 1 | Some _ => 0 end
  | _ => 0
  end.
Definition check_reply (ch : Z) (payload : bytes) : option TaskMessage :=
  if 13 <=? len payload then
    let local_spec := trim_end_matches 0 (from_utf8_lossy (drop 12 payload)) in
    Some (mkTaskMessage ch ForwardCheckResult (to_be_bytes 4 (payload_id payload) ++ [reachable_flag local_spec]))
  else None.

Fixpoint rport_setup (fuel : nat) (session_id ch : Z) : M Task unit :=
  match fuel with
  | O => lift Panic
  | S f =>
      e ← rx_recv;
      match e with
      | RxMsg task =>
          match command task with
          | ForwardCheck =>
              _ ← match check_reply ch (payload task) with
                  | Some m => _ ← try_ (to_daemon session_id m); mret tt
                  | None => mret tt
                  end;
              rport_setup f session_id ch
          | ForwardSuccess => mret tt
          | KernelEcho | KernelEchoRaw =>
              _ ← to_client_ok ch (from_utf8_lossy (payload task));
              rport_setup f session_id ch
          | KernelChannelClose => throw ConnectionAborted "Channel closed by daemon"
          | _ => rport_setup f session_id ch
          end
      | RxClosed => throw ConnectionAborted "Response channel closed"
      | RxTimeout => throw TimedOut "Timeout waiting for ForwardSuccess"
      end
  end.

Definition handle_server_rport (connect_key : bytes) (session_id ch : Z) (params : list bytes) : M Task Rule :=
  match params with
  | _ :: remote_spec :: local_spec :: _ =>
      _ ← lift (parse_forward_port local_spec);
      tx ← register session_id ch;
      result ← try_ (
        _ ← to_daemon session_id (mkTaskMessage ch ForwardInit (remote_spec ++ [32] ++ local_spec));
        t ← get;
        _ ← rport_setup (rx_fuel t) session_id ch;
        forward_ok ch);
      match result with
      | Ok _ =>
          _ ← add_rule ch session_id connect_key Reverse (remote_spec ++ [32] ++ local_spec) None;
          mret (mkRule tx remote_spec)
      | Err e =>
          _ ← unregister session_id ch tx;
          lift (Err e)
      | Panic => lift Panic
      end
  | _ => throw InvalidInput "Invalid rport parameters. Usage: rport tcp:remote tcp:local"
  end.
End Forward.

(** ** Setting up a reverse rule *)

Section RportFacts.
Context {HA : Aead} {HL : AeadLaws HA} {HI : HashIter} {HN : HostNet}.

(** The messages that do not decide the set-up, what the host replies to them, and the
    lines for the client. *)
Definition undecided (m : TaskMessage) : Prop := command m <> ForwardSuccess /\ command m <> KernelChannelClose.
Definition reply_to (ch : Z) (m : TaskMessage) : option TaskMessage :=
  match command m with ForwardCheck => check_reply ch (payload m) | _ => None end.
Definition line_for (m : TaskMessage) : option bytes :=
  match command m with KernelEcho | KernelEchoRaw => Some (from_utf8_lossy (payload m)) | _ => None end.
(** What the first other event decides. *)
Definition setup_outcome (e : RxEvent) : option (Result unit) :=
  match e with
  | RxMsg m => if cmd_eqb (command m) ForwardSuccess then Some (Ok tt)
               else if cmd_eqb (command m) KernelChannelClose then Some (err ConnectionAborted "Channel closed by daemon")
               else None
  | RxClosed => Some (err ConnectionAborted "Response channel closed")
  | RxTimeout => Some (err TimedOut "Timeout waiting for ForwardSuccess")
  end.

Lemma reachable_flag_ok spec : u8 (reachable_flag spec).
Proof. unfold reachable_flag. repeat case_match; ulia. Qed.
Lemma check_reply_sendable ch p m : u32 ch -> check_reply ch p = Some m -> sendable m.
Proof.
  intros Hch. unfold check_reply. destruct (13 <=? len p); [|done]. cbv zeta. intros <-%(inj Some). apply small_sendable; [done| |].
  - apply bytes_ok_app. split; [apply to_be_bytes_ok|]. constructor; [apply reachable_flag_ok|constructor].
  - rewrite len_app, len_to_be_bytes. done.
Qed.

Lemma omap_cons_list {A B} (f : A -> option B) x l : omap f (x :: l) = option_list (f x) ++ omap f l.
Proof. cbn. by destruct (f x). Qed.
Lemma rport_setup_talk fuel sid ch h0 pre e r ms a rest fs t :
  u32 ch -> Forall undecided pre -> setup_outcome e = Some r -> (length pre < fuel)%nat ->
  in_talk sid h0 ms a (map RxMsg pre ++ e :: rest) fs t ->
  let after := in_talk sid h0 (ms ++ omap (reply_to ch) pre) (tell_all ch (omap line_for pre) a) rest fs in
  wp (rport_setup fuel sid ch) (fun _ t' => r = Ok tt /\ after t') (fun err t' => r = Err err /\ after t') t.
Proof.
  intros Hch Hpre Hr. revert fuel ms a t; induction Hpre as [|m pre [Hm1 Hm2] Hpre IH]; intros [|fuel] ms a t Hf Ht; cbn [length] in Hf; try lia;
    cbv zeta; cbn [rport_setup map app] in *; apply wp_bind; (eapply rx_recv_talk; [exact Ht|]); intros t1 Ht1; cbv beta iota.
  - cbn. rewrite app_nil_r. destruct e as [m| |]; cbn [setup_outcome] in Hr; [|by injection Hr as <-..].
    destruct (cmd_eqb (command m) ForwardSuccess) eqn:E1.
    + apply cmd_eqb_spec in E1 as ->. injection Hr as <-. by apply wp_ret.
    + destruct (cmd_eqb (command m) KernelChannelClose) eqn:E2; [|done]. apply cmd_eqb_spec in E2 as ->. by injection Hr as <-.
  - assert (Hgo : forall t2, in_talk sid h0 (ms ++ option_list (reply_to ch m)) (tell_all ch (option_list (line_for m)) a) (map RxMsg pre ++ e :: rest) fs t2 ->
      wp (rport_setup fuel sid ch)
        (fun _ t' => r = Ok tt /\ in_talk sid h0 (ms ++ omap (reply_to ch) (m :: pre)) (tell_all ch (omap line_for (m :: pre)) a) rest fs t')
        (fun err t' => r = Err err /\ in_talk sid h0 (ms ++ omap (reply_to ch) (m :: pre)) (tell_all ch (omap line_for (m :: pre)) a) rest fs t') t2).
    { intros t2 Ht2. specialize (IH fuel _ _ t2 ltac:(lia) Ht2). cbv zeta in IH. by rewrite !omap_cons_list, app_assoc, tell_all_app. }
    unfold reply_to at 1, line_for at 1 in Hgo.
    destruct (command m) eqn:Ec; cbn [option_list tell_all foldl] in Hgo; rewrite ?app_nil_r in Hgo; try (by apply Hgo); try done.
    + talk (by apply (to_client_ok_talk sid h0 ch _ _ _ _ _ _ Ht1)) as Ht2. by apply Hgo.
    + talk (by apply (to_client_ok_talk sid h0 ch _ _ _ _ _ _ Ht1)) as Ht2. by apply Hgo.
    + destruct (check_reply ch (payload m)) as [reply|] eqn:Er; [|apply wp_bind, wp_ret, Hgo; by rewrite app_nil_r].
      apply wp_bind, wp_bind, wp_try.
      eapply wp_mono; [by apply (to_daemon_talk sid h0 _ _ _ _ _ _ Ht1); eapply check_reply_sendable| |done].
      intros u t2 Ht2. by apply wp_ret, Hgo.
Qed.
End RportFacts.

(** [rport] with an open session: the host asks for the rule, answers every check of the
    daemon with whether the local port can be reached, and shows its lines to the client;
    then the first event that decides, decides.  On success the client is told, the rule
    is registered and its queue stays registered for the dispatcher; on a failure (the
    daemon closes the channel, the queue is closed, or the time is over) the error is
    returned, there is no rule, and the queue is not registered. *)
Theorem rport_rule_protocol {HA : Aead} {HL : AeadLaws HA} {HI : HashIter} {HN : HostNet}
    (connect_key : bytes) (sid ch port : Z) (word remote local : bytes) (words : list bytes)
    (pre : list TaskMessage) (e : RxEvent) (outcome : Result unit) (rest : list RxEvent) (a : ChannelSpec.t) (t : Task) :
  let init := mkTaskMessage ch ForwardInit (remote ++ [32] ++ local) in
  let told := tell_all ch (omap line_for pre) a in
  let task := remote ++ [32] ++ local in
  parse_forward_port local = Ok port -> u32 ch -> sendable init ->
  ready sid (t_host t) -> implements (t_host t) a -> listening ch a ->
  t_rx t = map RxMsg pre ++ e :: rest -> Forall undecided pre -> setup_outcome e = Some outcome ->
  exists r t', handle_server_rport connect_key sid ch (word :: remote :: local :: words) t = (r, t') /\
    said sid (init :: omap (reply_to ch) pre) (t_host t) (t_host t') /\ connect_map (t_host t') = connect_map (t_host t) /\
    match outcome with
    | Ok _ => exists tx, r = Ok (mkRule tx remote) /\
        implements (t_host t') (end_of ch (tell ch (lit "Forwardport result:OK" ++ [13; 10]) told)) /\
        forward_map (t_host t') = <[task := ForwardEntry.mk ch sid connect_key Reverse task None]> (forward_map (t_host t)) /\
        UsbMap.response_channels (usb_map (t_host t')) !! (sid, ch) = Some tx /\
        UsbMap.response_queues (usb_map (t_host t')) !! tx = Some (mkQueue [] true)
    | _ => (exists err, outcome = Err err /\ r = Err err) /\ implements (t_host t') told /\
        forward_map (t_host t') = forward_map (t_host t) /\
        UsbMap.response_channels (usb_map (t_host t')) !! (sid, ch) = None
    end.
Proof.
  intros init told task Hp Hch Hs Hr Hi Hl Hev Hpre Hout. unfold handle_server_rport. rewrite Hp, M_bind_eq. cbn [lift].
  destruct (register_talk sid ch a t Hr Hi) as (tx & t1 & E & Ht & Hs0 & Ec & Ef & Eu & Eq). rewrite (M_bind_Ok _ _ _ _ _ E).
  rewrite Hev in Ht. set (h0 := t_host t1) in *.
  change (mkTaskMessage ch ForwardInit (remote ++ [32] ++ local)) with init.
  set (body := _ ← to_daemon sid init; t ← get; _ ← rport_setup (rx_fuel t) sid ch; forward_ok ch).
  assert (Hb : wp body
    (fun _ t' => outcome = Ok tt /\ in_talk sid h0 (init :: omap (reply_to ch) pre) (end_of ch (tell ch (lit "Forwardport result:OK" ++ [13; 10]) told)) rest (t_fs t) t')
    (fun err t' => outcome = Err err /\ in_talk sid h0 (init :: omap (reply_to ch) pre) told rest (t_fs t) t') t1).
  { unfold body. talk by apply (to_daemon_talk sid h0 _ _ _ _ _ _ Ht) as Ht2. apply wp_bind, wp_get, wp_bind.
    eapply wp_mono; [eapply (rport_setup_talk _ sid ch h0 pre e outcome); [exact Hch|exact Hpre|exact Hout| |exact Ht2]|..].
    - rewrite (talk_fuel _ _ _ _ _ _ _ Ht2), length_app, length_map. lia.
    - intros u t2 [-> Ht3]. unfold forward_ok.
      talk by apply (to_client_talk sid h0 ch _ _ _ _ _ _ (listening_tell_all _ _ _ Hl) Ht3) as Ht4.
      eapply wp_mono; [by apply (end_talk sid h0 ch _ _ _ _ _ Ht4)| |done]. intros u' t5 Ht5. by split.
    - done. }
  rewrite M_bind_eq. unfold wp in Hb. unfold try_. destruct (body t1) as [[[]|err|] t2]; [| |done].
  - destruct Hb as [-> (S2 & _ & I2 & (T1 & T2 & T3 & _) & _)]. eexists _, _. split; [reflexivity|]. cbn [t_host].
    split; [exact (said_trans sid [] _ _ _ _ Hs0 S2)|]. split; [cbn; by rewrite T1, Ec|]. exists tx. split_and!; try done.
    + cbn. by rewrite T3, Ef.
    + cbn. by rewrite T2, Eu, lookup_insert_eq.
    + cbn. by rewrite T2.
  - destruct Hb as [-> (S2 & _ & I2 & (T1 & T2 & T3 & _) & _)]. eexists _, _. split; [reflexivity|]. cbn [t_host].
    split; [exact (said_trans sid [] _ _ _ _ Hs0 S2)|]. split; [cbn; by rewrite T1, Ec|]. split_and!; [by exists err|done|cbn; by rewrite T3, Ef|].
    cbn. by rewrite lookup_delete_eq.
Qed.

(** Every address can be bound and reached. *)
Module OpenNet.
#[export] Instance net : HostNet :=
  { get_forward_listen_ip := lit "127.0.0.1"; host_bind_error _ _ := None; local_connect_error _ := None }.
End OpenNet.
Section RportWitness.
#[local] Existing Instance ToyAead.aead.
#[local] Existing Instance ToyAead.laws.
#[local] Existing Instance SomeOrder.order.
#[local] Existing Instance OpenNet.net.
Definition rport_task : Task :=
  mkTask device_host [RxMsg (mkTaskMessage 5 ForwardCheck (context_payload 9 (lit "tcp:80"))); RxMsg (mkTaskMessage 5 ForwardSuccess [])] ∅.
Lemma rport_rule_protocol_witness : exists tx t',
  handle_server_rport (lit "k") 7 5 (map lit ["rport"; "tcp:8080"; "tcp:80"]%string) rport_task = (Ok (mkRule tx (lit "tcp:8080")), t') /\
  said 7 [mkTaskMessage 5 ForwardInit (lit "tcp:8080 tcp:80"); mkTaskMessage 5 ForwardCheckResult [0; 0; 0; 9; 1]] device_host (t_host t').
Proof.
  destruct (rport_rule_protocol (lit "k") 7 5 80 (lit "rport") (lit "tcp:8080") (lit "tcp:80") []
    [mkTaskMessage 5 ForwardCheck (context_payload 9 (lit "tcp:80"))] (RxMsg (mkTaskMessage 5 ForwardSuccess [])) (Ok tt) [] one_client rport_task)
    as (r & t' & E & S & _ & tx & -> & _).
  - by vm_compute.
  - by vm_compute.
  - by apply (bool_decide_unpack _); vm_compute.
  - apply device_ready.
  - apply client_listens.
  - apply client_listens.
  - done.
  - by repeat constructor.
  - done.
  - exists tx, t'. split; [exact E|exact S].
Defined.
End RportWitness.
