(* ===== verification/HostBridge.v ===== *)
(** * The host server: the connections of a port forwarding rule

    [src/hdc/src/server.rs]: the dispatcher tasks of [handle_server_forward] and
    [handle_server_rport], and [run_forward_bridge] and [run_rport_bridge], which carry the
    bytes of one connection.  A connection has a queue; the map [forward_conns] of the rule
    holds its sender, and the queue is closed when the sender is removed.

    A bridge is a state machine whose steps are interleaved with those of the dispatcher;
    the way its messages reach the daemon is an interface, [Courier], with an instance for
    USB sessions ([fport]) and one for sessions of either kind ([rport]). *)

From S2P Require Import Prelude RustStr Config Tlv Serializer Encrypt Transport HostMaps HostChannels HostTask HostFile HostForward.

(** ** The state of a rule *)

(** [f_conns] are the senders, by the connection's identifier; [f_queues] what the
    receivers have not taken yet. *)
Record Fwd := mkFwd { f_host : Host; f_conns : gmap Z positive; f_queues : gmap positive (list bytes) }.
Definition on_fhost {A} : M Host A -> M Fwd A := zoom f_host (fun h s => mkFwd h (f_conns s) (f_queues s)).
Definition conns_insert (id : Z) (q : positive) : M Fwd unit :=
  modify (fun s => mkFwd (f_host s) (<[id := q]> (f_conns s)) (<[q := []]> (f_queues s))).
Definition conns_remove (id : Z) : M Fwd unit := modify (fun s => mkFwd (f_host s) (delete id (f_conns s)) (f_queues s)).
(** [sender.send(data)], if there is a sender. *)
Definition conns_send (id : Z) (data : bytes) : M Fwd unit := modify (fun s =>
  match f_conns s !! id with
  | Some q => mkFwd (f_host s) (f_conns s) (alter (fun items => items ++ [data]) q (f_queues s))
  | None => s
  end).

(** [conn_rx.recv()]. *)
Inductive Taken := Item (data : bytes) | Closed | Pending.
Definition conn_recv (id : Z) (q : positive) : M Fwd Taken := fun s =>
  match f_queues s !! q with
  | Some (d :: items) => (Ok (Item d), mkFwd (f_host s) (f_conns s) (<[q := items]> (f_queues s)))
  | _ => (Ok (if bool_decide (f_conns s !! id = Some q) then Pending else Closed), s)
  end.

(** ** The dispatchers *)

(** The messages for a connection; only the dispatcher of an [fport] knows the
    activation, which is an empty item. *)
Definition conn_dispatch (activation : bool) (task : TaskMessage) : M Fwd unit :=
  let forward_id := payload_id (payload task) in
  if len (payload task) <? 4 then mret tt
  else
    match command task with
    | ForwardData => conns_send forward_id (drop 4 (payload task))
    | ForwardActiveMaster => if activation then conns_send forward_id [] else mret tt
    | ForwardFreeContext => conns_remove forward_id
    | _ => mret tt
    end.
Definition fport_dispatch (task : TaskMessage) : M Fwd unit := conn_dispatch true task.

Section Rport.
Context {HA : Aead} {HN : HostNet}.
(** The value is the connection that is to be started, with its local node. *)
Definition rport_dispatch (session_id ch : Z) (task : TaskMessage) : M Fwd (option (Z * bytes)) :=
  let forward_id := payload_id (payload task) in
  match command task with
  | ForwardCheck =>
      _ ← match check_reply ch (payload task) with
          | Some m => _ ← try_ (on_fhost (send_to_session session_id (concat_pack m))); mret tt
          | None => mret tt
          end;
      mret None
  | ForwardActiveSlave =>
      if 13 <=? len (payload task)
      then mret (Some (forward_id, trim_end_matches 0 (from_utf8_lossy (drop 12 (payload task)))))
      else mret None
  | ForwardData | ForwardFreeContext => _ ← conn_dispatch false task; mret None
  | _ => mret None
  end.
(** The part of [run_rport_bridge] before its queue: is there a bridge to run? *)
Definition rport_connect (session_id ch forward_id : Z) (local_spec : bytes) : M Fwd bool :=
  match parse_forward_port local_spec with
  | Ok port =>
      match local_connect_error (lit "127.0.0.1:" ++ fmt_dec port) with
      | None => mret true
      | Some _ =>
          _ ← try_ (on_fhost (send_to_session session_id
                (concat_pack (mkTaskMessage ch ForwardFreeContext (to_be_bytes 4 forward_id)))));
          mret false
      end
  | _ => mret false
  end.
End Rport.

(** ** A bridge *)

Inductive Phase := POpen | PWaiting | PRunning (rd wr : bool) | PEnded.
Record Bridge := mkBridge { b_id : Z; b_queue : positive; b_phase : Phase; b_out : Writer }.
Definition set_phase (p : Phase) (b : Bridge) : Bridge := mkBridge (b_id b) (b_queue b) p (b_out b).
Definition set_out (o : Writer) (b : Bridge) : Bridge := mkBridge (b_id b) (b_queue b) (b_phase b) o.
(** A message for the dispatcher; the start; the queue, the time and the local socket are
    polled; both directions have ended. *)
Inductive Event := EDispatch (m : TaskMessage) | EStart | ERecv | EExpire | ERead (d : bytes) | EReadEnd | EJoined.

Definition data_message (ch id : Z) (d : bytes) : TaskMessage := mkTaskMessage ch ForwardData (to_be_bytes 4 id ++ d).
Definition free_message (ch id : Z) : TaskMessage := mkTaskMessage ch ForwardFreeContext (to_be_bytes 4 id).

Section Bridges.
Context {HA : Aead}.
(** How messages are sent, the channel of the rule, and whether it is an [fport] (which
    asks for the remote end and waits for it) with its remote node. *)
Context (send : TaskMessage -> M Host unit) (ch : Z) (fport : option bytes).

Definition first_message (id : Z) : TaskMessage :=
  match fport with
  | Some remote_spec => mkTaskMessage ch ForwardActiveSlave (context_payload id remote_spec)
  | None => mkTaskMessage ch ForwardActiveMaster (to_be_bytes 4 id)
  end.
Definition leave (b : Bridge) : M Fwd Bridge := _ ← conns_remove (b_id b); mret (set_phase PEnded b).

Definition bridge_step (e : Event) (b : Bridge) : M Fwd Bridge :=
  match b_phase b, e with
  | _, EDispatch m => _ ← conn_dispatch (bool_decide (is_Some fport)) m; mret b
  | POpen, EStart =>
      _ ← conns_insert (b_id b) (b_queue b);
      sent ← try_ (on_fhost (send (first_message (b_id b))));
      match sent with
      | Ok _ => mret (set_phase (match fport with Some _ => PWaiting | None => PRunning true true end) b)
      | _ => leave b
      end
  | PWaiting, ERecv =>
      r ← conn_recv (b_id b) (b_queue b);
      match r with
      | Item [] => mret (set_phase (PRunning true true) b)
      | Item _ | Pending => mret b
      | Closed => leave b
      end
  | PWaiting, EExpire => leave b
  | PRunning true wr, ERead d =>
      sent ← try_ (on_fhost (send (data_message ch (b_id b) d)));
      match sent with
      | Ok _ => mret b
      | _ => mret (set_phase (PRunning false wr) b)
      end
  | PRunning true wr, EReadEnd => mret (set_phase (PRunning false wr) b)
  | PRunning rd true, ERecv =>
      r ← conn_recv (b_id b) (b_queue b);
      match r with
      | Item data =>
          if bool_decide (data = []) && bool_decide (is_Some fport) then mret b
          else
            match write_all data (b_out b) with
            | (Ok _, o) => mret (set_out o b)
            | (_, o) => mret (set_phase (PRunning rd false) (set_out o b))
            end
      | Pending => mret b
      | Closed => mret (set_phase (PRunning rd false) b)
      end
  | PRunning false false, EJoined =>
      _ ← conns_remove (b_id b);
      _ ← try_ (on_fhost (send (free_message ch (b_id b))));
      mret (set_phase PEnded b)
  | _, _ => mret b
  end.
Definition bridge_enabled (e : Event) (b : Bridge) : bool :=
  match b_phase b, e with
  | _, EDispatch _ | POpen, EStart | PWaiting, ERecv | PWaiting, EExpire => true
  | PRunning true _, ERead d => match d with [] => false | _ => len d <=? 4096 end
  | PRunning true _, EReadEnd | PRunning _ true, ERecv | PRunning false false, EJoined => true
  | _, _ => false
  end.
Definition bruns := run bridge_enabled bridge_step.
Definition new_bridge (id : Z) (q : positive) : Bridge := mkBridge id q POpen (mkWriter [] None).
End Bridges.

(** The bridges of the two kinds of rule: a connection of an [fport] is sent over USB, one
    of an [rport] over the session's own transport. *)
Definition run_forward_bridge {HA : Aead} (session_id ch : Z) (remote_spec : bytes) : Event -> Bridge -> M Fwd Bridge :=
  bridge_step (fun m => on_usb (UsbMap.send_to_session session_id (concat_pack m))) ch (Some remote_spec).
Definition run_rport_bridge {HA : Aead} (session_id ch : Z) : Event -> Bridge -> M Fwd Bridge :=
  bridge_step (fun m => send_to_session session_id (concat_pack m)) ch None.

(** ** How messages travel *)

Class Courier (send : TaskMessage -> M Host unit) := {
  up : Host -> Prop;
  carried : list TaskMessage -> Host -> Host -> Prop;
  carried_nil h : up h -> carried [] h h;
  carried_app ms1 ms2 h1 h2 h3 : carried ms1 h1 h2 -> carried ms2 h2 h3 -> carried (ms1 ++ ms2) h1 h3;
  courier_sends m h : up h -> sendable m -> exists h', send m h = (Ok tt, h') /\ carried [m] h h' /\ up h'
}.

Section Couriers.
Context {HA : Aead} {HL : AeadLaws HA}.

(** A session of either kind, while its connection is open. *)
#[global] Instance session_courier (sid : Z) : Courier (fun m => send_to_session sid (concat_pack m)).
Proof using HL.
  refine {| up := ready sid; carried := said sid |}.
  - apply said_nil.
  - apply said_trans.
  - intros m h Hr Hm. destruct (send_ready sid m h Hr Hm) as (h' & E & S & R & _). by exists h'.
Defined.

(** A USB session: the queue of its writer. *)
Definition usb_items (sid : Z) (h : Host) : option (list bytes) :=
  tx ← UsbMap.session_senders (usb_map h) !! sid;
  q ← UsbMap.session_queues (usb_map h) !! tx;
  if q_alive q then Some (q_items q) else None.
Definition usb_carried (sid : Z) (ms : list TaskMessage) (h h' : Host) : Prop :=
  exists items, usb_items sid h = Some items /\ usb_items sid h' = Some (items ++ map concat_pack ms).
#[global] Instance usb_courier (sid : Z) : Courier (fun m => on_usb (UsbMap.send_to_session sid (concat_pack m))).
Proof.
  refine {| up := fun h => is_Some (usb_items sid h); carried := usb_carried sid |}.
  - intros h [items E]. exists items. by rewrite app_nil_r.
  - intros ms1 ms2 h1 h2 h3 (i1 & E1 & E2) (i2 & E2' & E3). exists i1. split; [done|]. rewrite E3.
    rewrite E2 in E2'. injection E2' as <-. by rewrite map_app, app_assoc.
  - intros m h [items E] _. unfold on_usb, zoom, UsbMap.send_to_session, usb_carried. pose proof E as E0. unfold usb_items in E.
    destruct (UsbMap.session_senders (usb_map h) !! sid) as [tx|] eqn:Es; [|done]. cbn in E.
    destruct (UsbMap.session_queues (usb_map h) !! tx) as [q|] eqn:Eq; [|done]. cbn in E.
    destruct (q_alive q) eqn:Ea; [|done]. injection E as <-. unfold UsbMap.alive. rewrite Eq, Ea.
    eexists. split; [reflexivity|].
    assert (E1 : usb_items sid (set_usb_map (UsbMap.mk (UsbMap.session_senders (usb_map h)) (UsbMap.response_channels (usb_map h))
      (alter (q_push (concat_pack m)) tx (UsbMap.session_queues (usb_map h))) (UsbMap.response_queues (usb_map h))) h) = Some (q_items q ++ [concat_pack m])).
    { unfold usb_items. cbn. rewrite Es. cbn. rewrite lookup_alter_eq, Eq. cbn. by rewrite Ea. }
    split; [by exists (q_items q)|by eexists].
Defined.
End Couriers.

(** ** What the events of a run say *)

Definition reads (es : list Event) : list bytes := omap (fun e => match e with ERead d => Some d | _ => None end) es.
(** Is the connection registered, and what the dispatcher put in its queue. *)
Definition arrive (id : Z) (activation : bool) (st : bool * list bytes) (e : Event) : bool * list bytes :=
  match e with
  | EStart => (true, [])
  | EDispatch m =>
      if st.1 && negb (len (payload m) <? 4) && (payload_id (payload m) =? id) then
        match command m with
        | ForwardData => (true, st.2 ++ [drop 4 (payload m)])
        | ForwardActiveMaster => if activation then (true, st.2 ++ [[]]) else st
        | ForwardFreeContext => (false, st.2)
        | _ => st
        end
      else st
  | _ => st
  end.
Definition arrivals (id : Z) (activation : bool) (es : list Event) : bool * list bytes := foldl (arrive id activation) (false, []) es.
(** The items behind the activation. *)
Fixpoint after_activation (items : list bytes) : list bytes :=
  match items with [] => [] | d :: t => if bool_decide (d = []) then t else after_activation t end.
Definition bytes_out (activation : bool) (taken : list bytes) : bytes := concat (if activation then after_activation taken else taken).
Definition joined (e : Event) : bool := match e with EJoined => true | _ => false end.
Definition has_joined (es : list Event) : bool := existsb joined es.

Lemma arrivals_snoc id act es e : arrivals id act (es ++ [e]) = arrive id act (arrivals id act es) e.
Proof. unfold arrivals. by rewrite foldl_app. Qed.
Lemma host_reads_snoc es e : reads (es ++ [e]) = reads es ++ match e with ERead d => [d] | _ => [] end.
Proof. unfold reads. rewrite omap_app. by destruct e. Qed.
Lemma has_joined_snoc es e : has_joined (es ++ [e]) = has_joined es || joined e.
Proof. unfold has_joined. rewrite existsb_app. cbn. by rewrite orb_false_r. Qed.
Lemma after_activation_none taken : [] ∉ taken -> after_activation taken = [].
Proof.
  induction taken as [|d t IH]; intros H; [done|]. apply not_elem_of_cons in H as [H1 H2]. cbn.
  rewrite bool_decide_eq_false_2 by congruence. by apply IH.
Qed.
Lemma after_activation_snoc taken d :
  after_activation (taken ++ [d]) = after_activation taken ++ (if bool_decide ([] ∈ taken) then [d] else []).
Proof.
  induction taken as [|x t IH]; cbn [after_activation app]; [by case_bool_decide|].
  destruct (decide (x = [])) as [->|Hx].
  - rewrite !bool_decide_eq_true_2 by (done || by left). done.
  - rewrite !(bool_decide_eq_false_2 (x = [])) by done. rewrite IH. f_equal.
    rewrite (bool_decide_ext ([] ∈ x :: t) ([] ∈ t)); [done|]. rewrite elem_of_cons. split; [by intros [?|?]|by right].
Qed.

Section QueueFacts.
Context (id : Z) (q : positive) (act : bool).

(** Of what arrived, [taken] was taken and the rest is in the queue; only this connection
    uses the queue. *)
Definition queue_inv (st : bool * list bytes) (taken : list bytes) (s : Fwd) : Prop :=
  exists pending, f_queues s !! q = Some pending /\ st.2 = taken ++ pending /\
  (st.1 = true <-> f_conns s !! id = Some q) /\ forall id', f_conns s !! id' = Some q -> id' = id.

(** What a dispatched message does to the tables. *)
Lemma dispatch_frame m s : exists s', conn_dispatch act m s = (Ok tt, s') /\ f_host s' = f_host s /\
  (forall id' q', f_conns s' !! id' = Some q' -> f_conns s !! id' = Some q').
Proof.
  unfold conn_dispatch. destruct (len (payload m) <? 4); [by exists s|].
  destruct (command m); try (by exists s).
  - destruct act; [|by exists s]. eexists. split; [reflexivity|]. by destruct (f_conns s !! _).
  - eexists. split; [reflexivity|]. by destruct (f_conns s !! _).
  - eexists. split; [reflexivity|]. split; [done|]. intros id' q'. cbn. by intros [_ ?]%lookup_delete_Some.
Qed.
Lemma dispatch_queue m st taken s s' :
  queue_inv st taken s -> conn_dispatch act m s = (Ok tt, s') -> queue_inv (arrive id act st (EDispatch m)) taken s'.
Proof.
  intros (pending & Hq & Hi & Hr & Hu) E. destruct st as [reg items]. cbn [fst snd] in *. subst items.
  assert (Hsend : forall d, queue_inv (reg, taken ++ pending ++ (if reg && (payload_id (payload m) =? id) then [d] else [])) taken
    (conns_send (payload_id (payload m)) d s).2).
  { intros d. unfold conns_send, modify. cbn [snd].
    destruct (f_conns s !! payload_id (payload m)) as [q'|] eqn:Ec.
    - destruct (decide (q' = q)) as [->|Hq'].
      + pose proof (Hu _ Ec) as Hid. rewrite Hid in Ec |- *. rewrite (proj2 Hr Ec), Z.eqb_refl. cbn [andb].
        exists (pending ++ [d]). cbn. rewrite lookup_alter_eq, Hq. by split_and!.
      + assert (reg && (payload_id (payload m) =? id) = false) as ->.
        { destruct reg; [|done]. cbn. apply Z.eqb_neq. intros Hid. rewrite Hid in Ec. pose proof (proj1 Hr eq_refl). congruence. }
        rewrite app_nil_r. exists pending. cbn. by rewrite lookup_alter_ne.
    - assert (reg && (payload_id (payload m) =? id) = false) as ->.
      { destruct reg; [|done]. cbn. apply Z.eqb_neq. intros Hid. rewrite Hid in Ec. pose proof (proj1 Hr eq_refl). congruence. }
      rewrite app_nil_r. by exists pending. }
  unfold conn_dispatch in E. cbn [arrive fst snd]. destruct (len (payload m) <? 4); [injection E as <-; rewrite andb_false_r; by exists pending|].
  cbn [negb]. rewrite andb_true_r.
  assert (Hsame : s' = s -> queue_inv (reg, taken ++ pending) taken s') by (intros ->; by exists pending).
  destruct (command m) eqn:Ecmd; try (injection E as <-; destruct (reg && _); by apply Hsame).
  - destruct act; [|injection E as <-; destruct (reg && _); by apply Hsame].
    assert (s' = (conns_send (payload_id (payload m)) [] s).2) as -> by (by injection E as <-).
    specialize (Hsend []). destruct (reg && _) eqn:Er; [|by rewrite app_nil_r in Hsend]. rewrite <- app_assoc. by destruct reg.
  - assert (s' = (conns_send (payload_id (payload m)) (drop 4 (payload m)) s).2) as -> by (by injection E as <-).
    specialize (Hsend (drop 4 (payload m))). destruct (reg && _) eqn:Er; [|by rewrite app_nil_r in Hsend]. rewrite <- app_assoc. by destruct reg.
  - injection E as <-. destruct (decide (payload_id (payload m) = id)) as [->|Hne].
    + rewrite Z.eqb_refl, andb_true_r. assert (Hq2 : queue_inv (false, taken ++ pending) taken (mkFwd (f_host s) (delete id (f_conns s)) (f_queues s))).
      { exists pending. cbn. split_and!; [done|done|by rewrite lookup_delete_eq|]. intros id' [_ H]%lookup_delete_Some. by apply Hu. }
      by destruct reg.
    + rewrite (proj2 (Z.eqb_neq _ _) Hne), andb_false_r. exists pending. cbn. split_and!; [done|done|by rewrite lookup_delete_ne|].
      intros id' [_ H]%lookup_delete_Some. by apply Hu.
Qed.
(** What taking an item does. *)
Lemma conn_recv_queue st taken s :
  queue_inv st taken s -> exists r s', conn_recv id q s = (Ok r, s') /\ f_host s' = f_host s /\ f_conns s' = f_conns s /\
  match r with
  | Item d => queue_inv st (taken ++ [d]) s'
  | Closed => st.1 = false /\ st.2 = taken /\ s' = s
  | Pending => s' = s
  end.
Proof.
  intros (pending & Hq & Hi & Hr & Hu). unfold conn_recv. rewrite Hq. destruct pending as [|d pending].
  - eexists _, s. split; [reflexivity|]. split_and!; [done..|]. case_bool_decide as Hc; [done|]. split_and!; [|by rewrite app_nil_r in Hi|done].
    destruct st as [[] items]; [|done]. by destruct (Hc (proj1 Hr eq_refl)).
  - eexists _, _. split; [reflexivity|]. split_and!; [done..|]. exists pending. cbn. rewrite lookup_insert_eq, <- app_assoc. by split_and!.
Qed.
End QueueFacts.

(** ** The runs of a bridge *)

Section BridgeFacts.
Context {HA : Aead} {send : TaskMessage -> M Host unit} {HC : Courier send}.
Context (ch : Z) (fport : option bytes) (id : Z) (q : positive).
Hypothesis Hch : u32 ch.
Hypothesis Hspec : match fport with Some spec => bytes_ok spec /\ len spec <= 2 ^ 20 | None => True end.

Abbreviation act := (bool_decide (is_Some fport)).
(** The messages for the daemon. *)
Definition bridge_said (p : Phase) (es : list Event) : list TaskMessage :=
  (match p with POpen => [] | _ => [first_message ch fport id] end) ++ map (data_message ch id) (reads es) ++
  (if has_joined es then [free_message ch id] else []).

(** What holds in each phase; [taken] are the items taken from the queue. *)
Definition phase_inv (p : Phase) (es : list Event) (taken : list bytes) (s : Fwd) : Prop :=
  let st := arrivals id act es in
  match p with
  | POpen => st = (false, []) /\ taken = [] /\ reads es = [] /\ has_joined es = false /\ forall id', f_conns s !! id' <> Some q
  | PWaiting => queue_inv id q st taken s /\ ([] ∉ taken) /\ is_Some fport /\ reads es = [] /\ has_joined es = false
  | PRunning rd wr => queue_inv id q st taken s /\ (is_Some fport -> [] ∈ taken) /\ has_joined es = false /\
      (wr = false -> st.1 = false /\ taken = st.2)
  | PEnded => f_conns s !! id = None /\ taken `prefix_of` st.2 /\ (reads es <> [] -> is_Some fport -> [] ∈ taken) /\
      (has_joined es = true -> st.1 = false /\ taken = st.2)
  end.
Definition bridge_inv (s0 : Fwd) (es : list Event) (b : Bridge) (s : Fwd) : Prop :=
  b_id b = id /\ b_queue b = q /\ up (f_host s) /\ carried (bridge_said (b_phase b) es) (f_host s0) (f_host s) /\
  exists taken, b_out b = mkWriter (bytes_out act taken) None /\ phase_inv (b_phase b) es taken s.

Lemma context_payload_ok ctx spec : bytes_ok spec -> bytes_ok (context_payload ctx spec).
Proof. intros H. unfold context_payload. rewrite !bytes_ok_app. split_and!; [apply to_be_bytes_ok|by repeat constructor|done|by repeat constructor]. Qed.
Lemma first_sendable : sendable (first_message ch fport id).
Proof using Hch Hspec.
  unfold first_message. destruct fport as [spec|]; apply small_sendable; try done.
  - by apply context_payload_ok, Hspec.
  - unfold context_payload. rewrite !len_app, len_to_be_bytes. change (len (replicate 8 0)) with 8. change (len [0]) with 1. destruct Hspec. lia.
  - apply to_be_bytes_ok.
Qed.
Lemma host_data_sendable d : bytes_ok d -> len d <= 4096 -> sendable (data_message ch id d).
Proof using Hch.
  intros Hd Hl. apply small_sendable; [done| |].
  - apply bytes_ok_app. split; [apply to_be_bytes_ok|done].
  - rewrite len_app, len_to_be_bytes. lia.
Qed.
Lemma host_free_sendable : sendable (free_message ch id).
Proof using Hch. apply small_sendable; [done|apply to_be_bytes_ok|by rewrite len_to_be_bytes]. Qed.

Lemma fsend m s : up (f_host s) -> sendable m -> exists h',
  try_ (on_fhost (send m)) s = (Ok (Ok tt), mkFwd h' (f_conns s) (f_queues s)) /\ carried [m] (f_host s) h' /\ up h'.
Proof.
  intros Hu Hm. destruct (courier_sends m (f_host s) Hu Hm) as (h' & E & Hc & Hu'). exists h'.
  unfold try_, on_fhost, zoom. by rewrite E.
Qed.

(** A step that says nothing. *)
Lemma quiet_step s0 es b s e p taken o s' :
  bridge_inv s0 es b s -> f_host s' = f_host s -> b_phase b <> POpen -> p <> POpen ->
  (match e with ERead _ | EJoined => False | _ => True end) -> o = mkWriter (bytes_out act taken) None ->
  phase_inv p (es ++ [e]) taken s' -> bridge_inv s0 (es ++ [e]) (mkBridge id q p o) s'.
Proof.
  intros (_ & _ & Hu & Hc & _) Eh Hb Hp He -> Hph. split_and!; [done..|by rewrite Eh| |by exists taken]. cbn [b_phase]. rewrite Eh.
  replace (bridge_said p (es ++ [e])) with (bridge_said (b_phase b) es); [done|]. unfold bridge_said.
  rewrite host_reads_snoc, has_joined_snoc. destruct e; try done; cbn [joined]; rewrite orb_false_r, app_nil_r; by destruct p, (b_phase b).
Qed.
Lemma arrivals_same es e : match e with EDispatch _ | EStart => False | _ => True end -> arrivals id act (es ++ [e]) = arrivals id act es.
Proof. rewrite arrivals_snoc. by destruct e. Qed.

Lemma queue_leave st taken s : queue_inv id q st taken s -> taken `prefix_of` st.2.
Proof. intros (pending & _ & -> & _). by exists pending. Qed.

(** A message for the dispatcher, in any phase. *)
Lemma dispatch_inv s0 es b s m b' s' :
  bridge_inv s0 es b s -> bridge_step send ch fport (EDispatch m) b s = (Ok b', s') -> bridge_inv s0 (es ++ [EDispatch m]) b' s'.
Proof.
  intros (Hid & Hq & Hu & Hc & taken & Ho & Hph) Est. destruct (dispatch_frame act m s) as (s1 & E & Eh & Hf).
  assert (b' = b /\ s' = s1) as [-> ->].
  { assert (Est' : (_ ← conn_dispatch act m; mret b) s = (Ok b', s')) by (unfold bridge_step in Est; by destruct (b_phase b) as [| |[] []|]).
    rewrite (M_bind_Ok _ _ _ _ _ E) in Est'. by injection Est' as <- <-. }
  split_and!; [done..|by rewrite Eh| |].
  - rewrite Eh. unfold bridge_said. by rewrite host_reads_snoc, has_joined_snoc, orb_false_r, app_nil_r.
  - exists taken. split; [done|]. unfold phase_inv in *. rewrite arrivals_snoc, host_reads_snoc, has_joined_snoc, orb_false_r, app_nil_r.
    destruct (b_phase b) as [| |rd wr|].
    + destruct Hph as (E1 & -> & E2 & E3 & E4). rewrite E1. split_and!; [done..|]. intros id' H. by apply (E4 id'), Hf.
    + destruct Hph as (H1 & H2 & H3 & H4 & H5). split_and!; [by eapply dispatch_queue|done..].
    + destruct Hph as (H1 & H2 & H3 & H4). split_and!; [by eapply dispatch_queue|done..|].
      intros ->. destruct (H4 eq_refl) as [E1 E2]. cbn [arrive]. by rewrite E1.
    + destruct Hph as (H1 & H2 & H3 & H4). split_and!; [|etransitivity; [exact H2|]|done|].
      * apply eq_None_not_Some. intros [q' H']. apply Hf in H'. congruence.
      * cbn [arrive]. repeat case_match; try done; by apply prefix_app_r.
      * intros Hj. destruct (H4 Hj) as [E1 E2]. cbn [arrive]. by rewrite E1.
Qed.

(** The end of a bridge that was never activated. *)
Lemma leave_inv s0 es s e taken s' :
  bridge_inv s0 es (mkBridge id q PWaiting (mkWriter (bytes_out act taken) None)) s ->
  phase_inv PWaiting es taken s -> match e with ERecv | EExpire => True | _ => False end ->
  f_host s' = f_host s -> f_conns s' = delete id (f_conns s) ->
  bridge_inv s0 (es ++ [e]) (mkBridge id q PEnded (mkWriter (bytes_out act taken) None)) s'.
Proof.
  intros Hi (H1 & H2 & H3 & H4 & H5) He Eh Ec. eapply (quiet_step _ _ _ _ _ _ taken); [exact Hi|done..|by destruct e|done|].
  unfold phase_inv. rewrite arrivals_same, host_reads_snoc, has_joined_snoc, Ec by (by destruct e). rewrite H4, H5.
  split_and!; [apply lookup_delete_eq|by apply queue_leave in H1|by destruct e|by destruct e].
Qed.

Lemma waiting_inv s0 es b s e b' s' :
  b_phase b = PWaiting -> match e with ERecv | EExpire => True | _ => False end ->
  bridge_inv s0 es b s -> bridge_step send ch fport e b s = (Ok b', s') -> bridge_inv s0 (es ++ [e]) b' s'.
Proof using Hspec.
  intros Hp He Hi Est. pose proof Hi as (Hid & Hq & Hu & Hc & taken & Ho & Hph).
  destruct b as [bid bq p out]. cbn [b_id b_queue b_phase b_out] in *. subst bid bq out p. pose proof Hph as (H1 & H2 & H3 & H4 & H5).
  unfold bridge_step in Est. cbn [b_phase b_id b_queue] in Est. destruct e; try done.
  - destruct (conn_recv_queue id q _ taken s H1) as (r & s1 & E & Eh & Ec & Hr). rewrite (M_bind_Ok _ _ _ _ _ E) in Est.
    destruct r as [d| |]; [|..].
    + assert (Hout : bytes_out act taken = [] /\ bytes_out act (taken ++ [d]) = []).
      { unfold bytes_out. rewrite bool_decide_eq_true_2 by done. rewrite after_activation_snoc, after_activation_none, bool_decide_eq_false_2 by done.
        done. }
      destruct Hout as [Ho1 Ho2]. destruct d as [|x d]; injection Est as <- <-.
      * eapply (quiet_step _ _ _ _ _ _ (taken ++ [[]])); [exact Hi|done..|by rewrite Ho1, Ho2|].
        unfold phase_inv. rewrite arrivals_same, has_joined_snoc by done. split_and!; [done| |by rewrite H5|done].
        intros _. apply elem_of_app. right. by left.
      * eapply (quiet_step _ _ _ _ _ _ (taken ++ [x :: d])); [exact Hi|done..|by rewrite Ho1, Ho2|].
        unfold phase_inv. rewrite arrivals_same, host_reads_snoc, has_joined_snoc, H4, H5 by done. split_and!; [done| |done..].
        rewrite not_elem_of_app, list_elem_of_singleton. done.
    + destruct Hr as (_ & _ & ->). unfold leave in Est. rewrite M_bind_eq in Est. cbn in Est. injection Est as <- <-. by apply (leave_inv s0 es s).
    + subst s1. injection Est as <- <-. eapply (quiet_step _ _ _ _ _ _ taken); [exact Hi|done..|].
      unfold phase_inv. rewrite arrivals_same, host_reads_snoc, has_joined_snoc, H4, H5 by done. by split_and!.
  - unfold leave in Est. rewrite M_bind_eq in Est. cbn in Est. injection Est as <- <-. by apply (leave_inv s0 es s).
Qed.

(** One more item for the local socket. *)
Lemma bytes_out_snoc taken d :
  (is_Some fport -> [] ∈ taken) -> bytes_out act (taken ++ [d]) = bytes_out act taken ++ d.
Proof.
  intros H. unfold bytes_out. case_bool_decide as Hf.
  - rewrite after_activation_snoc, bool_decide_eq_true_2, concat_app by (by apply H). cbn. by rewrite app_nil_r.
  - rewrite concat_app. cbn. by rewrite app_nil_r.
Qed.

Lemma running_recv_inv s0 es b s rd b' s' :
  b_phase b = PRunning rd true -> bridge_inv s0 es b s ->
  bridge_step send ch fport ERecv b s = (Ok b', s') -> bridge_inv s0 (es ++ [ERecv]) b' s'.
Proof.
  intros Hp Hi Est. pose proof Hi as (Hid & Hq & Hu & Hc & taken & Ho & Hph).
  destruct b as [bid bq p out]. cbn [b_id b_queue b_phase b_out] in *. subst bid bq out p. destruct Hph as (H1 & H2 & H3 & H4).
  assert (Est' : (r ← conn_recv id q;
    match r with
    | Item data => if bool_decide (data = []) && act then mret (mkBridge id q (PRunning rd true) (mkWriter (bytes_out act taken) None))
        else mret (mkBridge id q (PRunning rd true) (mkWriter (bytes_out act taken ++ data) None))
    | Pending => mret (mkBridge id q (PRunning rd true) (mkWriter (bytes_out act taken) None))
    | Closed => mret (mkBridge id q (PRunning rd false) (mkWriter (bytes_out act taken) None))
    end) s = (Ok b', s')) by (unfold bridge_step in Est; by destruct rd).
  clear Est. destruct (conn_recv_queue id q _ taken s H1) as (r & s1 & E & Eh & Ec & Hr). rewrite (M_bind_Ok _ _ _ _ _ E) in Est'.
  assert (Hin : forall tk, taken `prefix_of` tk -> is_Some fport -> [] ∈ tk).
  { intros tk [k ->] Hs. apply elem_of_app. left. by apply H2. }
  destruct r as [d| |].
  - assert (Est : Ok b' = Ok (mkBridge id q (PRunning rd true) (mkWriter (bytes_out act taken ++ d) None)) /\ s' = s1).
    { destruct (bool_decide (d = []) && act) eqn:Eb; injection Est' as <- <-; [|done].
      apply andb_prop in Eb as [Eb _]. apply bool_decide_eq_true in Eb as ->. by rewrite app_nil_r. }
    destruct Est as [[= ->] ->]. eapply (quiet_step _ _ _ _ _ _ (taken ++ [d])); [exact Hi|done..|by rewrite bytes_out_snoc|].
    unfold phase_inv. rewrite arrivals_same, has_joined_snoc, H3 by done. split_and!; [done|apply Hin; by exists [d]|done..].
  - destruct Hr as (E1 & E2 & ->). injection Est' as <- <-. eapply (quiet_step _ _ _ _ _ _ taken); [exact Hi|done..|].
    unfold phase_inv. rewrite arrivals_same, has_joined_snoc, H3 by done. by split_and!.
  - subst s1. injection Est' as <- <-. eapply (quiet_step _ _ _ _ _ _ taken); [exact Hi|done..|].
    unfold phase_inv. rewrite arrivals_same, has_joined_snoc, H3 by done. by split_and!.
Qed.

Lemma start_inv s0 es b s b' s' :
  b_phase b = POpen -> bridge_inv s0 es b s ->
  bridge_step send ch fport EStart b s = (Ok b', s') -> bridge_inv s0 (es ++ [EStart]) b' s'.
Proof using Hch Hspec HC.
  intros Ep (Hid & Hq & Hu & Hc & taken & Ho & Hph) Est. unfold bridge_step in Est. rewrite Ep in Est.
  destruct b as [bid bq p out]. cbn [b_id b_queue b_phase b_out] in *. subst bid bq p out. destruct Hph as (E1 & -> & E2 & E3 & E4).
  rewrite M_bind_eq in Est. cbn [conns_insert modify] in Est.
  match type of Est with (_ ≫= _) ?s1 = _ => destruct (fsend (first_message ch fport id) s1 Hu first_sendable) as (h' & E & Hc1 & Hu1) end.
  rewrite (M_bind_Ok _ _ _ _ _ E) in Est. injection Est as <- <-. cbn [f_host f_conns f_queues] in *.
  split_and!; [done..| |].
  - cbn [b_phase set_phase]. unfold bridge_said in *. rewrite E2, E3 in Hc. rewrite host_reads_snoc, has_joined_snoc, E2, E3.
    pose proof (carried_app _ _ _ _ _ Hc Hc1) as Hx. by destruct fport.
  - exists []. split; [done|]. cbn [b_phase set_phase].
    assert (Hqi : queue_inv id q (arrivals id act (es ++ [EStart])) [] (mkFwd h' (<[id:=q]> (f_conns s)) (<[q:=[]]> (f_queues s)))).
    { exists []. cbn [f_queues f_conns]. rewrite arrivals_snoc, !lookup_insert_eq. split_and!; [done..|].
      intros id' [[<- _]|[_ H]]%lookup_insert_Some; [done|]. by destruct (E4 id'). }
    unfold phase_inv. destruct fport; rewrite ?host_reads_snoc, ?has_joined_snoc, ?E2, ?E3; cbn [joined orb].
    + split_and!; [done|apply not_elem_of_nil|done..].
    + split_and!; [done|by intros []|done|done].
Qed.
(** What was said grows by a last message. *)
Lemma said_more p es e (m : TaskMessage) h0 h h' :
  has_joined es = false -> p <> POpen -> carried (bridge_said p es) h0 h -> carried [m] h h' ->
  match e with ERead d => m = data_message ch id d | EJoined => m = free_message ch id | _ => False end ->
  forall p', p' <> POpen -> carried (bridge_said p' (es ++ [e])) h0 h'.
Proof.
  intros Hj Hp Hc Hm He p' Hp'. pose proof (carried_app _ _ _ _ _ Hc Hm) as Hx.
  replace (bridge_said p' (es ++ [e])) with (bridge_said p es ++ [m]); [done|]. unfold bridge_said. rewrite host_reads_snoc, has_joined_snoc, Hj.
  destruct e; try done; subst m; cbn [orb joined]; rewrite ?map_app, !app_nil_r, <- ?app_assoc; by destruct p, p'.
Qed.
Lemma read_inv s0 es b s wr d b' s' :
  b_phase b = PRunning true wr -> bytes_ok d -> len d <= 4096 -> bridge_inv s0 es b s ->
  bridge_step send ch fport (ERead d) b s = (Ok b', s') -> bridge_inv s0 (es ++ [ERead d]) b' s'.
Proof using Hch HC.
  intros Ep Hd Hl (Hid & Hq & Hu & Hc & taken & Ho & Hph) Est. unfold bridge_step in Est. rewrite Ep in Est.
  destruct b as [bid bq p out]. cbn [b_id b_queue b_phase b_out] in *. subst bid bq p out. destruct Hph as (H1 & H2 & H3 & H4).
  destruct (fsend (data_message ch id d) s Hu (host_data_sendable d Hd Hl)) as (h' & E & Hc1 & Hu1).
  assert (Est' : b' = mkBridge id q (PRunning true wr) (mkWriter (bytes_out act taken) None) /\ s' = mkFwd h' (f_conns s) (f_queues s))
    by (destruct wr; rewrite (M_bind_Ok _ _ _ _ _ E) in Est; by injection Est as <- <-).
  destruct Est' as [-> ->].
  split_and!; [done..|by apply (said_more (PRunning true wr) es (ERead d) _ _ _ _ H3 ltac:(done) Hc Hc1)|].
  exists taken. split; [done|]. cbn [b_phase]. unfold phase_inv. rewrite arrivals_same, has_joined_snoc, H3 by done. by split_and!.
Qed.
Lemma read_end_inv s0 es b s wr b' s' :
  b_phase b = PRunning true wr -> bridge_inv s0 es b s ->
  bridge_step send ch fport EReadEnd b s = (Ok b', s') -> bridge_inv s0 (es ++ [EReadEnd]) b' s'.
Proof.
  intros Ep Hi Est. pose proof Hi as (Hid & Hq & Hu & Hc & taken & Ho & Hph). unfold bridge_step in Est. rewrite Ep in Est.
  destruct b as [bid bq p out]. cbn [b_id b_queue b_phase b_out] in *. subst bid bq p out. destruct Hph as (H1 & H2 & H3 & H4).
  assert (Est' : b' = mkBridge id q (PRunning false wr) (mkWriter (bytes_out act taken) None) /\ s' = s)
    by (destruct wr; by injection Est as <- <-).
  destruct Est' as [-> ->]. eapply (quiet_step _ _ _ _ _ _ taken); [exact Hi|done..|].
  unfold phase_inv. rewrite arrivals_same, has_joined_snoc, H3 by done. by split_and!.
Qed.
Lemma join_inv s0 es b s b' s' :
  b_phase b = PRunning false false -> bridge_inv s0 es b s ->
  bridge_step send ch fport EJoined b s = (Ok b', s') -> bridge_inv s0 (es ++ [EJoined]) b' s'.
Proof using Hch HC.
  intros Ep (Hid & Hq & Hu & Hc & taken & Ho & Hph) Est. unfold bridge_step in Est. rewrite Ep in Est.
  destruct b as [bid bq p out]. cbn [b_id b_queue b_phase b_out] in *. subst bid bq p out. destruct Hph as (H1 & H2 & H3 & H4).
  rewrite M_bind_eq in Est. cbn [conns_remove modify] in Est.
  match type of Est with (_ ≫= _) ?s1 = _ => destruct (fsend (free_message ch id) s1 Hu host_free_sendable) as (h' & E & Hc1 & Hu1) end.
  rewrite (M_bind_Ok _ _ _ _ _ E) in Est. injection Est as <- <-. cbn [f_host f_conns f_queues] in *. 
  split_and!; [done..|by apply (said_more (PRunning false false) es EJoined _ _ _ _ H3 ltac:(done) Hc Hc1)|].
  exists taken. split; [done|]. cbn [b_phase set_phase]. unfold phase_inv. rewrite arrivals_same by done. cbn [f_conns].
  split_and!; [apply lookup_delete_eq|by apply queue_leave in H1|by intros _|]. intros _. by apply H4.
Qed.

Lemma host_bridge_step_inv s0 es b s e b' s' :
  match e with ERead d => bytes_ok d | _ => True end ->
  bridge_inv s0 es b s -> bridge_enabled e b = true -> bridge_step send ch fport e b s = (Ok b', s') -> bridge_inv s0 (es ++ [e]) b' s'.
Proof using Hch Hspec HC.
  intros He Hi Hen Est. destruct e as [m| | | |d| |]; [by eapply dispatch_inv|..];
    destruct (b_phase b) as [| |rd wr|] eqn:Ep; unfold bridge_enabled in Hen; rewrite Ep in Hen; try done.
  - by eapply start_inv.
  - by destruct rd, wr.
  - by eapply (waiting_inv s0 es b s).
  - assert (wr = true) as -> by (by destruct rd, wr). by eapply (running_recv_inv s0 es b s rd).
  - by eapply (waiting_inv s0 es b s).
  - by destruct rd, wr.
  - assert (rd = true) as -> by (by destruct rd, wr). eapply (read_inv s0 es b s wr); try done.
    destruct d, wr; try done; by apply Z.leb_le in Hen.
  - assert (rd = true) as -> by (by destruct rd, wr). by eapply (read_end_inv s0 es b s wr).
  - assert (rd = false /\ wr = false) as [-> ->] by (by destruct rd, wr). by eapply (join_inv s0 es b s).
Qed.
End BridgeFacts.

(** C10: a connection of a rule, [fport] or [rport], in every run interleaved with the
    dispatcher, on a session that is up.  The messages for the daemon are the first one,
    one for each read of the local socket in order and with the connection's identifier,
    and the one that frees the context, once both directions have ended.  The local socket
    gets exactly what the dispatcher put in the queue: for an [fport] what came behind the
    activation, and it is not read before that.  A connection that has ended is not
    registered; and the context is freed only after the daemon freed it, with everything
    that arrived written. *)
Theorem forward_bridge_runs {HA : Aead} {send : TaskMessage -> M Host unit} {HC : Courier send}
    (ch : Z) (fport : option bytes) (id : Z) (q : positive) (s0 : Fwd) (es : list Event) (b : Bridge) (s : Fwd) :
  u32 ch -> match fport with Some spec => bytes_ok spec /\ len spec <= 2 ^ 20 | None => True end ->
  Forall (fun e => match e with ERead d => bytes_ok d | _ => True end) es ->
  up (f_host s0) -> (forall id', f_conns s0 !! id' <> Some q) ->
  bruns send ch fport (new_bridge id q) s0 es b s ->
  let '(registered, arrived) := arrivals id (bool_decide (is_Some fport)) es in
  carried (bridge_said ch fport id (b_phase b) es) (f_host s0) (f_host s) /\
  exists taken, taken `prefix_of` arrived /\ w_out (b_out b) = bytes_out (bool_decide (is_Some fport)) taken /\
    (reads es <> [] -> is_Some fport -> [] ∈ taken) /\
    (b_phase b = PEnded -> f_conns s !! id = None /\ forall e, bridge_enabled e b = true -> exists m, e = EDispatch m) /\
    (has_joined es = true -> registered = false /\ taken = arrived).
Proof.
  intros Hch Hspec Hes Hu Hq Hrun.
  assert (Hi : bridge_inv ch fport id q s0 es b s).
  { induction Hrun as [|es b s e b' s' Hrun IH Hen Est].
    - split_and!; [done..|by apply carried_nil|]. exists []. split; [by unfold bytes_out; destruct (bool_decide _)|]. by split_and!.
    - apply Forall_app in Hes as [Hes He]. apply Forall_cons in He as [He _]. by eapply host_bridge_step_inv; [..|apply IH| |]. }
  destruct Hi as (_ & _ & _ & Hc & taken & Ho & Hph). destruct (arrivals id _ es) as [registered arrived] eqn:Ea.
  split; [done|]. exists taken. rewrite Ho. unfold phase_inv in Hph. rewrite Ea in Hph.
  assert (Hend : b_phase b = PEnded -> forall e, bridge_enabled e b = true -> exists m, e = EDispatch m).
  { intros Ep e. unfold bridge_enabled. rewrite Ep. destruct e; try done. by eexists. }
  destruct (b_phase b) as [| |rd wr|].
  - destruct Hph as ([= -> ->] & -> & E2 & E3 & _). rewrite E2, E3. by split_and!.
  - destruct Hph as (H1 & H2 & H3 & H4 & H5). rewrite H4, H5. split_and!; try done. by apply queue_leave in H1.
  - destruct Hph as (H1 & H2 & H3 & H4). rewrite H3. split_and!; try done. by apply queue_leave in H1.
  - destruct Hph as (H1 & H2 & H3 & H4). split_and!; try done. intros _. split; [done|]. by apply Hend.
Qed.

(** ** [fport] to a device on a TCP session *)

Section FportFacts.
Context {HA : Aead} {HL : AeadLaws HA} {HI : HashIter} {HN : HostNet}.

(** More entries in the tables of the queues do not disturb a conversation. *)
Lemma rebase sid h0 a evs fs t um :
  in_talk sid h0 [] a evs fs t ->
  in_talk sid (set_usb_map um (t_host t)) [] a evs fs (mkTask (set_usb_map um (t_host t)) (t_rx t) (t_fs t)).
Proof. intros (Hs & Hr & Hi & Ht & Ee & Ef). split_and!; try done. exact (said_nil sid (t_host t) Hr). Qed.

Lemma context_sendable ch ctx cmd spec : u32 ch -> bytes_ok spec -> len spec <= 2 ^ 20 -> sendable (mkTaskMessage ch cmd (context_payload ctx spec)).
Proof.
  intros Hch Hs Hl. apply small_sendable; [done|by apply context_payload_ok|]. unfold context_payload.
  rewrite !len_app, len_to_be_bytes. change (len (replicate 8 0)) with 8. change (len [0]) with 1. lia.
Qed.
Lemma payload_id_to ctx rest : u32 ctx -> payload_id (to_be_bytes 4 ctx ++ rest) = ctx.
Proof.
  intros H. unfold payload_id. rewrite take_app_length' by (by rewrite length_to_be_bytes). by apply from_to_be_bytes_id.
Qed.

Lemma check_flow_ok sid ch port ctx tx remote k rest a h0 fs t :
  is_debug remote = false -> host_bind_error 0 (get_forward_listen_ip ++ [58] ++ fmt_dec port) = None ->
  u32 ch -> u32 ctx -> bytes_ok remote -> len remote <= 2 ^ 20 -> listening ch a ->
  in_talk sid h0 [] a (RxMsg (mkTaskMessage k ForwardCheckResult (to_be_bytes 4 ctx ++ [1])) :: rest) fs t ->
  exists t', check_flow sid ch port ctx tx remote t = (Ok (ctx, remote), t') /\
    said sid [mkTaskMessage ch ForwardCheck (context_payload ctx remote)] (t_host t) (t_host t') /\
    implements (t_host t') (end_of ch (tell ch (lit "Forwardport result:OK" ++ [13; 10]) a)) /\
    forward_map (t_host t') = forward_map (t_host t) /\
    UsbMap.session_senders (usb_map (t_host t')) = UsbMap.session_senders (usb_map (t_host t)).
Proof.
  intros Hd Hb Hch Hctx Hr Hl Hlis Ht. unfold check_flow. rewrite Hd. unfold bind. rewrite Hb. rewrite M_bind_eq. cbn [mret M_ret].
  rewrite M_bind_eq. cbn [on_host on_usb zoom UsbMap.register_response_channel modify].
  set (um := UsbMap.set_response_channels _ _). set (t1 := mkTask _ _ _).
  pose proof (rebase sid h0 a _ fs t um Ht) as Ht1. change (in_talk sid (t_host t1) [] a
    (RxMsg (mkTaskMessage k ForwardCheckResult (to_be_bytes 4 ctx ++ [1])) :: rest) fs t1) in Ht1.
  assert (H : wp (_ ← to_daemon sid (mkTaskMessage ch ForwardCheck (context_payload ctx remote)); t ← get; ok ← await_check_result (rx_fuel t) ctx;
      if negb ok then throw ConnectionRefused "Daemon rejected ForwardCheck" else _ ← forward_ok ch; mret (ctx, remote))
    (fun r t' => r = (ctx, remote) /\ in_talk sid (t_host t1) [mkTaskMessage ch ForwardCheck (context_payload ctx remote)]
       (end_of ch (tell ch (lit "Forwardport result:OK" ++ [13; 10]) a)) rest fs t') no_error t1).
  { talk (by apply (to_daemon_talk sid (t_host t1) _ _ _ _ _ _ Ht1), context_sendable) as Ht2. apply wp_bind, wp_get, wp_bind.
    unfold rx_fuel at 1. cbn [await_check_result]. apply wp_bind. eapply rx_recv_talk; [exact Ht2|]. intros t3 Ht3; cbv beta iota. cbn [command payload].
    rewrite payload_id_to, Z.eqb_refl by done. rewrite len_app, len_to_be_bytes. change (5 <=? Z.of_nat 4 + len [1]) with true. cbn [andb].
    apply wp_ret. change (nth_byte 4 (to_be_bytes 4 ctx ++ [1])) with 1. change (negb (negb (1 =? 0))) with false. cbn iota. unfold forward_ok. apply wp_bind.
    talk by apply (to_client_talk sid (t_host t1) ch _ _ _ _ _ _ Hlis Ht3) as Ht4.
    eapply wp_mono; [by apply (end_talk sid (t_host t1) ch _ _ _ _ _ Ht4)| |done]. intros u t5 Ht5. by apply wp_ret. }
  unfold wp in H. destruct ((_ ← to_daemon _ _; _) t1) as [[r|e|] t']; [|done..]. destruct H as (-> & S & _ & I & (_ & T2 & T3 & _) & _).
  exists t'. split_and!; [done|done|done|by rewrite T3|by rewrite T2].
Qed.
End FportFacts.

(** [fport] to a device that is connected over TCP: the daemon accepts the rule, the client
    is told so and the rule is registered; but every connection to the local port is over
    as soon as it starts, without a message to the daemon, because the connections are
    sent over USB only. *)
Theorem fport_over_tcp_dead {HA : Aead} {HL : AeadLaws HA} {HI : HashIter} {HN : HostNet}
    (ctx : Z) (handle : positive) (connect_key : bytes) (sid ch port k : Z) (word local remote : bytes) (words : list bytes)
    (rest : list RxEvent) (a : ChannelSpec.t) (t : Task) :
  starts_with (lit "tcp:") local = true -> parse_forward_port local = Ok port -> known_remote remote = true -> is_debug remote = false ->
  host_bind_error 0 (get_forward_listen_ip ++ [58] ++ fmt_dec port) = None ->
  u32 ch -> u32 ctx -> bytes_ok remote -> len remote <= 2 ^ 20 ->
  ready sid (t_host t) -> UsbMap.session_senders (usb_map (t_host t)) !! sid = None -> implements (t_host t) a -> listening ch a ->
  t_rx t = RxMsg (mkTaskMessage k ForwardCheckResult (to_be_bytes 4 ctx ++ [1])) :: rest ->
  exists tx t', handle_server_forward ctx handle connect_key sid ch (word :: local :: remote :: words) t = (Ok (mkRule tx remote), t') /\
    said sid [mkTaskMessage ch ForwardCheck (context_payload ctx remote)] (t_host t) (t_host t') /\
    implements (t_host t') (end_of ch (tell ch (lit "Forwardport result:OK" ++ [13; 10]) a)) /\
    forward_map (t_host t') = <[local ++ [32] ++ remote :=
      ForwardEntry.mk ch sid connect_key Forward (local ++ [32] ++ remote) (Some handle)]> (forward_map (t_host t)) /\
    forall id q conns queues, exists b s',
      run_forward_bridge sid ch remote EStart (new_bridge id q) (mkFwd (t_host t') conns queues) = (Ok b, s') /\
      b_phase b = PEnded /\ f_host s' = t_host t' /\ f_conns s' !! id = None.
Proof.
  intros Hl Hp Hk Hd Hb Hch Hctx Hrs Hrl Hr Hno Hi Hlis Hev. unfold handle_server_forward. rewrite Hl. cbn [negb]. rewrite Hp, M_bind_eq. cbn [lift]. rewrite Hk. cbn [negb].
  destruct (register_talk sid ch a t Hr Hi) as (tx & t1 & E & Ht & Hs0 & _ & Ef & _ & _).
  assert (Es : UsbMap.session_senders (usb_map (t_host t1)) = UsbMap.session_senders (usb_map (t_host t))) by (by injection E as _ <-).
  rewrite (M_bind_Ok _ _ _ _ _ E). rewrite Hev in Ht.
  destruct (check_flow_ok sid ch port ctx tx remote k rest a (t_host t1) _ t1 Hd Hb Hch Hctx Hrs Hrl Hlis Ht) as (t2 & E2 & S2 & I2 & F2 & U2).
  exists tx, (mkTask (set_forward_map (<[local ++ [32] ++ remote := ForwardEntry.mk ch sid connect_key Forward (local ++ [32] ++ remote) (Some handle)]>
    (forward_map (t_host t2))) (t_host t2)) (t_rx t2) (t_fs t2)).
  split.
  { assert (Et : try_ (check_flow sid ch port ctx tx remote) t1 = (Ok (Ok (ctx, remote)), t2)) by (unfold try_; by rewrite E2).
    match goal with |- (or_drop tx ?m ≫= _) t1 = _ => assert (Eo : or_drop tx m t1 = (Ok (ctx, remote), t2)) end.
    { unfold or_drop. erewrite M_bind_Ok; [|unfold try_ at 1; rewrite (M_bind_Ok _ _ _ _ _ Et); reflexivity]. done. }
    by rewrite (M_bind_Ok _ _ _ _ _ Eo). }
  split_and!; [exact (said_trans sid [] _ _ _ _ Hs0 S2)|done|cbn; by rewrite F2, Ef|].
  intros id q conns queues. unfold run_forward_bridge, bridge_step, new_bridge. cbn [b_phase b_id b_queue]. rewrite M_bind_eq. cbn [conns_insert modify].
  eexists _, _. erewrite M_bind_Ok; [|unfold try_, on_fhost, on_usb, zoom, UsbMap.send_to_session; cbn [f_host t_host set_forward_map usb_map];
    rewrite U2, Es, Hno; reflexivity].
  split; [reflexivity|]. split_and!; [done|by destruct (t_host t2)|cbn; apply lookup_delete_eq].
Qed.

Section BridgeWitness.
#[local] Existing Instance ToyAead.aead.
#[local] Existing Instance ToyAead.laws.
#[local] Existing Instance SomeOrder.order.
#[local] Existing Instance OpenNet.net.

(** A USB session 3, and a connection 9 of an [fport]: activation, bytes both ways, the end. *)
Definition usb_host : Host := set_usb_map (UsbMap.mk {[3 := 1%positive]} ∅ {[1%positive := mkQueue [] true]} ∅) new_host.
Definition bridge_events : list Event :=
  [EStart; EDispatch (mkTaskMessage 5 ForwardData ([0; 0; 0; 9] ++ [1])); EDispatch (mkTaskMessage 5 ForwardActiveMaster [0; 0; 0; 9]);
   ERecv; ERecv; ERead (lit "get"); EDispatch (mkTaskMessage 5 ForwardData ([0; 0; 0; 9] ++ lit "ok")); EReadEnd; ERecv;
   EDispatch (mkTaskMessage 5 ForwardFreeContext [0; 0; 0; 9]); ERecv; EJoined].
Definition usb_send (m : TaskMessage) : M Host unit := on_usb (UsbMap.send_to_session 3 (concat_pack m)).
Lemma forward_bridge_runs_witness : exists b s,
  exec bridge_enabled (bridge_step usb_send 5 (Some (lit "tcp:80"))) bridge_events (new_bridge 9 1) (mkFwd usb_host ∅ ∅) = Some (b, s) /\
  w_out (b_out b) = lit "ok" /\
  usb_carried 3 [first_message 5 (Some (lit "tcp:80")) 9; data_message 5 9 (lit "get"); free_message 5 9] usb_host (f_host s).
Proof.
  destruct (exec bridge_enabled (bridge_step usb_send 5 (Some (lit "tcp:80"))) bridge_events (new_bridge 9 1) (mkFwd usb_host ∅ ∅))
    as [[b s]|] eqn:E; [|by vm_compute in E].
  pose proof (exec_run _ _ _ _ _ _ _ E) as Hrun. exists b, s. split; [done|].
  assert (Hb : w_out (b_out b) = lit "ok" /\ b_phase b = PEnded) by (vm_compute in E; injection E as <- _; by vm_compute). split; [apply Hb|].
  pose proof (forward_bridge_runs (HC := usb_courier 3) 5 (Some (lit "tcp:80")) 9 1 (mkFwd usb_host ∅ ∅) bridge_events b s) as H.
  destruct (arrivals 9 _ bridge_events) as [reg arrived]. destruct H as [Hc _].
  - by vm_compute.
  - by split; [apply (bool_decide_unpack _); vm_compute|vm_compute].
  - repeat constructor; by vm_compute.
  - by exists [].
  - intros id'. cbn. by rewrite lookup_empty.
  - exact Hrun.
  - destruct Hb as [_ Hb]. rewrite Hb in Hc. exact Hc.
Defined.

Definition fport_task : Task := mkTask device_host [RxMsg (mkTaskMessage 5 ForwardCheckResult (to_be_bytes 4 9 ++ [1]))] ∅.
Lemma fport_over_tcp_dead_witness : exists tx t',
  handle_server_forward 9 4 (lit "k") 7 5 (map lit ["fport"; "tcp:80"; "tcp:90"]%string) fport_task = (Ok (mkRule tx (lit "tcp:90")), t') /\
  exists b s', run_forward_bridge 7 5 (lit "tcp:90") EStart (new_bridge 1 1)
        (mkFwd (t_host t') ∅ ∅) = (Ok b, s') /\ b_phase b = PEnded.
Proof.
  destruct (fport_over_tcp_dead 9 4 (lit "k") 7 5 80 5 (lit "fport") (lit "tcp:80") (lit "tcp:90") [] [] one_client fport_task)
    as (tx & t' & E & _ & _ & _ & Hb).
  - by vm_compute.
  - by vm_compute.
  - by vm_compute.
  - by vm_compute.
  - done.
  - by vm_compute.
  - by vm_compute.
  - by apply (bool_decide_unpack _); vm_compute.
  - by vm_compute.
  - apply device_ready.
  - done.
  - apply client_listens.
  - apply client_listens.
  - done.
  - exists tx, t'. split; [exact E|]. destruct (Hb 1 1%positive ∅ ∅) as (b & s' & Es & Ep & _). exists b, s'. split; [exact Es|exact Ep].
Defined.
End BridgeWitness.
