(* ===== verification/HostUsbSession.v ===== *)
(** * The host server: a session with a device over USB

    [src/hdc/src/server.rs]: [start_usb_session].  It opens the device, resets and clears
    the channel, answers the daemon's requests for authentication, registers the device,
    and then runs two tasks on the connection: the writer, which takes what other tasks put
    in the session's queue, and the reader, which hands the daemon's messages on; at the end
    it unregisters everything of the session.

    The start is a function; the two tasks are a state machine whose steps are interleaved
    with those of the rest of the server.  The queue in [UsbMap] keeps what was put in it,
    and the writer has its place in it. *)

From S2P Require Import Prelude RustStr Config Tlv Serializer Encrypt Transport Reading Usb AuthTlv RsaAuth HostMaps.
From S2P Require Import HostChannels HostSession.

(** The tables, the connection and the key files. *)
Record UsbSession := mkUsbSession { us_host : Host; us_link : UsbLink; us_files : Files }.
Definition on_uhost {A} : M Host A -> M UsbSession A := zoom us_host (fun h s => mkUsbSession h (us_link s) (us_files s)).
Definition on_ulink {A} : M UsbLink A -> M UsbSession A := zoom us_link (fun c s => mkUsbSession (us_host s) c (us_files s)).
Definition on_ufiles {A} : M Files A -> M UsbSession A := zoom us_files (fun f s => mkUsbSession (us_host s) (us_link s) f).

Inductive SessionOutcome := Ended (clean : bool) (reason : bytes) | Failed (reason : bytes).

Section Start.
Context {HA : Aead} {HI : HashIter} {HR : Rsa} {HF : HostFs}.

(** Stale data is dropped for a second at most; [n] is the number of reads the second
    has time for. *)
Fixpoint clear_channel (n : nat) (ep_in : Z) : M UsbSession unit :=
  match n with
  | O => mret tt
  | S n =>
      r ← try_ (on_ulink (read_usb_drop ep_in 512));
      match r with
      | Ok k => if k =? 0 then mret tt else clear_channel n ep_in
      | _ => mret tt
      end
  end.

(** The version of the host's first handshake over TCP and over USB is the same; the buffer
    is fixed here. *)
Definition usb_auth_tlv : bytes := lit "authtype" ++ replicate 8 32 ++ lit "1" ++ replicate 15 32 ++ lit "1".
Definition send_usb_handshake (conn : AsyncUsbConnection) (auth_type session_id : Z) (serial buf : bytes) : M UsbSession unit :=
  on_ulink (send_usb_message (bulk_out conn) session_id (host_handshake_message auth_type session_id serial buf) (max_packet_size conn)).

(** What is to be done after an answer: [inl] is the reason of a failure, [inr true] is the
    end of the authentication, [inr false] another round. *)
Definition answer_usb_auth (conn : AsyncUsbConnection) (seed session_id : Z) (serial : bytes) (daemon_hs : SessionHandShake.t)
    : M UsbSession (bytes + bool) :=
  let auth_type := SessionHandShake.auth_type daemon_hs in
  let buf := SessionHandShake.buf daemon_hs in
  (* the answer is made from the key files and sent *)
  let reply kind (make : M Files bytes) (made sent : string) :=
    r ← try_ (on_ufiles make);
    match r with
    | Ok text =>
        w ← try_ (send_usb_handshake conn (AuthType.as_u8 kind) session_id serial text);
        match w with
        | Err e => mret (inl (lit sent ++ err_msg e))
        | _ => mret (inr false)
        end
    | Err e => mret (inl (lit made ++ err_msg e))
    | Panic => lift Panic
    end in
  if auth_type =? AuthType.as_u8 AuthType.AuthOk then mret (inr true)
  else if auth_type =? AuthType.as_u8 AuthType.AuthFail then mret (inl (lit "authentication rejected by daemon"))
  else if auth_type =? AuthType.as_u8 AuthType.Publickey then
    reply AuthType.Publickey (get_public_key_info seed) "get public key: " "send public key: "
  else if auth_type =? AuthType.as_u8 AuthType.Signature then
    reply AuthType.Signature (rsa_sign_challenge seed buf) "sign challenge: " "send signature: "
  else if auth_type =? AuthType.as_u8 AuthType.Token then mret (inl (lit "daemon requested token auth (unsupported)"))
  else mret (inl (lit "unknown auth type " ++ fmt_dec auth_type)).

(** The rounds that are left; [timeout i] says whether the wait with [i] rounds left times
    out.  The value is the session's identifier, which the daemon may change, and the buffer
    of its last answer. *)
Fixpoint usb_auth_rounds (timeout : nat -> bool) (conn : AsyncUsbConnection) (seed session_id : Z) (serial : bytes) (left : nat)
    : M UsbSession (bytes + Z * bytes) :=
  match left with
  | O => mret (inl (lit "auth exceeded max attempts"))
  | S n =>
      if timeout left then
        mret (inl (if bool_decide (left = pred MAX_AUTH_ATTEMPTS)
                   then lit "auth timeout after 60s - confirm the USB debugging authorization dialog on the device"
                   else lit "auth timeout"))
      else
        r ← try_ (on_ulink (recv_usb_message (bulk_in conn)));
        match r with
        | Err e => mret (inl (lit "auth recv: " ++ err_msg e))
        | Panic => lift Panic
        | Ok (resp_session_id, daemon_resp) =>
            if negb (cmd_eqb (command daemon_resp) KernelHandshake)
            then usb_auth_rounds timeout conn seed session_id serial n
            else
              match SessionHandShake.deserialize (payload daemon_resp) with
              | Err e => mret (inl (lit "auth handshake deserialize: " ++ err_msg e))
              | Panic => lift Panic
              | Ok daemon_hs =>
                  let session_id := if negb (resp_session_id =? 0) then resp_session_id else session_id in
                  o ← answer_usb_auth conn seed session_id serial daemon_hs;
                  match o with
                  | inl reason => mret (inl reason)
                  | inr true => mret (inr (session_id, SessionHandShake.buf daemon_hs))
                  | inr false => usb_auth_rounds timeout conn seed session_id serial n
                  end
              end
        end
  end.

(** Up to the start of the tasks: the outcome of a failure, or the connection, the session
    and its queue. *)
Definition usb_offline {B} (serial reason : bytes) : M UsbSession (SessionOutcome + B) :=
  _ ← on_uhost (on_connect (ConnectMap.update_status serial Offline));
  mret (inl (Failed reason)).
Definition new_session_queue (session_id : Z) : M UsbMap.t positive := fun m =>
  let tx := fresh (dom (UsbMap.session_queues m)) in
  (Ok tx, UsbMap.mk (<[session_id := tx]> (UsbMap.session_senders m)) (UsbMap.response_channels m)
            (<[tx := mkQueue [] true]> (UsbMap.session_queues m)) (UsbMap.response_queues m)).

Definition start_usb_session (devices : bytes + list UsbDevice) (timeout : nat -> bool) (clears : nat) (seed session_id : Z) (serial : bytes)
    : M UsbSession (SessionOutcome + (AsyncUsbConnection * Z * positive)) :=
  match connect_usb_device devices serial with
  | Err e => usb_offline serial (lit "open device: " ++ err_msg e)
  | Panic => lift Panic
  | Ok conn =>
      reset ← try_ (on_ulink (send_usb_soft_reset (bulk_out conn) 0));
      match reset with
      | Err e => usb_offline serial (lit "soft-reset send: " ++ err_msg e)
      | _ =>
          _ ← clear_channel clears (bulk_in conn);
          hello ← try_ (send_usb_handshake conn (AuthType.as_u8 AuthType.NoAuth) session_id serial usb_auth_tlv);
          match hello with
          | Err e => usb_offline serial (lit "handshake send: " ++ err_msg e)
          | _ =>
              auth_result ← usb_auth_rounds timeout conn seed session_id serial MAX_AUTH_ATTEMPTS;
              match auth_result with
              | inl reason => usb_offline serial reason
              | inr (session_id, last_daemon_buf) =>
                  tlv_map ← lift (HostTlv.parse_tlv last_daemon_buf);
                  _ ← on_uhost (on_connect (ConnectMap.put serial
                        (DaemonInfo.mk session_id (Usb serial) Connected (default [] (tlv_map !! lit "devname")) [])));
                  tx ← on_uhost (on_usb (new_session_queue session_id));
                  mret (inr (conn, session_id, tx))
              end
          end
      end
  end.

(** ** The reader and the writer *)

Definition usb_late_handshake (seed session_id : Z) (serial : bytes) (task : TaskMessage) : M UsbSession unit :=
  match SessionHandShake.deserialize (payload task) with
  | Ok daemon_hs =>
      if SessionHandShake.auth_type daemon_hs =? AuthType.as_u8 AuthType.Signature then
        r ← try_ (on_ufiles (rsa_sign_challenge seed (SessionHandShake.buf daemon_hs)));
        match r with
        | Ok signature =>
            _ ← try_ (on_uhost (on_usb (UsbMap.send_to_session session_id
                  (concat_pack (host_handshake_message (AuthType.as_u8 AuthType.Signature) session_id serial signature)))));
            mret tt
        | _ => mret tt
        end
      else mret tt
  | Err _ => mret tt
  | Panic => lift Panic
  end.

(** One turn of the read loop; [Some (clean, reason)] leaves it. *)
Definition usb_reader_turn (conn : AsyncUsbConnection) (seed session_id : Z) (serial : bytes) : M UsbSession (option (bool * bytes)) :=
  r ← try_ (on_ulink (recv_usb_message (bulk_in conn)));
  match r with
  | Ok (_, task) =>
      if cmd_eqb (command task) KernelHandshake then _ ← usb_late_handshake seed session_id serial task; mret None
      else
        routed ← on_uhost (on_usb (UsbMap.route_response session_id (channel_id task) task));
        if routed : bool then mret None else _ ← on_uhost (deliver task); mret None
  | Err e =>
      if bool_decide (err_kind e = InvalidData) && contains (lit "nop/reset") (err_msg e) then mret None
      else mret (Some (bool_decide (err_kind e = NotConnected), lit "read error: " ++ err_msg e))
  | Panic => lift Panic
  end.

(** One turn of the write loop, at place [pos] of the queue: [Some] is the next place, and
    [None] the end of the task, which drops its end of the queue. *)
Definition usb_writer_turn (conn : AsyncUsbConnection) (session_id : Z) (tx : positive) (pos : nat) : M UsbSession (option nat) :=
  let leave := on_uhost (on_usb (modify (fun m =>
    UsbMap.mk (delete session_id (UsbMap.session_senders m)) (UsbMap.response_channels m)
      (alter (fun q => mkQueue (q_items q) false) tx (UsbMap.session_queues m)) (UsbMap.response_queues m)))) in
  s ← get;
  let um := usb_map (us_host s) in
  match UsbMap.session_queues um !! tx ≫= fun q => q_items q !! pos with
  | Some payload =>
      r ← try_ (on_ulink (send_usb_raw (bulk_out conn) session_id payload (max_packet_size conn)));
      match r with
      | Ok _ => mret (Some (S pos))
      | _ => _ ← leave; mret None
      end
  | None =>
      if bool_decide (UsbMap.session_senders um !! session_id = Some tx) then mret (Some pos)
      else _ ← leave; mret None
  end.

(** What the reader's end does at once, and what it does when the writer has ended. *)
Definition usb_unregister (session_id : Z) (serial : bytes) : M UsbSession unit :=
  _ ← on_uhost (on_connect (ConnectMap.remove serial));
  on_uhost (on_usb (UsbMap.end_session_with_cleanup session_id)).
Definition usb_cleanup (session_id : Z) (serial : bytes) : M UsbSession unit :=
  _ ← on_uhost (on_tcp (TcpMap.close_session_channels session_id));
  _ ← try_ (on_uhost (remove_forward_entry serial 0 []));
  mret tt.

(** The state of the function behind the authentication: the reader's result, once there is
    one, the place of the writer, while it runs, and the outcome. *)
Record Pump := mkPump { p_end : option (bool * bytes); p_pos : nat; p_writing : bool; p_outcome : option SessionOutcome }.
(** A turn of each task; their end; a message another task sends to the session; any other
    step of the server. *)
Inductive PumpEvent := PRead | PWrite | PJoin | PSend (data : bytes) | POther (f : Host -> Host).

Definition pump_step (conn : AsyncUsbConnection) (seed session_id : Z) (serial : bytes) (tx : positive) (e : PumpEvent) (p : Pump)
    : M UsbSession Pump :=
  match e with
  | PRead =>
      r ← usb_reader_turn conn seed session_id serial;
      match r with
      | None => mret p
      | Some (clean, reason) => _ ← usb_unregister session_id serial; mret (mkPump (Some (clean, reason)) (p_pos p) (p_writing p) None)
      end
  | PWrite =>
      r ← usb_writer_turn conn session_id tx (p_pos p);
      match r with
      | Some pos => mret (mkPump (p_end p) pos true (p_outcome p))
      | None => mret (mkPump (p_end p) (p_pos p) false (p_outcome p))
      end
  | PJoin =>
      _ ← usb_cleanup session_id serial;
      mret (mkPump (p_end p) (p_pos p) false (option_map (fun '(clean, reason) => Ended clean reason) (p_end p)))
  | PSend data => _ ← try_ (on_uhost (on_usb (UsbMap.send_to_session session_id data))); mret p
  | POther f => _ ← on_uhost (modify f); mret p
  end.
Definition pump_enabled (e : PumpEvent) (p : Pump) : bool :=
  match e with
  | PRead => bool_decide (p_end p = None)
  | PWrite => p_writing p
  | PJoin => bool_decide (is_Some (p_end p)) && negb (p_writing p) && bool_decide (p_outcome p = None)
  | PSend _ | POther _ => true
  end.
Definition new_pump : Pump := mkPump None 0 true None.
Definition pump_runs conn seed session_id serial tx := run pump_enabled (pump_step conn seed session_id serial tx).
End Start.

(** ** Reading from the connection *)

(** A computation that only takes from what arrives. *)
Definition reads_only {A} (m : M UsbLink A) : Prop := forall c,
  usb_out (m c).2 = usb_out c /\ usb_out_next (m c).2 = usb_out_next c /\ usb_in (m c).2 `suffix_of` usb_in c.
Lemma reads_lift {A} (r : Result A) : reads_only (lift r).
Proof. done. Qed.
Lemma reads_bind {A B} (m : M UsbLink A) (f : A -> M UsbLink B) :
  reads_only m -> (forall a, reads_only (f a)) -> reads_only (m ≫= f).
Proof.
  intros Hm Hf c. rewrite M_bind_eq. specialize (Hm c). destruct (m c) as [[a|e|] c1]; cbn [snd] in *; [|done..].
  destruct Hm as (H1 & H2 & H3). destruct (Hf a c1) as (F1 & F2 & F3). split_and!; [congruence..|by etrans].
Qed.
Lemma reads_bulk ep n t : reads_only (read_bulk ep n t).
Proof. intros c. unfold read_bulk. destruct (usb_in c) as [|o l] eqn:E; cbn; rewrite ?E; split_and!; try done. by apply suffix_cons_r. Qed.
Lemma reads_loop ep f msg fuel got expected :
  reads_only (read_loop (fun i n => read_bulk ep n (f i)) (fun e => e) msg fuel got expected).
Proof.
  revert got; induction fuel as [|fuel IH]; intros got c; cbn [read_loop]; case_if; try done.
  pose proof (reads_bulk ep (expected - len got) (f (len got)) c) as Hb.
  destruct (read_bulk _ _ _ c) as [[b|e|] c1]; cbn [snd] in *; [|done..]. case_if; [done|].
  destruct Hb as (H1 & H2 & H3). destruct (IH (got ++ b) c1) as (F1 & F2 & F3). split_and!; [congruence..|by etrans].
Qed.
Lemma reads_exact ep n t : reads_only (read_exact_from_usb ep n t).
Proof. unfold read_exact_from_usb. case_if; [done|]. apply (reads_loop ep (fun i => if i =? 0 then t else 5000)). Qed.
#[local] Hint Resolve reads_lift reads_exact reads_bulk : hdc.
Lemma recv_usb_reads ep : reads_only (recv_usb_message ep).
Proof.
  unfold recv_usb_message. apply reads_bind; [auto with hdc|]. intros hd. apply reads_bind; [auto with hdc|]. intros h.
  repeat (case_if; [by intros c|]). apply reads_bind; [auto with hdc|]. intros pd. apply reads_bind; [auto with hdc|]. by intros m c.
Qed.
(** A message takes a transfer at least; with none left the connection is gone. *)
Lemma read_loop_progress ep f msg fuel expected c :
  0 < expected -> usb_in c <> [] ->
  (length (usb_in (read_loop (fun i n => read_bulk ep n (f i)) (fun e => e) msg (S fuel) [] expected c).2) < length (usb_in c))%nat.
Proof.
  intros He Hne. cbn [read_loop]. rewrite (proj2 (Z.leb_gt expected _)) by (change (len (@nil Z)) with 0; lia).
  assert (Hb : forall n t, (length (usb_in (read_bulk ep n t c).2) < length (usb_in c))%nat).
  { intros n t. unfold read_bulk. destruct (usb_in c); [done|]. cbn. lia. }
  specialize (Hb (expected - len (@nil Z)) (f (len (@nil Z)))). destruct (read_bulk _ _ _ c) as [[b|e|] c1]; cbn [snd] in *; [|done..].
  case_if; [done|]. pose proof (reads_loop ep f msg fuel ([] ++ b) expected c1) as (_ & _ & F%suffix_length). lia.
Qed.
Lemma reads_bind_progress {A B} (m : M UsbLink A) (f : A -> M UsbLink B) c :
  (length (usb_in (m c).2) < length (usb_in c))%nat -> (forall a, reads_only (f a)) ->
  (length (usb_in ((m ≫= f) c).2) < length (usb_in c))%nat.
Proof.
  intros Hm Hf. rewrite M_bind_eq. destruct (m c) as [[a|e|] c1]; cbn [snd] in *; [|done..]. destruct (Hf a c1) as (_ & _ & F%suffix_length). lia.
Qed.
Lemma recv_usb_progress ep c :
  usb_in c <> [] -> (length (usb_in (recv_usb_message ep c).2) < length (usb_in c))%nat.
Proof.
  intros Hne. unfold recv_usb_message. apply reads_bind_progress.
  - unfold read_exact_from_usb. change (USB_HEAD_SIZE =? 0) with false. cbv iota. change (Z.to_nat USB_HEAD_SIZE) with 11%nat.
    by apply (read_loop_progress ep (fun i => if i =? 0 then 0 else 5000)).
  - intros hd. apply reads_bind; [auto with hdc|]. intros h. repeat (case_if; [by intros c'|]).
    apply reads_bind; [auto with hdc|]. intros pd. apply reads_bind; [auto with hdc|]. by intros m c'.
Qed.
Lemma recv_usb_gone ep c :
  usb_in c = [] -> recv_usb_message ep c = (err OtherError "USB transfer cancelled (sender dropped)", c).
Proof.
  intros E. unfold recv_usb_message, read_exact_from_usb. change (USB_HEAD_SIZE =? 0) with false. cbv iota.
  change (Z.to_nat USB_HEAD_SIZE) with 11%nat. cbn [read_loop]. change (USB_HEAD_SIZE <=? len []) with false. cbv iota.
  rewrite M_bind_eq. unfold read_bulk. by rewrite E.
Qed.

(** A computation that only writes. *)
Definition writes_only {A} (m : M UsbLink A) : Prop := forall c, (m c).1 <> Panic /\ usb_in (m c).2 = usb_in c.
Lemma writes_bind {A B} (m : M UsbLink A) (f : A -> M UsbLink B) :
  writes_only m -> (forall a, writes_only (f a)) -> writes_only (m ≫= f).
Proof.
  intros Hm Hf c. rewrite M_bind_eq. destruct (Hm c) as [H1 H2]. destruct (m c) as [[a|e|] c1]; cbn [fst snd] in *; [|done..].
  destruct (Hf a c1) as [F1 F2]. split; [done|congruence].
Qed.
Lemma writes_bulk ep d t : writes_only (write_bulk ep d t).
Proof.
  intros c. unfold write_bulk. destruct (usb_out_next c) as [|o l]; [done|].
  assert (Hs : submit_transfer o <> Panic) by (destruct o as [| | |st data]; try done; cbn; unfold transfer_callback; by repeat case_match).
  by destruct (submit_transfer o).
Qed.
Lemma writes_raw ep sid d mps : 0 < mps -> writes_only (send_usb_raw ep sid d mps).
Proof.
  intros Hm. unfold send_usb_raw. apply writes_bind; [apply writes_bulk|]. intros _. apply writes_bind; [destruct d; [done|apply writes_bulk]|].
  intros _. case_if; [|done]. rewrite (proj2 (Z.eqb_neq mps 0)) by lia. case_if; [|done]. apply writes_bind; [apply writes_bulk|done].
Qed.

(** ** The steps of the two tasks *)

Section PumpFacts.
Context {HA : Aead} {HL : AeadLaws HA} {HI : HashIter} {HR : Rsa} {HF : HostFs}.
Context (conn : AsyncUsbConnection) (seed sid : Z) (serial : bytes) (tx : positive).

Definition queue_of (h : Host) : option (Queue bytes) := UsbMap.session_queues (usb_map h) !! tx.
Definition sender_of (h : Host) : option positive := UsbMap.session_senders (usb_map h) !! sid.
(** What a step puts in the queue; nothing once the sender is gone. *)
Definition posted (h h' : Host) : Prop := sender_of h' = sender_of h /\
  forall items alive, queue_of h = Some (mkQueue items alive) -> exists ds, queue_of h' = Some (mkQueue (items ++ ds) alive) /\
    Forall (fun d => d <> []) ds /\ (alive = false \/ sender_of h <> Some tx -> ds = []).
Lemma posted_none h h' : sender_of h' = sender_of h -> queue_of h' = queue_of h -> posted h h'.
Proof.
  intros E1 E2. split; [done|]. intros items alive E. exists []. rewrite app_nil_r, E2. split_and!; [done|constructor|done].
Qed.
Lemma posted_trans h1 h2 h3 : posted h1 h2 -> posted h2 h3 -> posted h1 h3.
Proof.
  intros (E1 & P1) (E2 & P2). split; [congruence|]. intros items alive E. destruct (P1 _ _ E) as (d1 & Q1 & F1 & N1).
  destruct (P2 _ _ Q1) as (d2 & Q2 & F2 & N2). exists (d1 ++ d2). rewrite app_assoc. rewrite E1 in N2. split_and!; [done|by apply Forall_app|].
  intros H. by rewrite N1, N2.
Qed.
Lemma send_posted d h : d <> [] -> wp (on_usb (UsbMap.send_to_session sid d)) (fun _ => posted h) (fun _ => posted h) h.
Proof.
  intros Hd. apply wp_zoom. unfold wp, UsbMap.send_to_session.
  assert (Hs : posted h (set_usb_map (usb_map h) h)) by (by apply posted_none).
  destruct (UsbMap.session_senders (usb_map h) !! sid) as [tx'|] eqn:Et; [|exact Hs].
  destruct (UsbMap.alive _ tx') eqn:Ea; [|exact Hs]. split; [done|]. intros items alive E. unfold queue_of in *. cbn in *.
  destruct (decide (tx' = tx)) as [->|Hne].
  - exists [d]. rewrite lookup_alter_eq, E. split_and!; [done|by constructor|]. unfold UsbMap.alive in Ea. rewrite E in Ea. cbn in Ea.
    intros [->|Hx]; [done|]. unfold sender_of in Hx. congruence.
  - exists []. rewrite app_nil_r, lookup_alter_ne by congruence. by split_and!.
Qed.
Lemma route_posted ch task h : wp (on_usb (UsbMap.route_response sid ch task)) (fun _ => posted h) (fun _ _ => False) h.
Proof.
  apply wp_zoom. unfold wp, UsbMap.route_response.
  destruct (UsbMap.response_channels (usb_map h) !! _); [destruct (UsbMap.alive _ _)|]; by apply posted_none.
Qed.
Lemma deliver_posted task h : wp (deliver task) (fun _ => posted h) (fun _ _ => False) h.
Proof. destruct (deliver_frame task h) as (h' & E & _ & Eu & _). unfold wp. rewrite E. by apply posted_none; unfold sender_of, queue_of; rewrite Eu. Qed.
Lemma late_posted task s : wp (usb_late_handshake seed sid serial task)
  (fun _ s' => us_link s' = us_link s /\ posted (us_host s) (us_host s')) (fun _ _ => False) s.
Proof.
  assert (Hp : posted (us_host s) (us_host s)) by (by apply posted_none).
  unfold usb_late_handshake. pose proof (proj1 (SessionHandShake_total (payload task))) as Hn.
  destruct (SessionHandShake.deserialize (payload task)) as [hs|e|]; [|done|done]. case_if; [|done].
  apply wp_bind, wp_try, wp_zoom. pose proof (sign_total seed (SessionHandShake.buf hs) (us_files s)) as Ht. unfold wp at 1.
  destruct (rsa_sign_challenge _ _ (us_files s)) as [[sg|e|] f]; [|done|done].
  apply wp_bind, wp_try, wp_zoom. cbn [us_host].
  eapply wp_mono; [apply send_posted|..]; [|by intros ? h'..].
  intros E. pose proof (len_concat_pack (host_handshake_message (AuthType.as_u8 AuthType.Signature) sid serial sg)) as L. rewrite E in L.
  change (len (@nil Z)) with 0 in L. pose proof (len_nonneg (payload (host_handshake_message (AuthType.as_u8 AuthType.Signature) sid serial sg))). lia.
Qed.

(** A turn of the reader takes from the connection, and ends the session when there is
    nothing left. *)
Lemma usb_reader_turn_wp s : link_ok (us_link s) ->
  wp (usb_reader_turn conn seed sid serial)
     (fun r s' => usb_out (us_link s') = usb_out (us_link s) /\ usb_out_next (us_link s') = usb_out_next (us_link s) /\
        link_ok (us_link s') /\ posted (us_host s) (us_host s') /\
        (r = None -> (length (usb_in (us_link s')) < length (usb_in (us_link s)))%nat)) (fun _ _ => False) s.
Proof.
  intros Hok. unfold usb_reader_turn. apply wp_bind, wp_try, wp_zoom.
  pose proof (recv_usb_reads (bulk_in conn) (us_link s)) as (H1 & H2 & [pre H3]).
  pose proof (recv_usb_no_panic (bulk_in conn) _ Hok) as Hnp. pose proof (recv_usb_progress (bulk_in conn) (us_link s)) as Hpr.
  pose proof (recv_usb_gone (bulk_in conn) (us_link s)) as Hg. unfold wp at 1.
  assert (Hl : link_ok (recv_usb_message (bulk_in conn) (us_link s)).2).
  { unfold link_ok in *. rewrite H3 in Hok. apply Forall_app in Hok as [_ Hok]; exact Hok. }
  destruct (recv_usb_message (bulk_in conn) (us_link s)) as [r c'] eqn:Er; cbn [fst snd] in *.
  destruct (decide (usb_in (us_link s) = [])) as [E|E].
  - specialize (Hg E) as [= -> ->]. cbv iota. apply wp_ret. cbn [us_link us_host]. split_and!; try done. by apply posted_none.
  - specialize (Hpr E). destruct r as [[rid task]|e|]; [| |done].
    + set (s1 := mkUsbSession _ _ _). change (us_host s) with (us_host s1).
      assert (Hdone : forall s2, us_link s2 = us_link s1 -> posted (us_host s1) (us_host s2) ->
        usb_out (us_link s2) = usb_out (us_link s) /\ usb_out_next (us_link s2) = usb_out_next (us_link s) /\ link_ok (us_link s2) /\
        posted (us_host s1) (us_host s2) /\ (@None (bool * bytes) = None -> (length (usb_in (us_link s2)) < length (usb_in (us_link s)))%nat)).
      { intros s2 E2 P2. by rewrite E2. }
      case_if.
      * apply wp_bind. eapply wp_mono; [apply late_posted| |done]. intros _ s2 [E2 P2]. by apply wp_ret, Hdone.
      * apply wp_bind, wp_zoom. eapply wp_mono; [apply route_posted| |done]. intros [|] h2 P2; [by apply wp_ret, Hdone|].
        apply wp_bind, wp_zoom. cbn [us_host]. eapply wp_mono; [apply deliver_posted| |done]. intros u h3 P3.
        apply wp_ret, Hdone; [done|]. by eapply posted_trans.
    + assert (Hp : posted (us_host s) (us_host s)) by (by apply posted_none). case_if; by apply wp_ret.
Qed.

(** The end leaves the queue of the writer alone, which is closed by then. *)
Definition tables_kept (items : list bytes) (h h' : Host) : Prop :=
  sender_of h' = sender_of h /\ queue_of h' = Some (mkQueue items false) /\
  TcpMap.channel_sessions (tcp_map h') = TcpMap.channel_sessions (tcp_map h) /\
  TcpMap.channel_writers (tcp_map h') = TcpMap.channel_writers (tcp_map h) /\ connect_map h' = connect_map h.
Lemma send_keeps items s d h0 h : tables_kept items h0 h ->
  wp (send_to_session s d) (fun _ => tables_kept items h0) (fun _ => tables_kept items h0) h.
Proof.
  intros (K1 & K2 & K3 & K4 & K5). apply wp_bind, wp_try, wp_zoom.
  assert (Ht : forall tm, session_frame s (tcp_map h) tm -> tables_kept items h0 (set_tcp_map tm h)).
  { intros tm (_ & _ & F1 & F2 & _). split_and!; try done; cbn; congruence. }
  eapply wp_mono; [apply send_to_session_frame|..].
  - intros [] tm F. by apply wp_ret, Ht.
  - intros e tm F. specialize (Ht tm F) as (T1 & T2 & T3). apply wp_zoom. unfold wp, UsbMap.send_to_session. cbn [set_tcp_map usb_map].
    destruct (UsbMap.session_senders _ !! s) as [tx'|]; [|done]. destruct (UsbMap.alive _ tx') eqn:Ea; [|done].
    split; [done|]. split; [|exact T3]. unfold queue_of in *. cbn in *. destruct (decide (tx' = tx)) as [->|Hn].
    + unfold UsbMap.alive in Ea. by rewrite T2 in Ea.
    + by rewrite lookup_alter_ne.
Qed.
Lemma cleanup_wp items s : queue_of (us_host s) = Some (mkQueue items false) ->
  wp (usb_cleanup sid serial)
     (fun _ s' => us_link s' = us_link s /\ sender_of (us_host s') = sender_of (us_host s) /\ queue_of (us_host s') = Some (mkQueue items false) /\
        connect_map (us_host s') = connect_map (us_host s) /\
        (forall c s0, TcpMap.channel_sessions (tcp_map (us_host s)) !! c = Some s0 ->
           if bool_decide (s0 = sid)
           then TcpMap.channel_sessions (tcp_map (us_host s')) !! c = None /\ TcpMap.channel_writers (tcp_map (us_host s')) !! c = None
           else TcpMap.channel_writers (tcp_map (us_host s')) !! c = TcpMap.channel_writers (tcp_map (us_host s)) !! c) /\
        forward_map (us_host s') = filter (fun e => matches_filter serial e.2 = false) (forward_map (us_host s)) /\
        forall c, TcpMap.channel_sessions (tcp_map (us_host s')) !! c <> Some sid)
     (fun _ _ => False) s.
Proof.
  intros Hq. unfold usb_cleanup. apply wp_bind, wp_zoom, wp_zoom.
  unfold TcpMap.close_session_channels at 1. apply wp_modify. set (l := map fst _). set (tm := foldl _ _ _).
  assert (Hl : NoDup l) by (apply NoDup_filter_fst; rewrite iter_perm; apply NoDup_fst_map_to_list).
  destruct (close_fold l (tcp_map (us_host s)) Hl) as (C1 & C2 & _). fold tm in C1, C2.
  assert (Hin : forall c, c ∈ l <-> TcpMap.channel_sessions (tcp_map (us_host s)) !! c = Some sid).
  { intros c. unfold l. rewrite list_elem_of_fmap. split.
    - intros ([k' s'] & -> & [Hs' He]%list_elem_of_filter). rewrite iter_perm in He. apply elem_of_map_to_list in He. cbn in *. by subst.
    - intros He. exists (c, sid). split; [done|]. apply list_elem_of_filter. split; [done|]. by rewrite iter_perm, elem_of_map_to_list. }
  apply wp_bind, wp_try, wp_zoom. cbn [us_host]. set (h1 := set_tcp_map tm (us_host s)).
  pose proof (remove_rules_wp serial 0 h1) as Hr. cbn zeta in Hr. unfold wp in Hr |- *.
  assert (Hk : wp (remove_forward_entry serial 0 []) (fun _ => tables_kept items h1) (fun _ => tables_kept items h1) h1).
  { unfold remove_forward_entry. apply wp_bind, wp_get. rewrite bool_decide_eq_true_2 by done. apply wp_bind.
    eapply wp_mono; [apply (drop_forward_keeps (tables_kept items h1)); [done..| |]|intros n h' H; by apply wp_ret|done].
    - intros. by apply send_keeps.
    - by split_and!. }
  unfold wp in Hk. destruct (remove_forward_entry serial 0 [] h1) as [[text|e|] h2]; try done.
  destruct Hr as (R1 & R2 & _). destruct Hk as (K1 & K2 & K3 & K4 & K5). cbn [mret M_ret us_host us_link]. split_and!; try done.
  - intros c s0 Hc. rewrite K3, K4. cbn [h1 set_tcp_map tcp_map]. rewrite C1, C2. case_bool_decide as Hs.
    + subst s0. apply Hin in Hc. split; apply map_lookup_filter_None; right; intros x _; cbn; tauto.
    + assert (Hn : c ∉ l) by (rewrite Hin; congruence).
      destruct (TcpMap.channel_writers (tcp_map (us_host s)) !! c) as [w|] eqn:Ew.
      * by apply map_lookup_filter_Some.
      * apply map_lookup_filter_None. by left.
  - rewrite R2. apply map_filter_ext. intros i x _. cbn. by destruct (matches_filter serial x).
  - intros c. rewrite K3. cbn [h1 set_tcp_map tcp_map]. rewrite C2. intros [Hc Hn]%map_lookup_filter_Some. by apply Hin in Hc.
Qed.

(** What the writer has written is what was put in the queue, up to its place; it ends only
    behind the reader, and when it has written everything. *)
Definition written (items : list bytes) : list (Z * bytes) :=
  concat (map (fun d => usb_transfers (bulk_out conn) sid d (max_packet_size conn)) items).
Definition pump_inv (out0 : list (Z * bytes)) (p : Pump) (s : UsbSession) : Prop :=
  exists items, queue_of (us_host s) = Some (mkQueue items (p_writing p)) /\ Forall (fun d => d <> []) items /\
    link_ok (us_link s) /\ usb_out_next (us_link s) = [] /\ usb_out (us_link s) = out0 ++ written (take (p_pos p) items) /\
    (p_pos p <= length items)%nat /\
    sender_of (us_host s) = (match p_end p with None => Some tx | Some _ => None end) /\
    (p_writing p = false -> is_Some (p_end p) /\ p_pos p = length items) /\
    (is_Some (p_outcome p) -> p_writing p = false /\ p_outcome p = option_map (fun '(clean, reason) => Ended clean reason) (p_end p)).
Lemma written_snoc items pos d : items !! pos = Some d ->
  written (take (S pos) items) = written (take pos items) ++ usb_transfers (bulk_out conn) sid d (max_packet_size conn).
Proof. intros E. unfold written. rewrite (take_S_r _ _ _ E), map_app, concat_app. cbn [map concat]. by rewrite app_nil_r. Qed.

Context (Hmps : 0 < max_packet_size conn).
Lemma writer_turn_inv out0 p s : pump_inv out0 p s -> p_writing p = true ->
  wp (usb_writer_turn conn sid tx (p_pos p))
    (fun r s' => usb_in (us_link s') = usb_in (us_link s) /\
       match r with
       | Some pos => pump_inv out0 (mkPump (p_end p) pos true (p_outcome p)) s' /\
           (is_Some (p_end p) -> pos = S (p_pos p)) /\ UsbMap.session_queues (usb_map (us_host s')) = UsbMap.session_queues (usb_map (us_host s))
       | None => pump_inv out0 (mkPump (p_end p) (p_pos p) false (p_outcome p)) s'
       end) (fun _ _ => False) s.
Proof using Hmps.
  intros (items & Hq & Hne & Hok & Hnx & Ho & Hp & Hs & Hw & Hoc) Ew. rewrite Ew in Hq. unfold usb_writer_turn. apply wp_bind, wp_get.
  unfold queue_of in Hq. rewrite Hq. cbn [mbind option_bind q_items].
  destruct (items !! p_pos p) as [d|] eqn:Ed.
  - apply wp_bind, wp_try, wp_zoom. assert (Hd : d <> []) by (rewrite Forall_lookup in Hne; by eapply Hne).
    pose proof (send_usb_raw_free (bulk_out conn) sid d (max_packet_size conn) (usb_in (us_link s)) (usb_out (us_link s)) Hd Hmps) as E.
    rewrite <- Hnx in E at 1. unfold wp. destruct (us_link s) as [ui uo un] eqn:El. cbn [usb_in usb_out usb_out_next] in E. rewrite E.
    cbn [mret M_ret us_link us_host usb_in]. split; [done|]. split_and!; [|done|done]. apply lookup_lt_Some in Ed as Hlt.
    exists items. cbn [us_link us_host usb_in usb_out usb_out_next p_writing p_pos p_end p_outcome link_ok] in *. split_and!; try done.
    + rewrite (written_snoc _ _ _ Ed), Ho, <- app_assoc. done.
    + intros Hx. apply Hoc in Hx as [Hx _]. congruence.
  - apply lookup_ge_None in Ed. assert (Epos : p_pos p = length items) by lia. case_bool_decide as Hb.
    + apply wp_ret. split; [done|]. unfold sender_of in Hs. rewrite Hb in Hs. destruct (p_end p) eqn:Ee; [done|]. split_and!; [|by intros []|done].
      exists items. rewrite <- Ee in *. unfold queue_of, sender_of. rewrite Ee. cbn [p_writing p_pos p_end p_outcome]. split_and!; try done.
      intros Hx. apply Hoc in Hx as [Hx _]. congruence.
    + apply wp_bind, wp_zoom, wp_zoom, wp_modify. apply wp_ret. cbn [us_link us_host]. split; [done|]. exists items.
      unfold sender_of in *. destruct (p_end p) eqn:Ee; [|done]. unfold queue_of. cbn [p_writing p_pos p_end p_outcome us_host us_link].
      split_and!; try done.
      * cbn. by rewrite lookup_alter_eq, Hq.
      * cbn. apply lookup_delete_eq.
      * intros Hx. apply Hoc in Hx as [Hx _]. congruence.
Qed.

(** The rest of the server sends messages to the session, and otherwise leaves its sender
    and its queue alone. *)
Definition env_ok (e : PumpEvent) : Prop :=
  match e with
  | PSend data => data <> []
  | POther f => forall h, sender_of (f h) = sender_of h /\ queue_of (f h) = queue_of h
  | _ => True
  end.
(** What a step of each kind achieves. *)
Definition pump_done (e : PumpEvent) (p : Pump) (s : UsbSession) (p' : Pump) (s' : UsbSession) : Prop :=
  match e with
  | PRead => p_writing p' = p_writing p /\
      match p_end p' with
      | None => (length (usb_in (us_link s')) < length (usb_in (us_link s)))%nat
      | Some _ => connect_map (us_host s') !! serial = None /\ forall c, UsbMap.response_channels (usb_map (us_host s')) !! (sid, c) = None
      end
  | PWrite => p_end p' = p_end p /\ p_outcome p' = p_outcome p /\
      (is_Some (p_end p) -> p_writing p' = true -> p_pos p' = S (p_pos p) /\ queue_of (us_host s') = queue_of (us_host s))
  | PJoin => is_Some (p_outcome p') /\ (forall c, TcpMap.channel_sessions (tcp_map (us_host s')) !! c <> Some sid) /\
      forward_map (us_host s') = filter (fun e => matches_filter serial e.2 = false) (forward_map (us_host s))
  | _ => True
  end.
Lemma posted_inv out0 p s h' l' : pump_inv out0 p s -> posted (us_host s) h' -> link_ok l' ->
  usb_out l' = usb_out (us_link s) -> usb_out_next l' = usb_out_next (us_link s) -> forall f, pump_inv out0 p (mkUsbSession h' l' f).
Proof.
  intros (items & Hq & Hne & Hok & Hnx & Ho & Hp & Hs & Hw & Hoc) (Es & Ps) Hl E1 E2 f. destruct (Ps _ _ Hq) as (ds & Q & Fd & N).
  exists (items ++ ds). cbn [us_host us_link]. rewrite E1, E2, Es. split_and!; try done.
  - by apply Forall_app.
  - by rewrite take_app_le.
  - rewrite length_app. lia.
  - intros Hf. destruct (Hw Hf) as [He Hl2]. rewrite N by (by left). by rewrite app_nil_r.
Qed.
Lemma pump_step_wp out0 e p s : pump_inv out0 p s -> pump_enabled e p = true -> env_ok e ->
  wp (pump_step conn seed sid serial tx e p) (fun p' s' => pump_inv out0 p' s' /\ pump_done e p s p' s') (fun _ _ => False) s.
Proof using Hmps HL.
  intros Hi Hen He. pose proof Hi as (items & Hq & Hne & Hok & Hnx & Ho & Hp & Hs & Hw & Hoc).
  destruct e as [| | |d|f]; cbn [pump_step pump_enabled env_ok] in *.
  - apply bool_decide_eq_true in Hen. rewrite Hen in Hs. apply wp_bind. eapply wp_mono; [by apply usb_reader_turn_wp| |done].
    intros r s1 (R1 & R2 & R3 & R4 & R5). assert (Hi1 : pump_inv out0 p s1).
    { destruct s1 as [h1 l1 f1]. eapply posted_inv; try done. }
    destruct r as [[clean reason]|].
    + apply wp_bind. unfold usb_unregister. apply wp_bind, wp_zoom, wp_zoom, wp_modify, wp_zoom, wp_zoom, wp_modify, wp_ret.
      cbn [us_host us_link]. split.
      * destruct Hi1 as (items1 & Q1 & H1 & H2 & H3 & H4 & H5 & H6 & H7 & H8). exists items1. unfold queue_of, sender_of in *. cbn in *.
        split_and!; try done; [apply lookup_delete_eq|]. intros Hf. destruct (H7 Hf) as [[x Hx] _]. congruence.
      * cbn. split_and!; [done|apply lookup_delete_eq|]. intros c. apply map_lookup_filter_None. right. intros x _. cbn. tauto.
    + apply wp_ret. split; [done|]. split; [done|]. rewrite Hen. by apply R5.
  - apply wp_bind. eapply wp_mono; [by apply writer_turn_inv| |done]. intros [pos|] s1 (_ & H1).
    + destruct H1 as (H1 & H2 & H3). apply wp_ret. split; [done|]. cbn. split_and!; [done..|]. intros Hx _. split; [auto|]. unfold queue_of. by rewrite H3.
    + apply wp_ret. split; [done|]. by cbn.
  - apply andb_prop in Hen as [[[[clean reason] Ee]%bool_decide_eq_true Ew%negb_true_iff]%andb_prop Eo%bool_decide_eq_true].
    rewrite Ew in Hq. apply wp_bind. eapply wp_mono; [by apply (cleanup_wp items)| |done]. intros _ s1 (K1 & K2 & K3 & K4 & K5 & K6 & K7).
    apply wp_ret. rewrite Ee. split.
    + exists items. cbn. rewrite K1, K2, Hs, Ee. split_and!; try done. intros _. split; [done|]. by apply Hw.
    + cbn. split_and!; [done| |done]. intros c Hc. apply (K7 c Hc).
  - apply wp_bind, wp_try, wp_zoom. eapply wp_mono; [by apply send_posted|..]; (intros ? h' P; apply wp_ret; split; [|done]; by eapply posted_inv).
  - apply wp_bind, wp_zoom, wp_modify, wp_ret. split; [|done]. destruct (He (us_host s)) as [E1 E2]. eapply posted_inv; try done. by apply posted_none.
Qed.

Lemma runs_inv s0 es p s :
  link_ok (us_link s0) -> usb_out_next (us_link s0) = [] -> sender_of (us_host s0) = Some tx ->
  queue_of (us_host s0) = Some (mkQueue [] true) -> Forall env_ok es ->
  pump_runs conn seed sid serial tx new_pump s0 es p s ->
  pump_inv (usb_out (us_link s0)) p s /\
  forall e, last es = Some e -> exists p1 s1, pump_done e p1 s1 p s.
Proof using Hmps HL.
  intros Hl Hn Hs Hq He Hr. induction Hr as [|es p s e p' s' Hr IH Hen Est].
  - split; [|done]. exists []. cbn. rewrite app_nil_r. by split_and!.
  - apply Forall_app in He as [He1 He2]. apply Forall_cons in He2 as [He2 _]. destruct (IH He1) as [Hi _].
    pose proof (pump_step_wp _ e p s Hi Hen He2) as Hw. unfold wp in Hw. rewrite Est in Hw. destruct Hw as [H1 H2].
    split; [done|]. intros e'. rewrite last_snoc. intros [= <-]. by exists p, s.
Qed.

(** *** The end of a session, whatever becomes of its writes

    Without a hypothesis on the writes: the writer holds its end of the queue while it runs,
    and the session has its sender while both tasks run. *)
Definition live_inv (p : Pump) (s : UsbSession) : Prop :=
  exists items, queue_of (us_host s) = Some (mkQueue items (p_writing p)) /\ link_ok (us_link s) /\ (p_pos p <= length items)%nat /\
    sender_of (us_host s) = (if bool_decide (p_end p = None) && p_writing p then Some tx else None) /\
    (is_Some (p_outcome p) -> p_writing p = false).
Lemma live_posted p s h' l' f : live_inv p s -> posted (us_host s) h' -> link_ok l' -> live_inv p (mkUsbSession h' l' f).
Proof.
  intros (items & Hq & Hok & Hp & Hs & Ho) (Es & Ps) Hl. destruct (Ps _ _ Hq) as (ds & Q & _ & N).
  exists (items ++ ds). cbn [us_host us_link]. rewrite Es, length_app. split_and!; try done. lia.
Qed.
Lemma live_leave p s : live_inv p s -> p_writing p = true -> p_outcome p = None ->
  wp (on_uhost (on_usb (modify (fun m =>
      UsbMap.mk (delete sid (UsbMap.session_senders m)) (UsbMap.response_channels m)
        (alter (fun q => mkQueue (q_items q) false) tx (UsbMap.session_queues m)) (UsbMap.response_queues m)))))
    (fun _ s' => live_inv (mkPump (p_end p) (p_pos p) false (p_outcome p)) s') (fun _ _ => False) s.
Proof.
  intros (items & Hq & Hok & Hp & Hs & Ho) Ew Eo. apply wp_zoom, wp_zoom, wp_modify. rewrite Ew in Hq. exists items. unfold queue_of, sender_of in *.
  cbn. rewrite lookup_alter_eq, Hq, lookup_delete_eq, andb_false_r. by split_and!.
Qed.
Lemma live_write p s : live_inv p s -> p_writing p = true -> p_outcome p = None ->
  wp (usb_writer_turn conn sid tx (p_pos p))
    (fun r s' => match r with
       | Some pos => live_inv (mkPump (p_end p) pos true (p_outcome p)) s' /\
           (is_Some (p_end p) -> pos = S (p_pos p) /\ queue_of (us_host s') = queue_of (us_host s))
       | None => live_inv (mkPump (p_end p) (p_pos p) false (p_outcome p)) s'
       end) (fun _ _ => False) s.
Proof using Hmps.
  intros Hi Ew Eo. pose proof Hi as (items & Hq & Hok & Hp & Hs & _). rewrite Ew in Hq. unfold usb_writer_turn. apply wp_bind, wp_get.
  unfold queue_of in Hq. rewrite Hq. cbn [mbind option_bind q_items]. destruct (items !! p_pos p) as [d|] eqn:Ed.
  - apply wp_bind, wp_try, wp_zoom. destruct (writes_raw (bulk_out conn) sid d _ Hmps (us_link s)) as [H1 H2]. unfold wp at 1.
    destruct (send_usb_raw _ _ _ _ (us_link s)) as [[u|e|] c]; cbn [fst snd] in *; [| |done].
    + apply wp_ret. split; [|done]. apply lookup_lt_Some in Ed. exists items. rewrite Ew in Hs. cbn. unfold link_ok in *. rewrite H2. split_and!; try done. intros [x Hx]. cbn in Hx. congruence.
    + apply wp_bind. assert (Hl : live_inv p (mkUsbSession (us_host s) c (us_files s))).
      { destruct Hi as (items' & Q & K). exists items'. unfold link_ok in *. cbn. by rewrite H2. }
      eapply wp_mono; [by apply live_leave| |done]. intros ? s' H. by apply wp_ret.
  - destruct (decide (UsbMap.session_senders (usb_map (us_host s)) !! sid = Some tx)) as [Hb|Hb];
      [rewrite bool_decide_eq_true_2 by done|rewrite bool_decide_eq_false_2 by done].
    + apply wp_ret. unfold sender_of in Hs. rewrite Hb, Ew in Hs.
      destruct (decide (p_end p = None)) as [Ee|Ee]; [|by rewrite bool_decide_eq_false_2 in Hs]. split; [|rewrite Ee; by intros []].
      destruct p as [pe pp pw po]. cbn in *. by subst.
    + apply wp_bind. eapply wp_mono; [by apply live_leave| |done]. intros ? s' H. by apply wp_ret.
Qed.
(** What a step of each kind achieves on the way to the end. *)
Definition live_done (e : PumpEvent) (p : Pump) (s : UsbSession) (p' : Pump) (s' : UsbSession) : Prop :=
  match e with
  | PRead => p_outcome p' = None /\ (p_end p' = None -> (length (usb_in (us_link s')) < length (usb_in (us_link s)))%nat)
  | PWrite => p_end p' = p_end p /\ p_outcome p' = p_outcome p /\
      (is_Some (p_end p) -> p_writing p' = true -> p_pos p' = S (p_pos p) /\ queue_of (us_host s') = queue_of (us_host s))
  | PJoin => is_Some (p_outcome p') /\ (forall c, TcpMap.channel_sessions (tcp_map (us_host s')) !! c <> Some sid) /\
      forward_map (us_host s') = filter (fun e => matches_filter serial e.2 = false) (forward_map (us_host s))
  | _ => True
  end.
Lemma live_outcome p s : live_inv p s -> p_writing p = true -> p_outcome p = None.
Proof. intros (items & _ & _ & _ & _ & Ho) Ew. destruct (p_outcome p); [|done]. rewrite Ho in Ew; [done|by eexists]. Qed.
Lemma live_step e p s : live_inv p s -> pump_enabled e p = true -> env_ok e -> (p_end p = None -> p_outcome p = None) ->
  wp (pump_step conn seed sid serial tx e p) (fun p' s' => live_inv p' s' /\ live_done e p s p' s' /\ (p_end p' = None -> p_outcome p' = None)) (fun _ _ => False) s.
Proof using Hmps HL.
  intros Hi Hen He Hnone. pose proof Hi as (items & Hq & Hok & Hp & Hs & Ho). destruct e as [| | |d|f]; cbn [pump_step pump_enabled env_ok] in *.
  - apply bool_decide_eq_true in Hen. apply wp_bind. eapply wp_mono; [by apply usb_reader_turn_wp| |done].
    intros r [h1 l1 f1] (_ & _ & R3 & R4 & R5). assert (Hi1 : live_inv p (mkUsbSession h1 l1 f1)) by (by eapply live_posted).
    destruct r as [[clean reason]|]; [|apply wp_ret; cbn; auto 6].
    apply wp_bind. unfold usb_unregister. apply wp_bind, wp_zoom, wp_zoom, wp_modify, wp_zoom, wp_zoom, wp_modify, wp_ret. split; [|done].
    destruct Hi1 as (items1 & Q1 & H1 & H2 & H3 & H4). exists items1. unfold queue_of, sender_of in *. cbn in *. rewrite lookup_delete_eq. by split_and!.
  - apply wp_bind. pose proof (live_outcome p s Hi Hen) as Eo. eapply wp_mono; [by apply live_write| |done]. intros [pos|] s1 H1.
    + destruct H1 as [H1 H2]. apply wp_ret. cbn. rewrite Eo in *. split_and!; auto.
    + apply wp_ret. cbn. rewrite Eo in *. split_and!; auto. done.
  - apply andb_prop in Hen as [[[[clean reason] Ee]%bool_decide_eq_true Ew%negb_true_iff]%andb_prop Eo%bool_decide_eq_true].
    rewrite Ew in Hq. apply wp_bind. eapply wp_mono; [by apply (cleanup_wp items)| |done]. intros _ s1 (K1 & K2 & K3 & _ & _ & K6 & K7).
    apply wp_ret. rewrite Ee. split_and!; try done. exists items. cbn. rewrite K1, K2, Hs, Ee. by split_and!.
  - apply wp_bind, wp_try, wp_zoom. eapply wp_mono; [by apply send_posted|..]; (intros ? h' P; apply wp_ret; split; [|by cbn]; by eapply live_posted).
  - apply wp_bind, wp_zoom, wp_modify, wp_ret. split; [|by cbn]. destruct (He (us_host s)) as [E1 E2]. eapply live_posted; try done. by apply posted_none.
Qed.
Lemma runs_live s0 es p s :
  link_ok (us_link s0) -> sender_of (us_host s0) = Some tx -> queue_of (us_host s0) = Some (mkQueue [] true) -> Forall env_ok es ->
  pump_runs conn seed sid serial tx new_pump s0 es p s -> live_inv p s /\ (p_end p = None -> p_outcome p = None).
Proof using Hmps HL.
  intros Hl Hs Hq He Hr. induction Hr as [|es p s e p' s' Hr IH Hen Est].
  - split; [|done]. exists []. cbn. split_and!; done || by intros [].
  - apply Forall_app in He as [He1 [He2 _]%Forall_cons]. destruct (IH He1) as [Hi Hn].
    pose proof (live_step e p s Hi Hen He2 Hn) as Hw. unfold wp in Hw. rewrite Est in Hw. by destruct Hw as (H1 & _ & H2).
Qed.
(** A step can be made, and what it achieves. *)
Lemma exec_step e p s : live_inv p s -> (p_end p = None -> p_outcome p = None) -> pump_enabled e p = true -> env_ok e ->
  exists p' s', exec pump_enabled (pump_step conn seed sid serial tx) [e] p s = Some (p', s') /\ live_inv p' s' /\ live_done e p s p' s' /\
    (p_end p' = None -> p_outcome p' = None).
Proof using Hmps HL.
  intros Hi Hn Hen He. pose proof (live_step e p s Hi Hen He Hn) as Hw. unfold wp in Hw. cbn [exec]. rewrite Hen.
  destruct (pump_step _ _ _ _ _ e p s) as [[p'| |] s']; [|done..]. eauto.
Qed.
(** The reader ends, then the writer, then the session. *)
Lemma reader_ends_soon n p s : live_inv p s -> p_outcome p = None -> (length (usb_in (us_link s)) <= n)%nat ->
  exists k p' s', exec pump_enabled (pump_step conn seed sid serial tx) (replicate k PRead) p s = Some (p', s') /\ live_inv p' s' /\
    is_Some (p_end p') /\ p_outcome p' = None.
Proof using Hmps HL.
  revert p s; induction n as [n IH] using lt_wf_ind; intros p s Hi Ho Hn. destruct (p_end p) as [r|] eqn:Ee.
  { exists 0%nat, p, s. by rewrite Ee. }
  destruct (exec_step PRead p s Hi ltac:(done) ltac:(by cbn; rewrite Ee) I) as (p1 & s1 & E1 & H1 & (D0 & D1) & _).
  destruct (p_end p1) as [r|] eqn:Ee1; [exists 1%nat, p1, s1; by rewrite Ee1|]. specialize (D1 eq_refl).
  destruct (IH (length (usb_in (us_link s1))) ltac:(lia) p1 s1 H1 D0 ltac:(lia)) as (k & p2 & s2 & E2 & H2 & H3 & H4).
  exists (S k), p2, s2. split_and!; [|done..]. change (replicate (S k) PRead) with ([PRead] ++ replicate k PRead). by rewrite (exec_app _ _ _ _ _ _ _ _ E1).
Qed.
Lemma writer_ends_soon n p s items : live_inv p s -> is_Some (p_end p) -> queue_of (us_host s) = Some (mkQueue items (p_writing p)) ->
  (length items - p_pos p <= n)%nat ->
  exists k p' s', exec pump_enabled (pump_step conn seed sid serial tx) (replicate k PWrite) p s = Some (p', s') /\ live_inv p' s' /\
    is_Some (p_end p') /\ p_writing p' = false /\ p_outcome p' = p_outcome p.
Proof using Hmps HL.
  revert p s; induction n as [n IH] using lt_wf_ind; intros p s Hi Hend Hq Hn. destruct (p_writing p) eqn:Ew; [|by exists 0%nat, p, s].
  destruct (exec_step PWrite p s Hi ltac:(by destruct Hend as [? ->]) ltac:(by cbn) I) as (p1 & s1 & E1 & H1 & (D1 & D2 & D3) & _).
  destruct (p_writing p1) eqn:Ew1; [|exists 1%nat, p1, s1; by rewrite D1].
  destruct (D3 Hend eq_refl) as [F1 F2]. rewrite Hq in F2. rewrite <- Ew1 in F2.
  assert (Hlt : (p_pos p < length items)%nat).
  { destruct H1 as (items' & Q & _ & L & _). rewrite F2 in Q. injection Q as <-. lia. }
  destruct (IH (length items - p_pos p1)%nat ltac:(lia) p1 s1 H1 ltac:(by rewrite D1) F2 ltac:(lia)) as (k & p2 & s2 & E2 & H2 & H3 & H4 & H5).
  exists (S k), p2, s2. split_and!; [|done..|congruence]. change (replicate (S k) PWrite) with ([PWrite] ++ replicate k PWrite).
  by rewrite (exec_app _ _ _ _ _ _ _ _ E1).
Qed.
End PumpFacts.

(** ** The start of a session *)

Section StartFacts.
Context {HA : Aead} {HI : HashIter} {HR : Rsa} {HF : HostFs}.

Lemma connect_no_panic devices serial : connect_usb_device devices serial <> Panic.
Proof.
  destruct devices as [e|l]; [done|]. cbn. induction l as [|d l IH]; [done|]. cbn [connect_loop].
  destruct (device_descriptor d); [done|]. destruct (opened d) as [|[|ds]]; [done..|]. case_if; [done|].
  destruct (config_of d); [done|]. destruct (find_interface _) as [[[i bi] bo]|]; [|done]. by destruct (claim_interface d i).
Qed.
Lemma clear_channel_wp n ep s : link_ok (us_link s) ->
  wp (clear_channel n ep) (fun _ s' => us_host s' = us_host s /\ link_ok (us_link s')) (fun _ _ => False) s.
Proof.
  revert s; induction n as [|n IH]; intros s Hok; cbn [clear_channel]; [by apply wp_ret|].
  apply wp_bind, wp_try, wp_zoom. unfold read_usb_drop. apply wp_bind. destruct (read_bulk_ok ep 512 500 _ Hok) as (H1 & H2 & _). unfold wp at 1.
  destruct (read_bulk ep 512 500 (us_link s)) as [[b|e|] c]; cbn [fst snd] in *; [| |done].
  - apply wp_ret. case_if; [by apply wp_ret|]. eapply wp_mono; [by apply IH| |done]. done.
  - by apply wp_ret.
Qed.

Context (conn : AsyncUsbConnection) (Hmps : 0 < max_packet_size conn).
Lemma send_usb_handshake_wp ty sid serial buf s : link_ok (us_link s) ->
  wp (send_usb_handshake conn ty sid serial buf) (fun _ s' => us_host s' = us_host s /\ link_ok (us_link s'))
     (fun _ s' => us_host s' = us_host s /\ link_ok (us_link s')) s.
Proof using Hmps.
  intros Hok. apply wp_zoom. unfold send_usb_message.
  destruct (writes_raw (bulk_out conn) sid (concat_pack (host_handshake_message ty sid serial buf)) _ Hmps (us_link s)) as [H1 H2].
  unfold wp. unfold link_ok in *. destruct (send_usb_raw _ _ _ _ _) as [[u|e|] c]; cbn [fst snd us_host us_link] in *; [by rewrite H2..|done].
Qed.
Lemma answer_usb_auth_wp seed sid serial hs s : link_ok (us_link s) ->
  wp (answer_usb_auth conn seed sid serial hs)
     (fun r s' => us_host s' = us_host s /\ link_ok (us_link s') /\
        (r = inr true -> us_link s' = us_link s /\ SessionHandShake.auth_type hs = AuthType.as_u8 AuthType.AuthOk)) (fun _ _ => False) s.
Proof using Hmps.
  intros Hok. unfold answer_usb_auth. case_if; [by apply wp_ret|].
  assert (Hrep : forall kind (make : M Files bytes) (made sent : string), total make ->
    wp (r ← try_ (on_ufiles make);
        match r with
        | Ok text => w ← try_ (send_usb_handshake conn (AuthType.as_u8 kind) sid serial text);
            match w with Err e => mret (inl (lit sent ++ err_msg e)) | _ => mret (inr false) end
        | Err e => mret (inl (lit made ++ err_msg e))
        | Panic => lift Panic
        end)
      (fun r s' => us_host s' = us_host s /\ link_ok (us_link s') /\
         (r = inr true -> us_link s' = us_link s /\ SessionHandShake.auth_type hs = AuthType.as_u8 AuthType.AuthOk)) (fun _ _ => False) s).
  { intros kind make made sent Ht. apply wp_bind, wp_try, wp_zoom. specialize (Ht (us_files s)). unfold wp at 1.
    destruct (make (us_files s)) as [[text|e|] f]; [|by apply wp_ret|done]. apply wp_bind, wp_try.
    eapply wp_mono; [by apply send_usb_handshake_wp|..]; intros ? s2 [E2 L2]; apply wp_ret; cbn [us_host] in *; by split_and!. }
  case_if; [by apply wp_ret|]. case_if; [apply Hrep, public_key_total|]. case_if; [apply Hrep, sign_total|]. case_if; by apply wp_ret.
Qed.
(** The daemon accepted: what was read last is its handshake. *)
Definition accepted_by (sid : Z) (buf : bytes) (c : UsbLink) : Prop :=
  exists c0 rid m hs, recv_usb_message (bulk_in conn) c0 = (Ok (rid, m), c) /\ command m = KernelHandshake /\
    SessionHandShake.deserialize (payload m) = Ok hs /\ SessionHandShake.auth_type hs = AuthType.as_u8 AuthType.AuthOk /\
    SessionHandShake.buf hs = buf /\ (rid <> 0 -> sid = rid).
Lemma usb_auth_rounds_wp timeout seed serial n sid s : link_ok (us_link s) ->
  wp (usb_auth_rounds timeout conn seed sid serial n)
     (fun r s' => us_host s' = us_host s /\ match r with inl _ => True | inr (sid', buf) => accepted_by sid' buf (us_link s') end)
     (fun _ _ => False) s.
Proof using Hmps.
  revert sid s; induction n as [|n IH]; intros sid s Hok; cbn [usb_auth_rounds]; [by apply wp_ret|]. case_if; [by apply wp_ret|].
  apply wp_bind, wp_try, wp_zoom. pose proof (recv_usb_no_panic (bulk_in conn) _ Hok) as Hnp. unfold wp at 1.
  pose proof (recv_usb_reads (bulk_in conn) (us_link s)) as (_ & _ & [pre H3]).
  assert (Hl : link_ok (recv_usb_message (bulk_in conn) (us_link s)).2).
  { unfold link_ok in *. rewrite H3 in Hok. apply Forall_app in Hok as [_ Hok]. exact Hok. }
  destruct (recv_usb_message (bulk_in conn) (us_link s)) as [[[rid m]|e|] c] eqn:Er; cbn [fst snd] in *; [|by apply wp_ret|done].
  destruct (cmd_eqb (command m) KernelHandshake) eqn:Ec; cbn [negb];
    [|exact (IH sid (mkUsbSession (us_host s) c (us_files s)) Hl)].
  pose proof (proj1 (SessionHandShake_total (payload m))) as Hn.
  destruct (SessionHandShake.deserialize (payload m)) as [hs|e|] eqn:Eh; [|by apply wp_ret|done].
  set (sid' := if negb (rid =? 0) then rid else sid). apply wp_bind.
  eapply wp_mono; [by apply answer_usb_auth_wp| |done]. intros o s2 (E2 & L2 & A2). cbn [us_host us_link] in *. destruct o as [reason|[|]].
  - by apply wp_ret.
  - apply wp_ret. split; [done|]. destruct (A2 eq_refl) as [-> Ha]. exists (us_link s), rid, m, hs. split_and!; try done.
    + by apply cmd_eqb_spec.
    + intros Hr. unfold sid'. by rewrite (proj2 (Z.eqb_neq rid 0)).
  - eapply wp_mono; [by apply IH| |done]. intros r s3 [E3 H]. split; [congruence|done].
Qed.
End StartFacts.

(** ** Theorems *)

(** C8: the start of a session over USB, whatever the device sends.  It fails with a reason, and
    then the server has changed only the device's status, to offline; or what was read last
    is the daemon's handshake that accepts the host, the device is registered as connected
    with the session's identifier (the daemon's, if it gave one) and the name in that
    handshake, and the session has a queue of its own.  A panic means that the buffer of such
    a handshake cannot be cut into its entries. *)
Theorem usb_start_sound {HA : Aead} {HI : HashIter} {HR : Rsa} {HF : HostFs} (devices : bytes + list UsbDevice) (timeout : nat -> bool)
    (clears : nat) (seed session_id : Z) (serial : bytes) (s : UsbSession) :
  (forall conn, connect_usb_device devices serial = Ok conn -> 0 < max_packet_size conn) -> link_ok (us_link s) ->
  match start_usb_session devices timeout clears seed session_id serial s with
  | (Ok (inl o), s') => (exists reason, o = Failed reason) /\
      us_host s' = set_connect_map (ConnectMap.update_status serial Offline (connect_map (us_host s))).2 (us_host s)
  | (Ok (inr (conn, sid, tx)), s') => connect_usb_device devices serial = Ok conn /\
      exists buf entries, accepted_by conn sid buf (us_link s') /\ HostTlv.parse_tlv buf = Ok entries /\
        queue_of tx (us_host s) = None /\ queue_of tx (us_host s') = Some (mkQueue [] true) /\ sender_of sid (us_host s') = Some tx /\
        us_host s' = set_usb_map (usb_map (us_host s')) (set_connect_map
          (<[serial := DaemonInfo.mk sid (Usb serial) Connected (default [] (entries !! lit "devname")) []]> (connect_map (us_host s))) (us_host s))
  | (Err _, _) => False
  | (Panic, s') => exists conn sid buf, accepted_by conn sid buf (us_link s') /\ HostTlv.parse_tlv buf = Panic
  end.
Proof.
  intros Hm Hok. unfold start_usb_session. pose proof (connect_no_panic devices serial) as Hc.
  assert (Hoff : forall reason s1, us_host s1 = us_host s ->
    exists s', usb_offline (B := AsyncUsbConnection * Z * positive) serial reason s1 = (Ok (inl (Failed reason)), s') /\
      us_host s' = set_connect_map (ConnectMap.update_status serial Offline (connect_map (us_host s))).2 (us_host s)).
  { intros reason s1 E. eexists. split; [reflexivity|]. cbn. by rewrite E. }
  destruct (connect_usb_device devices serial) as [conn|e|] eqn:Ec; [| |done].
  2: { destruct (Hoff (lit "open device: " ++ err_msg e) s eq_refl) as (s' & -> & H). eauto. }
  specialize (Hm conn eq_refl). rewrite M_bind_eq. unfold try_ at 1, on_ulink at 1, zoom at 1.
  assert (Hw : writes_only (send_usb_soft_reset (bulk_out conn) 0)) by (apply writes_bind; [apply writes_bulk|done]).
  destruct (Hw (us_link s)) as [H1 H2]. destruct (send_usb_soft_reset (bulk_out conn) 0 (us_link s)) as [[[]|e|] c]; cbn [fst snd] in *; [| |done].
  2: { destruct (Hoff (lit "soft-reset send: " ++ err_msg e) (mkUsbSession (us_host s) c (us_files s)) eq_refl) as (s' & -> & H). eauto. }
  set (s1 := mkUsbSession _ _ _). assert (Hok1 : link_ok (us_link s1)) by (unfold link_ok; cbn; by rewrite H2).
  destruct (wp_value _ _ _ (clear_channel_wp clears (bulk_in conn) s1 Hok1)) as ([] & s2 & E2 & Hh2 & Hok2).
  rewrite (M_bind_Ok _ _ _ _ _ E2), M_bind_eq. unfold try_ at 1.
  pose proof (send_usb_handshake_wp conn Hm (AuthType.as_u8 AuthType.NoAuth) session_id serial usb_auth_tlv s2 Hok2) as Hs. unfold wp in Hs.
  destruct (send_usb_handshake _ _ _ _ _ s2) as [[[]|e|] s3]; [| |done]; destruct Hs as [Hh3 Hok3].
  2: { destruct (Hoff (lit "handshake send: " ++ err_msg e) s3 ltac:(by rewrite Hh3, Hh2)) as (s' & -> & H). eauto. }
  destruct (wp_value _ _ _ (usb_auth_rounds_wp conn Hm timeout seed serial MAX_AUTH_ATTEMPTS session_id s3 Hok3)) as (r & s4 & E4 & Hh4 & Ha).
  rewrite (M_bind_Ok _ _ _ _ _ E4). assert (Hh : us_host s4 = us_host s) by (by rewrite Hh4, Hh3, Hh2).
  destruct r as [reason|[sid buf]].
  { destruct (Hoff reason s4 Hh) as (s' & -> & H). eauto. }
  rewrite M_bind_eq. unfold lift. destruct (HostTlv.parse_tlv buf) as [entries|e|] eqn:Ep; [|by apply tlv_no_err in Ep|by eauto].
  rewrite M_bind_eq. cbn [on_uhost on_connect zoom ConnectMap.put modify]. rewrite M_bind_eq.
  cbn [on_uhost on_usb zoom new_session_queue us_host us_link us_files mret M_ret]. rewrite Hh. split; [done|]. exists buf, entries. split_and!; try done.
  - unfold queue_of. apply not_elem_of_dom, is_fresh.
  - unfold queue_of. cbn. apply lookup_insert_eq.
  - unfold sender_of. cbn. apply lookup_insert_eq.
Qed.

(** C7: a session over USB, in every interleaving of its reader, its writer and the rest of the
    server, on a connection that takes what is written.  The transfers are those of the
    messages put in the session's queue, in their order.  When the reader has ended the
    device and the session are no longer registered, and no handler waits on it any more;
    the outcome is there only when everything in the queue has been written; and then no
    client is bound to the session and no forwarding rule of the device is left. *)
Theorem usb_session_runs {HA : Aead} {HL : AeadLaws HA} {HI : HashIter} {HR : Rsa} {HF : HostFs}
    (conn : AsyncUsbConnection) (seed sid : Z) (serial : bytes) (tx : positive) (s0 s : UsbSession) (es : list PumpEvent) (p : Pump) :
  0 < max_packet_size conn -> link_ok (us_link s0) -> usb_out_next (us_link s0) = [] ->
  sender_of sid (us_host s0) = Some tx -> queue_of tx (us_host s0) = Some (mkQueue [] true) ->
  Forall (env_ok sid tx) es -> pump_runs conn seed sid serial tx new_pump s0 es p s ->
  exists items, queue_of tx (us_host s) = Some (mkQueue items (p_writing p)) /\
    usb_out (us_link s) = usb_out (us_link s0) ++ written conn sid (take (p_pos p) items) /\
    (is_Some (p_end p) -> sender_of sid (us_host s) = None) /\
    (is_Some (p_outcome p) -> p_outcome p = option_map (fun '(clean, reason) => Ended clean reason) (p_end p) /\
       usb_out (us_link s) = usb_out (us_link s0) ++ written conn sid items) /\
    (last es = Some PRead -> is_Some (p_end p) -> connect_map (us_host s) !! serial = None /\
       forall c, UsbMap.response_channels (usb_map (us_host s)) !! (sid, c) = None) /\
    (last es = Some PJoin -> is_Some (p_outcome p) /\ (forall c, TcpMap.channel_sessions (tcp_map (us_host s)) !! c <> Some sid) /\
       forall key e, forward_map (us_host s) !! key = Some e -> matches_filter serial e = false).
Proof.
  intros Hm Hl Hn Hs Hq He Hr.
  destruct (runs_inv conn seed sid serial tx Hm s0 es p s Hl Hn Hs Hq He Hr) as [(items & Q & _ & _ & _ & Ho & _ & Hs' & Hw & Hoc) Hd].
  exists items. split_and!; try done.
  - intros [x Hx]. by rewrite Hs', Hx.
  - intros Hx. destruct (Hoc Hx) as [Ew ->]. split; [done|]. destruct (Hw Ew) as [_ E]. by rewrite Ho, E, firstn_all.
  - intros El [x Hx]. destruct (Hd _ El) as (p1 & s1 & _ & D). by rewrite Hx in D.
  - intros El. destruct (Hd _ El) as (p1 & s1 & D1 & D2 & D3). split_and!; [done..|]. intros key e. rewrite D3.
    by intros [_ H]%map_lookup_filter_Some.
Qed.

(** C40: a session over USB comes to its end once its device is gone: from every state it can
    be in, also after writes that failed or ended short and when the writer is gone already, the
    finitely many transfers that are left are read, the writer ends, the cleanup is made and there
    is an outcome; then no client is bound to the session and no forwarding rule of the device is
    left.  (While a device is there and silent the reader waits, and no step is taken.  The
    endpoint's packet size is not zero, which would make the writer panic.) *)
Theorem usb_session_ends {HA : Aead} {HL : AeadLaws HA} {HI : HashIter} {HR : Rsa} {HF : HostFs}
    (conn : AsyncUsbConnection) (seed sid : Z) (serial : bytes) (tx : positive) (s0 s : UsbSession) (es : list PumpEvent) (p : Pump) :
  0 < max_packet_size conn -> link_ok (us_link s0) ->
  sender_of sid (us_host s0) = Some tx -> queue_of tx (us_host s0) = Some (mkQueue [] true) ->
  Forall (env_ok sid tx) es -> pump_runs conn seed sid serial tx new_pump s0 es p s -> p_outcome p = None ->
  exists i k p' s', pump_runs conn seed sid serial tx new_pump s0 (es ++ replicate i PRead ++ replicate k PWrite ++ [PJoin]) p' s' /\
    is_Some (p_outcome p') /\ (forall c, TcpMap.channel_sessions (tcp_map (us_host s')) !! c <> Some sid) /\
    (forall key e, forward_map (us_host s') !! key = Some e -> matches_filter serial e = false).
Proof.
  intros Hm Hl Hs Hq He Hr Ho.
  destruct (runs_live conn seed sid serial tx Hm s0 es p s Hl Hs Hq He Hr) as [Hi _].
  destruct (reader_ends_soon conn seed sid serial tx Hm _ p s Hi Ho (le_n _)) as (i & p1 & s1 & E1 & H1 & [x Hx] & Ho1).
  pose proof H1 as (items & Q1 & _).
  destruct (writer_ends_soon conn seed sid serial tx Hm _ p1 s1 items H1 ltac:(by rewrite Hx) Q1 (le_n _)) as (k & p2 & s2 & E2 & H2 & [y Hy] & H4 & H5).
  destruct (exec_step conn seed sid serial tx Hm PJoin p2 s2 H2) as (p3 & s3 & E3 & H6 & (D1 & D2 & D3) & _).
  { by rewrite Hy. }
  { cbn. by rewrite H4, H5, Ho1, Hy. }
  { done. }
  exists i, k, p3, s3. split_and!; [|done|done|].
  - eapply run_exec; [exact Hr|]. by rewrite (exec_app _ _ _ _ _ _ _ _ E1), (exec_app _ _ _ _ _ _ _ _ E2).
  - intros key e. rewrite D3. by intros [_ H]%map_lookup_filter_Some.
Qed.

Section UsbWitness.
#[local] Existing Instance ToyAead.aead.
#[local] Existing Instance ToyAead.laws.
#[local] Existing Instance SomeOrder.order.
#[local] Existing Instance ToyRsa.rsa.
#[local] Existing Instance ToyRsa.files.
(** The transfers a device sends for a message. *)
Definition usb_arrives (sid : Z) (m : TaskMessage) : list Outcome := map (fun t => Completed 0 t.2) (usb_transfers 129 sid (concat_pack m) 512).
(** A daemon that asks for the public key, changes the session to 9 and accepts. *)
Definition daemon_answer (auth_type : Z) (buf : bytes) : TaskMessage :=
  mkTaskMessage 0 KernelHandshake (SessionHandShake.serialize (SessionHandShake.mk HANDSHAKE_MESSAGE auth_type 9 [] buf [])).
Definition plugged : UsbSession :=
  mkUsbSession new_host (mkUsbLink (usb_arrives 9 (daemon_answer (AuthType.as_u8 AuthType.Publickey) []) ++
    usb_arrives 9 (daemon_answer (AuthType.as_u8 AuthType.AuthOk) (make_tlv (lit "devname") (lit "phone")))) [] []) ∅.

#[local] Instance outcome_ok_dec o : Decision (outcome_ok o).
Proof. destruct o; apply _. Defined.

Lemma usb_start_sound_witness : exists s' (entries : TlvMap),
  start_usb_session (inr [sample_device]) (fun _ => false) 0 1 7 (lit "SN1") plugged =
    (Ok (inr (mkAsyncUsbConnection 3 129 2 512, 9, 1%positive)), s') /\
  us_host s' = set_usb_map (usb_map (us_host s')) (set_connect_map
    {[lit "SN1" := DaemonInfo.mk 9 (Usb (lit "SN1")) Connected (default [] (entries !! lit "devname")) []]} new_host).
Proof.
  assert (E : (start_usb_session (inr [sample_device]) (fun _ => false) 0 1 7 (lit "SN1") plugged).1 =
    Ok (inr (mkAsyncUsbConnection 3 129 2 512, 9, 1%positive))) by (by vm_compute).
  pose proof (usb_start_sound (inr [sample_device]) (fun _ => false) 0 1 7 (lit "SN1") plugged) as H.
  destruct (start_usb_session (inr [sample_device]) (fun _ => false) 0 1 7 (lit "SN1") plugged) as [r s']. cbn [fst] in E. rewrite E in H.
  destruct H as (_ & buf & entries & _ & _ & _ & _ & _ & Hh).
  - intros conn. vm_compute. by intros [= <-].
  - unfold link_ok. apply (bool_decide_unpack _). by vm_compute.
  - exists s', entries. rewrite E. split; [exact eq_refl|exact Hh].
Defined.

(** A session with a client on channel 5 and a rule: a message is sent to the daemon, a
    line comes for the client, and the device is unplugged. *)
Definition usb_conn : AsyncUsbConnection := mkAsyncUsbConnection 3 129 2 512.
Definition connected_host : Host :=
  mkHost {[lit "SN1" := DaemonInfo.mk 9 (Usb (lit "SN1")) Connected [] []]}
    (TcpMap.set_channel_sessions (fun _ => {[5 := 9]}) (TcpMap.set_channel_writers (fun _ => {[5 := mkWriter [] None]}) TcpMap.new))
    (UsbMap.mk {[9 := 1%positive]} {[(9, 8) := 1%positive]} {[1%positive := mkQueue [] true]} ∅)
    {[lit "tcp:1 tcp:2" := ForwardEntry.mk 5 9 (lit "SN1") Reverse (lit "tcp:1 tcp:2") None]} ∅.
Definition connected : UsbSession :=
  mkUsbSession connected_host (mkUsbLink (usb_arrives 9 (mkTaskMessage 5 KernelEchoRaw (lit "hi")) ++ [Completed 5 []]) [] []) ∅.
Definition usb_events : list PumpEvent :=
  [PSend (concat_pack (mkTaskMessage 5 UnityExecute (lit "ls"))); PRead; PWrite; PRead; PWrite; PJoin].
Definition usb_played : option (Pump * UsbSession) := exec pump_enabled (pump_step usb_conn 1 9 (lit "SN1") 1) usb_events new_pump connected.

Lemma usb_session_runs_witness : exists p s, usb_played = Some (p, s) /\ is_Some (p_outcome p) /\
  usb_out (us_link s) = usb_transfers 2 9 (concat_pack (mkTaskMessage 5 UnityExecute (lit "ls"))) 512 /\
  forall c, TcpMap.channel_sessions (tcp_map (us_host s)) !! c <> Some 9.
Proof.
  destruct usb_played as [[p s]|] eqn:E; [|by vm_compute in E].
  destruct (usb_session_runs usb_conn 1 9 (lit "SN1") 1 connected s usb_events p) as (items & Hq & Hw & _ & Ho & _ & Hj).
  - done.
  - unfold link_ok. apply (bool_decide_unpack _). by vm_compute.
  - done.
  - done.
  - done.
  - repeat constructor. done.
  - apply exec_run. exact E.
  - exists p, s. destruct (Hj eq_refl) as (H1 & H2 & _). split_and!; [exact eq_refl|exact H1| |exact H2].
    destruct (Ho H1) as [_ E2]. assert (Ei : items = [concat_pack (mkTaskMessage 5 UnityExecute (lit "ls"))]).
    { assert (Hs : (fun ps : Pump * UsbSession => option_map q_items (queue_of 1 (us_host ps.2))) <$> usb_played =
        Some (Some [concat_pack (mkTaskMessage 5 UnityExecute (lit "ls"))])) by (by vm_compute).
      rewrite E in Hs. cbn [fmap option_fmap option_map snd] in Hs. rewrite Hq in Hs. cbn [option_map q_items] in Hs. congruence. }
    rewrite E2, Ei. reflexivity.
Defined.

(** The same session when the first write fails, as it does when the device is unplugged. *)
Definition unplugged : UsbSession :=
  mkUsbSession connected_host (mkUsbLink [Completed 5 []] [] [Completed 5 []]) ∅.
Definition failed_write : list PumpEvent := [PSend (concat_pack (mkTaskMessage 5 UnityExecute (lit "ls"))); PWrite].
Lemma usb_session_ends_witness : exists p s i k p' s',
  exec pump_enabled (pump_step usb_conn 1 9 (lit "SN1") 1) failed_write new_pump unplugged = Some (p, s) /\ p_writing p = false /\
  pump_runs usb_conn 1 9 (lit "SN1") 1 new_pump unplugged (failed_write ++ replicate i PRead ++ replicate k PWrite ++ [PJoin]) p' s' /\
  is_Some (p_outcome p').
Proof.
  destruct (exec pump_enabled (pump_step usb_conn 1 9 (lit "SN1") 1) failed_write new_pump unplugged) as [[p s]|] eqn:E; [|by vm_compute in E].
  destruct (usb_session_ends usb_conn 1 9 (lit "SN1") 1 unplugged s failed_write p) as (i & k & p' & s' & H1 & H2 & _).
  - done.
  - unfold link_ok. apply (bool_decide_unpack _). by vm_compute.
  - done.
  - done.
  - repeat constructor. done.
  - apply exec_run. exact E.
  - vm_compute in E. by injection E as <- _.
  - exists p, s, i, k, p', s'. split_and!; [done| |exact H1|exact H2]. vm_compute in E. by injection E as <- _.
Defined.
End UsbWitness.
