(* ===== verification/HostMonitor.v ===== *)
(** * The host server: the monitor of USB devices

    [src/hdc/src/server.rs]: [process_usb_device_changes] and [record_session_outcome]; the
    loop of [usb_device_monitor] is in [HostHotplug].  The monitor enumerates the devices, starts a task with a
    session for every device that has none, and waits longer and longer with a device whose
    sessions fail.  A device that is plugged in again is tried at once.

    The monitor and the tasks of the sessions share three tables; their steps are
    interleaved at the places where the code gives a lock back.  Times are milliseconds. *)

From S2P Require Import Prelude RustStr Config Tlv Serializer Encrypt Transport Usb HostMaps HostUsbSession.

Record ReconnectState := mkReconnectState { failures : Z; last_error : bytes; next_attempt : Z }.
Definition RECONNECT_BACKOFF_BASE_SECS : Z := 1.
Definition RECONNECT_BACKOFF_MAX_SECS : Z := 30.

(** What is logged above the debug level; the lines of a set come in no fixed order. *)
Inductive LogLine :=
  | LArrived (serials : gset bytes) | LRemoved (serials : gset bytes)
  | LEnded (clean : bool) (serial reason : bytes) | LFailed (attempt : Z) (serial error : bytes) (backoff : Z).

(** [known_devices], [physical_devices], [reconnect], and the table of devices. *)
Record Shared := mkShared {
  known : gset bytes; physical : gset bytes; reconnect : gmap bytes ReconnectState; devices_map : ConnectMap.t; log : list LogLine
}.

(** ** Operations *)

Definition serials_of (devices : list UsbDeviceInfo) : gset bytes := list_to_set (map serial_number devices).
(** The first part of [process_usb_device_changes]: arrivals forget their failures. *)
Definition note_devices (devices : list UsbDeviceInfo) : M Shared unit := modify (fun s =>
  let current := serials_of devices in
  let arrivals := current ∖ physical s in
  let removals := physical s ∖ current in
  let changed := negb (bool_decide (arrivals = ∅)) || negb (bool_decide (removals = ∅)) in
  mkShared (known s) (if changed then current else physical s) (filter (fun e => e.1 ∉ arrivals) (reconnect s)) (devices_map s)
    (log s ++ (if bool_decide (arrivals = ∅) then [] else [LArrived arrivals]) ++
              (if bool_decide (removals = ∅) then [] else [LRemoved removals]))).

Definition backing_off (now : Z) (st : option ReconnectState) : bool :=
  match st with Some st => now <? next_attempt st | None => false end.
(** The loop for one device: is a task to be started? *)
Definition adopt (now : Z) (dev : UsbDeviceInfo) : M Shared bool := fun s =>
  let serial := serial_number dev in
  if bool_decide (serial ∈ known s) then (Ok false, s)
  else if backing_off now (reconnect s !! serial) then (Ok false, s)
  else
    (Ok true, mkShared ({[serial]} ∪ known s) (physical s) (reconnect s)
       (<[serial := DaemonInfo.mk 0 (Usb (fmt_dec (device_address dev))) Ready [] []]> (devices_map s)) (log s)).
Fixpoint adopt_all (now : Z) (devices : list UsbDeviceInfo) : M Shared (list bytes) :=
  match devices with
  | [] => mret []
  | dev :: t =>
      started ← adopt now dev;
      rest ← adopt_all now t;
      mret (if started : bool then serial_number dev :: rest else rest)
  end.
(** The serial numbers whose tasks are started, when nothing comes between. *)
Definition process_usb_device_changes (devices : list UsbDeviceInfo) (now : Z) : M Shared (list bytes) :=
  _ ← note_devices devices; adopt_all now devices.

(** The counter is a [u32]; the shift is at most 5. *)
Definition backoff_secs (failures : Z) : Z :=
  let shift := Z.min (wrap 32 (failures - 1)) 5 in
  Z.min (Z.shiftl RECONNECT_BACKOFF_BASE_SECS shift) RECONNECT_BACKOFF_MAX_SECS.
(** Every session that got through resets the waits, clean or not (the comment in the code says: a
    clean disconnect). *)
Definition record_session_outcome (serial : bytes) (outcome : SessionOutcome) (now : Z) : M Shared unit := modify (fun s =>
  match outcome with
  | Ended clean reason =>
      mkShared (known s) (physical s) (delete serial (reconnect s)) (devices_map s) (log s ++ [LEnded clean serial reason])
  | Failed err =>
      let st := default (mkReconnectState 0 [] now) (reconnect s !! serial) in
      let n := wrap 32 (failures st + 1) in
      let backoff := backoff_secs n in
      mkShared (known s) (physical s) (<[serial := mkReconnectState n err (now + 1000 * backoff)]> (reconnect s)) (devices_map s)
        (log s ++ (if (n =? 1) || negb (beq err (last_error st)) then [LFailed n serial err backoff] else []))
  end).
Definition forget_known (serial : bytes) : M Shared unit := modify (fun s =>
  mkShared (known s ∖ {[serial]}) (physical s) (reconnect s) (devices_map s) (log s)).

(** ** The machine

    [MScanned] is between the two parts of a pass, [MAdopting] the second part, which holds
    the lock of [known_devices].  A task runs, or has ended and has yet to record how. *)
Inductive MPhase := MIdle | MScanned (now : Z) (devices : list UsbDeviceInfo) | MAdopting (now : Z) (devices : list UsbDeviceInfo).
Record Monitor := mkMonitor { m_phase : MPhase; running : list bytes; ended : list (bytes * SessionOutcome) }.
Inductive MEvent :=
  | MScan (devices : list UsbDeviceInfo) (now : Z) | MLock | MAdopt | MUnlock
  | MEnd (serial : bytes) (outcome : SessionOutcome) | MRecord (serial : bytes) (outcome : SessionOutcome) (now : Z).

#[global] Instance SessionOutcome_eq_dec : EqDecision SessionOutcome.
Proof. solve_decision. Defined.
(** One task of the list is over. *)
Fixpoint take_out {A} `{EqDecision A} (x : A) (l : list A) : list A :=
  match l with [] => [] | y :: t => if bool_decide (x = y) then t else y :: take_out x t end.

Definition monitor_step (e : MEvent) (m : Monitor) : M Shared Monitor :=
  match e, m_phase m with
  | MScan devices now, _ => _ ← note_devices devices; mret (mkMonitor (MScanned now devices) (running m) (ended m))
  | MLock, MScanned now devices => mret (mkMonitor (MAdopting now devices) (running m) (ended m))
  | MAdopt, MAdopting now (dev :: devices) =>
      started ← adopt now dev;
      mret (mkMonitor (MAdopting now devices) (if started : bool then serial_number dev :: running m else running m) (ended m))
  | MUnlock, _ => mret (mkMonitor MIdle (running m) (ended m))
  | MEnd serial outcome, p =>
      _ ← forget_known serial;
      mret (mkMonitor p (take_out serial (running m)) ((serial, outcome) :: ended m))
  | MRecord serial outcome now, p =>
      _ ← record_session_outcome serial outcome now;
      mret (mkMonitor p (running m) (take_out (serial, outcome) (ended m)))
  | _, _ => mret m
  end.
Definition monitor_enabled (e : MEvent) (m : Monitor) : bool :=
  match e, m_phase m with
  | MScan _ _, MIdle | MLock, MScanned _ _ | MAdopt, MAdopting _ (_ :: _) | MUnlock, MAdopting _ [] => true
  | MEnd serial _, MAdopting _ _ => false
  | MEnd serial _, _ => bool_decide (serial ∈ running m)
  | MRecord serial outcome _, _ => bool_decide ((serial, outcome) ∈ ended m)
  | _, _ => false
  end.
Definition new_monitor : Monitor := mkMonitor MIdle [] [].
Definition new_shared : Shared := mkShared ∅ ∅ ∅ ∅ [].
Definition monitor_runs := run monitor_enabled monitor_step.

(** ** What the history says of a device

    Was it there at the last scan; and how often has it failed since it last arrived or had
    a session, and when last? *)
Definition recall1 (serial : bytes) (st : bool * option (Z * Z)) (e : MEvent) : bool * option (Z * Z) :=
  match e with
  | MScan devices _ =>
      let here := bool_decide (serial ∈ serials_of devices) in
      (here, if here && negb st.1 then None else st.2)
  | MRecord s (Failed _) now => if bool_decide (s = serial) then (st.1, Some (1 + from_option fst 0 st.2, now)) else st
  | MRecord s (Ended _ _) _ => if bool_decide (s = serial) then (st.1, None) else st
  | _ => st
  end.
Definition recall (serial : bytes) (es : list MEvent) : bool * option (Z * Z) := foldl (recall1 serial) (false, None) es.
(** The time to wait after the [n]th failure in a row. *)
Definition wait_secs (n : Z) : Z := nth (Z.to_nat (n - 1)) [1; 2; 4; 8; 16] 30.
Definition must_wait (now : Z) (past : option (Z * Z)) : Prop :=
  match past with Some (n, t) => now < t + 1000 * wait_secs n | None => False end.

Lemma backoff_wait n : 1 <= n < 2 ^ 32 -> backoff_secs n = wait_secs n.
Proof.
  intros Hn. unfold backoff_secs, wait_secs. rewrite wrap_small by ulia. unfold RECONNECT_BACKOFF_BASE_SECS, RECONNECT_BACKOFF_MAX_SECS.
  destruct (decide (n <= 5)) as [Hs|Hs].
  - assert (n = 1 \/ n = 2 \/ n = 3 \/ n = 4 \/ n = 5) as [->|[->|[->|[->| ->]]]] by lia; done.
  - rewrite (Z.min_r (n - 1) 5) by lia. change (Z.min (Z.shiftl 1 5) 30) with 30. rewrite nth_overflow; [done|]. cbn. lia.
Qed.

Definition remembers (past : option (Z * Z)) (st : option ReconnectState) : Prop :=
  match past, st with
  | None, None => True
  | Some (n, t), Some r => failures r = n /\ next_attempt r = t + 1000 * wait_secs n
  | _, _ => False
  end.
Definition count_of (past : option (Z * Z)) : Z := from_option fst 0 past.
Lemma recall_snoc serial es e : recall serial (es ++ [e]) = recall1 serial (recall serial es) e.
Proof. unfold recall. by rewrite foldl_app. Qed.
Lemma recall_count serial es : 0 <= count_of (recall serial es).2 <= Z.of_nat (length es) /\
  forall n t, (recall serial es).2 = Some (n, t) -> 1 <= n.
Proof.
  induction es as [|e es IH] using rev_ind; [done|]. rewrite recall_snoc, length_app. cbn [length].
  destruct (recall serial es) as [here past]. cbn [snd] in IH. destruct IH as [IH1 IH2].
  assert (Hsame : forall h, 0 <= count_of (h : bool, past).2 <= Z.of_nat (length es + 1) /\ (forall n t, (h, past).2 = Some (n, t) -> 1 <= n)).
  { intros h. cbn [snd]. split; [lia|done]. }
  assert (Hnone : forall h : bool, 0 <= count_of (h, @None (Z * Z)).2 <= Z.of_nat (length es + 1) /\ (forall n t, (h, @None (Z * Z)).2 = Some (n, t) -> 1 <= n)).
  { intros h. cbn. split; [lia|done]. }
  destruct e as [devices now| | | |s o|s [clean reason|err] now]; cbn [recall1 fst snd]; try apply (Hsame here).
  - case_match; [apply (Hnone true)|apply (Hsame true)].
  - case_bool_decide; [apply (Hnone true)|apply (Hsame here)].
  - case_bool_decide; [|apply (Hsame here)]. cbn [snd count_of from_option fst]. fold (count_of past). split; [lia|]. intros n t [= <- <-]. lia.
Qed.

(** ** The invariant *)

Definition monitor_inv (es : list MEvent) (m : Monitor) (s : Shared) : Prop :=
  known s = list_to_set (running m) /\ NoDup (running m) /\
  forall serial, bool_decide (serial ∈ physical s) = (recall serial es).1 /\ remembers (recall serial es).2 (reconnect s !! serial).

Lemma take_out_spec {A} `{EqDecision A} (x : A) l : x ∈ l -> l ≡ₚ x :: take_out x l.
Proof.
  induction l as [|y l IH]; [by intros ?%not_elem_of_nil|]. cbn [take_out]. case_bool_decide as E; [by subst|].
  intros [->|H]%elem_of_cons; [done|]. rewrite IH at 1 by done. constructor.
Qed.
Lemma take_out_set (x : bytes) l : x ∈ l -> NoDup l ->
  list_to_set l ∖ {[x]} =@{gset bytes} list_to_set (take_out x l) /\ NoDup (take_out x l).
Proof.
  intros Hin Hnd. pose proof (take_out_spec x l Hin) as Hp. rewrite Hp in Hnd. apply NoDup_cons in Hnd as [Hn Hnd]. split; [|done].
  apply set_eq. intros y. rewrite elem_of_difference, elem_of_singleton, !elem_of_list_to_set. split.
  - intros [Hy Hne]. rewrite Hp in Hy. by apply elem_of_cons in Hy as [->|?].
  - intros Hy. split; [rewrite Hp; by right|]. by intros ->.
Qed.
Lemma waiting_iff now past st : remembers past st -> backing_off now st = true <-> must_wait now past.
Proof.
  destruct past as [[n t]|], st as [r|]; cbn; try done. intros [_ ->]. apply Z.ltb_lt.
Qed.
Lemma adopt_spec now dev s es m : monitor_inv es m s ->
  let serial := serial_number dev in
  exists started s', adopt now dev s = (Ok started, s') /\
    (started = true <-> (serial ∉ running m) /\ ~ must_wait now (recall serial es).2) /\
    (if started then s' = mkShared ({[serial]} ∪ known s) (physical s) (reconnect s)
                            (<[serial := DaemonInfo.mk 0 (Usb (fmt_dec (device_address dev))) Ready [] []]> (devices_map s)) (log s)
     else s' = s).
Proof.
  intros (Hk & Hnd & Hr) serial. unfold adopt. fold serial. destruct (Hr serial) as [_ Hm]. pose proof (waiting_iff now _ _ Hm) as Hw. case_bool_decide as Hin.
  - exists false, s. split_and!; try done. split; [done|]. intros [Hn _]. rewrite Hk in Hin. apply elem_of_list_to_set in Hin. done.
  - assert (Hn : serial ∉ running m) by (rewrite Hk in Hin; by rewrite elem_of_list_to_set in Hin).
    destruct (backing_off now (reconnect s !! serial)).
    + exists false, s. split_and!; try done. split; [done|]. intros [_ H]. exfalso. by apply H, Hw.
    + eexists true, _. split; [reflexivity|]. split; [|done]. split; [|done]. intros _. split; [done|]. intros H. apply Hw in H. done.
Qed.
Lemma no_difference (X Y : gset bytes) : X ∖ Y = ∅ -> Y ∖ X = ∅ -> X = Y.
Proof.
  intros E1 E2. apply set_eq; intros x; split; intros Hx; apply dec_stable; intros Hn; apply (not_elem_of_empty (C := gset bytes) x).
  - rewrite <- E1. by apply elem_of_difference.
  - rewrite <- E2. by apply elem_of_difference.
Qed.
Lemma note_inv es m s devices now : monitor_inv es m s ->
  monitor_inv (es ++ [MScan devices now]) (mkMonitor (MScanned now devices) (running m) (ended m)) (note_devices devices s).2.
Proof.
  intros (Hk & Hnd & Hr). split_and!; [done..|]. intros serial. rewrite recall_snoc. cbn [recall1 fst snd]. destruct (Hr serial) as [H1 H2]. split.
  - cbn [note_devices modify snd physical].
    destruct (negb (bool_decide (serials_of devices ∖ physical s = ∅)) || negb (bool_decide (physical s ∖ serials_of devices = ∅))) eqn:E; [done|].
    apply orb_false_iff in E as [E1%negb_false_iff%bool_decide_eq_true E2%negb_false_iff%bool_decide_eq_true].
    by rewrite (no_difference _ _ E1 E2).
  - cbn [note_devices modify snd reconnect]. rewrite <- H1, map_lookup_filter. destruct (reconnect s !! serial) as [r|] eqn:Es; cbn [mbind option_bind].
    + case_bool_decide as Ha; case_bool_decide as Hb; cbn [andb negb];
        (rewrite option_guard_False by (cbn; rewrite elem_of_difference; tauto); done) ||
        (rewrite option_guard_True by (cbn; rewrite elem_of_difference; tauto); done).
    + by destruct (bool_decide _ && negb _).
Qed.
Lemma record_inv es m s serial outcome now :
  Z.of_nat (length es) < 2 ^ 32 - 1 -> monitor_inv es m s ->
  monitor_inv (es ++ [MRecord serial outcome now]) (mkMonitor (m_phase m) (running m) (take_out (serial, outcome) (ended m)))
    (record_session_outcome serial outcome now s).2.
Proof.
  intros Hlen (Hk & Hnd & Hr). destruct outcome as [clean reason|err]; (split_and!; [done..|]); intros serial'; rewrite recall_snoc;
    destruct (Hr serial') as [H1 H2]; cbn [recall1 record_session_outcome modify snd reconnect physical].
  - destruct (decide (serial = serial')) as [<-|E]; [rewrite (bool_decide_eq_true_2 (serial = serial)) by done|rewrite (bool_decide_eq_false_2 (serial = serial')) by done];
      (split; [done|]); [by rewrite lookup_delete_eq|by rewrite lookup_delete_ne].
  - destruct (decide (serial = serial')) as [<-|E]; [rewrite (bool_decide_eq_true_2 (serial = serial)) by done|rewrite (bool_decide_eq_false_2 (serial = serial')) by done];
      (split; [done|]); [|by rewrite lookup_insert_ne].
    destruct (recall_count serial es) as [Hc _]. rewrite lookup_insert_eq. cbn [snd remembers failures next_attempt].
    assert (Ef : failures (default (mkReconnectState 0 [] now) (reconnect s !! serial)) = count_of (recall serial es).2).
    { destruct (recall serial es) as [here [[n t]|]], (reconnect s !! serial) as [r|]; cbn in *; try done. by destruct H2. }
    fold (count_of (recall serial es).2). rewrite Ef, wrap_small by ulia. rewrite Z.add_comm. split; [done|].
    by rewrite backoff_wait by lia.
Qed.
(** Events that the history of a device ignores. *)
Definition silent (e : MEvent) : bool := match e with MScan _ _ | MRecord _ _ _ => false | _ => true end.
Lemma recall_silent serial es e : silent e = true -> recall serial (es ++ [e]) = recall serial es.
Proof. intros H. rewrite recall_snoc. by destruct e. Qed.
Lemma quiet_inv es m s e m' s' : silent e = true -> monitor_inv es m s -> physical s' = physical s -> reconnect s' = reconnect s ->
  known s' = list_to_set (running m') -> NoDup (running m') -> monitor_inv (es ++ [e]) m' s'.
Proof. intros He (_ & _ & Hr) E1 E2 E3 E4. split_and!; [done..|]. intros serial. rewrite recall_silent, E1, E2 by done. apply Hr. Qed.
Lemma monitor_step_inv es m s e m' s' :
  Z.of_nat (length es) < 2 ^ 32 - 1 -> monitor_inv es m s -> monitor_enabled e m = true ->
  monitor_step e m s = (Ok m', s') -> monitor_inv (es ++ [e]) m' s'.
Proof.
  intros Hlen Hi Hen Est. pose proof Hi as (Hk & Hnd & _).
  destruct e as [devices now| | | |serial outcome|serial outcome now]; cbn [monitor_step] in Est.
  - rewrite M_bind_eq in Est. injection Est as <- <-. by apply note_inv.
  - destruct (m_phase m); injection Est as <- <-; by apply (quiet_inv es m s).
  - destruct (m_phase m) as [| |now [|dev devices]] eqn:Ep; try (injection Est as <- <-; by apply (quiet_inv es m s)).
    destruct (adopt_spec now dev s es m Hi) as (started & s1 & E1 & Hs & H1). rewrite (M_bind_Ok _ _ _ _ _ E1) in Est. injection Est as <- <-.
    destruct started; subst s1; [|by apply (quiet_inv es m s)]. destruct (proj1 Hs eq_refl) as [Hn _].
    apply (quiet_inv es m s); try done; cbn [known running]; [by rewrite Hk|by constructor].
  - destruct (m_phase m); injection Est as <- <-; by apply (quiet_inv es m s).
  - assert (Hin : serial ∈ running m).
    { cbn [monitor_enabled] in Hen. destruct (m_phase m); [by apply bool_decide_eq_true in Hen..|done]. }
    destruct (take_out_set serial (running m) Hin Hnd) as [H1 H2].
    destruct (m_phase m); rewrite M_bind_eq in Est; injection Est as <- <-; apply (quiet_inv es m s); try done;
      cbn [known running forget_known modify]; by rewrite Hk.
  - destruct (m_phase m) eqn:Ep; rewrite M_bind_eq in Est; injection Est as <- <-; rewrite <- Ep; by apply record_inv.
Qed.

Lemma adopt_all_spec now ds s : exists started s', adopt_all now ds s = (Ok started, s') /\ NoDup started /\
  (forall serial, serial ∈ started <-> (serial ∈ serials_of ds) /\ (serial ∉ known s) /\ backing_off now (reconnect s !! serial) = false) /\
  known s' = list_to_set started ∪ known s /\ reconnect s' = reconnect s /\ log s' = log s.
Proof.
  revert s; induction ds as [|dev ds IH]; intros s.
  - exists [], s. split_and!; try done; [constructor| |cbn; by rewrite (left_id_L ∅ (∪))]. intros serial. split; [by intros ?%not_elem_of_nil|].
    intros [H _]. by apply elem_of_empty in H.
  - cbn [adopt_all]. rewrite M_bind_eq.
    assert (Hser : forall x, x ∈ serials_of (dev :: ds) <-> x = serial_number dev \/ x ∈ serials_of ds).
    { intros x. unfold serials_of. cbn [map list_to_set]. by rewrite elem_of_union, elem_of_singleton. }
    unfold adopt at 1. case_bool_decide as Hin.
    + destruct (IH s) as (l & s' & E & H1 & H2 & H3). rewrite (M_bind_Ok _ _ _ _ _ E). exists l, s'. split_and!; try apply H3; try done.
      intros x. rewrite Hser, H2. split; [tauto|]. intros ([->|?] & ? & ?); [done|by split_and!].
    + destruct (backing_off now (reconnect s !! serial_number dev)) eqn:Eb.
      * destruct (IH s) as (l & s' & E & H1 & H2 & H3). rewrite (M_bind_Ok _ _ _ _ _ E). exists l, s'. split_and!; try apply H3; try done.
        intros x. rewrite Hser, H2. split; [tauto|]. intros ([->|?] & ? & ?); [congruence|by split_and!].
      * set (s2 := mkShared _ _ _ _ _). destruct (IH s2) as (l & s' & E & H1 & H2 & H3 & H4 & H5). rewrite (M_bind_Ok _ _ _ _ _ E).
        exists (serial_number dev :: l), s'. split_and!; try done.
        -- constructor; [|done]. rewrite H2. cbn [known s2]. intros (_ & Hn & _). apply Hn, elem_of_union_l, elem_of_singleton_2. done.
        -- intros x. rewrite elem_of_cons, H2, Hser. cbn [known s2 reconnect]. rewrite not_elem_of_union, not_elem_of_singleton.
           destruct (decide (x = serial_number dev)) as [->|]; tauto.
        -- rewrite H3. cbn [known s2 list_to_set]. by rewrite (assoc_L (∪)), (comm_L (∪) _ {[serial_number dev]}).
Qed.

(** ** Theorems *)

(** C9: the monitor, in every interleaving with the ends of the sessions it started (up to
    [2^32] steps).  At most one session runs for a device, and [known_devices] are the devices
    of the running sessions.  When the loop comes to a device it starts a session exactly if
    none runs and the device does not have to wait; and it has to wait 1, 2, 4, 8, 16 and then
    30 seconds after each failure in a row, counted and timed from the recorded failures since
    the device last arrived or had a session that got through, however that session ended
    (the comment on [record_session_outcome] has it that only a clean disconnect resets the waits). *)
Theorem monitor_sound (es : list MEvent) (m : Monitor) (s : Shared) :
  Z.of_nat (length es) < 2 ^ 32 -> monitor_runs new_monitor new_shared es m s ->
  known s = list_to_set (running m) /\ NoDup (running m) /\
  forall now dev devices, m_phase m = MAdopting now (dev :: devices) ->
    exists m' s', monitor_step MAdopt m s = (Ok m', s') /\
      ((serial_number dev ∉ running m) /\ ~ must_wait now (recall (serial_number dev) es).2 ->
         running m' = serial_number dev :: running m /\
         devices_map s' !! serial_number dev = Some (DaemonInfo.mk 0 (Usb (fmt_dec (device_address dev))) Ready [] [])) /\
      (~ ((serial_number dev ∉ running m) /\ ~ must_wait now (recall (serial_number dev) es).2) -> running m' = running m /\ s' = s).
Proof.
  intros Hlen Hr. assert (Hi : monitor_inv es m s).
  { induction Hr as [|es m s e m' s' Hr IH Hen Est]; [by split_and!; [|constructor|]|].
    rewrite length_app in Hlen. cbn [length] in Hlen. eapply monitor_step_inv; [|apply IH|..]; try done; lia. }
  pose proof Hi as (Hk & Hnd & _). split_and!; [done..|]. intros now dev devices Ep.
  destruct (adopt_spec now dev s es m Hi) as (started & s1 & E1 & Hs & H1). cbn [monitor_step]. rewrite Ep, (M_bind_Ok _ _ _ _ _ E1).
  eexists _, _. split; [reflexivity|]. destruct started; subst s1; cbn [running devices_map].
  - split; [|intros H; exfalso; by apply H, Hs]. intros _. split; [done|]. apply lookup_insert_eq.
  - split; [|done]. intros H. by apply Hs in H.
Qed.

(** A pass over the devices that nothing interrupts starts a session for exactly those that
    have none and need not wait, each once, and none is left out; and when the devices are
    those of the pass before, nothing is logged and no failure is forgotten. *)
Theorem monitor_pass_exact (devices : list UsbDeviceInfo) (now : Z) (s : Shared) :
  exists started s', process_usb_device_changes devices now s = (Ok started, s') /\ NoDup started /\
    (forall serial, serial ∈ started <->
       (serial ∈ serials_of devices) /\ (serial ∉ known s) /\ backing_off now (reconnect s' !! serial) = false) /\
    known s' = list_to_set started ∪ known s /\
    (forall serial, reconnect s' !! serial = if bool_decide (serial ∈ serials_of devices ∖ physical s) then None else reconnect s !! serial) /\
    (serials_of devices = physical s -> log s' = log s /\ reconnect s' = reconnect s).
Proof.
  unfold process_usb_device_changes. rewrite M_bind_eq. set (s1 := (note_devices devices s).2).
  change (note_devices devices s) with (Ok tt : Result unit, s1). cbv iota.
  destruct (adopt_all_spec now devices s1) as (started & s' & E & H1 & H2 & H3 & H4 & H5). exists started, s'. split_and!; try done.
  - intros x. rewrite H2, H4. done.
  - intros x. rewrite H4. cbn [s1 note_devices modify snd reconnect]. rewrite map_lookup_filter.
    destruct (reconnect s !! x) as [r|]; cbn [mbind option_bind]; [|by case_bool_decide].
    case_bool_decide as Hx; [by rewrite option_guard_False by (cbn; tauto)|by rewrite option_guard_True].
  - intros Hs. rewrite H4, H5. cbn [s1 note_devices modify snd reconnect log]. rewrite Hs, difference_diag_L.
    rewrite !bool_decide_eq_true_2 by done. split; [by rewrite !app_nil_r|]. apply map_filter_id. intros ???. cbn. apply not_elem_of_empty.
Qed.

(** Two devices; one fails twice and is left alone until two seconds have passed. *)
Definition dev_a : UsbDeviceInfo := mkUsbDeviceInfo (lit "A") 1 1 4.
Definition dev_b : UsbDeviceInfo := mkUsbDeviceInfo (lit "B") 1 1 5.
Definition monitor_events : list MEvent :=
  [MScan [dev_a; dev_b] 0; MLock; MAdopt; MAdopt; MUnlock; MEnd (lit "A") (Failed (lit "x")); MRecord (lit "A") (Failed (lit "x")) 10;
   MScan [dev_a; dev_b] 2000; MLock; MAdopt; MAdopt; MUnlock; MEnd (lit "A") (Failed (lit "x")); MRecord (lit "A") (Failed (lit "x")) 2100;
   MScan [dev_a; dev_b] 4000; MLock].
Lemma monitor_sound_witness : exists m s, monitor_runs new_monitor new_shared monitor_events m s /\
  NoDup (running m) /\ exists m' s', monitor_step MAdopt m s = (Ok m', s') /\ running m' = running m.
Proof.
  destruct (exec monitor_enabled monitor_step monitor_events new_monitor new_shared) as [[m s]|] eqn:E; [|by vm_compute in E].
  assert (Hr : monitor_runs new_monitor new_shared monitor_events m s) by (apply exec_run; exact E).
  destruct (monitor_sound monitor_events m s) as (_ & Hnd & Ha); [by vm_compute|exact Hr|].
  exists m, s. split_and!; [exact Hr|exact Hnd|].
  assert (Ep : m_phase m = MAdopting 4000 [dev_a; dev_b]).
  { vm_compute in E. injection E as <- <-. reflexivity. }
  destruct (Ha 4000 dev_a [dev_b] Ep) as (m' & s' & Es & _ & Hw). exists m', s'. split; [exact Es|]. apply Hw.
  intros [_ Hn]. apply Hn. by vm_compute.
Defined.
