(* ===== verification/HostHotplug.v ===== *)
(** * The host server: what wakes the monitor of USB devices

    The loop of [usb_device_monitor] in [src/hdc/src/server.rs] with the channels of its
    watchers: [spawn_hotplug_watcher] of [src/hdc/src/usb.rs], a channel of 16, and the watcher on
    Windows, an unbounded one.  A device that comes or goes is reported some time later by the
    system; the report is a message in the channel, or dropped when that is full. *)

From S2P Require Import Prelude RustStr Config Tlv Serializer Encrypt Transport Usb HostMaps HostUsbSession HostMonitor.

(** ** The loop and its channel *)

Definition HOTPLUG_CAPACITY : nat := 16.
(** The receiver: messages in it, and whether the watcher still has the sender. *)
Record Watch := mkWatch { bounded : bool; queued : nat; open : bool }.
Definition try_send (w : Watch) : Watch :=
  if bounded w && (HOTPLUG_CAPACITY <=? queued w)%nat then w else mkWatch (bounded w) (S (queued w)) (open w).

(** The loop enumerates, starts sessions, waits, and after a message sleeps and empties the channel. *)
Inductive Phase := Enumerating | Adopting (devices : list UsbDeviceInfo) | Waiting | Debouncing.
(** [undelivered] are the changes the system has yet to report; without a watcher the loop only polls. *)
Record Wake := mkWake { present : list UsbDeviceInfo; undelivered : nat; watch : option Watch; phase : Phase }.
Inductive WEvent :=
  | WChange (devices : list UsbDeviceInfo) | WNotify | WWatcherEnds
  | WScan | WAdopt (now : Z) | WRecv | WTryRecv | WTick.

Definition set_phase p (w : Wake) : Wake := mkWake (present w) (undelivered w) (watch w) p.
Definition set_watch f (w : Wake) : Wake := mkWake (present w) (undelivered w) (f <$> watch w) (phase w).
Definition usb_device_monitor (e : WEvent) (w : Wake) : M Shared Wake :=
  match e with
  | WChange devices => mret (mkWake devices (S (undelivered w)) (watch w) (phase w))
  | WNotify => mret (set_watch try_send (mkWake (present w) (pred (undelivered w)) (watch w) (phase w)))
  | WWatcherEnds => mret (set_watch (fun x => mkWatch (bounded x) (queued x) false) w)
  | WScan => _ ← note_devices (present w); mret (set_phase (Adopting (present w)) w)
  | WAdopt now =>
      match phase w with
      | Adopting devices => _ ← adopt_all now devices; mret (set_phase Waiting w)
      | _ => mret w
      end
  | WRecv => mret (set_phase Debouncing (set_watch (fun x => mkWatch (bounded x) (pred (queued x)) (open x)) w))
  | WTryRecv =>
      match watch w with
      | Some (mkWatch b (S n) o) => mret (mkWake (present w) (undelivered w) (Some (mkWatch b n o)) (phase w))
      | _ => mret (set_phase Enumerating w)
      end
  | WTick => mret (set_phase Enumerating w)
  end.
Definition monitor_wakes (e : WEvent) (w : Wake) : bool :=
  match e, phase w, watch w with
  | WChange _, _, _ => true
  | WNotify, _, Some x => (0 <? undelivered w)%nat && open x
  | WWatcherEnds, _, Some x => open x
  | WScan, Enumerating, _ | WAdopt _, Adopting _, _ | WTryRecv, Debouncing, _ | WTick, Waiting, _ => true
  | WRecv, Waiting, Some x => (0 <? queued x)%nat || negb (open x)
  | _, _, _ => false
  end.
Definition monitor_start (devices : list UsbDeviceInfo) (x : option Watch) : Wake := mkWake devices 0 x Enumerating.

(** ** Facts *)

Lemma note_physical devices s : exists s', note_devices devices s = (Ok tt, s') /\ physical s' = serials_of devices.
Proof.
  eexists. split; [reflexivity|]. cbn [physical].
  destruct (negb (bool_decide (serials_of devices ∖ physical s = ∅)) || negb (bool_decide (physical s ∖ serials_of devices = ∅))) eqn:E; [done|].
  apply orb_false_iff in E as [E1%negb_false_iff%bool_decide_eq_true E2%negb_false_iff%bool_decide_eq_true].
  by rewrite (no_difference _ _ E1 E2).
Qed.
Lemma adopt_all_physical now devices s : exists l s', adopt_all now devices s = (Ok l, s') /\ physical s' = physical s.
Proof.
  revert s; induction devices as [|dev devices IH]; intros s; [by eexists _, _|]. cbn [adopt_all].
  assert (exists b s1, adopt now dev s = (Ok b, s1) /\ physical s1 = physical s) as (b & s1 & E & H1).
  { unfold adopt. destruct (bool_decide _); [eauto|]. destruct (backing_off _ _); eauto. }
  rewrite (M_bind_Ok _ _ _ _ _ E). destruct (IH s1) as (l & s2 & E2 & H2). rewrite (M_bind_Ok _ _ _ _ _ E2).
  eexists _, _. split; [reflexivity|]. congruence.
Qed.
Lemma try_send_queued x : (0 < queued (try_send x))%nat /\ open (try_send x) = open x.
Proof.
  unfold try_send. destruct (bounded x && (HOTPLUG_CAPACITY <=? queued x)%nat) eqn:E; [|split; [cbn; lia|done]].
  apply andb_true_iff in E as [_ E%Nat.leb_le]. split; [unfold HOTPLUG_CAPACITY in E; lia|done].
Qed.

(** Between a scan and the next message, what the monitor knows is out of date only when a message
    is waiting or on its way. *)
Definition looking (p : Phase) : bool := match p with Adopting _ | Waiting => true | _ => false end.
Definition wake_inv (w : Wake) (s : Shared) : Prop :=
  forall x, watch w = Some x -> open x = true -> looking (phase w) = true ->
  physical s = serials_of (present w) \/ (0 < queued x)%nat \/ (0 < undelivered w)%nat.
Lemma wake_step_inv e w s w' s' :
  wake_inv w s -> monitor_wakes e w = true -> usb_device_monitor e w s = (Ok w', s') -> wake_inv w' s'.
Proof.
  intros Hi Hen Est x Hx Ho Hl. destruct e as [devices| | | |now| | |]; cbn [usb_device_monitor] in Est.
  - injection Est as <- <-. right; right. cbn. lia.
  - injection Est as <- <-. cbn in Hx. destruct (watch w) as [y|]; [|done]. injection Hx as <-. right; left. apply try_send_queued.
  - injection Est as <- <-. cbn in Hx. destruct (watch w); [|done]. injection Hx as <-. by cbn in Ho.
  - destruct (note_physical (present w) s) as (s1 & E & Hp). rewrite (M_bind_Ok _ _ _ _ _ E) in Est. injection Est as <- <-. by left.
  - destruct (phase w) as [|devices| |] eqn:Ep; try (by injection Est as <- <-; rewrite Ep in Hl).
    + destruct (adopt_all_physical now devices s) as (l & s1 & E & Hp). rewrite (M_bind_Ok _ _ _ _ _ E) in Est. injection Est as <- <-.
      rewrite Hp. apply Hi; [done..|]. by rewrite Ep.
    + injection Est as <- <-. by apply Hi.
  - injection Est as <- <-. by cbn in Hl.
  - unfold monitor_wakes in Hen. destruct (phase w) eqn:Ep; try done.
    destruct (watch w) as [[b [|n] o]|]; injection Est as <- <-; cbn in Hl; try done; by rewrite Ep in Hl.
  - injection Est as <- <-. by cbn in Hl.
Qed.

(** The steps of the loop and of the reports, without new changes and without the timer. *)
Definition own_step (e : WEvent) : bool := match e with WNotify | WScan | WAdopt _ | WRecv | WTryRecv => true | _ => false end.
Definition steps := exec monitor_wakes usb_device_monitor.
Definition awake (w : Wake) (d : list UsbDeviceInfo) (n q : nat) (p : Phase) : Prop :=
  present w = d /\ undelivered w = n /\ phase w = p /\ exists x, watch w = Some x /\ open x = true /\ (queued x <= q)%nat.
(** The reports arrive. *)
Lemma all_reported n d w s q p : awake w d n q p ->
  exists es w', steps es w s = Some (w', s) /\ awake w' d 0 (n + q) p /\ forallb own_step es = true /\ length es = n.
Proof.
  revert w q; induction n as [|n IH]; intros w q (Hd & Hn & Hp & x & Hx & Ho & Hq).
  - exists [], w. split_and!; try done. split_and!; eauto.
  - destruct (IH (set_watch try_send (mkWake d n (watch w) p)) (S q)) as (es & w' & E & Hw & Hes & Hl).
    { split_and!; try done. exists (try_send x). cbn. rewrite Hx. split_and!; [done|by rewrite (proj2 (try_send_queued x))|].
      unfold try_send. case_if; cbn; lia. }
    exists (WNotify :: es), w'. split_and!; try done; [|by rewrite Nat.add_succ_comm|cbn; lia].
    cbn [steps exec monitor_wakes]. rewrite Hx, Hn, Ho. cbn [Nat.ltb Nat.leb andb].
    destruct w; cbn in *; subst. exact E.
Qed.
(** The channel is emptied. *)
Lemma drained q d w s : awake w d 0 q Debouncing ->
  exists es w', steps es w s = Some (w', s) /\ awake w' d 0 0 Enumerating /\ forallb own_step es = true /\ (length es <= S q)%nat.
Proof.
  revert w; induction q as [|q IH]; intros w (Hd & Hn & Hp & x & Hx & Ho & Hq).
  - exists [WTryRecv], (set_phase Enumerating w). cbn [steps exec monitor_wakes usb_device_monitor]. rewrite Hp, Hx.
    destruct x as [b [|k] o]; [|cbn in Hq; lia]. split_and!; try done. split_and!; try done. by eexists.
  - destruct x as [b [|k] o].
    + exists [WTryRecv], (set_phase Enumerating w). cbn [steps exec monitor_wakes usb_device_monitor]. rewrite Hp, Hx.
      split_and!; try done; [|cbn; lia]. split_and!; try done. by eexists.
    + destruct (IH (mkWake (present w) (undelivered w) (Some (mkWatch b k o)) (phase w))) as (es & w' & E & Hw & Hes & Hl).
      { split_and!; try done. eexists. split_and!; [done..|]. cbn in *. lia. }
      exists (WTryRecv :: es), w'. split_and!; try done; [|cbn; lia].
      cbn [steps exec monitor_wakes usb_device_monitor]. rewrite Hp, Hx. rewrite Hp in E. exact E.
Qed.
(** A pass. *)
Lemma passed d w s q : awake w d 0 q Enumerating ->
  exists w' s', steps [WScan; WAdopt 0] w s = Some (w', s') /\ awake w' d 0 q Waiting /\ physical s' = serials_of d.
Proof.
  intros (Hd & Hn & Hp & x & Hx & Ho & Hq). destruct (note_physical d s) as (s1 & E1 & H1).
  destruct (adopt_all_physical 0 d s1) as (l & s2 & E2 & H2).
  exists (set_phase Waiting w), s2. split_and!; [|split_and!; eauto|congruence].
  cbn [steps exec monitor_wakes]. rewrite Hp. cbn [usb_device_monitor]. rewrite Hd, (M_bind_Ok _ _ _ _ _ E1).
  cbn [mret M_ret set_phase phase]. by rewrite (M_bind_Ok _ _ _ _ _ E2).
Qed.
(** From each phase the loop comes to rest with the devices that are there. *)
Definition settles (d : list UsbDeviceInfo) (bound : nat) (w : Wake) (s : Shared) : Prop :=
  exists es w' s', steps es w s = Some (w', s') /\ forallb own_step es = true /\ (length es <= bound)%nat /\
  phase w' = Waiting /\ present w' = d /\ physical s' = serials_of d.
Lemma settles_after es0 d k w s w1 s1 bound :
  steps es0 w s = Some (w1, s1) -> forallb own_step es0 = true -> (length es0 + k <= bound)%nat -> settles d k w1 s1 -> settles d bound w s.
Proof.
  intros E H0 Hb (es & w' & s' & E' & H1 & H2 & H3 & H4 & H5). exists (es0 ++ es), w', s'. unfold steps. rewrite (exec_app _ _ _ _ _ _ _ _ E), forallb_app, H0, H1, length_app.
  split_and!; try done. lia.
Qed.
Lemma enumerating_settles d q w s : awake w d 0 q Enumerating -> settles d 2 w s.
Proof. intros H. destruct (passed d w s q H) as (w' & s' & E & (H1 & _ & H2 & _) & Hp). exists [WScan; WAdopt 0], w', s'. by split_and!. Qed.
Lemma debouncing_settles d q w s : awake w d 0 q Debouncing -> settles d (q + 3) w s.
Proof.
  intros H. destruct (drained q d w s H) as (es & w' & E & Hw & H1 & H2). eapply settles_after; [exact E|done| |by eapply enumerating_settles]. lia.
Qed.
Lemma waiting_settles d q w s : awake w d 0 q Waiting -> wake_inv w s -> settles d (q + 3) w s.
Proof.
  intros (Hd & Hn & Hp & x & Hx & Ho & Hq) Hi. destruct (queued x) as [|k] eqn:Ek.
  - exists [], w, s. split_and!; try done; [cbn; lia|]. destruct (Hi x Hx Ho) as [?|[?|?]]; [by rewrite Hp|congruence|lia..].
  - apply (settles_after [WRecv] d (k + 3) w s (set_phase Debouncing (mkWake d 0 (Some (mkWatch (bounded x) k true)) Waiting)) s); [|done|cbn; lia|].
    + cbn [steps exec monitor_wakes usb_device_monitor]. rewrite Hp, Hx, Ek, Ho. cbn [Nat.ltb Nat.leb orb]. unfold set_watch, set_phase.
      cbn [watch present undelivered phase]. rewrite Hx. cbn [fmap option_fmap option_map]. by rewrite Ek, Hd, Hn, Ho.
    + apply debouncing_settles. split_and!; try done. by eexists.
Qed.
Lemma adopting_settles ds d q w s : awake w d 0 q (Adopting ds) -> wake_inv w s -> settles d (q + 4) w s.
Proof.
  intros (Hd & Hn & Hp & x & Hx & Ho & Hq) Hi. destruct (adopt_all_physical 0 ds s) as (l & s1 & E1 & H1).
  assert (Es : usb_device_monitor (WAdopt 0) w s = (Ok (set_phase Waiting w), s1)).
  { cbn [usb_device_monitor]. by rewrite Hp, (M_bind_Ok _ _ _ _ _ E1). }
  assert (Hen : monitor_wakes (WAdopt 0) w = true) by (cbn; by rewrite Hp).
  apply (settles_after [WAdopt 0] d (q + 3) w s (set_phase Waiting w) s1); [|done|cbn; lia|].
  - cbn [steps exec]. by rewrite Hen, Es.
  - apply waiting_settles; [split_and!; eauto|]. by eapply wake_step_inv.
Qed.
Lemma settles_le d k bound w s : settles d k w s -> (k <= bound)%nat -> settles d bound w s.
Proof. intros (es & w' & s' & H) Hk. exists es, w', s'. destruct H as (E & H1 & H2 & H). split_and!; try done; [lia|by destruct H as (?&?&?)..]. Qed.
Lemma reported_settles p d q w s : awake w d 0 q p -> wake_inv w s -> settles d (q + 4) w s.
Proof.
  intros H Hi. destruct p.
  - eapply settles_le; [by eapply enumerating_settles|lia].
  - by eapply adopting_settles.
  - eapply settles_le; [by apply waiting_settles|lia].
  - eapply settles_le; [by apply debouncing_settles|lia].
Qed.
Lemma wake_steps_inv es w s w' s' : wake_inv w s -> steps es w s = Some (w', s') -> wake_inv w' s'.
Proof.
  revert w s; induction es as [|e es IH]; intros w s Hi E; cbn in E; [by injection E as <- <-|].
  destruct (monitor_wakes e w) eqn:He; [|done]. destruct (usb_device_monitor e w s) as [[w1| |] s1] eqn:Es; [|done..].
  eapply IH; [by eapply wake_step_inv|done].
Qed.

(** A watcher that could not be registered drops its sender: the loop then never waits, it passes
    over the devices again and again without a change and without the timer. *)
Lemma failed_watcher_spins b d n s : exists s',
  steps (concat (replicate n [WRecv; WTryRecv; WScan; WAdopt 0])) (mkWake d 0 (Some (mkWatch b 0 false)) Waiting) s =
  Some (mkWake d 0 (Some (mkWatch b 0 false)) Waiting, s').
Proof.
  revert s; induction n as [|n IH]; intros s; [by eexists|]. cbn [replicate concat].
  destruct (note_physical d s) as (s1 & E1 & _). destruct (adopt_all_physical 0 d s1) as (l & s2 & E2 & _).
  unfold steps. rewrite (exec_app _ _ _ _ _ _ (mkWake d 0 (Some (mkWatch b 0 false)) Waiting) s2); [apply IH|].
  assert (Es : usb_device_monitor WScan (mkWake d 0 (Some (mkWatch b 0 false)) Enumerating) s =
    (Ok (mkWake d 0 (Some (mkWatch b 0 false)) (Adopting d)), s1)) by (cbn [usb_device_monitor present]; by rewrite (M_bind_Ok _ _ _ _ _ E1)).
  assert (Ea : usb_device_monitor (WAdopt 0) (mkWake d 0 (Some (mkWatch b 0 false)) (Adopting d)) s1 =
    (Ok (mkWake d 0 (Some (mkWatch b 0 false)) Waiting), s2)) by (cbn [usb_device_monitor phase]; by rewrite (M_bind_Ok _ _ _ _ _ E2)).
  transitivity (steps [WScan; WAdopt 0] (mkWake d 0 (Some (mkWatch b 0 false)) Enumerating) s); [done|].
  unfold steps. cbn [exec monitor_wakes phase]. by rewrite Es, Ea.
Qed.

(** ** Theorems *)

(** C15: no change of the devices is lost on the monitor.  In every run in which the watcher lives, with
    devices coming and going at any time, reports arriving late and dropped when the channel is
    full, and the channel emptied after each message: when the loop waits with no message
    and no report outstanding, the devices it knows are those that are plugged in; and from every
    state, if nothing else changes, the loop gets there by a bounded number of its own steps,
    without waiting for the timer. *)
Theorem hotplug_no_lost_change bounded_channel devices es w s x :
  run monitor_wakes usb_device_monitor (monitor_start devices (Some (mkWatch bounded_channel 0 true))) new_shared es w s ->
  watch w = Some x -> open x = true ->
  (phase w = Waiting -> queued x = 0%nat -> undelivered w = 0%nat -> physical s = serials_of (present w)) /\
  settles (present w) (2 * undelivered w + queued x + 4) w s.
Proof.
  intros Hr Hx Ho. assert (Hi : wake_inv w s).
  { clear Hx Ho. induction Hr as [|es w s e w' s' Hr IH Hen Est]; [done|]. by eapply wake_step_inv. }
  split.
  - intros Hp Hq Hn. destruct (Hi x Hx Ho) as [?|[?|?]]; [by rewrite Hp|done|lia..].
  - destruct (all_reported (undelivered w) (present w) w s (queued x) (phase w)) as (es1 & w1 & E & Hw & H1 & H2).
    { split_and!; try done. by exists x. }
    assert (Hi1 : wake_inv w1 s) by (by eapply wake_steps_inv).
    eapply settles_after with (k := (undelivered w + queued x + 4)%nat); [exact E|done|lia|]. by eapply reported_settles.
Qed.

Lemma hotplug_no_lost_change_witness : exists w s,
  steps [WScan; WAdopt 0; WChange []] (monitor_start [] (Some (mkWatch true 0 true))) new_shared = Some (w, s) /\
  settles (present w) (2 * undelivered w + 0 + 4) w s.
Proof.
  eexists _, _. split; [vm_compute; reflexivity|].
  apply (hotplug_no_lost_change true [] [WScan; WAdopt 0; WChange []] _ _ (mkWatch true 0 true)); [|done..].
  apply exec_run. by vm_compute.
Defined.
