(* ===== verification/HostWatcher.v ===== *)
(** * Host: the watchers of USB devices

    The threads that fill the channel of the monitor: [spawn_hotplug_watcher] of
    [src/hdc/src/usb.rs], where libusb calls a handler, and [run_message_loop] of
    [src/hdc/src/usb_hotplug_windows.rs], where a hidden window gets messages.  What the system
    answers and sends is data; the theorems show that both do what [HostHotplug] assumes of a
    watcher. *)

From S2P Require Import Prelude RustStr Config Tlv Serializer Encrypt Transport Usb HostMaps HostUsbSession HostMonitor HostHotplug.

(** The sender is dropped when its thread ends. *)
Definition drop_sender (w : Watch) : Watch := mkWatch (bounded w) (queued w) false.

(** ** libusb *)

(** [device_arrived] and [device_left]. *)
Definition report (w : Watch) : Watch := try_send w.
(** [None]: libusb has no hotplug.  [reports] are the calls of the handler so far. *)
Definition spawn_hotplug_watcher (has_hotplug context_ok register_ok : bool) (reports : nat) : option Watch :=
  if negb has_hotplug then None
  else
    let w := mkWatch true 0 true in
    Some (if negb context_ok then drop_sender w else if negb register_ok then drop_sender w else Nat.iter reports report w).

(** ** Windows *)

Class WindowsMessages := {
  WM_DEVICECHANGE : Z; WM_QUIT : Z; DBT_DEVICEARRIVAL : Z; DBT_DEVICEREMOVECOMPLETE : Z
}.
Section Windows.
Context {WM : WindowsMessages}.

Definition device_change (wparam : Z) : bool := (wrap 32 wparam =? DBT_DEVICEARRIVAL) || (wrap 32 wparam =? DBT_DEVICEREMOVECOMPLETE).
(** [user_data]: the window has the sender. *)
Definition window_proc (user_data : bool) (msg wparam : Z) (w : Watch) : Watch :=
  if msg =? WM_DEVICECHANGE then if device_change wparam && user_data then try_send w else w else w.
(** One result of [PeekMessageW] after the other; the second value: was the loop left? *)
Fixpoint message_loop (peeks : list (option (Z * Z))) (w : Watch) : Watch * bool :=
  match peeks with
  | [] => (w, false)
  | None :: peeks => message_loop peeks w
  | Some (msg, wparam) :: peeks => if msg =? WM_QUIT then (w, true) else message_loop peeks (window_proc true msg wparam w)
  end.
Definition run_message_loop (class_ok window_ok : bool) (peeks : list (option (Z * Z))) (w : Watch) : Watch :=
  if negb class_ok then drop_sender w
  else if negb window_ok then drop_sender w
  else let '(w, quit) := message_loop peeks w in if quit then drop_sender w else w.
(** The value does not depend on what becomes of the thread. *)
Definition spawn_windows_usb_watcher (class_ok window_ok : bool) (peeks : list (option (Z * Z))) (w : Watch) : bool * Watch :=
  (true, run_message_loop class_ok window_ok peeks w).

(** ** What reaches the monitor *)

(** The messages up to the one that ends the loop, the device changes among them, and is there one? *)
Fixpoint until_quit (peeks : list (option (Z * Z))) : list (Z * Z) :=
  match peeks with
  | [] => []
  | None :: peeks => until_quit peeks
  | Some m :: peeks => if m.1 =? WM_QUIT then [] else m :: until_quit peeks
  end.
Definition changes (peeks : list (option (Z * Z))) : nat :=
  length (List.filter (fun m => (m.1 =? WM_DEVICECHANGE) && device_change m.2) (until_quit peeks)).
Definition quits (peeks : list (option (Z * Z))) : bool := existsb (fun p => match p with Some m => m.1 =? WM_QUIT | None => false end) peeks.

Lemma message_loop_counts peeks n : message_loop peeks (mkWatch false n true) = (mkWatch false (n + changes peeks) true, quits peeks).
Proof.
  revert n; induction peeks as [|[[msg wp]|] peeks IH]; intros n; cbn [message_loop quits existsb].
  - by rewrite Nat.add_0_r.
  - unfold changes, quits in *. cbn [until_quit existsb fst]. destruct (msg =? WM_QUIT) eqn:Eq; [cbn; by rewrite Nat.add_0_r|]. cbn [orb List.filter fst snd].
    unfold window_proc. destruct (msg =? WM_DEVICECHANGE); cbn [andb]; [|apply IH]. rewrite andb_true_r.
    destruct (device_change wp); [|apply IH]. cbn [try_send bounded queued open andb]. rewrite IH. cbn [length]. by rewrite Nat.add_succ_comm.
  - apply IH.
Qed.
End Windows.

(** What a thread does to the channel, the monitor's machine does by reports of the system and
    the end of the watcher. *)
Lemma notified n d k w p s : (n <= k)%nat -> open w = true ->
  steps (replicate n WNotify) (mkWake d k (Some w) p) s = Some (mkWake d (k - n) (Some (Nat.iter n try_send w)) p, s).
Proof.
  revert k w; induction n as [|n IH]; intros k w Hn Ho; [cbn; by rewrite Nat.sub_0_r|]. cbn [replicate]. unfold steps. cbn [exec monitor_wakes watch undelivered].
  rewrite (proj2 (Nat.ltb_lt _ _)), Ho by lia. cbn [andb]. destruct (try_send_queued w) as [_ Ho']. rewrite Ho in Ho'.
  destruct k as [|k]; [lia|]. etransitivity; [exact (IH k (try_send w) ltac:(lia) Ho')|]. cbn [Nat.sub]. by rewrite Nat.iter_swap.
Qed.
Lemma iter_unbounded n m o : Nat.iter n try_send (mkWatch false m o) = mkWatch false (n + m) o.
Proof. induction n as [|n IH]; [done|]. cbn [Nat.iter nat_rect]. unfold Nat.iter in IH. by rewrite IH. Qed.

(** The watcher on Windows implements the one of the monitor: for whatever the system sends, its channel
    is that of a run of the monitor's machine in which each device change is reported once, and the
    watcher ends when the loop is left.  When the window cannot be made the watcher ends at
    once, and the value that says it was started is the same. *)
Theorem windows_watcher_refines {WM : WindowsMessages} (class_ok window_ok : bool) (peeks : list (option (Z * Z))) (d : list UsbDeviceInfo) (k : nat) (p : Phase) (s : Shared) :
  (changes peeks <= k)%nat ->
  let '(started, w) := spawn_windows_usb_watcher class_ok window_ok peeks (mkWatch false 0 true) in
  started = true /\
  exists n, steps (replicate n WNotify ++ (if class_ok && window_ok && negb (quits peeks) then [] else [WWatcherEnds]))
    (mkWake d k (Some (mkWatch false 0 true)) p) s = Some (mkWake d (k - n) (Some w) p, s) /\
    n = if class_ok && window_ok then changes peeks else 0%nat.
Proof.
  intros Hk. cbn [spawn_windows_usb_watcher]. split; [done|]. unfold run_message_loop, steps.
  destruct class_ok, window_ok; cbn [negb andb]; try (exists 0%nat; split; [|done]; by rewrite Nat.sub_0_r).
  exists (changes peeks). split; [|done]. rewrite message_loop_counts. unfold steps.
  erewrite exec_app by (by apply notified). rewrite iter_unbounded, Nat.add_0_r. by destruct (quits peeks).
Qed.
(** So does the one of libusb, whose channel holds at most sixteen reports. *)
Theorem libusb_watcher_refines (context_ok register_ok : bool) (reports : nat) (d : list UsbDeviceInfo) (k : nat) (p : Phase) (s : Shared) :
  (reports <= k)%nat -> exists w, spawn_hotplug_watcher true context_ok register_ok reports = Some w /\
  (queued w <= HOTPLUG_CAPACITY)%nat /\
  steps (if context_ok && register_ok then replicate reports WNotify else [WWatcherEnds]) (mkWake d k (Some (mkWatch true 0 true)) p) s =
  Some (mkWake d (if context_ok && register_ok then k - reports else k) (Some w) p, s).
Proof.
  intros Hk. eexists. split; [reflexivity|]. destruct context_ok, register_ok; cbn [negb andb]; try (by split; [cbn; unfold HOTPLUG_CAPACITY; lia|]).
  split; [|by apply notified]. clear Hk. assert (H : bounded (Nat.iter reports report (mkWatch true 0 true)) = true /\ (queued (Nat.iter reports report (mkWatch true 0 true)) <= HOTPLUG_CAPACITY)%nat); [|apply H].
  induction reports as [|n [Hb Hq]]; [by split; [|cbn; lia]|]. cbn [Nat.iter nat_rect] in *. unfold Nat.iter in Hb, Hq |- *. unfold report at 1 3, try_send.
  rewrite Hb. cbn [andb]. destruct (HOTPLUG_CAPACITY <=? _)%nat eqn:E; [by split|]. apply Nat.leb_gt in E. cbn [bounded queued]. split; [done|lia].
Qed.

Section WatcherExamples.
(** The values of the Windows headers. *)
#[local] Instance windows_messages : WindowsMessages :=
  { WM_DEVICECHANGE := 537; WM_QUIT := 18; DBT_DEVICEARRIVAL := 32768; DBT_DEVICEREMOVECOMPLETE := 32772 }.
(** An arrival, another change, a removal; then the window is closed. *)
Definition sample_peeks : list (option (Z * Z)) := [None; Some (537, 32768); Some (537, 7); None; Some (537, 32772); Some (18, 0); Some (537, 32768)].
Lemma windows_watcher_refines_witness : exists n,
  steps (replicate n WNotify ++ [WWatcherEnds]) (mkWake [] 2 (Some (mkWatch false 0 true)) Waiting) new_shared =
  Some (mkWake [] (2 - n) (Some (mkWatch false 2 false)) Waiting, new_shared).
Proof.
  destruct (windows_watcher_refines true true sample_peeks [] 2 Waiting new_shared) as (_ & n & E & _); [vm_compute; lia|]. by exists n.
Defined.
Lemma libusb_watcher_refines_witness : exists w, spawn_hotplug_watcher true true true 20 = Some w /\ (queued w <= HOTPLUG_CAPACITY)%nat.
Proof. destruct (libusb_watcher_refines true true 20 [] 20 Waiting new_shared) as (w & E & H & _); [lia|]. exists w. exact (conj E H). Defined.
End WatcherExamples.
