(* ===== verification/HostCommand.v ===== *)
(** * The host server: clients and their commands

    [src/hdc/src/server.rs]: [dispatch_task], which carries out one command of a client,
    [handle_client], the task of a client connection, and the helpers of both.  The handlers
    of commands that talk to a device are those of [HostFile], [HostApp] and [HostForward];
    [connect] uses [HostSession].  What comes from outside (addresses that answered a
    broadcast, random numbers, the stream of a new connection) is the record [Inputs]. *)

From S2P Require Import Parser.
From S2P Require Import Prelude RustStr Config Tlv Serializer Encrypt Transport Reading RsaAuth HostMaps HostChannels HostSession HostTask.
From S2P Require Import HostFile HostApp HostForward.

(** The tables with the waits of a handler and the disk, and the key files. *)
Record Srv := mkSrv { sv_task : Task; sv_files : Files }.
Definition on_task {A} : M Task A -> M Srv A := zoom sv_task (fun t s => mkSrv t (sv_files s)).
Definition on_shost {A} (m : M Host A) : M Srv A := on_task (HostTask.on_host m).
Definition srv_host (s : Srv) : Host := t_host (sv_task s).

(** What a command meets outside: the addresses found by a broadcast, the tables of devices
    at the later polls of [wait], the random numbers of [fport] and [install], and for
    [connect] the time-outs, what the connection takes, the seed, the session's identifier and
    the bytes that will come. *)
Record Inputs := mkInputs {
  discovered : Result (list bytes); polls : list ConnectMap.t; ctx_id : Z; handle : positive; rnd : list Z;
  timeouts : nat -> bool; limit : option (Z * Error); seed : Z; new_session : Z; incoming : Stream
}.
(** The task that a command leaves running: the reader of a new session (and its heartbeat,
    when there is one), the dispatcher of a rule, or the stream of [track-jpid]. *)
Inductive Spawned := SReader (session_id : Z) (key : bytes) (rd : Stream) (heartbeat : bool) | SRule (rule : Rule) | STrack (session_id : Z) (tx : positive).

Definition crlf : bytes := [13; 10].
Definition fail_line (e : Error) : bytes := lit "[Fail]" ++ err_msg e ++ crlf.

Section Commands.
Context {HA : Aead} {HI : HashIter} {HR : Rsa} {HF : HostFs} {HS : HostSys} {HD : HostDisk} {HZ : Zip} {HN : HostNet}.

Definition say (channel_id : Z) (text : bytes) : M Srv unit := on_task (to_client channel_id text).
Definition say_ok (channel_id : Z) (text : bytes) : M Srv unit := on_task (to_client_ok channel_id text).
Definition done_with (channel_id : Z) : M Srv unit := on_shost (maybe_end_channel channel_id).
(** [send(..)?; maybe_end_channel] and [let _ = send(..); maybe_end_channel]. *)
Definition answer (channel_id : Z) (text : bytes) : M Srv (option Spawned) := _ ← say channel_id text; _ ← done_with channel_id; mret None.
Definition answer_ok (channel_id : Z) (text : bytes) : M Srv (option Spawned) := _ ← say_ok channel_id text; _ ← done_with channel_id; mret None.

(** A command for a device: its handler, or the reason why there is none for the client. *)
Definition with_device (connect_key : bytes) (channel_id : Z) (handler : bytes -> Z -> M Srv (option Spawned)) : M Srv (option Spawned) :=
  s ← get;
  match resolve_connect_key (connect_map (srv_host s)) connect_key with
  | Ok actual_key =>
      match ConnectMap.get_session_id actual_key (connect_map (srv_host s)) with
      | Some session_id =>
          r ← try_ (handler actual_key session_id);
          match r with
          | Ok o => mret o
          | Err e => answer_ok channel_id (fail_line e)
          | Panic => lift Panic
          end
      | None => answer_ok channel_id (lit "[Fail]Session not found" ++ crlf)
      end
  | Err e => answer_ok channel_id (fail_line e)
  | Panic => lift Panic
  end.
Definition plain (m : M Task unit) : M Srv (option Spawned) := _ ← on_task m; mret None.

(** New addresses are registered as devices that can be connected to. *)
Fixpoint add_discovered (addrs : list bytes) (count : Z) : M Host Z :=
  match addrs with
  | [] => mret count
  | addr :: t =>
      h ← get;
      if ConnectMap.contains_key addr (connect_map h) then add_discovered t count
      else _ ← on_connect (ConnectMap.put addr (DaemonInfo.mk 0 Tcp Ready [] [])); add_discovered t (count + 1)
  end.
(** Polls until a device is connected; [later] are the tables of devices at the next polls.  The
    code polls without end: at the end of [later] it is still waiting, and the value stands for a
    call that has not returned.  [wait_for_returns] is that it returns as soon as there is a device. *)
Fixpoint wait_for (channel_id : Z) (later : list ConnectMap.t) : M Srv (option Spawned) :=
  s ← get;
  match ConnectMap.get_list false (connect_map (srv_host s)) with
  | first :: _ => answer channel_id (lit "Wait for connected target " ++ first ++ crlf)
  | [] =>
      _ ← say channel_id (lit "[Fail]No any connected target" ++ crlf);
      match later with
      | [] => lift Panic
      | m :: later => _ ← on_shost (modify (set_connect_map m)); wait_for channel_id later
      end
  end.
Definition track_option (params : list bytes) : bytes :=
  if existsb (beq (lit "-a")) params then lit "a" else if existsb (beq (lit "-p")) params then lit "p" else [].

(** The stream of [track-jpid]: everything up to the end goes to the client. *)
Definition track_payload (task : TaskMessage) : bytes :=
  if cmd_eqb (command task) KernelEcho then match payload task with [] => [] | _ :: t => t end else payload task.
Fixpoint track_loop (fuel : nat) (channel_id : Z) : M Task unit :=
  match fuel with
  | O => lift Panic
  | S f =>
      e ← rx_recv;
      match e with
      | RxMsg task =>
          if cmd_eqb (command task) KernelChannelClose then mret tt
          else
            r ← try_ (to_client channel_id (track_payload task));
            match r with
            | Ok _ => track_loop f channel_id
            | _ => mret tt
            end
      | _ => mret tt
      end
  end.
Definition track_task (session_id channel_id : Z) (tx : positive) : M Task unit :=
  t ← get;
  _ ← track_loop (rx_fuel t) channel_id;
  _ ← HostTask.on_host (on_tcp (TcpMap.end_channel channel_id));
  unregister session_id channel_id tx.

(** The answers to [uninstall], until the daemon is silent. *)
Fixpoint collect_loop (fuel : nat) (channel_id : Z) : M Task unit :=
  match fuel with
  | O => lift Panic
  | S f =>
      e ← rx_recv;
      match e with
      | RxMsg task =>
          if cmd_eqb (command task) KernelChannelClose then mret tt
          else _ ← to_client_ok channel_id (from_utf8_lossy (payload task)); collect_loop f channel_id
      | _ => mret tt
      end
  end.
Definition collect_daemon_response_then_close (session_id channel_id : Z) : M Task unit :=
  _ ← with_queue session_id channel_id (t ← get; collect_loop (rx_fuel t) channel_id);
  HostTask.on_host (maybe_end_channel channel_id).

(** What goes to the daemon of a command that is only forwarded. *)
Definition forwarded_payload (cmd : HdcCommand) (params : list bytes) : bytes :=
  match cmd with
  | UnityExecute | UnityReboot | UnityRemount | UnityRunmode | UnityRootrun | UnityHilog | UnityBugreportInit | AppUninstall =>
      join [32] (drop 1 params)
  | _ => join [32] params
  end.
Definition send_failed (e : Error) : bytes := lit "[Fail]Send to daemon failed: " ++ err_msg e ++ crlf.
Definition forward_to_daemon (connect_key : bytes) (channel_id : Z) (cmd : HdcCommand) (params : list bytes) : M Srv (option Spawned) :=
  s ← get;
  match resolve_session_id (connect_map (srv_host s)) connect_key with
  | Ok session_id =>
      r ← try_ (on_task (to_daemon session_id (mkTaskMessage channel_id cmd (forwarded_payload cmd params))));
      _ ← match r with Err e => say channel_id (send_failed e) | _ => mret tt end;
      _ ← on_shost (on_tcp (TcpMap.associate_channel_with_session channel_id session_id));
      if cmd_eqb cmd AppUninstall
      then _ ← on_task (collect_daemon_response_then_close session_id channel_id); mret None
      else mret None
  | Err e => answer channel_id (fail_line e)
  | Panic => lift Panic
  end.

(** [connect]: the session's tables are the server's. *)
Definition connect_to (i : Inputs) (addr : bytes) : M Srv (Stream * bool) := fun s =>
  let '(r, s') := start_tcp_daemon_session (timeouts i) (limit i) (seed i) (new_session i) addr
                    (mkSession (srv_host s) (incoming i) (sv_files s)) in
  (b ← r; Ok (s_rd s', b), mkSrv (mkTask (s_host s') (t_rx (sv_task s)) (t_fs (sv_task s))) (s_files s')).

Definition second_or (params : list bytes) (connect_key : bytes) : bytes := default connect_key (params !! 1%nat).

(** *** The longer commands *)

Definition forward_remove (connect_key : bytes) (channel_id : Z) (params : list bytes) : M Srv (option Spawned) :=
  r ← try_ (on_shost (remove_forward_entry connect_key channel_id (join [32] (drop 2 params))));
  match r with
  | Ok msg => answer_ok channel_id (msg ++ crlf)
  | Err e => answer_ok channel_id (fail_line e)
  | Panic => lift Panic
  end.
Definition jdwp_track (devices : ConnectMap.t) (connect_key : bytes) (channel_id : Z) (cmd : HdcCommand) (params : list bytes)
    : M Srv (option Spawned) :=
  match resolve_session_id devices connect_key with
  | Ok session_id =>
      tx ← on_task (register session_id channel_id);
      r ← try_ (on_task (to_daemon session_id (mkTaskMessage channel_id cmd (track_option params))));
      match r with
      | Err e =>
          _ ← say channel_id (send_failed e);
          _ ← done_with channel_id;
          _ ← on_task (unregister session_id channel_id tx);
          mret None
      | _ =>
          _ ← on_shost (on_tcp (TcpMap.associate_channel_with_session channel_id session_id));
          mret (Some (STrack session_id tx))
      end
  | Err e => answer channel_id (fail_line e)
  | Panic => lift Panic
  end.
Definition jdwp_list (devices : ConnectMap.t) (connect_key : bytes) (channel_id : Z) (cmd : HdcCommand) : M Srv (option Spawned) :=
  match resolve_session_id devices connect_key with
  | Ok session_id =>
      r ← try_ (on_task (to_daemon session_id (mkTaskMessage channel_id cmd [])));
      _ ← match r with
          | Err e => _ ← say channel_id (send_failed e); done_with channel_id
          | _ => mret tt
          end;
      _ ← on_shost (on_tcp (TcpMap.associate_channel_with_session channel_id session_id));
      mret None
  | Err e => answer channel_id (fail_line e)
  | Panic => lift Panic
  end.

Definition dispatch_task (i : Inputs) (cmd : HdcCommand) (connect_key : bytes) (channel_id : Z) (params : list bytes)
    : M Srv (option Spawned) :=
  s ← get;
  let devices := connect_map (srv_host s) in
  match cmd with
  | KernelTargetList =>
      let list := ConnectMap.get_list (existsb (fun p => beq p (lit "v") || beq p (lit "-v")) params) devices in
      answer channel_id ((match list with [] => lit "[Empty]" | _ => join [10] list end) ++ crlf)
  | KernelTargetDiscover =>
      count ← match discovered i with Ok addrs => on_shost (add_discovered addrs 0) | _ => mret 0 end;
      answer channel_id (lit "Broadcast find daemon, total:" ++ fmt_dec count ++ crlf)
  | KernelCheckDevice =>
      match resolve_connect_key devices (second_or params connect_key) with
      | Ok actual_key =>
          answer channel_id (match ConnectMap.get_session_id actual_key devices with
            | Some _ => lit "Device " ++ actual_key ++ lit " is connected" ++ crlf
            | None => lit "[Fail]Device " ++ actual_key ++ lit " is not connected" ++ crlf
            end)
      | Err e => answer channel_id (fail_line e)
      | Panic => lift Panic
      end
  | KernelTargetConnect =>
      match params !! 1%nat with
      | None => answer channel_id (lit "[Fail]Missing connect address" ++ crlf)
      | Some addr =>
          r ← try_ (connect_to i addr);
          match r with
          | Ok (rd, heartbeat) =>
              _ ← say channel_id (lit "Connect OK" ++ crlf);
              _ ← done_with channel_id;
              mret (Some (SReader (new_session i) addr rd heartbeat))
          | Err e => answer channel_id (lit "[Fail]Connect to daemon failed: " ++ err_msg e ++ crlf)
          | Panic => lift Panic
          end
      end
  | KernelCheckServer => answer channel_id (to_le_bytes 2 (wrap 16 (as_u32 KernelCheckServer)) ++ get_version)
  | ClientVersion => answer channel_id get_version
  | KernelEnableKeepalive => _ ← on_shost (on_tcp (TcpMap.set_keep_alive channel_id)); mret None
  | KernelWaitFor => wait_for channel_id (polls i)
  | KernelTargetReconnect =>
      match resolve_connect_key devices (second_or params connect_key) with
      | Ok actual_key =>
          match ConnectMap.get_session_id actual_key devices with
          | Some session_id =>
              _ ← on_shost (on_tcp (TcpMap.end_session session_id));
              _ ← on_shost (on_connect (ConnectMap.remove actual_key));
              answer channel_id (lit "Reconnecting " ++ actual_key ++ lit " ..." ++ crlf)
          | None => answer channel_id (lit "[Fail]Device " ++ actual_key ++ lit " is not connected" ++ crlf)
          end
      | Err e => answer channel_id (fail_line e)
      | Panic => lift Panic
      end
  | SpawnSub =>
      answer channel_id ((if bool_decide (head params = Some (lit "killall-sub"))
                          then lit "Kill all subserver processes (not fully implemented)"
                          else lit "Spawn subserver (not fully implemented)") ++ crlf)
  | FileInit => with_device connect_key channel_id (fun _ sid => plain (handle_server_file_send sid channel_id params))
  | FileRecvInit => with_device connect_key channel_id (fun _ sid => plain (handle_server_file_recv sid channel_id params))
  | AppInit => with_device connect_key channel_id (fun _ sid => plain (handle_server_app_install (rnd i) sid channel_id params))
  | ForwardInit =>
      with_device connect_key channel_id (fun key sid =>
        rule ← on_task (handle_server_forward (ctx_id i) (handle i) key sid channel_id params); mret (Some (SRule rule)))
  | ForwardRportInit =>
      with_device connect_key channel_id (fun key sid =>
        rule ← on_task (handle_server_rport key sid channel_id params); mret (Some (SRule rule)))
  | ForwardList | ForwardRportList =>
      let list := build_forward_list connect_key (forward_map (srv_host s)) in
      answer_ok channel_id ((if bool_decide (list = []) then lit "[Empty]" else list) ++ crlf)
  | ForwardRemove | ForwardRportRemove => forward_remove connect_key channel_id params
  | JdwpTrack => jdwp_track devices connect_key channel_id cmd params
  | JdwpList => jdwp_list devices connect_key channel_id cmd
  | FlashdUpdateInit | FlashdFlashInit | FlashdErase | FlashdFormat =>
      with_device connect_key channel_id (fun _ sid => plain (handle_server_flashd sid channel_id cmd params))
  | _ => forward_to_daemon connect_key channel_id cmd params
  end.

(** ** The task of a client *)

(** [read_exact]: the end of the stream is an error when bytes are missing. *)
Definition read_some (n : Z) : M Stream bytes :=
  b ← tcp_read n; if len b =? 0 then throw UnexpectedEof "early eof" else mret b.
Definition read_exact (n : Z) : M Stream bytes := read_loop (fun _ n => read_some n) id "early eof" (Z.to_nat n) [] n.
Definition recv_channel_message : M Stream bytes :=
  len_buf ← read_exact 4;
  read_exact (from_be_bytes len_buf).

(** The server, the client's half of the connection and the tasks that were started. *)
Record ClientTask := mkClientTask { ct_srv : Srv; ct_rd : Stream; ct_spawned : list Spawned }.
Definition on_srv {A} : M Srv A -> M ClientTask A := zoom ct_srv (fun s t => mkClientTask s (ct_rd t) (ct_spawned t)).
Definition on_crd {A} : M Stream A -> M ClientTask A := zoom ct_rd (fun rd t => mkClientTask (ct_srv t) rd (ct_spawned t)).
Definition spawn (o : option Spawned) : M ClientTask unit := modify (fun t => mkClientTask (ct_srv t) (ct_rd t) (ct_spawned t ++ option_list o)).

(** What the server says first: the banner and the channel's identifier. *)
Definition hello (channel_id : Z) : bytes :=
  HANDSHAKE_MESSAGE ++ replicate (Z.to_nat (BANNER_SIZE - len HANDSHAKE_MESSAGE)) 0 ++
  to_le_bytes 4 channel_id ++ replicate (Z.to_nat (KEY_MAX_SIZE - 4)) 0.
(** The first message: the key of the device, or already a command. *)
Definition first_message (recv : bytes) : Result (bytes * option bytes) :=
  if starts_with HANDSHAKE_MESSAGE recv then
    match unpack_channel_handshake recv with
    | Ok key => Ok (match key with [] => lit "any" | _ => key end, None)
    | Err _ => Ok ([], Some recv)
    | Panic => Panic
    end
  else Ok ([], Some recv).
Definition request (recv : bytes) : Parsed :=
  split_opt_and_cmd (map (trim_end_matches 0) (split_on 32 (from_utf8_lossy recv))).
(** Whether there is something to complain about in a message without a command. *)
Definition unknown_request (recv : bytes) : bool :=
  let trimmed := trim (trim_end_matches 0 (from_utf8_lossy recv)) in
  negb (beq trimmed []) && negb (beq trimmed (lit "alive")).

(** One turn of the loop; a shell without a command takes the connection over. *)
Inductive Next := Again | Stop | Shell (actual_key : bytes) (wr : Writer).
Definition run_command (i : Inputs) (connect_key : bytes) (channel_id : Z) (cmd : HdcCommand) (params : list bytes) : M ClientTask Next :=
  r ← try_ (on_srv (dispatch_task i cmd connect_key channel_id params));
  match r with
  | Ok o => _ ← spawn o; mret Again
  | Err e => _ ← on_srv (say_ok channel_id (fail_line e)); mret Again
  | Panic => lift Panic
  end.
Definition serve_request (i : Inputs) (connect_key : bytes) (channel_id : Z) (recv : bytes) : M ClientTask Next :=
  let parsed := request recv in
  match Parser.command parsed with
  | Some cmd =>
      if cmd_eqb cmd UnityExecute && (length (parameters parsed) =? 1)%nat then
        t ← get;
        match resolve_connect_key (connect_map (srv_host (ct_srv t))) connect_key with
        | Ok actual_key =>
            wr ← on_srv (on_shost (on_tcp (TcpMap.take_channel_writer channel_id)));
            match wr with
            | Some wr => mret (Shell actual_key wr)
            | None => run_command i connect_key channel_id cmd (parameters parsed)
            end
        | Err e => _ ← on_srv (say_ok channel_id (fail_line e)); mret Stop
        | Panic => lift Panic
        end
      else run_command i connect_key channel_id cmd (parameters parsed)
  | None =>
      _ ← (if unknown_request recv then on_srv (say_ok channel_id (lit "[Fail][E001001]Unknown command" ++ crlf)) else mret tt);
      mret Again
  end.
Definition finish_client (channel_id : Z) : M ClientTask (option (bytes * Writer)) :=
  _ ← on_srv (on_shost (on_tcp (TcpMap.end_channel channel_id))); mret None.
(** The loop over the commands; [ins n] are the inputs of the [n]-th. *)
Fixpoint client_loop (fuel : nat) (ins : nat -> Inputs) (n : nat) (connect_key : bytes) (channel_id : Z) (pending : option bytes)
    : M ClientTask (option (bytes * Writer)) :=
  match fuel with
  | O => lift Panic
  | S f =>
      recv ← match pending with Some msg => mret (Ok msg) | None => try_ (on_crd recv_channel_message) end;
      match recv with
      | Ok recv =>
          next ← serve_request (ins n) connect_key channel_id recv;
          match next with
          | Again => client_loop f ins (S n) connect_key channel_id None
          | Stop => finish_client channel_id
          | Shell actual_key wr => mret (Some (actual_key, wr))
          end
      | Err _ => finish_client channel_id
      | Panic => lift Panic
      end
  end.
(** The result is the connection's writer with the device's key when an interactive shell
    takes the connection over ([run_server_shell_bridge]).  Each turn but the first takes
    bytes from the stream, so its weight bounds their number. *)
Definition handle_client (ins : nat -> Inputs) (channel_id : Z) (wr : Writer) : M ClientTask (option (bytes * Writer)) :=
  _ ← on_srv (on_shost (on_tcp (TcpMap.start_channel channel_id wr)));
  _ ← on_srv (say channel_id (hello channel_id));
  recv ← try_ (on_crd recv_channel_message);
  match recv with
  | Ok recv =>
      first ← lift (first_message recv);
      t ← get;
      client_loop (S (S (weight (ct_rd t)))) ins 0 first.1 channel_id first.2
  | Err _ => finish_client channel_id
  | Panic => lift Panic
  end.
End Commands.

(** ** Reading the client's messages *)

Lemma read_some_loop fuel got n rd :
  clean rd -> read_loop (fun _ n => read_some n) id "early eof" fuel got n rd =
  match read_loop (fun _ n => tcp_read n) id "early eof" fuel got n rd with
  | (Err _, rd') => (err UnexpectedEof "early eof", rd')
  | x => x
  end.
Proof.
  revert got rd; induction fuel as [|fuel IH]; intros got rd Hc; cbn [read_loop]; case_if; try done.
  unfold read_some. rewrite M_bind_eq.
  destruct (tcp_read_spec (n - len got) rd Hc ltac:(lia)) as (b & rd' & -> & _ & Hc' & _).
  destruct (len b =? 0) eqn:E; [done|]. cbn. rewrite E. by apply IH.
Qed.
Lemma read_exact_flat n rd :
  clean rd -> 0 <= n -> exists rd',
  read_exact n rd = (if n <=? len (flat rd) then Ok (take (Z.to_nat n) (flat rd)) else err UnexpectedEof "early eof", rd') /\
  clean rd' /\ flat rd' = drop (Z.to_nat n) (flat rd).
Proof.
  intros Hc Hn. unfold read_exact. rewrite read_some_loop by done.
  destruct (read_loop_flat id "early eof" (Z.to_nat n) [] n rd Hc) as (rd' & -> & Hc' & Hd); [rewrite len_nil; lia..|].
  exists rd'. rewrite len_nil, Z.sub_0_r, Z.add_0_l in *. split_and!; try done. by case_if.
Qed.
Lemma read_exact_app a rest rd n :
  clean rd -> flat rd = a ++ rest -> n = len a -> exists rd', read_exact n rd = (Ok a, rd') /\ clean rd' /\ flat rd' = rest.
Proof.
  intros Hc Ef ->. destruct (read_exact_flat (len a) rd Hc (len_nonneg a)) as (rd' & E & Hc' & Hd).
  exists rd'. rewrite E, Hd, Ef, len_app. pose proof (len_nonneg rest). tests.
  unfold len. by rewrite Nat2Z.id, take_app_length, drop_app_length.
Qed.
(** A message that is there is read, and at the end of the stream there is none. *)
Lemma recv_message m rest rd :
  u32 (len m) -> clean rd -> flat rd = channel_frame m ++ rest -> exists rd',
  recv_channel_message rd = (Ok m, rd') /\ clean rd' /\ flat rd' = rest.
Proof.
  intros Hm Hc Ef. unfold channel_frame in Ef. rewrite <- app_assoc in Ef. unfold recv_channel_message.
  destruct (read_exact_app _ _ _ 4 Hc Ef) as (rd1 & E1 & Hc1 & Ef1); [by rewrite len_to_be_bytes|].
  rewrite (M_bind_Ok _ _ _ _ _ E1). apply (read_exact_app m rest rd1 _ Hc1 Ef1).
  by rewrite wrap_small, from_to_be_bytes_id by done.
Qed.
Lemma recv_nothing rd : clean rd -> flat rd = [] -> exists rd',
  recv_channel_message rd = (err UnexpectedEof "early eof", rd') /\ clean rd' /\ flat rd' = [].
Proof.
  intros Hc Ef. destruct (read_exact_flat 4 rd Hc ltac:(lia)) as (rd' & E & Hc' & Ef'). rewrite Ef in E, Ef'. exists rd'.
  unfold recv_channel_message. by rewrite M_bind_eq, E.
Qed.

(** ** The client's requests, without the stream *)

Section Serving.
Context {HA : Aead} {HI : HashIter} {HR : Rsa} {HF : HostFs} {HS : HostSys} {HD : HostDisk} {HZ : Zip} {HN : HostNet}.

(** The reference: the messages in order, each served by [serve_request], up to the one that
    ends the task; the second result are the messages left. *)
Fixpoint serve_all (ins : nat -> Inputs) (n : nat) (connect_key : bytes) (channel_id : Z) (msgs : list bytes)
    : M ClientTask (option (bytes * Writer) * list bytes) :=
  match msgs with
  | [] => r ← finish_client channel_id; mret (r, [])
  | m :: msgs =>
      next ← serve_request (ins n) connect_key channel_id m;
      match next with
      | Again => serve_all ins (S n) connect_key channel_id msgs
      | Stop => r ← finish_client channel_id; mret (r, msgs)
      | Shell actual_key wr => mret (Some (actual_key, wr), msgs)
      end
  end.
Definition serve_client (ins : nat -> Inputs) (channel_id : Z) (wr : Writer) (connect_key : bytes) (msgs : list bytes)
    : M ClientTask (option (bytes * Writer) * list bytes) :=
  _ ← on_srv (on_shost (on_tcp (TcpMap.start_channel channel_id wr)));
  _ ← on_srv (say channel_id (hello channel_id));
  serve_all ins 0 connect_key channel_id msgs.

(** What does not look at the stream. *)
Definition with_rd (rd : Stream) (t : ClientTask) : ClientTask := mkClientTask (ct_srv t) rd (ct_spawned t).
Definition blind {A} (m : M ClientTask A) : Prop := forall rd t, m (with_rd rd t) = let '(r, t') := m t in (r, with_rd rd t').
Lemma blind_bind {A B} (m : M ClientTask A) (f : A -> M ClientTask B) : blind m -> (forall a, blind (f a)) -> blind (m ≫= f).
Proof. intros Hm Hf rd t. rewrite !M_bind_eq, Hm. destruct (m t) as [[a|e|] t']; [apply Hf|done..]. Qed.
Lemma blind_ret {A} (a : A) : blind (mret a).
Proof. done. Qed.
Lemma blind_lift {A} (r : Result A) : blind (lift r).
Proof. done. Qed.
Lemma blind_srv {A} (m : M Srv A) : blind (on_srv m).
Proof. intros rd t. unfold on_srv, zoom, with_rd. cbn. by destruct (m (ct_srv t)). Qed.
Lemma blind_try {A} (m : M ClientTask A) : blind m -> blind (try_ m).
Proof. intros H rd t. unfold try_. rewrite H. by destruct (m t) as [[] ?]. Qed.
Lemma blind_get {A} (f : Srv -> M ClientTask A) : (forall s, blind (f s)) -> blind (t ← get; f (ct_srv t)).
Proof. intros H rd t. rewrite !M_bind_eq. cbn [get]. apply H. Qed.
Lemma blind_spawn o : blind (spawn o).
Proof. done. Qed.
Create HintDb blind.
#[local] Hint Resolve blind_ret blind_lift blind_srv blind_try blind_spawn : blind.
Lemma blind_run i key ch cmd params : blind (run_command i key ch cmd params).
Proof. apply blind_bind; [auto with blind|]. intros [o|e|]; [..|done]; apply blind_bind; auto with blind. Qed.
#[local] Hint Resolve blind_run : blind.
Lemma blind_serve i key ch m : blind (serve_request i key ch m).
Proof.
  unfold serve_request. destruct (Parser.command _) as [cmd|].
  - case_if; [|auto with blind]. apply (blind_get (fun s => match resolve_connect_key (connect_map (srv_host s)) key with
      | Ok actual_key => _ | Err e => _ | Panic => _ end)).
    intros s. case_match; [..|done]; (apply blind_bind; [auto with blind|]); intros x; try case_match; auto with blind.
  - apply blind_bind; [case_if|]; auto with blind.
Qed.
Lemma blind_finish ch : blind (finish_client ch).
Proof. apply blind_bind; auto with blind. Qed.

(** The two runs agree: on the result, the server, the started tasks and what is left to read. *)
Definition agrees {A} (x : Result (A * list bytes) * ClientTask) (y : Result A * ClientTask) : Prop :=
  ct_srv y.2 = ct_srv x.2 /\ ct_spawned y.2 = ct_spawned x.2 /\
  match x.1 with
  | Ok (r, rest) => y.1 = Ok r /\ clean (ct_rd y.2) /\ flat (ct_rd y.2) = concat (map channel_frame rest)
  | Err e => y.1 = Err e
  | Panic => y.1 = Panic
  end.
Definition fit (msgs : list bytes) : Prop := Forall (fun m => u32 (len m)) msgs.

Lemma finish_agrees ch rd t rest :
  clean rd -> flat rd = concat (map channel_frame rest) ->
  agrees ((r ← finish_client ch; mret (r, rest)) t) (finish_client ch (with_rd rd t)).
Proof. intros Hc Ef. rewrite M_bind_eq, blind_finish. by destruct (finish_client ch t) as [[r|e|] t']. Qed.
Lemma serve_agrees ins ch key msgs fuel n m t rd :
  (forall n t rd, clean rd -> flat rd = concat (map channel_frame msgs) ->
     agrees (serve_all ins n key ch msgs t) (client_loop fuel ins n key ch None (with_rd rd t))) ->
  clean rd -> flat rd = concat (map channel_frame msgs) ->
  agrees (serve_all ins n key ch (m :: msgs) t) (client_loop (S fuel) ins n key ch (Some m) (with_rd rd t)).
Proof.
  intros IH Hc Ef. cbn [serve_all client_loop]. rewrite (M_bind_eq (mret _)). cbn [mret M_ret].
  rewrite !M_bind_eq, blind_serve. destruct (serve_request (ins n) key ch m t) as [[[| |k w]|e|] t'];
    [by apply IH|by apply finish_agrees|done..].
Qed.
Lemma loop_agrees ins ch key msgs : fit msgs -> forall fuel n t rd,
  clean rd -> flat rd = concat (map channel_frame msgs) -> (length msgs < fuel)%nat ->
  agrees (serve_all ins n key ch msgs t) (client_loop fuel ins n key ch None (with_rd rd t)).
Proof.
  induction 1 as [|m msgs Hl Hm IH]; intros fuel n t rd Hc Ef Hf; (destruct fuel as [|f]; [cbn in Hf; lia|]); cbn [client_loop].
  - destruct (recv_nothing rd Hc Ef) as (rd' & E & Hc' & Ef').
    rewrite M_bind_eq. unfold try_, on_crd, zoom. cbn [with_rd ct_rd]. rewrite E. by apply (finish_agrees ch rd' t []).
  - cbn [map concat] in Ef. destruct (recv_message m _ rd Hl Hc Ef) as (rd' & E & Hc' & Ef').
    rewrite M_bind_eq. unfold try_, on_crd, zoom. cbn [with_rd ct_rd]. rewrite E.
    apply (serve_agrees ins ch key msgs f n m t rd'); [|done..]. intros n' t' rd2 Hc2 Ef2. apply IH; try done. cbn in Hf. lia.
Qed.
Lemma frames_long msgs : (length msgs <= length (concat (map channel_frame msgs)))%nat.
Proof. induction msgs as [|m msgs IH]; [done|]. cbn [map concat length]. unfold channel_frame at 1. rewrite !length_app, length_to_be_bytes. lia. Qed.

Lemma client_agrees ins ch wr s rd sp first key pending msgs :
  fit (first :: msgs) -> clean rd -> flat rd = concat (map channel_frame (first :: msgs)) ->
  first_message first = Ok (key, pending) ->
  agrees (serve_client ins ch wr key (option_list pending ++ msgs) (mkClientTask s [] sp))
         (handle_client ins ch wr (mkClientTask s rd sp)).
Proof.
  intros [Hl Hm]%Forall_cons Hc Ef Hfm. cbn [map concat] in Ef. unfold serve_client, handle_client.
  change (mkClientTask s rd sp) with (with_rd rd (mkClientTask s [] sp)).
  rewrite !(M_bind_eq (on_srv (on_shost _))), (blind_srv (on_shost _)).
  destruct (on_srv (on_shost _) _) as [[[]|e|] t1]; [|done..].
  rewrite !(M_bind_eq (on_srv _)), (blind_srv (say _ _)). destruct (on_srv (say _ _) t1) as [[[]|e|] t2]; [|done..].
  destruct (recv_message first _ rd Hl Hc Ef) as (rd' & E & Hc' & Ef').
  rewrite (M_bind_eq (try_ _)). unfold try_, on_crd, zoom. cbn [with_rd ct_rd]. rewrite E.
  rewrite (M_bind_eq (lift _)). unfold lift. rewrite Hfm. rewrite M_bind_eq. cbn [get fst snd ct_rd].
  assert (Hlen : (length msgs <= weight rd')%nat).
  { unfold weight. rewrite Ef'. pose proof (frames_long msgs). lia. }
  destruct pending as [p|]; cbn [option_list app].
  - apply (serve_agrees ins ch key msgs _ 0 p t2 rd'); [|done..]. intros n t rd2 Hc2 Ef2. apply loop_agrees; try done. lia.
  - apply (loop_agrees ins ch key msgs Hm _ 0 t2 rd'); try done. lia.
Qed.
End Serving.

(** ** Commands the server answers itself *)

Section Local.
Context {HA : Aead} {HI : HashIter} {HR : Rsa} {HF : HostFs} {HS : HostSys} {HD : HostDisk} {HZ : Zip} {HN : HostNet}.

(** Why there is no device for a command, if there is none. *)
Definition refusal (m : ConnectMap.t) (connect_key : bytes) : option bytes :=
  match resolve_connect_key m connect_key with
  | Ok key => if ConnectMap.get_session_id key m is Some _ then None else Some (lit "[Fail]Session not found" ++ crlf)
  | Err e => Some (fail_line e)
  | Panic => None
  end.
Definition session_refusal (m : ConnectMap.t) (connect_key : bytes) : option bytes :=
  match resolve_session_id m connect_key with Err e => Some (fail_line e) | _ => None end.
(** The text a command is answered with when no other party has a part in it: the lists, the
    versions and the checks, and the refusals of the commands for a device. *)
Definition local_text (h : Host) (cmd : HdcCommand) (connect_key : bytes) (params : list bytes) : option bytes :=
  let m := connect_map h in
  match cmd with
  | KernelTargetList =>
      Some (match ConnectMap.get_list (existsb (fun p => beq p (lit "v") || beq p (lit "-v")) params) m with
            | [] => lit "[Empty]" | l => join [10] l end ++ crlf)
  | KernelCheckDevice =>
      match resolve_connect_key m (second_or params connect_key) with
      | Ok key => Some (if ConnectMap.get_session_id key m is Some _ then lit "Device " ++ key ++ lit " is connected" ++ crlf
                        else lit "[Fail]Device " ++ key ++ lit " is not connected" ++ crlf)
      | Err e => Some (fail_line e)
      | Panic => None
      end
  | KernelTargetConnect => if params !! 1%nat is Some _ then None else Some (lit "[Fail]Missing connect address" ++ crlf)
  | KernelCheckServer => Some (to_le_bytes 2 (as_u32 KernelCheckServer) ++ get_version)
  | ClientVersion => Some get_version
  | SpawnSub =>
      Some (if bool_decide (head params = Some (lit "killall-sub")) then lit "Kill all subserver processes (not fully implemented)" ++ crlf
            else lit "Spawn subserver (not fully implemented)" ++ crlf)
  | ForwardList | ForwardRportList =>
      Some (match build_forward_list connect_key (forward_map h) with [] => lit "[Empty]" | l => l end ++ crlf)
  | KernelTargetDiscover | KernelEnableKeepalive | KernelWaitFor | KernelTargetReconnect | ForwardRemove | ForwardRportRemove => None
  | FileInit | FileRecvInit | AppInit | ForwardInit | ForwardRportInit
  | FlashdUpdateInit | FlashdFlashInit | FlashdErase | FlashdFormat => refusal m connect_key
  | _ => session_refusal m connect_key
  end.

(** The client of channel [ch] got [text], the channel is closed unless it is kept, and
    nothing else happened. *)
Definition told (ch : Z) (text : bytes) (a : ChannelSpec.t) (s s' : Srv) : Prop :=
  implements (srv_host s') (end_of ch (tell ch text a)) /\ same_tables (srv_host s) (srv_host s') /\
  (forall sid, session_of sid (srv_host s') = session_of sid (srv_host s)) /\
  t_rx (sv_task s') = t_rx (sv_task s) /\ t_fs (sv_task s') = t_fs (sv_task s) /\ sv_files s' = sv_files s.

Lemma answer_told ch text s a :
  implements (srv_host s) a -> listening ch a -> exists s', answer ch text s = (Ok None, s') /\ told ch text a s s'.
Proof.
  intros Hi [ms Hl]. destruct s as [[h rx fs] files]. cbn in Hi.
  pose proof (perform_implements (ChannelSpec.Message ch text) h a Hi) as H1.
  pose proof (fun sid => perform_frame (ChannelSpec.Message ch text) h sid I) as F1.
  cbn [ChannelSpec.step perform] in H1, F1. rewrite Hl in H1.
  destruct (on_tcp (TcpMap.send_channel_message ch text) h) as [r1 h1] eqn:E1. destruct H1 as [O1 I1].
  destruct r1 as [[]|e|]; try done.
  pose proof (perform_implements (ChannelSpec.MaybeFinish ch) h1 _ I1) as H2.
  pose proof (fun sid => perform_frame (ChannelSpec.MaybeFinish ch) h1 sid I) as F2.
  cbn [perform] in H2, F2. destruct (maybe_end_channel ch h1) as [r2 h2] eqn:E2. destruct H2 as [O2 I2].
  destruct r2 as [[]|e|]; try done.
  exists (mkSrv (mkTask h2 rx fs) files). split.
  - unfold answer. rewrite M_bind_eq. unfold say, on_task, to_client, HostTask.on_host, zoom. cbn. rewrite E1. cbn.
    rewrite M_bind_eq. unfold done_with, on_shost, on_task, HostTask.on_host, zoom. cbn. by rewrite E2.
  - split_and!; try done; cbn.
    + unfold tell. cbn. by rewrite Hl.
    + eapply same_tables_trans; [apply (F1 0)|apply (F2 0)].
    + intros sid. destruct (F1 sid) as [<- _], (F2 sid) as [<- _]. done.
Qed.
Lemma answer_ok_told ch text s a :
  implements (srv_host s) a -> listening ch a -> exists s', answer_ok ch text s = (Ok None, s') /\ told ch text a s s'.
Proof.
  intros Hi Hl. destruct (answer_told ch text s a Hi Hl) as (s' & E & Ht). exists s'. split; [|done].
  unfold answer in E. rewrite M_bind_eq in E. unfold answer_ok. rewrite M_bind_eq. unfold say_ok, on_task, zoom, to_client_ok in *.
  rewrite M_bind_eq. unfold try_. unfold say, on_task, zoom in E.
  destruct (to_client ch text (sv_task s)) as [[[]|e|] t1]; try done.
Qed.
Lemma say_told ch text s a :
  implements (srv_host s) a -> listening ch a -> exists s', say ch text s = (Ok tt, s') /\ implements (srv_host s') (tell ch text a).
Proof.
  intros Hi [ms Hl]. destruct s as [[h rx fs] files]. cbn in Hi. pose proof (perform_implements (ChannelSpec.Message ch text) h a Hi) as H1.
  unfold tell. cbn [ChannelSpec.step perform] in H1 |- *. rewrite Hl in H1 |- *. unfold say, on_task, to_client, HostTask.on_host, zoom. cbn.
  destruct (on_tcp (TcpMap.send_channel_message ch text) h) as [r1 h1]. destruct H1 as [O1 I1].
  destruct r1 as [[]|e|]; try done. by eexists.
Qed.
(** [wait] ends at the first poll with a device, having complained once at each poll before. *)
Lemma wait_for_returns ch later n m first l s a :
  implements (srv_host s) a -> listening ch a ->
  (connect_map (srv_host s) :: later) !! n = Some m -> Forall (fun m => ConnectMap.get_list false m = []) (take n (connect_map (srv_host s) :: later)) ->
  ConnectMap.get_list false m = first :: l -> exists s', wait_for ch later s = (Ok None, s') /\
  implements (srv_host s') (end_of ch (tell ch (lit "Wait for connected target " ++ first ++ crlf)
    (tell_all ch (replicate n (lit "[Fail]No any connected target" ++ crlf)) a))).
Proof.
  revert n s a; induction later as [|m1 later IH]; intros [|n] s a Hi Hl En Hn Hm; cbn [wait_for]; rewrite M_bind_eq; cbn [get lookup list_lookup take] in *.
  1, 3: injection En as ->; rewrite Hm; destruct (answer_told ch (lit "Wait for connected target " ++ first ++ crlf) s a Hi Hl) as (s' & E & Ht & _);
    by exists s'.
  - by destruct n.
  - apply Forall_cons in Hn as [H0 Hn]. rewrite H0. destruct (say_told ch (lit "[Fail]No any connected target" ++ crlf) s a Hi Hl) as (s1 & E1 & I1).
    rewrite (M_bind_Ok _ _ _ _ _ E1). rewrite M_bind_eq. cbn [on_shost on_task HostTask.on_host zoom modify]. unfold on_shost, on_task, HostTask.on_host, zoom, modify.
    apply (IH n _ (tell ch (lit "[Fail]No any connected target" ++ crlf) a)); [exact I1|by apply listening_tell|done..].
Qed.
Lemma with_device_refused key ch f s a text :
  implements (srv_host s) a -> listening ch a -> refusal (connect_map (srv_host s)) key = Some text ->
  exists s', with_device key ch f s = (Ok None, s') /\ told ch text a s s'.
Proof.
  intros Hi Hl Hr. unfold with_device. rewrite M_bind_eq. cbn [get]. unfold refusal in Hr.
  destruct (resolve_connect_key _ key) as [k|e|]; [|injection Hr as <-; by apply answer_ok_told|done].
  destruct (ConnectMap.get_session_id k _); [done|]. injection Hr as <-. by apply answer_ok_told.
Qed.
Lemma forward_refused key ch cmd params s a text :
  implements (srv_host s) a -> listening ch a -> session_refusal (connect_map (srv_host s)) key = Some text ->
  exists s', forward_to_daemon key ch cmd params s = (Ok None, s') /\ told ch text a s s'.
Proof.
  intros Hi Hl Hr. unfold forward_to_daemon. rewrite M_bind_eq. cbn [get]. unfold session_refusal in Hr.
  destruct (resolve_session_id _ key) as [k|e|]; [done| |done]. injection Hr as <-. by apply answer_told.
Qed.

(** A command the server answers itself, and a command for a device that is not there:
    the client gets exactly one message, the text of the reference [local_text]; the channel is
    closed unless the client asked to keep it; no device, session, queue, rule or file is
    touched, and nothing is sent to a device. *)
Lemma local_commands_reply i cmd key ch params s a text :
  implements (srv_host s) a -> listening ch a -> local_text (srv_host s) cmd key params = Some text ->
  exists s', dispatch_task i cmd key ch params s = (Ok None, s') /\ told ch text a s s'.
Proof.
  intros Hi Hl Ht. unfold dispatch_task. rewrite M_bind_eq. cbn [get].
  destruct cmd; cbn [local_text] in Ht; lazymatch goal with
  | _ : None = Some _ |- _ => discriminate Ht
  | |- context [forward_to_daemon] => exact (forward_refused key ch _ params s a text Hi Hl Ht)
  | |- context [with_device key ch ?f] => exact (with_device_refused key ch f s a text Hi Hl Ht)
  | |- _ => idtac
  end; unfold session_refusal, jdwp_track, jdwp_list in *; cbv zeta.
  all: repeat match type of Ht with context [match ?x with _ => _ end] => destruct x eqn:? end; try discriminate Ht.
  all: injection Ht as <-; repeat case_bool_decide; try done; lazymatch goal with
  | |- context [answer _ _] => by apply answer_told
  | |- context [answer_ok _ _] => by apply answer_ok_told
  end.
Qed.
End Local.

(** ** Commands that go to the device *)

Section Forwarded.
Context {HA : Aead} {HL : AeadLaws HA} {HI : HashIter} {HR : Rsa} {HF : HostFs} {HS : HostSys} {HD : HostDisk} {HZ : Zip} {HN : HostNet}.

(** The commands of which the server only passes on the words. *)
Definition passed_on (cmd : HdcCommand) : bool :=
  match cmd with
  | UnityExecute | UnityExecuteEx | UnityReboot | UnityRemount | UnityRunmode | UnityRootrun | UnityHilog | UnityBugreportInit => true
  | _ => false
  end.
Lemma passed_on_dispatch i cmd key ch params s :
  passed_on cmd = true -> dispatch_task i cmd key ch params s = forward_to_daemon key ch cmd params s.
Proof. by destruct cmd. Qed.
(** The message went out over the session, and the channel belongs to the session. *)
Lemma forwarded_sent i cmd key ch params s a sid :
  passed_on cmd = true -> resolve_session_id (connect_map (srv_host s)) key = Ok sid -> ready sid (srv_host s) -> implements (srv_host s) a ->
  sendable (mkTaskMessage ch cmd (forwarded_payload cmd params)) -> exists s',
  dispatch_task i cmd key ch params s = (Ok None, s') /\
  said sid [mkTaskMessage ch cmd (forwarded_payload cmd params)] (srv_host s) (srv_host s') /\ ready sid (srv_host s') /\
  implements (srv_host s') (ChannelSpec.step (ChannelSpec.Associate ch sid) a).2 /\ same_tables (srv_host s) (srv_host s').
Proof.
  intros Hp Hr Hrd Hi Hm. rewrite passed_on_dispatch by done. unfold forward_to_daemon. rewrite M_bind_eq. cbn [get]. rewrite Hr.
  set (m := mkTaskMessage _ _ _). destruct (send_ready sid m _ Hrd Hm) as (h' & E & Hs & Hr' & Ht & Himp).
  rewrite M_bind_eq. unfold try_, on_task, to_daemon, HostTask.on_host, zoom at 1 2. fold (srv_host s). rewrite E.
  rewrite M_bind_eq. cbn [mret M_ret]. rewrite M_bind_eq. replace (cmd_eqb cmd AppUninstall) with false by (by destruct cmd).
  eexists. split; [reflexivity|]. cbn. split_and!; try done.
  exact (proj2 (perform_implements (ChannelSpec.Associate ch sid) h' a (Himp a Hi))).
Qed.
End Forwarded.

(** C4: a client's connection.  On a stream that carries a first message and then requests,
    cut into reads in any way, the client's task does what the reference does with the list of
    the messages: it starts the channel and says hello, serves the requests in their order with
    the key of the first message, and ends the channel, or stops at the request that ends the
    task and leaves the rest of the stream unread.  In particular the task ends, unless it is in a [wait]
    to which no device comes (see [wait_for]). *)
Theorem client_served_in_order {HA : Aead} {HI : HashIter} {HR : Rsa} {HF : HostFs} {HS : HostSys} {HD : HostDisk} {HZ : Zip} {HN : HostNet}
    ins ch wr s rd sp first key pending msgs :
  fit (first :: msgs) -> clean rd -> flat rd = concat (map channel_frame (first :: msgs)) ->
  first_message first = Ok (key, pending) ->
  agrees (serve_client ins ch wr key (option_list pending ++ msgs) (mkClientTask s [] sp))
         (handle_client ins ch wr (mkClientTask s rd sp)).
Proof. apply client_agrees. Qed.

Section ServedWitness.
#[local] Existing Instance ToyAead.aead.
#[local] Existing Instance SomeOrder.order.
#[local] Existing Instance ToyRsa.rsa.
#[local] Existing Instance ToyRsa.files.
#[local] Existing Instance CalmDisk.disk.
#[local] Existing Instance NoZip.zip.
#[local] Existing Instance OpenNet.net.
#[local] Instance quiet : HostSys := { host_env _ := None; tcp_connect_error _ := None }.
(** A client that sends two commands at once and no handshake. *)
Definition two_requests : list bytes := [lit "version"; lit "checkdevice K"].
Lemma client_served_in_order_witness : exists r t',
  handle_client (fun _ => mkInputs (Ok []) [] 0 1%positive [] (fun _ => false) None 0 0 []) 5 (mkWriter [] None)
    (mkClientTask (mkSrv (mkTask new_host [] ∅) ∅) [Data (concat (map channel_frame two_requests))] []) = (r, t') /\
  agrees (serve_client (fun _ => mkInputs (Ok []) [] 0 1%positive [] (fun _ => false) None 0 0 []) 5 (mkWriter [] None) [] two_requests
    (mkClientTask (mkSrv (mkTask new_host [] ∅) ∅) [] [])) (r, t').
Proof.
  eexists _, _. split; [apply surjective_pairing|]. rewrite <- surjective_pairing.
  apply (client_served_in_order (fun _ => mkInputs (Ok []) [] 0 1%positive [] (fun _ => false) None 0 0 []) 5 (mkWriter [] None)
    (mkSrv (mkTask new_host [] ∅) ∅) [Data (concat (map channel_frame two_requests))] [] (lit "version") [] (Some (lit "version")) [lit "checkdevice K"]).
  - by repeat constructor; vm_compute.
  - by apply (bool_decide_unpack _); vm_compute.
  - by vm_compute.
  - by vm_compute.
Defined.
End ServedWitness.
