(* ===== verification/HostShell.v ===== *)
(** * The host server: connections that stay with a device

    [src/hdc/src/server.rs]: [run_server_shell_bridge], to which a client's connection is handed
    for an interactive shell, and [handle_deveco_jdwp_track], which streams the debuggable
    processes to the IDE.  Both register a queue, send a first message over the USB session and
    then relay in two tasks until the daemon closes the channel and the client is gone.  They
    are one machine with two [Kind]s, interleaved with the reader of the session, which fills
    the queue, and with the end of the session. *)

From S2P Require Import Parser.
From S2P Require Import Prelude RustStr Config Tlv Serializer Encrypt Transport Reading RsaAuth HostMaps HostChannels HostSession HostTask.
From S2P Require Import HostFile HostApp HostForward HostCommand.

(** The first message; what a message of the daemon is for the client; what becomes of the
    client's bytes. *)
Record Kind := mkKind { k_show : TaskMessage -> option bytes; k_input : bytes -> option TaskMessage }.
Definition shell_kind (ch : Z) : Kind := mkKind
  (fun m => match command m with ShellData | KernelEcho | KernelEchoRaw => Some (payload m) | _ => None end)
  (fun data => Some (mkTaskMessage ch ShellData data)).
Definition track_kind : Kind := mkKind (fun m => Some (track_payload m)) (fun _ => None).

(** The client's half, whether it was shut down, and which of the two tasks run. *)
Record Relay := mkRelay { r_wr : Writer; r_shut : bool; r_client : bool; r_daemon : bool; r_over : bool }.
Definition relay_over (wr : Writer) : Relay := mkRelay wr true false false true.

Section Relay.
Context {HA : Aead} {HI : HashIter}.

Definition write_ignoring (text : bytes) (wr : Writer) : Writer := (write_all text wr).2.
Definition usb_send (session_id : Z) (m : TaskMessage) : M Task unit := on_host (on_usb (UsbMap.send_to_session session_id (concat_pack m))).

(** The common start: the queue and the first message. *)
Definition start_relay (session_id channel_id : Z) (first : TaskMessage) (fail_text : Error -> bytes) (wr : Writer)
    : M Task (option positive * Relay) :=
  tx ← register session_id channel_id;
  sent ← try_ (usb_send session_id first);
  match sent with
  | Ok _ => mret (Some tx, mkRelay wr false true true false)
  | Err e => _ ← unregister session_id channel_id tx; mret (None, relay_over (write_ignoring (fail_text e) wr))
  | Panic => lift Panic
  end.
Definition start_shell_bridge (connect_key : bytes) (channel_id : Z) (wr : Writer) : M Task (option (Z * positive) * Relay) :=
  t ← get;
  match ConnectMap.get_session_id connect_key (connect_map (t_host t)) with
  | None => mret (None, relay_over (write_ignoring (lit "[Fail]No device connected" ++ crlf) wr))
  | Some session_id =>
      r ← start_relay session_id channel_id (mkTaskMessage channel_id ShellInit []) fail_line wr;
      mret (pair session_id <$> r.1, r.2)
  end.
Definition start_jdwp_track (channel_id : Z) (params : list bytes) (wr : Writer) : M Task (option (Z * positive) * Relay) :=
  t ← get;
  match ConnectMap.get_session_id (lit "any") (connect_map (t_host t)) with
  | None => mret (None, relay_over (write_ignoring (lit "[Fail]No device connected" ++ crlf) wr))
  | Some session_id =>
      r ← start_relay session_id channel_id (mkTaskMessage channel_id JdwpTrack (track_option params)) send_failed wr;
      mret (pair session_id <$> r.1, r.2)
  end.

(** ** The two tasks *)

(** The session's reader has a message for the channel; the session ends; the daemon's task
    polls its queue; the client sent data or is gone; both tasks have ended. *)
Inductive REvent := RRoute (m : TaskMessage) | RCleanup | RTake | RInput (data : bytes) | RHangup | RJoin.

Inductive RTaken := TItem (m : TaskMessage) | TClosed | TPending.
(** [rx.recv()]; the queue is closed when its sender is not in the table any more. *)
Definition take_item (session_id channel_id : Z) (tx : positive) : M Task RTaken := fun t =>
  let um := usb_map (t_host t) in
  match UsbMap.response_queues um !! tx with
  | Some (mkQueue (m :: items) live) =>
      (Ok (TItem m), mkTask (set_usb_map (UsbMap.mk (UsbMap.session_senders um) (UsbMap.response_channels um) (UsbMap.session_queues um)
         (<[tx := mkQueue items live]> (UsbMap.response_queues um))) (t_host t)) (t_rx t) (t_fs t))
  | _ => (Ok (if bool_decide (UsbMap.response_channels um !! (session_id, channel_id) = Some tx) then TPending else TClosed), t)
  end.
Definition drop_queue (tx : positive) : M Task unit := fun t =>
  let um := usb_map (t_host t) in
  (Ok tt, mkTask (set_usb_map (UsbMap.mk (UsbMap.session_senders um) (UsbMap.response_channels um) (UsbMap.session_queues um)
     (alter (fun q => mkQueue (q_items q) false) tx (UsbMap.response_queues um))) (t_host t)) (t_rx t) (t_fs t)).
(** [shutdown; break]: the receiver goes with the task. *)
Definition daemon_done (tx : positive) (wr : Writer) (r : Relay) : M Task Relay :=
  _ ← drop_queue tx; mret (mkRelay wr true (r_client r) false (r_over r)).

Definition relay_step (k : Kind) (session_id channel_id : Z) (tx : positive) (e : REvent) (r : Relay) : M Task Relay :=
  match e with
  | RRoute m => _ ← on_host (on_usb (UsbMap.route_response session_id channel_id m)); mret r
  | RCleanup => _ ← on_host (on_usb (UsbMap.end_session_with_cleanup session_id)); mret r
  | RTake =>
      i ← take_item session_id channel_id tx;
      match i with
      | TItem m =>
          if cmd_eqb (command m) KernelChannelClose then daemon_done tx (r_wr r) r
          else
            match k_show k m with
            | Some data =>
                let '(w, wr) := write_all (to_be_bytes 4 (wrap 32 (len data)) ++ data) (r_wr r) in
                if is_ok w then mret (mkRelay wr (r_shut r) (r_client r) true (r_over r)) else daemon_done tx wr r
            | None => mret r
            end
      | TClosed => daemon_done tx (r_wr r) r
      | TPending => mret r
      end
  | RInput data =>
      match k_input k data with
      | Some m =>
          sent ← try_ (usb_send session_id m);
          mret (match sent with Ok _ => r | _ => mkRelay (r_wr r) (r_shut r) false (r_daemon r) (r_over r) end)
      | None => mret r
      end
  | RHangup => mret (mkRelay (r_wr r) (r_shut r) false (r_daemon r) (r_over r))
  | RJoin => _ ← unregister session_id channel_id tx; mret (mkRelay (r_wr r) (r_shut r) false false true)
  end.
Definition relay_enabled (e : REvent) (r : Relay) : bool :=
  match e with
  | RRoute _ | RCleanup => true
  | RTake => r_daemon r
  | RInput _ | RHangup => r_client r
  | RJoin => negb (r_client r) && negb (r_daemon r) && negb (r_over r)
  end.
Definition relays (k : Kind) (session_id channel_id : Z) (tx : positive) := run relay_enabled (relay_step k session_id channel_id tx).
(** [run_server_shell_bridge] and [handle_deveco_jdwp_track] behind their start. *)
Definition run_server_shell_bridge (session_id channel_id : Z) : positive -> REvent -> Relay -> M Task Relay :=
  relay_step (shell_kind channel_id) session_id channel_id.
Definition handle_deveco_jdwp_track (session_id channel_id : Z) : positive -> REvent -> Relay -> M Task Relay :=
  relay_step track_kind session_id channel_id.
End Relay.

(** ** Runs *)

Definition is_cleanup (e : REvent) : bool := match e with RCleanup => true | _ => false end.
(** The session is still there. *)
Definition session_live (es : list REvent) : bool := negb (existsb is_cleanup es).
(** The messages for the channel and the client's messages for the device, up to the session's end. *)
Definition routed_by (live : bool) (e : REvent) : list TaskMessage := match e with RRoute m => if live then [m] else [] | _ => [] end.
Definition sent_by (k : Kind) (live : bool) (e : REvent) : list TaskMessage :=
  match e with RInput d => if live then option_list (k_input k d) else [] | _ => [] end.
Definition over_session {A} (f : bool -> REvent -> list A) (es : list REvent) : list A :=
  (foldl (fun '(l, acc) e => (l && negb (is_cleanup e), acc ++ f l e)) (true, []) es).2.
Definition routed (es : list REvent) : list TaskMessage := over_session routed_by es.
Definition typed (k : Kind) (es : list REvent) : list TaskMessage := over_session (sent_by k) es.
(** What the client sees of the messages taken from the queue. *)
Definition is_close (m : TaskMessage) : bool := cmd_eqb (command m) KernelChannelClose.
Definition displayed (k : Kind) (ms : list TaskMessage) : list bytes := omap (k_show k) (filter (fun m => is_close m = false) ms).

Lemma session_live_snoc es e : session_live (es ++ [e]) = session_live es && negb (is_cleanup e).
Proof. unfold session_live. rewrite existsb_app. cbn. by rewrite orb_false_r, negb_orb. Qed.
Lemma over_session_snoc {A} (f : bool -> REvent -> list A) es e : over_session f (es ++ [e]) = over_session f es ++ f (session_live es) e.
Proof.
  unfold over_session. rewrite foldl_app. cbn [foldl].
  assert (H : forall l, (foldl (fun '(l, acc) e => (l && negb (is_cleanup e), acc ++ f l e)) (true, []) l).1 = session_live l).
  { intros l. induction l as [|x l IH] using rev_ind; [done|]. rewrite foldl_app, session_live_snoc, <- IH. cbn [foldl].
    by destruct (foldl _ _ l). }
  rewrite <- H. by destruct (foldl _ _ es).
Qed.
Lemma displayed_snoc k ms m :
  displayed k (ms ++ [m]) = displayed k ms ++ (if is_close m then [] else option_list (k_show k m)).
Proof.
  unfold displayed. rewrite filter_app, omap_app, filter_cons, filter_nil. f_equal.
  destruct (is_close m); [done|]. rewrite decide_True by done. cbn. by destruct (k_show k m).
Qed.
Lemma frames_snoc xs ys : concat (map channel_frame (xs ++ ys)) = concat (map channel_frame xs) ++ concat (map channel_frame ys).
Proof. by rewrite map_app, concat_app. Qed.

Section RelayFacts.
Context {HA : Aead} (k : Kind) (sid ch : Z) (tx stx : positive) (items0 : list bytes) (out0 : bytes).

(** The state of the daemon's task: what is taken, and why it ended. *)
Definition daemon_side (es : list REvent) (taken : list TaskMessage) (r : Relay) (um : UsbMap.t) : Prop :=
  if r_daemon r then
    r_shut r = false /\ r_over r = false /\ Forall (fun m => is_close m = false) taken /\
    UsbMap.response_channels um !! (sid, ch) = (if session_live es then Some tx else None) /\
    exists pending, routed es = taken ++ pending /\ UsbMap.response_queues um !! tx = Some (mkQueue pending true)
  else
    r_shut r = true /\ (r_over r = true -> UsbMap.response_channels um !! (sid, ch) = None) /\ taken `prefix_of` routed es /\
    ((exists pre m, taken = pre ++ [m] /\ is_close m = true) \/ (session_live es = false /\ taken = routed es)).
Definition relay_inv (es : list REvent) (r : Relay) (um : UsbMap.t) : Prop :=
  UsbMap.session_queues um !! stx = Some (mkQueue (items0 ++ map concat_pack (typed k es)) true) /\
  UsbMap.session_senders um !! sid = (if session_live es then Some stx else None) /\
  exists taken, r_wr r = mkWriter (out0 ++ concat (map channel_frame (displayed k taken))) None /\ daemon_side es taken r um.

Lemma relay_quiet es e r um :
  is_cleanup e = false -> routed_by (session_live es) e = [] -> sent_by k (session_live es) e = [] -> relay_inv es r um -> relay_inv (es ++ [e]) r um.
Proof.
  intros Hc Hr Hs (Hq & Hse & taken & Hw & Hd). unfold relay_inv, daemon_side, typed, routed in *.
  rewrite !over_session_snoc, Hr, Hs, session_live_snoc, Hc, andb_true_r, !app_nil_r. split_and!; [done..|]. by exists taken.
Qed.
(** Once the daemon's task has ended, messages for the channel change nothing. *)
Lemma dead_route_inv es m r um um' :
  r_daemon r = false -> UsbMap.session_queues um' = UsbMap.session_queues um -> UsbMap.session_senders um' = UsbMap.session_senders um ->
  UsbMap.response_channels um' = UsbMap.response_channels um -> relay_inv es r um -> relay_inv (es ++ [RRoute m]) r um'.
Proof.
  intros Er E1 E2 E3 (Hq & Hse & taken & Hw & Hd). unfold relay_inv, daemon_side, typed, routed in *. rewrite Er, E1, E2, E3 in *.
  rewrite !over_session_snoc, session_live_snoc, andb_true_r, app_nil_r. cbn [routed_by].
  split_and!; [done..|]. exists taken. destruct Hd as (H1 & H2 & H3 & H4). split_and!; [done..|by apply prefix_app_r|].
  destruct H4 as [H4|[H4 H5]]; [by left|right]. rewrite H4, app_nil_r. by split.
Qed.
Lemma route_inv es m r um :
  relay_inv es r um -> relay_inv (es ++ [RRoute m]) r (UsbMap.route_response sid ch m um).2.
Proof.
  intros Hi. unfold UsbMap.route_response. destruct (r_daemon r) eqn:Er.
  - destruct Hi as (Hq & Hse & taken & Hw & Hd). unfold relay_inv, daemon_side, typed, routed in *. rewrite Er in Hd.
    rewrite !over_session_snoc, session_live_snoc, andb_true_r, app_nil_r, Er. cbn [routed_by].
    destruct Hd as (H1 & H2 & H3 & H4 & pending & H5 & H6). rewrite H4. destruct (session_live es) eqn:El.
    + unfold UsbMap.alive. rewrite H6. cbn [q_alive snd]. split_and!; [done..|]. exists taken. split_and!; try done.
      exists (pending ++ [m]). split; [by rewrite H5, app_assoc|]. cbn. by rewrite lookup_alter_eq, H6.
    + rewrite app_nil_r. split_and!; [done..|]. exists taken. split_and!; try done. by exists pending.
  - destruct (UsbMap.response_channels um !! (sid, ch)) as [tx'|]; [|by apply (dead_route_inv es m r um)]. cbn [snd].
    destruct (UsbMap.alive _ tx'); by apply (dead_route_inv es m r um).
Qed.
Lemma cleanup_inv es r um :
  relay_inv es r um -> relay_inv (es ++ [RCleanup]) r (UsbMap.end_session_with_cleanup sid um).2.
Proof.
  intros (Hq & Hse & taken & Hw & Hd). unfold relay_inv, daemon_side, typed, routed in *.
  rewrite !over_session_snoc, session_live_snoc, andb_false_r. cbn [routed_by sent_by]. rewrite !app_nil_r.
  assert (Hf : filter (fun e : Z * Z * positive => e.1.1 <> sid) (UsbMap.response_channels um) !! (sid, ch) = None).
  { apply map_lookup_filter_None. right. intros x _ Hn. by apply Hn. }
  split_and!; [done|cbn; by rewrite lookup_delete_eq|]. exists taken. split; [done|]. destruct (r_daemon r).
  - destruct Hd as (H1 & H2 & H3 & H4 & H5). by split_and!.
  - destruct Hd as (H1 & H2 & H3 & H4). split_and!; try done. destruct H4 as [H4|[H4 H5]]; [by left|by right].
Qed.
(** The client's data. *)
Lemma input_inv es d r t :
  r_client r = true -> relay_inv es r (usb_map (t_host t)) -> exists r' t',
  relay_step k sid ch tx (RInput d) r t = (Ok r', t') /\ relay_inv (es ++ [RInput d]) r' (usb_map (t_host t')).
Proof.
  intros Hc Hi. cbn [relay_step]. destruct (k_input k d) as [m|] eqn:Ek.
  2: { exists r, t. split; [done|]. apply relay_quiet; try done. cbn. rewrite Ek. by destruct (session_live es). }
  pose proof Hi as (Hq & Hse & taken & Hw & Hd). rewrite M_bind_eq. unfold try_, usb_send, HostTask.on_host, on_usb, zoom, UsbMap.send_to_session.
  rewrite Hse. destruct (session_live es) eqn:El.
  - unfold UsbMap.alive. rewrite Hq. cbn [q_alive]. eexists _, _. split; [reflexivity|].
    cbn [t_host usb_map set_usb_map]. unfold relay_inv, daemon_side, typed, routed in *.
    rewrite !over_session_snoc, session_live_snoc, El, andb_true_r. cbn [routed_by sent_by]. rewrite Ek, app_nil_r. cbn.
    rewrite El in Hd. split_and!; [|done|by exists taken]. rewrite lookup_alter_eq, Hq. cbn. unfold q_push. cbn. by rewrite map_app, app_assoc.
  - eexists _, _. split; [reflexivity|].
    assert (relay_inv (es ++ [RInput d]) r (usb_map (t_host t))) as H.
    { apply relay_quiet; try done. cbn. by rewrite El. }
    destruct H as (G1 & G2 & taken' & G3 & G4). cbn [t_host usb_map set_usb_map]. split_and!; [done..|]. by exists taken'.
Qed.
(** The daemon's task takes an item, or ends. *)
Lemma take_inv es r t :
  r_daemon r = true -> relay_inv es r (usb_map (t_host t)) -> exists r' t',
  relay_step k sid ch tx RTake r t = (Ok r', t') /\ relay_inv (es ++ [RTake]) r' (usb_map (t_host t')).
Proof.
  intros Er (Hq & Hse & taken & Hw & Hd). unfold daemon_side in Hd. rewrite Er in Hd.
  destruct Hd as (H1 & H2 & H3 & H4 & pending & H5 & H6). cbn [relay_step]. rewrite M_bind_eq. unfold take_item. rewrite H6.
  unfold relay_inv, daemon_side, typed, routed in *.
  rewrite !over_session_snoc, session_live_snoc, andb_true_r. cbn [routed_by sent_by]. rewrite !app_nil_r.
  destruct pending as [|m pending].
  - rewrite H4. destruct (session_live es) eqn:El.
    + rewrite bool_decide_eq_true_2 by done. eexists _, _. split; [reflexivity|]. split_and!; [done..|]. exists taken. rewrite Er.
      split_and!; try done. by exists [].
    + rewrite bool_decide_eq_false_2 by done. unfold daemon_done. rewrite M_bind_eq. eexists _, _. split; [reflexivity|]. cbn.
      split_and!; [done..|]. exists taken. rewrite H5, app_nil_r. split_and!; try done; by right.
  - destruct (cmd_eqb (command m) KernelChannelClose) eqn:Em.
    + unfold daemon_done. rewrite M_bind_eq. eexists _, _. split; [reflexivity|]. cbn. split_and!; [done..|]. exists (taken ++ [m]).
      rewrite displayed_snoc. unfold is_close at 1. rewrite Em, app_nil_r. split_and!; [done|done|by rewrite H2| |].
      * exists pending. by rewrite H5, <- app_assoc.
      * left. by exists taken, m.
    + rewrite Hw. destruct (k_show k m) as [data|] eqn:Es; (eexists _, _; split; [reflexivity|]); cbn; rewrite ?Er; (split_and!; [done..|]);
        exists (taken ++ [m]); rewrite displayed_snoc; unfold is_close at 1; rewrite Em, Es; cbn [option_list].
      * rewrite frames_snoc, app_assoc. change (concat (map channel_frame (option_list (Some data)))) with (channel_frame data ++ []).
        rewrite app_nil_r. split_and!; try done.
        -- apply Forall_app. by repeat constructor.
        -- exists pending. rewrite lookup_insert_eq, H5, <- app_assoc. done.
      * rewrite app_nil_r, Hw. split_and!; try done.
        -- apply Forall_app. by repeat constructor.
        -- exists pending. rewrite lookup_insert_eq, H5, <- app_assoc. done.
Qed.
Lemma same_relay_inv es r r' um :
  r_wr r' = r_wr r -> r_shut r' = r_shut r -> r_daemon r' = r_daemon r -> r_over r' = r_over r -> relay_inv es r um -> relay_inv es r' um.
Proof. intros E1 E2 E3 E4. unfold relay_inv, daemon_side. by rewrite E1, E2, E3, E4. Qed.
Lemma join_relay_inv es r t :
  relay_enabled RJoin r = true -> relay_inv es r (usb_map (t_host t)) -> exists r' t',
  relay_step k sid ch tx RJoin r t = (Ok r', t') /\ relay_inv (es ++ [RJoin]) r' (usb_map (t_host t')).
Proof.
  intros Hen Hi. cbn [relay_enabled] in Hen. destruct (r_daemon r) eqn:Er; [by rewrite andb_false_r in Hen|].
  assert (H : relay_inv (es ++ [RJoin]) r (usb_map (t_host t))) by (by apply relay_quiet).
  cbn [relay_step]. rewrite M_bind_eq. eexists _, _. split; [reflexivity|].
  destruct H as (G1 & G2 & taken & G3 & G4). unfold daemon_side in G4. rewrite Er in G4. destruct G4 as (G4 & G5 & G6 & G7).
  split_and!; [done..|]. exists taken. split; [done|]. split_and!; try done. intros _. cbn. by rewrite lookup_delete_eq.
Qed.
Lemma relay_step_inv es e r t r' t' :
  relay_enabled e r = true -> relay_step k sid ch tx e r t = (Ok r', t') -> relay_inv es r (usb_map (t_host t)) ->
  relay_inv (es ++ [e]) r' (usb_map (t_host t')).
Proof.
  intros Hen E Hi. destruct e as [m| | |d| |].
  - pose proof (route_inv es m r _ Hi) as H. cbn [relay_step] in E. rewrite M_bind_eq in E. unfold HostTask.on_host, on_usb, zoom in E.
    destruct (UsbMap.route_response sid ch m _) as [[b|e|] um'] eqn:Eu; cbn in E; try done. by injection E as <- <-.
  - pose proof (cleanup_inv es r _ Hi) as H. by injection E as <- <-.
  - destruct (take_inv es r t Hen Hi) as (r2 & t2 & E2 & H). rewrite E2 in E. by injection E as <- <-.
  - destruct (input_inv es d r t Hen Hi) as (r2 & t2 & E2 & H). rewrite E2 in E. by injection E as <- <-.
  - injection E as <- <-. apply (same_relay_inv _ r); try done. by apply relay_quiet.
  - destruct (join_relay_inv es r t Hen Hi) as (r2 & t2 & E2 & H). rewrite E2 in E. by injection E as <- <-.
Qed.
End RelayFacts.

(** The start over a USB session: the queue is registered and the first message is sent. *)
Lemma start_relay_up {HA : Aead} sid ch first f wr t stx items :
  UsbMap.session_senders (usb_map (t_host t)) !! sid = Some stx ->
  UsbMap.session_queues (usb_map (t_host t)) !! stx = Some (mkQueue items true) -> exists tx t1,
  start_relay sid ch first f wr t = (Ok (Some tx, mkRelay wr false true true false), t1) /\
  let um := usb_map (t_host t1) in
  UsbMap.response_channels um !! (sid, ch) = Some tx /\ UsbMap.response_queues um !! tx = Some (mkQueue [] true) /\
  UsbMap.session_senders um !! sid = Some stx /\ UsbMap.session_queues um !! stx = Some (mkQueue (items ++ [concat_pack first]) true).
Proof.
  intros Hs Hq. unfold start_relay. rewrite M_bind_eq. unfold register. rewrite M_bind_eq. unfold try_, usb_send, HostTask.on_host, on_usb, zoom, UsbMap.send_to_session.
  cbn [t_host usb_map set_usb_map UsbMap.session_senders UsbMap.session_queues]. rewrite Hs. unfold UsbMap.alive. rewrite Hq. cbn [q_alive].
  eexists _, _. split; [reflexivity|]. cbn. rewrite !lookup_insert_eq, lookup_alter_eq, Hq. done.
Qed.

(** C11: an interactive shell on the server, in every interleaving of its two tasks with the reader
    and the end of the device's session.  The device gets the opening message and then what the
    client types, in order; the client gets, framed and in order, what the daemon sent for its
    channel that is to be shown, and its connection is shut down only when the daemon closed the
    channel or the session is gone with everything delivered; and when the bridge is over its
    queue is not registered. *)
Theorem shell_bridge_serves {HA : Aead} {HI : HashIter} key ch sid wr t stx items es r t' :
  let um := usb_map (t_host t) in
  ConnectMap.get_session_id key (connect_map (t_host t)) = Some sid -> w_limit wr = None ->
  UsbMap.session_senders um !! sid = Some stx -> UsbMap.session_queues um !! stx = Some (mkQueue items true) -> exists tx t1,
  start_shell_bridge key ch wr t = (Ok (Some (sid, tx), mkRelay wr false true true false), t1) /\
  (run relay_enabled (run_server_shell_bridge sid ch tx) (mkRelay wr false true true false) t1 es r t' ->
   let um' := usb_map (t_host t') in
   UsbMap.session_queues um' !! stx =
     Some (mkQueue (items ++ map concat_pack (mkTaskMessage ch ShellInit [] :: typed (shell_kind ch) es)) true) /\
   (exists taken, taken `prefix_of` routed es /\
      r_wr r = mkWriter (w_out wr ++ concat (map channel_frame (displayed (shell_kind ch) taken))) None /\
      (r_shut r = true -> (exists pre m, taken = pre ++ [m] /\ is_close m = true) \/ session_live es = false /\ taken = routed es)) /\
   (r_over r = true -> UsbMap.response_channels um' !! (sid, ch) = None)).
Proof.
  intros um Hk Hw Hs Hq. destruct (start_relay_up sid ch (mkTaskMessage ch ShellInit []) fail_line wr t stx items Hs Hq)
    as (tx & t1 & E & H1 & H2 & H3 & H4). exists tx, t1. split.
  { unfold start_shell_bridge. rewrite M_bind_eq. cbn [get]. rewrite Hk. by rewrite (M_bind_Ok _ _ _ _ _ E). }
  intros Hrun. assert (Hi : relay_inv (shell_kind ch) sid ch tx stx (items ++ [concat_pack (mkTaskMessage ch ShellInit [])]) (w_out wr) es r (usb_map (t_host t'))).
  { induction Hrun as [|es r t' e r2 t2 Hrun IH Hen Est]; [|by eapply relay_step_inv].
    split_and!; [by rewrite app_nil_r|done|]. exists []. cbn. rewrite app_nil_r. destruct wr as [o l]. cbn in Hw. subst l.
    split; [done|]. split_and!; try done. by exists []. }
  destruct Hi as (Hq' & _ & taken & Hw' & Hd). cbv zeta. split_and!.
  - rewrite Hq'. cbn [map]. by rewrite <- app_assoc.
  - exists taken. unfold daemon_side in Hd. destruct (r_daemon r).
    + destruct Hd as (Hsh & _ & _ & _ & pending & Hr & _). split_and!; [by exists pending|done|by rewrite Hsh].
    + by destruct Hd as (_ & _ & Hp & Hr).
  - unfold daemon_side in Hd. destruct (r_daemon r); [|by destruct Hd as (_ & ? & _)]. destruct Hd as (_ & -> & _). done.
Qed.

(** A device that is connected over TCP has no USB session: the shell ends at once, and its
    reason is written without a length in front of it. *)
Lemma shell_over_tcp_refused {HA : Aead} {HI : HashIter} key ch sid wr t :
  ConnectMap.get_session_id key (connect_map (t_host t)) = Some sid -> UsbMap.session_senders (usb_map (t_host t)) !! sid = None -> exists t1,
  start_shell_bridge key ch wr t = (Ok (None, relay_over (write_ignoring (lit "[Fail]usb session not found" ++ crlf) wr)), t1).
Proof.
  intros Hk Hs. unfold start_shell_bridge. rewrite M_bind_eq. cbn [get]. rewrite Hk. unfold start_relay. rewrite M_bind_eq. unfold register.
  rewrite M_bind_eq. rewrite M_bind_eq. unfold try_, usb_send, HostTask.on_host, on_usb, zoom, UsbMap.send_to_session.
  cbn [t_host usb_map set_usb_map UsbMap.session_senders]. rewrite Hs. by eexists.
Qed.

Section ShellBridgeWitness.
#[local] Existing Instance ToyAead.aead.
#[local] Existing Instance SomeOrder.order.
(** A device with session 7 over USB; the user types a line and the shell ends. *)
Definition usb_device : Task :=
  mkTask (set_connect_map {[lit "K" := DaemonInfo.mk 7 (Usb []) Connected [] []]}
    (set_usb_map (UsbMap.mk {[7 := 1%positive]} ∅ {[1%positive := mkQueue [] true]} ∅) new_host)) [] ∅.
Definition shell_events : list REvent :=
  [RRoute (mkTaskMessage 5 ShellData (lit "$ ")); RInput (lit "exit"); RTake; RRoute (mkTaskMessage 5 KernelChannelClose [0]); RHangup; RTake; RJoin].
Lemma shell_bridge_serves_witness : exists tx t1 r t',
  start_shell_bridge (lit "K") 5 (mkWriter [] None) usb_device = (Ok (Some (7, tx), mkRelay (mkWriter [] None) false true true false), t1) /\
  exec relay_enabled (run_server_shell_bridge 7 5 tx) shell_events (mkRelay (mkWriter [] None) false true true false) t1 = Some (r, t') /\
  UsbMap.response_channels (usb_map (t_host t')) !! (7, 5) = None.
Proof.
  destruct (exec relay_enabled (run_server_shell_bridge 7 5 1%positive) shell_events (mkRelay (mkWriter [] None) false true true false)
    (start_shell_bridge (lit "K") 5 (mkWriter [] None) usb_device).2) as [[r t']|] eqn:Ex; [|by vm_compute in Ex].
  destruct (shell_bridge_serves (lit "K") 5 7 (mkWriter [] None) usb_device 1%positive [] shell_events r t') as (tx & t1 & E & H); [by vm_compute..|].
  assert (tx = 1%positive) as ->. { assert ((start_shell_bridge (lit "K") 5 (mkWriter [] None) usb_device).1 = Ok (Some (7, 1%positive), mkRelay (mkWriter [] None) false true true false)) as E1 by (by vm_compute). rewrite E in E1. by injection E1. }
  rewrite E in Ex. cbn [snd] in Ex. exists 1%positive, t1, r, t'. split_and!; [done|done|].
  assert (Ho : r_over r = true).
  { destruct t1. vm_compute in E. injection E as <- <- <-. vm_compute in Ex. by injection Ex as <- _. }
  apply (H (exec_run _ _ _ _ _ _ _ Ex)), Ho.
Defined.
End ShellBridgeWitness.
