(* ===== verification/HostDeveco.v ===== *)
(** * The host server: connections of the IDE

    [src/hdc/src/server.rs]: how [run_server_mode] tells a connection of DevEco Studio from one
    of the tool, [handle_deveco_client] with [execute_deveco_command] and
    [forward_command_to_daemon], which runs [dispatch_task] on a channel of its own and reads
    back what was written to it over a loopback connection.  The stream of [track-jpid]
    is in [HostShell].  The task's state is that of [HostCommand]. *)

From S2P Require Import Parser.
From S2P Require Import Prelude RustStr Config Tlv Serializer Encrypt Transport Reading RsaAuth HostMaps HostChannels HostSession HostTask.
From S2P Require Import HostFile HostApp HostForward HostCommand.

(** ** Which kind of client *)

(** [peeked] are the bytes that are there within the first 800 ms, if any.  The whole header is
    looked at ([docs/HDC_SERVER_SOCKET_PROTOCOL.md] says that its first byte decides). *)
Definition is_deveco (peeked : option bytes) : bool :=
  match peeked with
  | Some b =>
      (len b =? 48) && bool_decide (b !! 3%nat = Some 44) &&
      beq (match from_utf8 (slice_raw 4 12 b) with inr magic => magic | inl _ => [] end) (lit "OHOS HDC")
  | None => false
  end.

(** ** Reading the loopback *)

(** The end of the stream stands for the end of the connection and for two seconds of
    silence alike: both end the reading with what is there. *)
Inductive Got := GotAll (b : bytes) | GotEnd | GotErr (e : Error).
Fixpoint fill (fuel : nat) (got : bytes) (n : Z) : M Stream Got := fun rd =>
  if n <=? len got then (Ok (GotAll got), rd)
  else
    match fuel with
    | O => (Panic, rd)
    | S f =>
        match tcp_read (n - len got) rd with
        | (Ok [], rd) => (Ok GotEnd, rd)
        | (Ok b, rd) => fill f (got ++ b) n rd
        | (Err e, rd) => (Ok (if bool_decide (err_kind e = UnexpectedEof) then GotEnd else GotErr e), rd)
        | (Panic, rd) => (Panic, rd)
        end
    end.
Definition fill_buf (n : Z) : M Stream Got := fill (Z.to_nat n) [] n.
(** The result is the output, also when the reading fails. *)
Fixpoint read_loopback_messages (fuel : nat) (output : bytes) : M Stream (bytes * Result unit) :=
  match fuel with
  | O => lift Panic
  | S f =>
      len_buf ← fill_buf 4;
      match len_buf with
      | GotEnd => mret (output, Ok tt)
      | GotErr e => mret (output, Err e)
      | GotAll len_buf =>
          let n := from_be_bytes len_buf in
          if 16 * 1024 * 1024 <? n then mret (output, err InvalidData "loopback message too large")
          else
            payload ← fill_buf n;
            match payload with
            | GotAll payload => read_loopback_messages f (output ++ payload)
            | GotEnd => mret (output, Ok tt)
            | GotErr e => mret (output, Err e)
            end
      end
  end.

Section Deveco.
Context {HA : Aead} {HI : HashIter} {HR : Rsa} {HF : HostFs} {HS : HostSys} {HD : HostDisk} {HZ : Zip} {HN : HostNet}.

(** ** One command *)

Definition columns (line : bytes) : list bytes := filter (fun s => s <> []) (split_on 9 line).
Definition get_default_connect_key (m : ConnectMap.t) : option bytes :=
  match omap (fun entry => match columns entry with
                | key :: _ :: status :: _ => if beq status (lit "Connected") then Some key else None
                | _ => None
                end) (ConnectMap.get_list true m) with
  | key :: _ => Some key
  | [] => head (ConnectMap.get_list false m)
  end.

(** What the command meets: the inputs of [dispatch_task], the channel, why the loopback could
    not be set up, what other tasks of the server write to the channel behind [dispatch_task]
    (the answers of the daemon), how much of it all is there before the reading ends (by the end of the
    connection, two seconds of silence or the time for the command), in which pieces, and whether
    the reading fails then; and whether the time for the command ran out first. *)
Record LoopInputs := mkLoop {
  li_inputs : Inputs; li_channel : Z; li_fail : option bytes;
  li_rest : bytes; li_seen : nat; li_cuts : list nat; li_error : option bytes; li_expired : bool; li_cwd : bytes
}.
Fixpoint cut (sizes : list nat) (b : bytes) : Stream :=
  match b with
  | [] => []
  | _ =>
      match sizes with
      | [] => [Data b]
      | n :: sizes => Data (take (S n) b) :: cut sizes (drop (S n) b)
      end
  end.
(** What was written to a channel that was started on an empty connection: its writer, or
    the first one that was shut down since. *)
Definition written_to (channel_id : Z) (before after : TcpMap.t) : bytes :=
  match TcpMap.channel_writers after !! channel_id with
  | Some wr => w_out wr
  | None => default [] (w_out <$> head (drop (length (TcpMap.shut_channels before)) (TcpMap.shut_channels after)))
  end.
Definition loop_reads (i : LoopInputs) (written : bytes) : Stream :=
  cut (li_cuts i) (take (li_seen i) (written ++ li_rest i)) ++ map ReadErr (option_list (li_error i)).
(** [let _ = tokio::spawn(..).await]: neither an error nor a panic of the task gets out. *)
Definition join_task {S A} (m : M S A) : M S (option A) := fun s =>
  match m s with
  | (Ok a, s') => (Ok (Some a), s')
  | (_, s') => (Ok None, s')
  end.
Definition channel_table (s : Srv) : TcpMap.t := tcp_map (srv_host s).
Definition forward_command_to_daemon (i : LoopInputs) (command : HdcCommand) (params : list bytes) : M ClientTask bytes :=
  t ← get;
  match get_default_connect_key (connect_map (srv_host (ct_srv t))) with
  | None => mret (lit "[Fail]No device connected" ++ crlf)
  | Some connect_key =>
      match li_fail i with
      | Some text => mret (lit "[Fail]Failed to " ++ text ++ crlf)
      | None =>
          _ ← on_srv (on_shost (on_tcp (TcpMap.start_channel (li_channel i) (mkWriter [] None))));
          r ← join_task (on_srv (dispatch_task (li_inputs i) command connect_key (li_channel i) params));
          _ ← spawn (default None r);
          t' ← get;
          let rd := loop_reads i (written_to (li_channel i) (channel_table (ct_srv t)) (channel_table (ct_srv t'))) in
          '(output, _) ← lift (read_loopback_messages (S (weight rd)) [] rd).1;
          if li_expired i && bool_decide (output = []) then mret (lit "[Fail]Command timed out" ++ crlf)
          else mret (from_utf8_lossy output)
      end
  end.

(** The lines of [list targets -v]: three columns. *)
Definition target_line (line : bytes) : option bytes :=
  match columns line with
  | serial :: conn_type :: status :: _ :: _ => Some (serial ++ [32] ++ conn_type ++ [32] ++ status)
  | _ => None
  end.
Definition execute_deveco_command (i : LoopInputs) (cmd : bytes) : M ClientTask bytes :=
  t ← get;
  let devices := connect_map (srv_host (ct_srv t)) in
  if beq cmd (lit "alive") then mret []
  else if beq cmd (lit "list targets") then mret (join [10] (ConnectMap.get_list false devices))
  else if beq cmd (lit "list targets -v") then mret (join [10] (omap target_line (ConnectMap.get_list true devices)))
  else
    let params := split_on 32 cmd in
    let parsed := split_opt_and_cmd params in
    let unknown := mret (lit "[Fail]Unknown command: " ++ cmd ++ crlf) in
    match Parser.command parsed with
    | Some hdc_cmd =>
        match hdc_cmd with
        | UnityExecute | UnityExecuteEx =>
            if (length (parameters parsed) =? 1)%nat
            then mret (lit "[Fail]Interactive shell is not supported over IDE socket" ++ crlf)
            else forward_command_to_daemon i hdc_cmd params
        | FileInit | FileRecvInit =>
            forward_command_to_daemon i hdc_cmd
              (match params with
               | a :: b :: t => if beq b (lit "send") then a :: b :: lit "-cwd" :: li_cwd i :: t else params
               | _ => params
               end)
        | AppInit | AppUninstall | ForwardInit | ForwardRportInit | ForwardList | ForwardRportList | ForwardRemove
        | ForwardRportRemove | JdwpList | JdwpTrack | UnityRunmode | UnityReboot | UnityRemount | UnityRootrun | UnityHilog
        | UnityBugreportInit => forward_command_to_daemon i hdc_cmd params
        | _ => unknown
        end
    | None => unknown
    end.

(** ** The task *)

Definition deveco_packet (response : bytes) : bytes :=
  let resp_bytes := if negb (bool_decide (response = [])) && negb (ends_with [10] response) then response ++ [10] else response in
  to_be_bytes 4 (wrap 32 (len resp_bytes)) ++ resp_bytes.
Definition deveco_cmd (cmd_buf : bytes) : bytes := trim (trim_end_matches 0 (from_utf8_lossy cmd_buf)).
(** The writer, and the parameters of [track-jpid] when the connection is handed over for it. *)
Definition DevecoEnd : Type := Writer * option (list bytes).
Fixpoint deveco_loop (fuel : nat) (ins : nat -> LoopInputs) (n : nat) (wr : Writer) : M ClientTask DevecoEnd :=
  match fuel with
  | O => lift Panic
  | S f =>
      len_buf ← try_ (on_crd (read_exact 4));
      match len_buf with
      | Err e => if bool_decide (err_kind e = UnexpectedEof) then mret (wr, None) else lift (Err e)
      | Panic => lift Panic
      | Ok len_buf =>
          let cmd_len := from_be_bytes len_buf in
          if (cmd_len =? 0) || (1024 * 1024 <? cmd_len) then throw InvalidData "invalid command length"
          else
            cmd_buf ← on_crd (read_exact cmd_len);
            let cmd := deveco_cmd cmd_buf in
            let parsed := split_opt_and_cmd (split_on 32 cmd) in
            if bool_decide (Parser.command parsed = Some JdwpTrack) then mret (wr, Some (parameters parsed))
            else
              response ← execute_deveco_command (ins n) cmd;
              match write_all (deveco_packet response) wr with
              | (Ok _, wr) => deveco_loop f ins (S n) wr
              | (Err e, _) => lift (Err e)
              | (Panic, _) => lift Panic
              end
      end
  end.
Definition handle_deveco_client (ins : nat -> LoopInputs) (wr : Writer) : M ClientTask DevecoEnd :=
  head_buf ← on_crd (read_exact 48);
  let magic := match from_utf8 (slice_raw 4 12 head_buf) with inr magic => magic | inl _ => [] end in
  if negb (beq magic (lit "OHOS HDC")) then
    (* the message also has the bytes found, in the format of a debug print *)
    throw InvalidData "invalid DevEco handshake magic"
  else
    match write_all head_buf wr with
    | (Ok _, wr) => t ← get; deveco_loop (S (weight (ct_rd t))) ins 0 wr
    | (Err e, _) => lift (Err e)
    | (Panic, _) => lift Panic
    end.
End Deveco.

(** ** What comes back over the loopback *)

Lemma cut_clean sizes b : clean (cut sizes b) /\ flat (cut sizes b) = b.
Proof.
  revert b; induction sizes as [|n sizes IH]; intros [|x b]; cbn [cut].
  1, 3: by split; [constructor|].
  - split; [by repeat constructor|]. unfold flat. cbn. by rewrite app_nil_r.
  - destruct (IH (drop (S n) (x :: b))) as [H1 H2]. split; [by constructor|].
    unfold flat in *. cbn [map concat chunk_bytes]. rewrite H2. apply take_drop.
Qed.
Lemma fill_flat fuel got n rd :
  clean rd -> (Z.to_nat (n - len got) <= fuel)%nat -> exists rd', clean rd' /\
  if n <=? len got + len (flat rd)
  then fill fuel got n rd = (Ok (GotAll (got ++ take (Z.to_nat (n - len got)) (flat rd))), rd') /\ flat rd' = drop (Z.to_nat (n - len got)) (flat rd)
  else fill fuel got n rd = (Ok GotEnd, rd') /\ flat rd' = [].
Proof.
  revert got rd; induction fuel as [|fuel IH]; intros got rd Hc Hf; cbn [fill].
  all: destruct (Z.leb_spec n (len got)) as [Hn|Hn].
  1, 3: exists rd; split; [done|]; pose proof (len_nonneg (flat rd)); rewrite (proj2 (Z.leb_le _ _)) by lia;
    replace (Z.to_nat (n - len got)) with 0%nat by lia; by rewrite take_0, drop_0, app_nil_r.
  - lia.
  - destruct (tcp_read_spec (n - len got) rd Hc ltac:(lia)) as (b & rd1 & -> & Eb & Hc1 & Hl & He). destruct b as [|x b].
    + exists rd1. split; [done|]. rewrite He by done. rewrite len_nil. tests. split; [done|]. rewrite He in Eb by done. by destruct (flat rd1).
    + set (d := x :: b) in *. assert (0 < len d) by (unfold d; rewrite len_cons; pose proof (len_nonneg b); lia).
      destruct (IH (got ++ d) rd1 Hc1) as (rd' & Hc' & H'); [rewrite len_app; lia|]. exists rd'. split; [done|]. rewrite Eb, !len_app in *.
      rewrite Z.add_assoc. destruct (_ <=? _); [|done]. destruct H' as [-> ->].
      replace (Z.to_nat (n - len got)) with (length d + Z.to_nat (n - (len got + len d)))%nat by (unfold len in *; lia).
      by rewrite take_app_add, drop_app_add, app_assoc.
Qed.
Lemma fill_buf_app a rest rd : clean rd -> flat rd = a ++ rest -> exists rd', fill_buf (len a) rd = (Ok (GotAll a), rd') /\ clean rd' /\ flat rd' = rest.
Proof.
  intros Hc Ef. destruct (fill_flat (Z.to_nat (len a)) [] (len a) rd Hc) as (rd' & Hc' & H); [rewrite len_nil; lia|]. exists rd'.
  rewrite Ef, len_nil, len_app in H. pose proof (len_nonneg rest). rewrite (proj2 (Z.leb_le _ _)) in H by lia. destruct H as [H1 H2].
  rewrite Z.sub_0_r in *. unfold fill_buf. unfold len in H1, H2 |- *. rewrite Nat2Z.id in *. rewrite take_app_length, drop_app_length in *. by split_and!.
Qed.
Lemma fill_buf_short n rd : clean rd -> len (flat rd) < n -> exists rd', fill_buf n rd = (Ok GotEnd, rd') /\ clean rd' /\ flat rd' = [].
Proof.
  intros Hc Hn. destruct (fill_flat (Z.to_nat n) [] n rd Hc) as (rd' & Hc' & H); [rewrite len_nil; lia|]. exists rd'.
  rewrite len_nil in H. rewrite (proj2 (Z.leb_gt _ _)) in H by lia. destruct H. by split_and!.
Qed.
Definition small_text (t : bytes) : Prop := len t <= 16 * 1024 * 1024.
Lemma frame_head t : small_text t -> channel_frame t = to_be_bytes 4 (len t) ++ t /\ from_be_bytes (to_be_bytes 4 (len t)) = len t.
Proof.
  intros Ht. unfold small_text in Ht. pose proof (len_nonneg t). unfold channel_frame. rewrite wrap_small by ulia. split; [done|]. apply from_to_be_bytes_id. ulia.
Qed.
(** Whole messages, and then the beginning of one that is not read to its end. *)
Lemma loopback_texts texts m k fuel out rd :
  Forall small_text texts -> small_text m -> (k < length (channel_frame m))%nat ->
  clean rd -> flat rd = concat (map channel_frame texts) ++ take k (channel_frame m) -> (length texts < fuel)%nat ->
  exists rd', read_loopback_messages fuel out rd = (Ok (out ++ concat texts, Ok tt), rd').
Proof.
  intros Ht Hm Hk. destruct (frame_head m Hm) as [Em Lm]. rewrite Em in *. pose proof (length_to_be_bytes 4 (len m)) as H4.
  assert (Hbe : forall v rest rd, clean rd -> flat rd = to_be_bytes 4 v ++ rest -> exists rd', fill_buf 4 rd = (Ok (GotAll (to_be_bytes 4 v)), rd') /\ clean rd' /\ flat rd' = rest).
  { intros v rest rd' Hc' E'. pose proof (fill_buf_app _ rest rd' Hc' E') as H. by rewrite len_to_be_bytes in H. }
  revert fuel out rd; induction Ht as [|t texts Hs Ht IH]; intros [|fuel] out rd Hc Ef Hf; cbn [length] in Hf; try lia; cbn [read_loopback_messages].
  - cbn [map concat app] in Ef. rewrite app_nil_r. destruct (decide (k < 4)%nat) as [Hk4|Hk4].
    { destruct (fill_buf_short 4 rd Hc) as (rd1 & E & _); [rewrite Ef; unfold len; rewrite length_take; lia|]. exists rd1. by rewrite (M_bind_Ok _ _ _ _ _ E). }
    rewrite take_app_ge, H4 in Ef by lia. rewrite length_app, H4 in Hk. destruct (Hbe _ _ _ Hc Ef) as (rd1 & E & Hc1 & Ef1).
    rewrite (M_bind_Ok _ _ _ _ _ E). cbv zeta. rewrite Lm. rewrite (proj2 (Z.ltb_ge _ _)) by exact Hm.
    destruct (fill_buf_short (len m) rd1 Hc1) as (rd2 & E2 & _); [rewrite Ef1; unfold len; rewrite length_take; lia|].
    exists rd2. by rewrite (M_bind_Ok _ _ _ _ _ E2).
  - destruct (frame_head t Hs) as [Et Lt]. cbn [map concat] in Ef. rewrite Et, <- !app_assoc in Ef. destruct (Hbe _ _ _ Hc Ef) as (rd1 & E & Hc1 & Ef1).
    rewrite (M_bind_Ok _ _ _ _ _ E). cbv zeta. rewrite Lt, (proj2 (Z.ltb_ge _ _)) by exact Hs.
    destruct (fill_buf_app t _ rd1 Hc1 Ef1) as (rd2 & E2 & Hc2 & Ef2). rewrite (M_bind_Ok _ _ _ _ _ E2).
    cbn [concat]. rewrite app_assoc. apply IH; [done|done|lia].
Qed.
(** A command for the device answers with the texts that were written to its channel, by the
    command itself and by the tasks behind it, as far as they were there in time: here all that was written is
    [texts] and a part of another one. *)
Lemma forwarded_response {HA : Aead} {HI : HashIter} {HR : Rsa} {HF : HostFs} {HS : HostSys} {HD : HostDisk} {HZ : Zip} {HN : HostNet}
    i cmd params key r t t1 texts m k :
  get_default_connect_key (connect_map (srv_host (ct_srv t))) = Some key -> li_fail i = None -> li_error i = None ->
  join_task (on_srv (dispatch_task (li_inputs i) cmd key (li_channel i) params))
    (on_srv (on_shost (on_tcp (TcpMap.start_channel (li_channel i) (mkWriter [] None)))) t).2 = (r, t1) ->
  Forall small_text texts -> small_text m -> (k < length (channel_frame m))%nat ->
  take (li_seen i) (written_to (li_channel i) (channel_table (ct_srv t)) (channel_table (ct_srv t1)) ++ li_rest i) =
    concat (map channel_frame texts) ++ take k (channel_frame m) ->
  (forward_command_to_daemon i cmd params t).1 =
    Ok (if li_expired i && bool_decide (concat texts = []) then lit "[Fail]Command timed out" ++ crlf else from_utf8_lossy (concat texts)).
Proof.
  intros Hk Hf He Hj Ht Hm Hlt Ew. unfold forward_command_to_daemon. rewrite M_bind_eq. cbn [get]. rewrite Hk, Hf.
  rewrite M_bind_eq. destruct (on_srv _ t) as [r0 t0] eqn:E0. assert (r0 = Ok tt) as -> by (by injection E0). cbn [snd] in Hj.
  rewrite M_bind_eq, Hj.
  assert (exists o, r = Ok o) as [o ->] by (unfold join_task in Hj; repeat case_match; simplify_eq; eauto).
  rewrite M_bind_eq. cbn [spawn modify]. unfold spawn, modify. rewrite M_bind_eq. cbn [get].
  set (w := written_to _ _ _) in *. cbn [ct_srv]. fold w. unfold loop_reads. rewrite He, app_nil_r, Ew.
  set (b := concat _ ++ _). destruct (cut_clean (li_cuts i) b) as [Hc Hfl].
  destruct (loopback_texts texts m k (S (weight (cut (li_cuts i) b))) [] (cut (li_cuts i) b) Ht Hm Hlt Hc Hfl) as (rd' & E).
  { unfold weight. rewrite Hfl. unfold b. rewrite length_app. pose proof (frames_long texts). lia. }
  rewrite M_bind_eq, E. cbn [fst lift app]. by case_if.
Qed.

(** ** The commands, without the streams *)

Section Served.
Context {HA : Aead} {HI : HashIter} {HR : Rsa} {HF : HostFs} {HS : HostSys} {HD : HostDisk} {HZ : Zip} {HN : HostNet}.

(** *** What the IDE sends *)

(** A command: its text, which has no white space around it, with spaces and zero bytes the
    client may add, in a frame. *)
Record IdeCommand := mkIde { ide_text : bytes; ide_before : nat; ide_after : nat; ide_zeros : nat }.
Definition ide_bytes (c : IdeCommand) : bytes :=
  replicate (ide_before c) 32 ++ ide_text c ++ replicate (ide_after c) 32 ++ replicate (ide_zeros c) 0.
Definition ide_frame (c : IdeCommand) : bytes := to_be_bytes 4 (len (ide_bytes c)) ++ ide_bytes c.
Definition ide_ok (c : IdeCommand) : Prop :=
  utf8_valid (ide_text c) = true /\ trim (ide_text c) = ide_text c /\ last (ide_text c) <> Some 0 /\ 0 < len (ide_bytes c) <= 1024 * 1024.
(** The words of [track-jpid]. *)
Definition tracks (c : IdeCommand) : option (list bytes) :=
  let parsed := split_opt_and_cmd (split_on 32 (ide_text c)) in
  if bool_decide (Parser.command parsed = Some JdwpTrack) then Some (parameters parsed) else None.
(** How the connection goes on behind the commands: it ends, between two commands or in a length;
    a length is out of range; a command is cut off; or [track-jpid] comes, with what is behind
    it. *)
Inductive ide_end : bytes -> Result (option (list bytes)) -> bytes -> Prop :=
  | end_closed b : len b < 4 -> ide_end b (Ok None) []
  | end_length n rest : u32 n -> n = 0 \/ 1024 * 1024 < n -> ide_end (to_be_bytes 4 n ++ rest) (err InvalidData "invalid command length") rest
  | end_cut n part : 0 < n <= 1024 * 1024 -> len part < n -> ide_end (to_be_bytes 4 n ++ part) (err UnexpectedEof "early eof") []
  | end_track c params rest : ide_ok c -> tracks c = Some params -> ide_end (ide_frame c ++ rest) (Ok (Some params)) rest.

(** *** What it gets *)

(** A response as one packet: its length and its bytes, with a line end behind a response
    that has none; an empty response is an empty packet. *)
Definition ide_packet (response : bytes) : bytes :=
  let body := match last response with Some b => if b =? 10 then response else response ++ [10] | None => [] end in
  to_be_bytes 4 (len body) ++ body.
(** The reference: the responses to the commands, in their order. *)
Fixpoint deveco_responses (ins : nat -> LoopInputs) (n : nat) (cmds : list IdeCommand) : M ClientTask (list bytes) :=
  match cmds with
  | [] => mret []
  | c :: cmds =>
      response ← execute_deveco_command (ins n) (ide_text c);
      responses ← deveco_responses ins (S n) cmds;
      mret (response :: responses)
  end.

Lemma to_be_bytes_wrap n v : to_be_bytes n (wrap (8 * Z.of_nat n) v) = to_be_bytes n v.
Proof.
  assert (H : forall n a b, a mod 2 ^ (8 * Z.of_nat n) = b mod 2 ^ (8 * Z.of_nat n) -> to_be_bytes n a = to_be_bytes n b).
  { clear. intros n a b E. rewrite <- (to_from_be_bytes (to_be_bytes n a)), <- (to_from_be_bytes (to_be_bytes n b)) by apply to_be_bytes_ok.
    by rewrite !length_to_be_bytes, !from_to_be_bytes, E. }
  apply H. unfold wrap. apply Z.mod_mod. apply Z.pow_nonzero; lia.
Qed.
Lemma deveco_packet_eq r : deveco_packet r = ide_packet r.
Proof.
  unfold deveco_packet, ide_packet. change 32 with (8 * Z.of_nat 4). rewrite to_be_bytes_wrap. destruct r as [|x r _] using rev_ind; [done|].
  rewrite last_snoc, bool_decide_false by (by destruct r). unfold ends_with. rewrite reverse_snoc. cbn [negb andb].
  replace (starts_with (reverse [10]) (x :: reverse r)) with (x =? 10); [by destruct (x =? 10)|].
  unfold starts_with. cbn. unfold beq. destruct (Z.eqb_spec x 10) as [->|Hx]; [done|]. symmetry. apply bool_decide_false. congruence.
Qed.
Lemma deveco_cmd_eq c : ide_ok c -> deveco_cmd (ide_bytes c) = ide_text c.
Proof.
  intros (Hu & Ht & Hl & _). unfold deveco_cmd, ide_bytes. set (a := ide_before c). set (b := ide_after c).
  assert (Hv : forall n x, x < 128 -> utf8_valid (replicate n x) = true) by (intros n x Hx; by apply utf8_valid_ascii, Forall_replicate).
  rewrite from_utf8_lossy_valid by (rewrite !utf8_valid_app by (done || by apply Hv); by apply Hv).
  rewrite !app_assoc, trim_end_matches_pad, <- app_assoc, trim_padded; [done..|].
  assert (Hsp : forall n, last (replicate n 32) <> Some 0) by (intros [|n]; [done|]; by rewrite replicate_S_end, last_snoc).
  rewrite !last_app. specialize (Hsp a) as Ha. specialize (Hsp b) as Hb. by destruct (last (replicate b 32)), (last (ide_text c)).
Qed.

Lemma blind_join {A} (m : M ClientTask A) : blind m -> blind (join_task m).
Proof. intros H rd t. unfold join_task. rewrite H. by destruct (m t) as [[] ?]. Qed.
Lemma blind_read {A} (f : ClientTask -> M ClientTask A) : (forall rd t, f (with_rd rd t) = f t) -> (forall t, blind (f t)) -> blind (t ← get; f t).
Proof. intros Hf Hb rd t. rewrite !M_bind_eq. cbn [get]. rewrite Hf. apply Hb. Qed.
Lemma blind_forward i c ps : blind (forward_command_to_daemon i c ps).
Proof.
  apply blind_read; [done|]. intros t. case_match; [|done]. case_match; [done|]. apply blind_bind; [apply blind_srv|]. intros _.
  apply blind_bind; [apply blind_join, blind_srv|]. intros r. apply blind_bind; [apply blind_spawn|]. intros _.
  apply blind_read; [done|]. intros t'. apply blind_bind; [apply blind_lift|]. intros []. by case_if.
Qed.
Lemma blind_execute i cmd : blind (execute_deveco_command i cmd).
Proof.
  apply (blind_get (fun s => if beq cmd (lit "alive") then _ else if beq cmd (lit "list targets") then mret (join [10] (ConnectMap.get_list false (connect_map (srv_host s))))
    else if beq cmd (lit "list targets -v") then mret (join [10] (omap target_line (ConnectMap.get_list true (connect_map (srv_host s))))) else _)).
  intros s. do 3 (case_if; [done|]). case_match; [|done]. case_match; try done; try (by apply blind_forward).
  all: case_if; [done|apply blind_forward].
Qed.
(** The server's writer has the header and the packets of the responses, and the connection ended as
    it had to; what is behind is not read. *)
Definition answers_with (out : bytes) (e : Result (option (list bytes))) (rest : bytes)
    (x : Result (list bytes) * ClientTask) (y : Result DevecoEnd * ClientTask) : Prop :=
  ct_srv y.2 = ct_srv x.2 /\ ct_spawned y.2 = ct_spawned x.2 /\
  match x.1 with
  | Ok rs => y.1 = (last ← e; Ok (mkWriter (out ++ concat (map ide_packet rs)) None, last)) /\ flat (ct_rd y.2) = rest
  | Err e => y.1 = Err e
  | Panic => y.1 = Panic
  end.
Lemma read_length n rest rd : u32 n -> clean rd -> flat rd = to_be_bytes 4 n ++ rest -> exists len_buf rd1,
  read_exact 4 rd = (Ok len_buf, rd1) /\ from_be_bytes len_buf = n /\ clean rd1 /\ flat rd1 = rest.
Proof.
  intros Hn Hc Ef. destruct (read_exact_app _ _ _ 4 Hc Ef) as (rd1 & E1 & Hc1 & Ef1); [by rewrite len_to_be_bytes|].
  eexists _, rd1. split_and!; [exact E1| |done..]. by apply from_to_be_bytes_id.
Qed.
Lemma read_command c rest rd :
  ide_ok c -> clean rd -> flat rd = ide_frame c ++ rest -> exists len_buf rd1 rd2,
  read_exact 4 rd = (Ok len_buf, rd1) /\ from_be_bytes len_buf = len (ide_bytes c) /\
  read_exact (len (ide_bytes c)) rd1 = (Ok (ide_bytes c), rd2) /\ clean rd2 /\ flat rd2 = rest.
Proof.
  intros (_ & _ & _ & Hl) Hc Ef. unfold ide_frame in Ef. rewrite <- app_assoc in Ef.
  destruct (read_length (len (ide_bytes c)) _ rd ltac:(ulia) Hc Ef) as (lb & rd1 & E1 & El & Hc1 & Ef1).
  destruct (read_exact_app _ rest rd1 _ Hc1 Ef1 eq_refl) as (rd2 & E2 & Hc2 & Ef2). by exists lb, rd1, rd2.
Qed.
(** The connection behind the last command. *)
Lemma deveco_loop_ends ins f n out tail e rest rd t :
  ide_end tail e rest -> clean rd -> flat rd = tail ->
  answers_with out e rest (Ok [], t) (deveco_loop (S f) ins n (mkWriter out None) (with_rd rd t)).
Proof.
  intros He Hc Ef. cbn [deveco_loop]. rewrite M_bind_eq. unfold try_, on_crd, zoom. cbn [with_rd ct_rd ct_srv ct_spawned].
  destruct He as [b Hb|m rest Hm Hr|m part Hm Hp|c params rest Hok Htr].
  - destruct (read_exact_flat 4 rd Hc ltac:(lia)) as (rd' & E & _ & Er). rewrite Ef in E, Er. rewrite (proj2 (Z.leb_gt _ _)) in E by lia. rewrite E.
    unfold err. cbn [err_kind]. rewrite bool_decide_true by done. split; [done|split; [done|]]; cbn [fst snd map concat ct_rd mret M_ret]. rewrite app_nil_r. split; [done|].
    rewrite Er. apply drop_ge. unfold len in Hb. lia.
  - destruct (read_length m rest rd Hm Hc Ef) as (lb & rd1 & E & El & _ & Er). rewrite E, El.
    replace ((m =? 0) || (1024 * 1024 <? m)) with true by (symmetry; apply orb_true_iff; rewrite Z.eqb_eq, Z.ltb_lt; done). by split; [|split].
  - destruct (read_length m part rd ltac:(ulia) Hc Ef) as (lb & rd1 & E & El & Hc1 & Er). rewrite E, El.
    rewrite (proj2 (Z.eqb_neq _ _)), (proj2 (Z.ltb_ge _ _)) by lia. cbn [orb]. rewrite M_bind_eq. cbn [ct_rd ct_srv ct_spawned].
    destruct (read_exact_flat m rd1 Hc1 ltac:(lia)) as (rd2 & E2 & _ & Er2). rewrite Er in E2, Er2. rewrite (proj2 (Z.leb_gt _ _)) in E2 by lia. rewrite E2.
    split; [done|split; [done|]]. split; [done|]. change (flat rd2 = []). rewrite Er2. apply drop_ge. unfold len in Hp. lia.
  - destruct (read_command c rest rd Hok Hc Ef) as (lb & rd1 & rd2 & E1 & El & E2 & Hc2 & Ef2). rewrite E1, El.
    pose proof (deveco_cmd_eq c Hok) as Ed. destruct Hok as (_ & _ & _ & Hl).
    rewrite (proj2 (Z.eqb_neq _ _)), (proj2 (Z.ltb_ge _ _)) by lia. cbn [orb]. rewrite M_bind_eq. cbn [ct_rd ct_srv ct_spawned]. rewrite E2.
    cbv zeta. rewrite Ed. unfold tracks in Htr. cbv zeta in Htr. case_bool_decide; [|done]. injection Htr as <-.
    split; [done|split; [done|]]. cbn [fst snd map concat mret M_ret]. by rewrite app_nil_r.
Qed.
Lemma deveco_loop_answers ins cmds tail e rest : Forall (fun c => ide_ok c /\ tracks c = None) cmds -> ide_end tail e rest -> forall fuel n out rd t,
  clean rd -> flat rd = concat (map ide_frame cmds) ++ tail -> (length cmds < fuel)%nat ->
  answers_with out e rest (deveco_responses ins n cmds t) (deveco_loop fuel ins n (mkWriter out None) (with_rd rd t)).
Proof.
  intros Hcmds He. induction Hcmds as [|c cmds [Hok Htr] Hcmds IH]; intros fuel n out rd t Hc Ef Hf; (destruct fuel as [|f]; [cbn in Hf; lia|]).
  - by apply (deveco_loop_ends ins f n out tail e rest rd t).
  - cbn [deveco_loop]. cbn [map concat] in Ef. rewrite <- app_assoc in Ef.
    destruct (read_command c _ rd Hok Hc Ef) as (lb & rd1 & rd2 & E1 & El & E2 & Hc2 & Ef2). pose proof (deveco_cmd_eq c Hok) as Ed.
    destruct Hok as (_ & _ & _ & Hl). rewrite M_bind_eq. unfold try_, on_crd, zoom. cbn [with_rd ct_rd ct_srv ct_spawned]. rewrite E1, El.
    rewrite (proj2 (Z.eqb_neq _ _)), (proj2 (Z.ltb_ge _ _)) by lia. cbn [orb]. rewrite M_bind_eq. cbn [ct_rd ct_srv ct_spawned]. rewrite E2.
    cbv zeta. rewrite Ed. unfold tracks in Htr. cbv zeta in Htr. case_bool_decide; [done|]. cbn [deveco_responses]. rewrite !M_bind_eq.
    change (mkClientTask (ct_srv t) rd2 (ct_spawned t)) with (with_rd rd2 t). rewrite blind_execute.
    destruct (execute_deveco_command (ins n) (ide_text c) t) as [[resp|e1|] t1]; [|done..].
    cbn [write_all w_limit w_out]. specialize (IH f (S n) (out ++ deveco_packet resp) rd2 t1 Hc2 Ef2 ltac:(cbn in Hf; lia)).
    rewrite M_bind_eq. destruct (deveco_responses ins (S n) cmds t1) as [[rs|e1|] t2]; [|done..].
    destruct IH as (I1 & I2 & I3 & I4). split; [done|split; [done|]]. cbn [fst mret M_ret map concat] in *. split; [|done]. rewrite I3. by rewrite deveco_packet_eq, <- app_assoc.
Qed.
End Served.

(** C12: a connection of the IDE.  On a stream that carries the header of 48 bytes and then
    commands, cut into reads in any way, the server sends the header back and then exactly
    one packet for each command up to a [track-jpid], in their order: the length in four bytes, big endian, and
    the response of [execute_deveco_command] to the command's text (without the spaces around it and the
    zero bytes behind it), with a line end behind a response that has none.  At [track-jpid] the connection is
    handed over with the command's words and nothing more is read; otherwise the task ends with the stream, or
    with an error at a length out of range or in a command that is cut off. *)
Theorem deveco_client_served {HA : Aead} {HI : HashIter} {HR : Rsa} {HF : HostFs} {HS : HostSys} {HD : HostDisk} {HZ : Zip} {HN : HostNet}
    ins header cmds tail e rest rd t :
  len header = 48 -> slice_raw 4 12 header = lit "OHOS HDC" -> Forall (fun c => ide_ok c /\ tracks c = None) cmds -> ide_end tail e rest ->
  clean rd -> flat rd = header ++ concat (map ide_frame cmds) ++ tail ->
  answers_with header e rest (deveco_responses ins 0 cmds t) (handle_deveco_client ins (mkWriter [] None) (with_rd rd t)).
Proof.
  intros Hl Hm Hcmds He Hc Ef. destruct (read_exact_app header _ rd 48 Hc Ef ltac:(done)) as (rd1 & E & Hc1 & Ef1).
  unfold handle_deveco_client. rewrite M_bind_eq. unfold on_crd, zoom. cbn [with_rd ct_rd]. rewrite E, Hm.
  rewrite from_utf8_valid by (by vm_compute). replace (negb (beq (lit "OHOS HDC") (lit "OHOS HDC"))) with false by (by vm_compute).
  cbn [write_all w_limit w_out app]. rewrite M_bind_eq. cbn [get ct_rd].
  apply (deveco_loop_answers ins cmds tail e rest Hcmds He _ 0 header rd1 t Hc1 Ef1). unfold weight. rewrite Ef1, length_app.
  assert (length cmds <= length (concat (map ide_frame cmds)))%nat; [|lia].
  clear. induction cmds as [|c cmds IH]; [done|]. cbn [map concat length]. unfold ide_frame at 1. rewrite !length_app, length_to_be_bytes. lia.
Qed.

(** ** The device of a command *)

(** Keys that the columns of the listing can be read back from. *)
Definition listable (m : ConnectMap.t) : Prop := map_Forall (fun key _ => key <> [] /\ (9 ∉ key)) m.
Lemma columns_line key info :
  key <> [] -> (9 ∉ key) -> exists rest, columns (ConnectMap.verbose_line key info) =
  key :: ConnectMap.conn_type_text (DaemonInfo.conn_type info) :: ConnectMap.status_text (DaemonInfo.conn_status info) :: rest.
Proof.
  intros Hn Hk. unfold columns, ConnectMap.verbose_line. cbn [app]. rewrite split_on_app by done.
  change (9 :: ?x) with ([] ++ 9 :: x) at 1. rewrite split_on_app by (by apply not_elem_of_nil).
  rewrite split_on_app by (destruct (DaemonInfo.conn_type info); apply (bool_decide_unpack _); by vm_compute).
  rewrite split_on_app by (destruct (DaemonInfo.conn_status info); apply (bool_decide_unpack _); by vm_compute).
  rewrite filter_cons_True by done. rewrite filter_cons_False by (by intros H). rewrite !filter_cons_True; [eauto|..].
  - by destruct (DaemonInfo.conn_status info).
  - by destruct (DaemonInfo.conn_type info).
Qed.
(** A command of the IDE goes to a connected device, and to none only when none is connected. *)
Lemma default_key_connected {HI : HashIter} m :
  listable m ->
  match get_default_connect_key m with
  | Some key => exists info, m !! key = Some info /\ DaemonInfo.connected info = true
  | None => map_Forall (fun _ info => DaemonInfo.connected info = false) m
  end.
Proof.
  intros Hl. unfold get_default_connect_key, ConnectMap.get_list.
  assert (Hin : Forall (fun e => m !! e.1 = Some e.2) (iter m)) by (apply Forall_forall; intros [k i] H; by apply in_iter in H).
  assert (Ho : omap (fun entry => match columns entry with key :: _ :: status :: _ => if beq status (lit "Connected") then Some key else None | _ => None end)
    (flat_map (fun e => [ConnectMap.verbose_line e.1 e.2]) (iter m)) = map fst (targets m)).
  { unfold targets. induction Hin as [|[k i] l Hx Hin IH]; [done|]. cbn [flat_map app omap list_omap]. destruct (Hl _ _ Hx) as [H1 H2].
    cbn [fst snd] in *. destruct (columns_line k i H1 H2) as (rest & ->). rewrite filter_cons. cbn [snd].
    change (list_omap ?f ?x) with (omap f x). rewrite IH. unfold DaemonInfo.connected. by destruct (DaemonInfo.conn_status i). }
  rewrite Ho. destruct (targets m) as [|[k i] l] eqn:Et.
  - cbn [map]. assert (Hnone : forall k i, m !! k = Some i -> DaemonInfo.connected i = false).
    { intros k i Hk. destruct (DaemonInfo.connected i) eqn:E; [|done].
      assert (H : (k, i) ∈ targets m) by (by apply in_targets). rewrite Et in H. by apply elem_of_nil in H. }
    assert (flat_map (fun e => if DaemonInfo.connected e.2 then [e.1] else []) (iter m) = []) as ->; [|done].
    clear Ho Et. induction Hin as [|[k i] l Hx Hin IH]; [done|]. cbn [flat_map snd]. cbn [fst snd] in Hx. by rewrite (Hnone _ _ Hx), IH.
  - cbn [map fst]. exists i. apply in_targets. rewrite Et. apply list_elem_of_here.
Qed.

Section DevecoWitness.
#[local] Existing Instance ToyAead.aead.
#[local] Existing Instance SomeOrder.order.
#[local] Existing Instance ToyRsa.rsa.
#[local] Existing Instance ToyRsa.files.
#[local] Existing Instance CalmDisk.disk.
#[local] Existing Instance NoZip.zip.
#[local] Existing Instance OpenNet.net.
#[local] Existing Instance quiet.
(** The IDE asks for the devices. *)
Definition ide_header : bytes := [0; 0; 0; 44] ++ lit "OHOS HDC" ++ replicate 36 0.
Definition ide_loop (n : nat) : LoopInputs :=
  mkLoop (mkInputs (Ok []) [] 0 1%positive [] (fun _ => false) None 0 0 []) 9 None [] 0 [] None false [].
Definition ide_server : ClientTask :=
  mkClientTask (mkSrv (mkTask (set_connect_map {[lit "K" := DaemonInfo.mk 7 Tcp Connected [] []]} new_host) [] ∅) ∅) [] [].
Definition ask_targets : IdeCommand := mkIde (lit "list targets") 0 1 1.
Definition ask_track : IdeCommand := mkIde (lit "track-jpid -p") 0 0 1.
Lemma deveco_client_served_witness : exists t',
  handle_deveco_client ide_loop (mkWriter [] None)
    (with_rd [Data (ide_header ++ ide_frame ask_targets ++ ide_frame ask_track ++ lit "more")] ide_server) =
  (Ok (mkWriter (ide_header ++ to_be_bytes 4 2 ++ lit "K" ++ [10]) None, Some [lit "track-jpid"; lit "-p"]), t') /\ flat (ct_rd t') = lit "more".
Proof.
  pose proof (deveco_client_served ide_loop ide_header [ask_targets] (ide_frame ask_track ++ lit "more") (Ok (Some [lit "track-jpid"; lit "-p"])) (lit "more")
    [Data (ide_header ++ ide_frame ask_targets ++ ide_frame ask_track ++ lit "more")] ide_server) as H.
  destruct (handle_deveco_client _ _ _) as [r t']. exists t'. destruct H as (_ & _ & H); [by vm_compute|by vm_compute| | | |by vm_compute|].
  - constructor; [|constructor]. split; [split_and!; by vm_compute|by vm_compute].
  - apply end_track; [split_and!; by vm_compute|by vm_compute].
  - by apply (bool_decide_unpack _); vm_compute.
  - cbn [fst] in H. destruct H as [H1 H2]. split; [|exact H2]. f_equal. rewrite H1. by vm_compute.
Defined.
End DevecoWitness.
