(* ===== verification/HostDiscover.v ===== *)
(** * The host: discovery of devices in the network

    [src/hdc/src/net_discover.rs]: the addresses that are probed, the answers of the daemons, and
    the list of addresses they give.  The datagrams that arrive, the local address and
    the failures of the socket are arguments. *)

From S2P Require Import Prelude RustStr NetAddr Config Tlv Serializer Encrypt Transport Reading RsaAuth HostMaps HostChannels HostSession HostTask.
From S2P Require Import HostFile HostApp HostForward HostCommand.

(** ** Addresses *)

(** [Display] of an [Ipv6Addr]: lower-case groups, the first longest run of two zeros or more
    as [::], and addresses mapped from IPv4 with a dotted tail. *)
Fixpoint fmt_hex_go (fuel : nat) (v : Z) : bytes :=
  match fuel with
  | O => []
  | S f => let d := v mod 16 in
           (if v <? 16 then [] else fmt_hex_go f (v / 16)) ++ [if d <? 10 then 48 + d else 87 + d]
  end.
Definition fmt_hex (v : Z) : bytes := fmt_hex_go 4 v.
Fixpoint zero_run (gs : list Z) : nat := match gs with 0 :: t => S (zero_run t) | _ => O end.
(** Start and length of the longest run, the first of equal ones. *)
Fixpoint longest_zeros (i : nat) (gs : list Z) : nat * nat :=
  match gs with
  | [] => (i, O)
  | _ :: t => let '(j, n) := longest_zeros (S i) t in if (n <=? zero_run gs)%nat then (i, zero_run gs) else (j, n)
  end.
Definition fmt_groups (gs : list Z) : bytes := join [58] (map fmt_hex gs).
Definition fmt_ipv6 (gs : list Z) : bytes :=
  match gs with
  | [0; 0; 0; 0; 0; 65535; x; y] => lit "::ffff:" ++ fmt_ipv4 (x / 256) (x mod 256) (y / 256) (y mod 256)
  | _ =>
      let '(i, n) := longest_zeros 0 gs in
      if (1 <? n)%nat then fmt_groups (take i gs) ++ lit "::" ++ fmt_groups (drop (i + n) gs) else fmt_groups gs
  end.
Definition fmt_ip (ip : Ip) : bytes := match ip with V4 a b c d => fmt_ipv4 a b c d | V6 gs => fmt_ipv6 gs end.

Definition format_daemon_addr (ip : Ip) (port : Z) : bytes :=
  match ip with
  | V4 _ _ _ _ => fmt_ip ip ++ [58] ++ fmt_dec port
  | V6 _ => [91] ++ fmt_ip ip ++ [93; 58] ++ fmt_dec port
  end.
Definition parse_daemon_response (text : bytes) : option Z :=
  let prefix := HANDSHAKE_MESSAGE ++ lit "-" in
  match strip_prefix prefix text with
  | None => None
  | Some rest => match parse_uint 16 (trim rest) with inr port => Some port | inl _ => None end
  end.

Definition sock (a b c d : Z) : SocketAddr := SockV4 (V4 a b c d) SERVER_DEFAULT_PORT.
Definition broadcast_addresses (local_ip : option Ip) : list SocketAddr :=
  sock 255 255 255 255 ::
  match local_ip with
  | Some (V4 a b c _) => [sock a b c 255; sock a b 255 255; sock a 255 255 255]
  | _ => []
  end.
Definition subnet_unicast_hosts (local_ip : option Ip) : list SocketAddr :=
  match local_ip with
  | Some (V4 a b c _) => map (fun i => sock a b c (Z.of_nat i)) (seq 1 254)
  | _ => []
  end.

(** ** The search *)

(** What [recv_from] gives before the time is over; its buffer has 256 bytes. *)
Inductive Datagram := UData (data : bytes) (peer : Ip) | UErr.
Definition RECV_BUF_SIZE : nat := 256.
Definition answer_of (data : bytes) (peer : Ip) : option bytes :=
  option_map (format_daemon_addr peer) (parse_daemon_response (from_utf8_lossy (take RECV_BUF_SIZE data))).
Fixpoint collect (ds : list Datagram) (found : list bytes) : list bytes :=
  match ds with
  | UData data peer :: t =>
      match answer_of data peer with
      | Some addr => collect t (if bool_decide (addr ∈ found) then found else found ++ [addr])
      | None => collect t found
      end
  | _ => found
  end.
(** The result, and the addresses that were probed. *)
Definition discover_devices (bind_error broadcast_error : option Error) (local_ip : option Ip) (ds : list Datagram)
    : Result (list bytes) * list SocketAddr :=
  match bind_error with
  | Some e => (Err (mkError AddrInUse (lit "Failed to bind UDP discovery socket on port " ++ fmt_dec SERVER_DEFAULT_PORT ++ lit ": " ++ err_msg e)), [])
  | None =>
      match broadcast_error with
      | Some e => (Err (mkError OtherError (lit "Failed to enable UDP broadcast: " ++ err_msg e)), [])
      | None => (Ok (collect ds []), broadcast_addresses local_ip ++ subnet_unicast_hosts local_ip)
      end
  end.

(** ** Facts *)

(** The datagrams that were received. *)
Fixpoint received (ds : list Datagram) : list (bytes * Ip) :=
  match ds with UData d p :: t => (d, p) :: received t | _ => [] end.
Lemma collect_spec ds found :
  NoDup found -> NoDup (collect ds found) /\
  forall addr, addr ∈ collect ds found <-> addr ∈ found \/ exists d p, (d, p) ∈ received ds /\ answer_of d p = Some addr.
Proof.
  revert found; induction ds as [|[d p|] ds IH]; intros found Hn; cbn [collect received].
  - split; [done|]. intros addr. split; [by left|]. intros [H|(d & p & H & _)]; [done|by apply elem_of_nil in H].
  - assert (Hr : forall addr, (exists d' p', (d', p') ∈ (d, p) :: received ds /\ answer_of d' p' = Some addr) <->
      answer_of d p = Some addr \/ exists d' p', (d', p') ∈ received ds /\ answer_of d' p' = Some addr).
    { intros addr. split.
      - intros (d' & p' & [[= -> ->]|H]%elem_of_cons & E); [by left|right; by exists d', p'].
      - intros [E|(d' & p' & H & E)]; [exists d, p; split; [apply list_elem_of_here|done]|exists d', p'; split; [by apply list_elem_of_further|done]]. }
    destruct (answer_of d p) as [x|] eqn:Ea.
    + assert (Hn' : NoDup (if bool_decide (x ∈ found) then found else found ++ [x])).
      { case_bool_decide as Hx; [done|]. apply NoDup_app. split_and!; [done| |by apply NoDup_singleton].
        intros y Hy ->%list_elem_of_singleton. done. }
      destruct (IH _ Hn') as [H1 H2]. split; [done|]. intros addr. rewrite H2, Hr.
      assert (addr ∈ (if bool_decide (x ∈ found) then found else found ++ [x]) <-> addr ∈ found \/ Some x = Some addr) as ->; [|tauto].
      case_bool_decide as Hx; [|rewrite elem_of_app, list_elem_of_singleton].
      * split; [by left|]. by intros [?|[= <-]].
      * split; (intros [?|?]; [by left|right; congruence]).
    + destruct (IH _ Hn) as [H1 H2]. split; [done|]. intros addr. rewrite H2, Hr. split; [tauto|]. intros [?|[?|?]]; [by left|done|by right].
  - split; [done|]. intros addr. split; [by left|]. intros [H|(d & p & H & _)]; [done|by apply elem_of_nil in H].
Qed.
(** The answer of a daemon. *)
Definition daemon_answer (port : Z) : bytes := HANDSHAKE_MESSAGE ++ lit "-" ++ fmt_dec port.
Lemma trim_digits s : digits s -> trim s = s.
Proof.
  intros Hd. pose proof (digits_ascii s Hd) as Ha. unfold trim, trim_start, trim_end. rewrite (chars_ascii s Ha).
  assert (Hw : forall b, 48 <= b <= 57 -> is_ws [b] = false).
  { intros b Hb. assert (Hc : b ∈ [48; 49; 50; 51; 52; 53; 54; 55; 56; 57]) by (rewrite !elem_of_cons; lia).
    repeat (apply elem_of_cons in Hc as [->|Hc]; [by vm_compute|]). by apply elem_of_nil in Hc. }
  assert (Hs : drop_while is_ws (map (fun b => [b]) s) = map (fun b => [b]) s).
  { destruct Hd as [|b s Hb Hd]; [done|]. cbn [drop_while map]. by rewrite (Hw b Hb). }
  rewrite Hs, concat_singletons, (chars_ascii s Ha). destruct s as [|b l _] using rev_ind; [done|].
  rewrite map_app. cbn [map]. rewrite drop_while_end_keep.
  - change [[b]] with (map (fun x : Z => [x]) [b]). by rewrite <- map_app, concat_singletons.
  - apply Hw. apply Forall_app in Hd as [_ Hd]. by inversion Hd.
Qed.
(** What a daemon that listens on [port] answers gives an address that can be connected to. *)
Lemma daemon_answer_address a b c d port :
  u8 a -> u8 b -> u8 c -> u8 d -> 0 < port -> u16 port -> exists addr,
  answer_of (daemon_answer port) (V4 a b c d) = Some addr /\ parse_socket_addr addr = Some (SockV4 (V4 a b c d) port) /\
  check_target_port addr = Ok tt.
Proof.
  intros Ha Hb Hc Hd H0 Hp. pose proof (fmt_dec_digits port ltac:(lia)) as Hdig.
  pose proof (fmt_dec_go_length 20 port 5 ltac:(ulia) ltac:(lia)) as Hlen. fold (fmt_dec port) in Hlen.
  assert (Hlit : HANDSHAKE_MESSAGE ++ lit "-" = lit "OHOS HDC-") by (by vm_compute).
  assert (Hv : ascii (daemon_answer port)).
  { unfold daemon_answer. rewrite app_assoc, Hlit. apply Forall_app. split; [by apply (bool_decide_unpack _); vm_compute|by apply digits_ascii]. }
  exists (fmt_ipv4 a b c d ++ [58] ++ fmt_dec port). split_and!.
  - unfold answer_of. rewrite take_ge by (unfold daemon_answer, RECV_BUF_SIZE; rewrite app_assoc, Hlit, length_app; change (length (lit "OHOS HDC-")) with 9%nat; lia).
    rewrite from_utf8_lossy_valid by (by apply ascii_utf8). unfold parse_daemon_response, daemon_answer.
    rewrite app_assoc. unfold strip_prefix. rewrite starts_with_app, drop_app_length, trim_digits by done.
    by rewrite parse_fmt_dec by ulia.
  - by apply parse_socket_fmt.
  - unfold check_target_port, rsplit_once. rewrite reverse_app, reverse_app. change (reverse [58]) with [58]. rewrite <- app_assoc. cbn [app].
    rewrite split_once_app by (rewrite elem_of_reverse; apply (Parser.plain_not_in _ 58); [by apply Parser.digits_plain|lia..]).
    rewrite reverse_involutive. rewrite bool_decide_false by apply fmt_dec_nonempty.
    pose proof (Parser.check_port_fmt port H0 Hp) as Hck. unfold Parser.check_port in Hck.
    destruct (fmt_dec port) as [|x t] eqn:E; [by apply fmt_dec_nonempty in E|]. rewrite <- E in *. cbn [orb] in *.
    destruct ((5 <? len (fmt_dec port)) || negb (forallb is_ascii_digit (fmt_dec port))); [done|].
    destruct (parse_uint 16 (fmt_dec port)); [done|]. by destruct (0 <? z).
Qed.

(** New addresses become devices that can be connected to. *)
Definition discovered_device : DaemonInfo.t := DaemonInfo.mk 0 Tcp Ready [] [].
Definition unknown (h : Host) (addr : bytes) : bool := negb (ConnectMap.contains_key addr (connect_map h)).
Lemma add_discovered_cons a addrs n h : add_discovered (a :: addrs) n h =
  if bool_decide (is_Some (connect_map h !! a)) then add_discovered addrs n h
  else add_discovered addrs (n + 1) (set_connect_map (<[a:=discovered_device]> (connect_map h)) h).
Proof.
  cbn [add_discovered]. unfold mbind, M_bind, get, ConnectMap.contains_key. by case_bool_decide.
Qed.
Lemma add_discovered_spec addrs n h : NoDup addrs -> exists m,
  add_discovered addrs n h = (Ok (n + len (List.filter (unknown h) addrs)), set_connect_map m h) /\
  forall k, m !! k = match connect_map h !! k with
    | Some i => Some i
    | None => if bool_decide (k ∈ addrs) then Some discovered_device else None
    end.
Proof.
  revert n h; induction addrs as [|a addrs IH]; intros n h Hn; cbn [List.filter].
  - exists (connect_map h). rewrite len_nil, Z.add_0_r. split; [by destruct h|]. intros k. by destruct (connect_map h !! k).
  - apply NoDup_cons in Hn as [Ha Hn]. unfold unknown at 1, ConnectMap.contains_key. rewrite add_discovered_cons.
    case_bool_decide as Hk; cbn [negb].
    + destruct (IH n h Hn) as (m & E & Hm). exists m. split; [done|]. intros k. rewrite Hm.
      destruct (connect_map h !! k) eqn:Ek; [done|]. assert (k <> a) by (intros ->; rewrite Ek in Hk; by destruct Hk).
      by rewrite (bool_decide_ext (k ∈ a :: addrs) (k ∈ addrs)) by (rewrite elem_of_cons; tauto).
    + set (h1 := set_connect_map (<[a:=discovered_device]> (connect_map h)) h).
      destruct (IH (n + 1) h1 Hn) as (m & E & Hm). exists m. split.
      * rewrite E, len_cons. assert (List.filter (unknown h1) addrs = List.filter (unknown h) addrs) as ->; [|by rewrite Z.add_assoc].
        apply filter_ext_in. intros x Hx. unfold unknown, ConnectMap.contains_key, h1. cbn [connect_map set_connect_map].
        rewrite lookup_insert_ne; [done|]. intros ->. apply Ha. by apply list_elem_of_In.
      * intros k. rewrite Hm. unfold h1. cbn [connect_map set_connect_map]. destruct (decide (k = a)) as [->|Hka].
        -- rewrite lookup_insert_eq.
           destruct (connect_map h !! a) eqn:Ea; [by destruct Hk; eexists|]. by rewrite bool_decide_true by apply list_elem_of_here.
        -- rewrite lookup_insert_ne by done. destruct (connect_map h !! k); [done|].
           by rewrite (bool_decide_ext (k ∈ a :: addrs) (k ∈ addrs)) by (rewrite elem_of_cons; tauto).
Qed.

(** C13: [hdc discover] over the search and the registration of what it found.  The addresses are
    pairwise different, and each is one that a received datagram answered; a daemon listening on a port
    of an IPv4 host, whose answer arrived among them, is found under an address that parses back to its
    socket address and that [hdc tconn] accepts; the count reported to the client is the number
    of addresses that were not known; they become devices that are ready to be connected to, and no
    known device changes. *)
Theorem discovery_sound local_ip ds h :
  exists found m, discover_devices None None local_ip ds = (Ok found, broadcast_addresses local_ip ++ subnet_unicast_hosts local_ip) /\
  NoDup found /\
  (forall addr, addr ∈ found <-> exists d p, (d, p) ∈ received ds /\ answer_of d p = Some addr) /\
  (forall a b c d port, u8 a -> u8 b -> u8 c -> u8 d -> 0 < port -> u16 port ->
     (daemon_answer port, V4 a b c d) ∈ received ds -> exists addr, addr ∈ found /\
     parse_socket_addr addr = Some (SockV4 (V4 a b c d) port) /\ check_target_port addr = Ok tt) /\
  add_discovered found 0 h = (Ok (len (List.filter (unknown h) found)), set_connect_map m h) /\
  (forall k, m !! k = match connect_map h !! k with
     | Some i => Some i
     | None => if bool_decide (k ∈ found) then Some discovered_device else None
     end).
Proof.
  destruct (collect_spec ds [] (NoDup_nil_2)) as [Hn Hin].
  destruct (add_discovered_spec (collect ds []) 0 h Hn) as (m & E & Hm).
  assert (Hf : forall addr, addr ∈ collect ds [] <-> exists d p, (d, p) ∈ received ds /\ answer_of d p = Some addr).
  { intros addr. rewrite Hin. split; [intros [H|H]; [by apply elem_of_nil in H|done]|by right]. }
  exists (collect ds []), m. split_and!; try done.
  intros a b c d port Ha Hb Hc Hd H0 Hp Hr. destruct (daemon_answer_address a b c d port Ha Hb Hc Hd H0 Hp) as (addr & E1 & E2 & E3).
  exists addr. split; [|done]. apply Hf. by exists (daemon_answer port), (V4 a b c d).
Qed.
