(* ===== verification/HostClient.v ===== *)
(** * The host tool as a client of the server

    [src/hdc/src/client.rs]: the connection to the server, the handshake, one routine for each
    group of commands with the loops that print the answers, the loop of an interactive shell,
    and [run_client_mode]; and what it uses of the process management in
    [src/hdc/src/server.rs] ([server_fork], [server_kill]).  Standard output and error are
    byte strings; what the system does (the current directory, files, connections) is the
    class [ClientEnv]. *)

From S2P Require Import Parser.
From S2P Require Import Prelude RustStr NetAddr Config Tlv Serializer Encrypt Transport Reading RsaAuth HostMaps HostChannels HostSession HostTask.
From S2P Require Import HostFile HostApp HostForward HostCommand.

Class ClientEnv := {
  current_dir : Result bytes;
  main_separator : Z;
  current_exe : Result bytes;
  file_create_error : bytes -> option Error;
  file_write_error : bytes -> Z -> option Error;
  (** [tasklist] on Windows: its output, if it could be run; elsewhere no process is looked for *)
  on_windows : bool;
  tasklist : option bytes;
  process_id : Z;
  spawn_error : list bytes -> bool
}.

(** ** The client *)

(** The fields of the structure, and what the process has written. *)
Record Client := mkClient {
  cl_command : HdcCommand; cl_params : list bytes; cl_key : bytes; cl_wr : option Writer; cl_rd : option Stream;
  cl_stdout : bytes; cl_stderr : bytes; cl_disk : gmap bytes bytes
}.
Definition set_params ps (c : Client) : Client :=
  mkClient (cl_command c) ps (cl_key c) (cl_wr c) (cl_rd c) (cl_stdout c) (cl_stderr c) (cl_disk c).
Definition set_wr wr (c : Client) : Client :=
  mkClient (cl_command c) (cl_params c) (cl_key c) wr (cl_rd c) (cl_stdout c) (cl_stderr c) (cl_disk c).
Definition set_rd rd (c : Client) : Client :=
  mkClient (cl_command c) (cl_params c) (cl_key c) (cl_wr c) rd (cl_stdout c) (cl_stderr c) (cl_disk c).
Definition set_disk d (c : Client) : Client :=
  mkClient (cl_command c) (cl_params c) (cl_key c) (cl_wr c) (cl_rd c) (cl_stdout c) (cl_stderr c) d.
Definition print (text : bytes) : M Client unit := modify (fun c =>
  mkClient (cl_command c) (cl_params c) (cl_key c) (cl_wr c) (cl_rd c) (cl_stdout c ++ text) (cl_stderr c) (cl_disk c)).
Definition eprint (text : bytes) : M Client unit := modify (fun c =>
  mkClient (cl_command c) (cl_params c) (cl_key c) (cl_wr c) (cl_rd c) (cl_stdout c) (cl_stderr c ++ text) (cl_disk c)).
Definition println (text : bytes) : M Client unit := print (text ++ [10]).

(** [{:02x?}] of a byte vector. *)
Definition hex_digit (d : Z) : Z := if d <? 10 then 48 + d else 87 + d.
Definition fmt_hex_vec (v : bytes) : bytes :=
  lit "[" ++ join (lit ", ") (map (fun b => [hex_digit (b / 16); hex_digit (b mod 16)]) v) ++ lit "]".

(** How the process goes on after a command: it returns, exits at once, or is the terminal
    of a shell, with the two halves of the connection. *)
Inductive Done := Returned | Exited | InShell (rd : Stream) (wr : Writer).

Section Client.
Context {HS : HostSys} {CE : ClientEnv}.

(** [Client::new]; the two halves of the connection are arguments. *)
Definition Client_new (parsed_cmd : ParsedCommand) (wr : Writer) (rd : Stream) (disk : gmap bytes bytes) : Result Client :=
  match pc_command parsed_cmd with
  | None => err InvalidInput "command is None"
  | Some command =>
      let connect_key := auto_connect_key (Parser.connect_key parsed_cmd) command in
      match tcp_connect_error (server_addr parsed_cmd) with
      | Some e => Err (mkError OtherError (lit "Connect to server failed: " ++ err_msg e))
      | None => Ok (mkClient command (pc_parameters parsed_cmd) connect_key (Some wr) (Some rd) [] [] disk)
      end
  end.

Definition send (buf : bytes) : M Client unit := fun c =>
  match cl_wr c with
  | Some wr => let '(_, wr) := write_all (to_be_bytes 4 (wrap 32 (len buf)) ++ buf) wr in (Ok tt, set_wr (Some wr) c)
  | None => (Ok tt, c)
  end.
Definition read_exact_bytes (size : Z) : M Client bytes := fun c =>
  match cl_rd c with
  | None => (err OtherError "stream closed", c)
  | Some rd =>
      let '(r, rd) := read_loop (fun _ n => tcp_read n) id "peer closed" (Z.to_nat size) [] size rd in (r, set_rd (Some rd) c)
  end.
Definition recv : M Client bytes :=
  len_bytes ← read_exact_bytes 4;
  read_exact_bytes (from_be_bytes len_bytes).

Definition client_handshake (connect_key : bytes) : Result bytes :=
  (* [KEY_MAX_SIZE - self.connect_key.len()] overflows for a longer key *)
  if KEY_MAX_SIZE <? len connect_key then Panic
  else Ok (HANDSHAKE_MESSAGE ++ replicate (Z.to_nat (BANNER_SIZE - len HANDSHAKE_MESSAGE)) 0 ++
           connect_key ++ replicate (Z.to_nat (KEY_MAX_SIZE - len connect_key)) 0).
Definition handshake : M Client unit :=
  recv ← recv;
  head ← lift (slice 0 (len HANDSHAKE_MESSAGE) recv);
  match from_utf8 head with
  | inl e => lift (Err (mkError InvalidData (lit "handshake from_utf8 error: " ++ fmt_utf8_error e)))
  | inr msg =>
      if negb (beq msg HANDSHAKE_MESSAGE) then throw InvalidData "Recv server-hello failed"
      else
        c ← get;
        buf ← lift (client_handshake (cl_key c));
        send buf
  end.

(** ** Reading the answers *)

(** The fuel of a loop that reads a message in each turn. *)
Definition recv_fuel (c : Client) : nat := S (weight (default [] (cl_rd c))).
(** Prints until the connection ends; only other errors are reported. *)
Fixpoint loop_recv_from (fuel : nat) : M Client unit :=
  match fuel with
  | O => lift Panic
  | S f =>
      r ← try_ recv;
      match r with
      | Ok recv =>
          _ ← match from_utf8 recv with
              | inr msg => print msg
              | inl _ => eprint (lit "[binary data: " ++ fmt_hex_vec recv ++ lit "]")
              end;
          loop_recv_from f
      | Err e => if bool_decide (err_kind e = ConnectionAborted) then mret tt else lift (Err e)
      | Panic => lift Panic
      end
  end.
Definition loop_recv : M Client unit := c ← get; loop_recv_from (recv_fuel c).
(** [let recv = self.recv().await?]: also the end of the connection is an error. *)
Fixpoint print_all (show : bytes -> M Client unit) (fuel : nat) : M Client unit :=
  match fuel with
  | O => lift Panic
  | S f => recv ← recv; _ ← show recv; print_all show f
  end.
Definition print_or (what : string) (suffix : bytes) (recv : bytes) : M Client unit :=
  match from_utf8 recv with
  | inr msg => print (msg ++ suffix)
  | inl e => lift (Err (mkError InvalidData (lit what ++ fmt_utf8_error e)))
  end.
Fixpoint loop_recv_waitfor_from (fuel : nat) : M Client Done :=
  match fuel with
  | O => lift Panic
  | S f =>
      recv ← recv;
      c ← get;
      match cl_command c with
      | KernelWaitFor =>
          match from_utf8 recv with
          | inl _ => lift Panic
          | inr text =>
              if beq text (lit "[Fail]No any connected target" ++ crlf)
              then _ ← send (join [32] (cl_params c)); loop_recv_waitfor_from f
              else mret Exited
          end
      | _ => loop_recv_waitfor_from f
      end
  end.

(** ** The tasks *)

Definition send_params : M Client unit := c ← get; send (join [32] (cl_params c)).
(** [unity_task], [jdwp_task] and [flashd_task]. *)
Definition unity_task : M Client unit := _ ← send_params; loop_recv.
Definition wait_task : M Client Done := _ ← send_params; c ← get; loop_recv_waitfor_from (recv_fuel c).
Definition unity_root_run_task : M Client unit :=
  _ ← modify (fun c => match cl_params c with
        | p0 :: p1 :: t => if starts_with (lit "-r") p1 then set_params (p0 :: lit "r" :: t) c else c
        | _ => c
        end);
  _ ← send_params; loop_recv.
Definition forward_task : M Client unit :=
  c ← get;
  let n := length (cl_params c) in
  if (cmd_eqb (cl_command c) ForwardRemove || cmd_eqb (cl_command c) ForwardRportRemove) && (n <? 2)%nat
  then throw InvalidInput "Too few arguments."
  else if (cmd_eqb (cl_command c) ForwardInit || cmd_eqb (cl_command c) ForwardRportInit) && (n <? 3)%nat
  then throw InvalidInput "Too few arguments."
  else _ ← send_params; loop_recv.
Definition general_task : M Client unit :=
  _ ← send_params; c ← get; print_all (print_or "recv data to str failed: " []) (recv_fuel c).
Definition create (path : bytes) : M Client unit := fun c =>
  match file_create_error path with Some e => (Err e, c) | None => (Ok tt, set_disk (<[path := []]> (cl_disk c)) c) end.
Definition append (path data : bytes) : M Client unit := fun c =>
  let content := default [] (cl_disk c !! path) in
  match file_write_error path (len content) with
  | Some e => (Err e, c)
  | None => (Ok tt, set_disk (<[path := content ++ data]> (cl_disk c)) c)
  end.
Definition bug_report_task : M Client unit :=
  c ← get;
  match cl_params c with
  | _ :: path :: _ => _ ← send_params; _ ← create path; c ← get; print_all (append path) (recv_fuel c)
  | _ => general_task
  end.
(** [Vec::insert] panics behind the end. *)
Definition vec_insert (i : nat) (x : bytes) (v : list bytes) : Result (list bytes) :=
  if (length v <? i)%nat then Panic else Ok (take i v ++ x :: drop i v).
Definition insert_cwd (field_count : nat) (params : list bytes) : Result (list bytes) :=
  dir ← current_dir;
  params ← vec_insert field_count (lit "-cwd") params;
  vec_insert (field_count + 1) (dir ++ [main_separator]) params.
Definition file_send_task : M Client unit :=
  c ← get;
  params ← lift (if cmd_eqb (cl_command c) FileInit then insert_cwd 2 (cl_params c) else Ok (cl_params c));
  _ ← send (join [32] params); loop_recv.
(** [app_install_task] and [app_sideload_task]. *)
Definition app_install_task : M Client unit :=
  c ← get;
  params ← lift (insert_cwd 1 (cl_params c));
  _ ← send (join [32] params); loop_recv.
Definition app_uninstall_task : M Client unit :=
  _ ← send_params; c ← get; print_all (print_or "" [10]) (recv_fuel c).
Definition check_server_task : M Client unit :=
  _ ← send_params;
  recv ← recv;
  if len recv <? 2 then throw InvalidData "recv failed"
  else if negb (from_be_bytes (reverse (slice_raw 0 2 recv)) =? as_u32 KernelCheckServer) then throw InvalidData "recv cmd error"
  else
    match from_utf8 (slice_raw 2 (len recv) recv) with
    | inl e => lift (Err (mkError InvalidData (lit "from_utf8 failed: " ++ fmt_utf8_error e)))
    | inr s_ver => println (lit "client " ++ get_version ++ lit ", server " ++ s_ver)
    end.
Definition version_task : M Client unit :=
  _ ← send_params;
  recv ← recv;
  match from_utf8 recv with
  | inl e => lift (Err (mkError InvalidData (lit "from_utf8 failed: " ++ fmt_utf8_error e)))
  | inr s_ver => println s_ver
  end.

Definition shell_task : M Client Done :=
  c ← get;
  if (length (cl_params c) =? 1)%nat then
    _ ← send (lit "shell" ++ [0]);
    c ← get;
    match cl_rd c, cl_wr c with
    | Some rd, Some wr => _ ← put (set_wr None (set_rd None c)); mret (InShell rd wr)
    | _, _ => throw OtherError "stream closed"
    end
  else _ ← send_params; _ ← loop_recv; mret Returned.

Definition returns (m : M Client unit) : M Client Done := _ ← m; mret Returned.
Definition execute_command : M Client Done :=
  c ← get;
  match cl_command c with
  | KernelTargetList | KernelTargetConnect | UnityHilog | KernelTargetDiscover | KernelCheckDevice | KernelEnableKeepalive =>
      returns general_task
  | FileInit | FileCheck | FileRecvInit => returns file_send_task
  | AppInit => returns app_install_task
  | AppUninstall => returns app_uninstall_task
  | UnityRunmode =>
      if (length (cl_params c) <? 2)%nat then throw OtherError "Error input parameter" else returns unity_task
  | UnityReboot | UnityRemount | KernelTargetReconnect => returns unity_task
  | UnityRootrun => returns unity_root_run_task
  | UnityExecute | UnityExecuteEx => shell_task
  | KernelWaitFor => wait_task
  | UnityBugreportInit => returns bug_report_task
  | AppSideload => returns app_install_task
  | FlashdUpdateInit | FlashdFlashInit | FlashdErase | FlashdFormat => returns unity_task
  | ForwardInit | ForwardRportInit | ForwardList | ForwardRportList | ForwardRemove | ForwardRportRemove => returns forward_task
  | JdwpList | JdwpTrack => returns unity_task
  | KernelCheckServer => returns check_server_task
  | ClientVersion => returns version_task
  | KernelHelp => returns (println usage)
  | SpawnSub => returns unity_task
  | command => fail OtherError (lit "unknown command: " ++ fmt_dec (as_u32 command))
  end.

(** ** The process *)

(** What is printed, the key files, the processes started (program and arguments) and killed. *)
Record Proc := mkProc {
  pr_stdout : bytes; pr_stderr : bytes; pr_keys : Files; pr_started : list (bytes * list bytes); pr_killed : list Z
}.
Definition out (text : bytes) : M Proc unit := modify (fun p =>
  mkProc (pr_stdout p ++ text ++ [10]) (pr_stderr p) (pr_keys p) (pr_started p) (pr_killed p)).
Definition eout (text : bytes) : M Proc unit := modify (fun p =>
  mkProc (pr_stdout p) (pr_stderr p ++ text ++ [10]) (pr_keys p) (pr_started p) (pr_killed p)).

(** The arguments of the server's process. *)
Definition fork_args (addr : bytes) (log_level : Z) (forward_listen_ip : bytes) : list bytes :=
  [lit "-b"; lit "-m"; lit "-l"; fmt_dec log_level; lit "-s"; addr] ++
  (if negb (beq forward_listen_ip (lit "127.0.0.1")) && negb (beq forward_listen_ip []) then [lit "-e"; forward_listen_ip] else []).
Definition server_fork (addr : bytes) (log_level : Z) (forward_listen_ip : bytes) : M Proc unit := fun p =>
  match current_exe with
  | Ok exe =>
      let args := fork_args addr log_level forward_listen_ip in
      (Ok tt, if spawn_error args then p
              else mkProc (pr_stdout p) (pr_stderr p) (pr_keys p) (pr_started p ++ [(exe, args)]) (pr_killed p))
  | _ => (Ok tt, p)
  end.
(** [str::lines]. *)
Definition lines (text : bytes) : list bytes :=
  let ls := split_on 10 text in
  map (fun l => default l (strip_suffix [13] l)) (if bool_decide (last ls = Some []) then take (length ls - 1) ls else ls).
Definition pid_of (line : bytes) : option Z :=
  if contains (lit "hdc.exe") line || contains (lit "hdc ") line then
    match split_whitespace line with
    | _ :: second :: _ => match parse_uint 32 second with inr pid => Some pid | inl _ => None end
    | _ => None
    end
  else None.
Definition get_process_pids : list Z :=
  if on_windows then match tasklist with Some text => omap pid_of (lines (from_utf8_lossy text)) | None => [] end else [].
Definition server_kill : M Proc unit :=
  _ ← modify (fun p => mkProc (pr_stdout p) (pr_stderr p) (pr_keys p) (pr_started p)
                         (pr_killed p ++ filter (fun pid => pid <> process_id) get_process_pids));
  out (lit "Kill server finish").

Section Mode.
Context {HR : Rsa} {HF : HostFs}.

Definition with_keys {A} (m : M Files A) : M Proc A :=
  zoom pr_keys (fun k p => mkProc (pr_stdout p) (pr_stderr p) k (pr_started p) (pr_killed p)) m.
(** The client runs and its output is the process's. *)
Definition run_client (m : M Client Done) (c : Client) : M Proc (Done * Client) := fun p =>
  let '(r, c) := m c in
  (d ← r; Ok (d, c),
   mkProc (pr_stdout p ++ cl_stdout c) (pr_stderr p ++ cl_stderr c) (pr_keys p) (pr_started p) (pr_killed p)).
(** [probe] is the outcome of the attempt to reach the server before a new one is started. *)
Definition run_client_mode (probe : option Error) (seed : Z) (wr : Writer) (rd : Stream) (disk : gmap bytes bytes)
    (parsed_cmd : ParsedCommand) : M Proc (option (Done * Client)) :=
  let fork := server_fork (server_addr parsed_cmd) (log_level parsed_cmd) (forward_listen_ip parsed_cmd) in
  let restart := existsb (beq (lit "-r")) (pc_parameters parsed_cmd) in
  match pc_command parsed_cmd with
  | Some KernelServerStart =>
      _ ← (if restart then server_kill else mret tt); _ ← fork; mret None
  | Some KernelServerKill =>
      _ ← server_kill; _ ← (if restart then fork else mret tt); mret None
  | Some KernelHelp => _ ← out usage; mret None
  | Some ClientKeyGenerate =>
      r ← try_ (with_keys (load_or_generate_keys seed));
      match r with
      | Ok _ => _ ← out (lit "RSA key generated successfully"); mret None
      | Err e => _ ← eout (lit "Failed to generate RSA key: " ++ err_msg e); mret None
      | Panic => lift Panic
      end
  | _ =>
      _ ← (if launch_server parsed_cmd && (if probe is Some _ then true else false) then fork else mret tt);
      client ← lift (Client_new parsed_cmd wr rd disk);
      r ← run_client (_ ← handshake; execute_command) client;
      mret (Some r)
  end.
End Mode.
End Client.

(** ** An interactive shell at the terminal *)

(** The loop of [interactive_shell_loop] over [select!]: a message of the server is read and
    printed, or typed text is sent.  Typed text drops the reading of a message that has begun:
    [lost] bytes of it were taken from the stream. *)
Record Terminal := mkTerminal { tm_rd : Stream; tm_wr : Writer; tm_out : bytes; tm_ended : bool }.
Inductive TEvent := TServer (stdout_fails : bool) | TTyped (data : bytes) (lost : nat).
Fixpoint skip_bytes (k : nat) (rd : Stream) : Stream :=
  match rd with
  | Data b :: t => if (length b <=? k)%nat then skip_bytes (k - length b) t else Data (drop k b) :: t
  | _ => rd
  end.
Definition terminal_step (e : TEvent) (t : Terminal) : Terminal :=
  match e with
  | TServer stdout_fails =>
      let '(r, rd) := recv_channel_message (tm_rd t) in
      match r with
      | Ok d => if stdout_fails then mkTerminal rd (tm_wr t) (tm_out t) true else mkTerminal rd (tm_wr t) (tm_out t ++ d) false
      | _ => mkTerminal rd (tm_wr t) (tm_out t) true
      end
  | TTyped data lost =>
      let '(r, wr) := write_all (to_be_bytes 4 (wrap 32 (len data)) ++ data) (tm_wr t) in
      mkTerminal (skip_bytes lost (tm_rd t)) wr (tm_out t) (negb (is_ok r))
  end.
Definition interactive_shell_loop (es : list TEvent) (t : Terminal) : Terminal :=
  foldl (fun t e => if tm_ended t then t else terminal_step e t) t es.

(** ** Keys of the console on Windows *)

Record KeyEvent := mkKeyEvent { is_key_event : bool; bKeyDown : bool; ctrl_pressed : bool; UnicodeChar : Z; wVirtualKeyCode : Z }.
Definition esc (s : string) : bytes := 27 :: lit s.
Definition vk_sequence (vk : Z) : option bytes :=
  if vk =? 33 then Some (esc "[5~") else if vk =? 34 then Some (esc "[6~") else if vk =? 35 then Some (esc "[F")
  else if vk =? 36 then Some (esc "[H") else if vk =? 37 then Some (esc "[D") else if vk =? 38 then Some (esc "[A")
  else if vk =? 39 then Some (esc "[C") else if vk =? 40 then Some (esc "[B") else if vk =? 45 then Some (esc "[2~")
  else if vk =? 46 then Some (esc "[3~") else None.
(** [char::encode_utf8] of a UTF-16 unit that is a character. *)
Definition encode_utf8 (c : Z) : bytes :=
  if c <? 128 then [c]
  else if c <? 2048 then [192 + c / 64; 128 + c mod 64]
  else [224 + c / 4096; 128 + c / 64 mod 64; 128 + c mod 64].
(** The bytes of one record, if it is a key that gives some. *)
Definition key_bytes (e : KeyEvent) : option bytes :=
  if negb (is_key_event e) || negb (bKeyDown e) then None
  else
    let ch := UnicodeChar e in
    if ch =? 0 then
      match vk_sequence (wVirtualKeyCode e) with
      | Some seq => Some seq
      | None => if (65 <=? wVirtualKeyCode e) && (wVirtualKeyCode e <=? 90) && ctrl_pressed e then Some [wVirtualKeyCode e - 64] else None
      end
    else if ch <=? 127 then Some [ch]
    else if (55296 <=? ch) && (ch <=? 57343) then None
    else Some (encode_utf8 ch).
(** [read_console_raw]: records are read until one gives bytes, with a buffer of [n] bytes. *)
Fixpoint read_console_raw (n : nat) (records : list KeyEvent) : option bytes * list KeyEvent :=
  match records with
  | [] => (None, [])
  | e :: t => match key_bytes e with Some b => (Some (take n b), t) | None => read_console_raw n t end
  end.

(** ** From the command line to the server *)

(** Arguments as a shell gives them, without spaces: [String]s, and no argument of a process has
    a zero byte. *)
Definition plain_word (w : bytes) : Prop := utf8_valid w = true /\ (32 ∉ w) /\ (0 ∉ w).

#[export] Instance plain_word_dec w : Decision (plain_word w).
Proof. unfold plain_word. apply _. Defined.

Lemma trim_zeros_free w : 0 ∉ w -> trim_end_matches 0 w = w.
Proof.
  intros H. unfold trim_end_matches. destruct w as [|b l _] using rev_ind; [done|]. apply drop_while_end_keep.
  apply Z.eqb_neq. intros ->. apply H, elem_of_app. right. apply list_elem_of_here.
Qed.
Lemma join_valid ws : Forall plain_word ws -> utf8_valid (join [32] ws) = true.
Proof.
  induction 1 as [|w ws (Hv & _) Hws IH]; [done|]. destruct ws as [|v ws]; [done|].
  cbn [join]. rewrite utf8_valid_app by done. cbn [app]. by rewrite utf8_valid_cons by lia.
Qed.
Lemma request_words ws : ws <> [] -> Forall plain_word ws -> request (join [32] ws) = split_opt_and_cmd ws.
Proof.
  intros Hne Hws. unfold request. rewrite from_utf8_lossy_valid by (by apply join_valid).
  rewrite split_join; [|done|eapply Forall_impl; [exact Hws|]; by intros w (_ & ? & _)]. f_equal.
  clear Hne. induction Hws as [|w ws (_ & _ & H0) Hws IH]; [done|]. cbn [map]. by rewrite trim_zeros_free, IH.
Qed.
(** What the server makes of the parameters of a command line. *)
Lemma parameters_plain args : Forall plain_word args -> Forall plain_word (parameters (split_opt_and_cmd (drop 1 args))).
Proof. intros H. destruct (split_eq (drop 1 args)) as (cmd & i & _ & -> & _). cbn. by do 2 apply Forall_drop. Qed.
Lemma command_line_understood args p c :
  Forall plain_word args -> parse_command args = Ok p -> pc_command p = Some c ->
  request (join [32] (pc_parameters p)) = mkParsed [] (Some c) (pc_parameters p).
Proof.
  intros Ha Hp Hc. destruct (parse_command_split args p Hp) as [Ec Ep]. rewrite Ec in Hc. rewrite Ep. rewrite request_words.
  - apply split_again; [|done]. apply Forall_drop. eapply Forall_impl; [exact Ha|]. by intros w (_ & ? & _).
  - intros E. destruct (split_named _ _ Hc) as (n & Hn & Hw). rewrite E, take_nil in Hw. by vm_compute in Hw.
  - by apply parameters_plain.
Qed.

(** The handshake carries the key of the device. *)
Lemma up_to_zero_app k n : 0 ∉ k -> up_to_zero (k ++ replicate n 0) = k.
Proof.
  induction k as [|b k IH]; intros H; [by destruct n|]. apply not_elem_of_cons in H as [Hb Hk]. cbn.
  destruct (Z.eqb_spec b 0); [by subst|]. by rewrite IH.
Qed.
Lemma skip_zeros_key k n : 0 ∉ k -> skip_zeros (k ++ replicate n 0) = if k is [] then [] else k ++ replicate n 0.
Proof.
  destruct k as [|b k]; intros H; [by induction n as [|n IH]|]. apply not_elem_of_cons in H as [Hb Hk]. cbn.
  by destruct (Z.eqb_spec b 0).
Qed.
Lemma handshake_understood key :
  utf8_valid key = true -> 0 ∉ key -> len key <= KEY_MAX_SIZE -> exists buf,
  client_handshake key = Ok buf /\ len buf = BANNER_SIZE + KEY_MAX_SIZE /\
  first_message buf = Ok (match key with [] => lit "any" | _ => key end, None).
Proof.
  intros Hv H0 Hl. unfold client_handshake. rewrite (proj2 (Z.ltb_ge _ _)) by done. eexists. split; [reflexivity|].
  change (Z.to_nat (BANNER_SIZE - len HANDSHAKE_MESSAGE)) with 4%nat. set (rest := Z.to_nat (KEY_MAX_SIZE - len key)).
  assert (Hr : len (replicate rest 0) = KEY_MAX_SIZE - len key) by (unfold len at 1; rewrite length_replicate; lia).
  split; [rewrite !len_app, Hr; unfold BANNER_SIZE; change (len HANDSHAKE_MESSAGE) with 8; change (len (replicate 4 0)) with 4; lia|].
  unfold first_message. rewrite starts_with_app. unfold unpack_channel_handshake.
  rewrite slice_prefix, bind_Ok by done. rewrite from_utf8_valid by (by vm_compute).
  replace (negb (beq HANDSHAKE_MESSAGE HANDSHAKE_MESSAGE)) with false by (by vm_compute). cbn iota.
  unfold slice_from. rewrite app_assoc. rewrite (len_app (HANDSHAKE_MESSAGE ++ _)). change (len (HANDSHAKE_MESSAGE ++ replicate 4 0)) with 12.
  pose proof (len_nonneg (key ++ replicate rest 0)). unfold BANNER_SIZE. tests.
  rewrite bind_Ok. change (Z.to_nat 12) with (length (HANDSHAKE_MESSAGE ++ replicate 4 0)). rewrite drop_app_length, skip_zeros_key by done.
  destruct key as [|b k]; [done|]. by rewrite up_to_zero_app, from_utf8_valid by done.
Qed.

(** ** What the client prints *)

(** Only the stream and the standard output changed. *)
Definition shown (text : bytes) (c c' : Client) : Prop := exists rd,
  c' = mkClient (cl_command c) (cl_params c) (cl_key c) (cl_wr c) (Some rd) (cl_stdout c ++ text) (cl_stderr c) (cl_disk c).
Definition readable (rd : Stream) (ms : list bytes) (c : Client) : Prop :=
  cl_rd c = Some rd /\ clean rd /\ flat rd = concat (map channel_frame ms) /\ fit ms.
Lemma read_exact_bytes_eq n c rd a rest :
  cl_rd c = Some rd -> clean rd -> flat rd = a ++ rest -> n = len a -> exists rd',
  read_exact_bytes n c = (Ok a, set_rd (Some rd') c) /\ clean rd' /\ flat rd' = rest.
Proof.
  intros Er Hc Ef ->. unfold read_exact_bytes. rewrite Er. pose proof (len_nonneg a). pose proof (len_nonneg rest).
  destruct (read_loop_flat id "peer closed" (Z.to_nat (len a)) [] (len a) rd Hc) as (rd' & E & Hc' & Hd); [rewrite len_nil; lia..|].
  exists rd'. rewrite E, len_nil, Z.sub_0_r, Z.add_0_l, Ef, len_app in *. tests. unfold len.
  rewrite Nat2Z.id, take_app_length. split_and!; [done..|]. rewrite Hd. unfold len. by rewrite Nat2Z.id, drop_app_length.
Qed.
Lemma recv_one m ms c rd :
  readable rd (m :: ms) c -> exists rd', recv c = (Ok m, set_rd (Some rd') c) /\ readable rd' ms (set_rd (Some rd') c).
Proof.
  intros (Er & Hc & Ef & [Hm Hms]%Forall_cons). cbn [map concat] in Ef. unfold channel_frame in Ef at 1. rewrite <- app_assoc in Ef.
  unfold recv. destruct (read_exact_bytes_eq 4 c rd _ _ Er Hc Ef) as (rd1 & E1 & Hc1 & Ef1); [by rewrite len_to_be_bytes|].
  rewrite (M_bind_Ok _ _ _ _ _ E1), wrap_small, from_to_be_bytes_id by done.
  destruct (read_exact_bytes_eq (len m) (set_rd (Some rd1) c) rd1 m _ eq_refl Hc1 Ef1 eq_refl) as (rd2 & E2 & Hc2 & Ef2).
  exists rd2. by rewrite E2.
Qed.
Lemma recv_none c rd :
  readable rd [] c -> exists rd', recv c = (err ConnectionAborted "peer closed", set_rd (Some rd') c).
Proof.
  intros (Er & Hc & Ef & _). unfold recv. rewrite M_bind_eq. unfold read_exact_bytes. rewrite Er.
  destruct (read_loop_flat id "peer closed" (Z.to_nat 4) [] 4 rd Hc) as (rd' & E & _); [by vm_compute|by vm_compute|].
  exists rd'. by rewrite E, Ef.
Qed.
(** Each message is shown in turn; what happens at the end depends on the loop. *)
Lemma loop_recv_prints ms : Forall (fun m => utf8_valid m = true) ms -> forall fuel c rd,
  readable rd ms c -> (length ms < fuel)%nat -> exists c', loop_recv_from fuel c = (Ok tt, c') /\ shown (concat ms) c c'.
Proof.
  induction 1 as [|m ms Hm Hms IH]; intros fuel c rd Hr Hf; (destruct fuel as [|f]; [cbn in Hf; lia|]); cbn [loop_recv_from];
    rewrite M_bind_eq; unfold try_.
  - destruct (recv_none c rd Hr) as (rd' & ->). eexists. split; [reflexivity|]. exists rd'. cbn. by rewrite app_nil_r.
  - destruct (recv_one m ms c rd Hr) as (rd' & -> & Er). rewrite from_utf8_valid, M_bind_eq by done. cbn [print modify].
    destruct (IH f (mkClient (cl_command c) (cl_params c) (cl_key c) (cl_wr c) (Some rd') (cl_stdout c ++ m) (cl_stderr c) (cl_disk c)) rd')
      as (c' & E & rd2 & Hs); [by destruct Er as (_ & ?)|cbn in Hf; lia|].
    exists c'. split; [exact E|]. exists rd2. rewrite Hs. cbn. by rewrite <- app_assoc.
Qed.
Lemma print_all_prints what suffix ms : Forall (fun m => utf8_valid m = true) ms -> forall fuel c rd,
  readable rd ms c -> (length ms < fuel)%nat -> exists c',
  print_all (print_or what suffix) fuel c = (err ConnectionAborted "peer closed", c') /\ shown (concat (map (.++ suffix) ms)) c c'.
Proof.
  induction 1 as [|m ms Hm Hms IH]; intros fuel c rd Hr Hf; (destruct fuel as [|f]; [cbn in Hf; lia|]); cbn [print_all];
    rewrite M_bind_eq.
  - destruct (recv_none c rd Hr) as (rd' & ->). eexists. split; [reflexivity|]. exists rd'. cbn. by rewrite app_nil_r.
  - destruct (recv_one m ms c rd Hr) as (rd' & -> & Er). rewrite M_bind_eq. unfold print_or at 1. rewrite from_utf8_valid by done.
    cbn [print modify].
    destruct (IH f (mkClient (cl_command c) (cl_params c) (cl_key c) (cl_wr c) (Some rd') (cl_stdout c ++ m ++ suffix) (cl_stderr c) (cl_disk c)) rd')
      as (c' & E & rd2 & Hs); [by destruct Er as (_ & ?)|cbn in Hf; lia|].
    exists c'. split; [exact E|]. exists rd2. rewrite Hs. cbn. by rewrite <- !app_assoc.
Qed.

(** ** A command that the server answers, both ends together *)

Section Answered.
Context {HA : Aead} {HI : HashIter} {HR : Rsa} {HF : HostFs} {HS : HostSys} {HD : HostDisk} {HZ : Zip} {HN : HostNet} {CE : ClientEnv}.

Definition set_host (h : Host) (s : Srv) : Srv := mkSrv (mkTask h (t_rx (sv_task s)) (t_fs (sv_task s))) (sv_files s).
Lemma on_shost_eq {A} (m : M Host A) s : on_shost m s = ((m (srv_host s)).1, set_host (m (srv_host s)).2 s).
Proof. unfold on_shost, on_task, HostTask.on_host, zoom, srv_host. cbn. by destruct (m _). Qed.
(** The two first steps of a client's task. *)
Lemma channel_greeted ch s a : implements (srv_host s) a -> exists s1 s2,
  on_shost (on_tcp (TcpMap.start_channel ch (mkWriter [] None))) s = (Ok tt, s1) /\ say ch (hello ch) s1 = (Ok tt, s2) /\
  implements (srv_host s2) (ChannelSpec.mk (<[ch := [hello ch]]> (ChannelSpec.open a)) (ChannelSpec.owner a) (ChannelSpec.kept a) (ChannelSpec.closed a)) /\
  same_tables (srv_host s) (srv_host s2) /\ (forall sid, session_of sid (srv_host s2) = session_of sid (srv_host s)) /\
  t_rx (sv_task s2) = t_rx (sv_task s) /\ t_fs (sv_task s2) = t_fs (sv_task s) /\ sv_files s2 = sv_files s.
Proof.
  intros Hi. pose proof (perform_implements (ChannelSpec.Start ch) _ a Hi) as H1. cbn [perform ChannelSpec.step snd fst] in H1.
  destruct (on_tcp (TcpMap.start_channel ch _) (srv_host s)) as [r1 h1] eqn:E1. destruct H1 as [O1 I1]. destruct r1 as [[]|e|]; try done.
  assert (F1 : same_tables (srv_host s) h1 /\ forall sid, session_of sid h1 = session_of sid (srv_host s)) by (by injection E1 as <-).
  pose proof (perform_implements (ChannelSpec.Message ch (hello ch)) h1 _ I1) as H2.
  pose proof (fun sid => perform_frame (ChannelSpec.Message ch (hello ch)) h1 sid I) as F2. cbn [perform ChannelSpec.step ChannelSpec.open] in H2, F2.
  rewrite lookup_insert_eq in H2. destruct (on_tcp (TcpMap.send_channel_message ch _) h1) as [r2 h2] eqn:E2. destruct H2 as [O2 I2].
  destruct r2 as [[]|e|]; try done. exists (set_host h1 s), (set_host h2 s). split_and!; try done.
  - by rewrite on_shost_eq, E1.
  - change (say ch (hello ch)) with (on_shost (on_tcp (TcpMap.send_channel_message ch (hello ch)))). rewrite on_shost_eq.
    change (srv_host (set_host h1 s)) with h1. by rewrite E2.
  - cbn [snd] in I2. by rewrite insert_insert_eq in I2.
  - cbn. eapply same_tables_trans; [apply F1|apply (F2 0)].
  - cbn. intros sid. rewrite (proj1 (F2 sid)). apply F1.
Qed.
Lemma local_text_tables h h' cmd key params : same_tables h h' -> local_text h' cmd key params = local_text h cmd key params.
Proof. intros (E1 & _ & E2 & _). unfold local_text. by rewrite E1, E2. Qed.

(** What the server's side does with the one request. *)
Definition answered (ch : Z) (text : bytes) (a : ChannelSpec.t) : ChannelSpec.t :=
  ChannelSpec.mk (ChannelSpec.open a) (ChannelSpec.owner a) (ChannelSpec.kept a) (ChannelSpec.closed a ++ [[hello ch; text]]).
Lemma spec_answered ch text a :
  ChannelSpec.open a !! ch = None -> (ch ∉ ChannelSpec.kept a) ->
  ChannelSpec.finish ch (end_of ch (tell ch text (ChannelSpec.mk (<[ch := [hello ch]]> (ChannelSpec.open a)) (ChannelSpec.owner a)
    (ChannelSpec.kept a) (ChannelSpec.closed a)))) = answered ch text a.
Proof.
  intros Hch Hk. unfold end_of, tell. cbn. rewrite lookup_insert_eq. cbn. rewrite bool_decide_false by done.
  unfold ChannelSpec.finish, answered. cbn. rewrite lookup_insert_eq, lookup_delete_eq. cbn. rewrite app_nil_r.
  f_equal.
  - by rewrite insert_insert_eq, delete_insert_eq, delete_id, delete_id by (done || by apply lookup_delete_eq).
  - assert (Hd : ChannelSpec.kept a ∖ {[ch]} = ChannelSpec.kept a); [|by rewrite !Hd].
    apply set_eq. intros x. rewrite elem_of_difference, elem_of_singleton. split; [by intros [? _]|]. intros Hx. by split; [|intros ->].
Qed.
Lemma server_answers ins ch key line cmd params s a sp text :
  implements (srv_host s) a -> ChannelSpec.open a !! ch = None -> (ch ∉ ChannelSpec.kept a) ->
  request line = mkParsed [] (Some cmd) params -> (cmd <> UnityExecute \/ length params <> 1%nat) ->
  local_text (srv_host s) cmd key params = Some text -> exists t',
  serve_client ins ch (mkWriter [] None) key [line] (mkClientTask s [] sp) = (Ok (None, []), t') /\
  implements (srv_host (ct_srv t')) (answered ch text a) /\ same_tables (srv_host s) (srv_host (ct_srv t')) /\ ct_spawned t' = sp.
Proof.
  intros Hi Hch Hk Hr Hc Ht. destruct (channel_greeted ch s a Hi) as (s1 & s2 & E1 & E2 & I2 & T2 & _ & Ex & Ef & El).
  unfold serve_client. rewrite M_bind_eq. unfold on_srv at 1, zoom. cbn [ct_srv]. rewrite E1.
  rewrite M_bind_eq. unfold on_srv at 1, zoom. cbn [ct_srv]. rewrite E2. cbn [serve_all].
  rewrite M_bind_eq. unfold serve_request. rewrite Hr. cbn [Parser.command parameters].
  assert (cmd_eqb cmd UnityExecute && (length params =? 1)%nat = false) as ->.
  { destruct Hc as [Hc|Hc]; [|by rewrite (proj2 (Nat.eqb_neq _ _)), andb_false_r].
    destruct (cmd_eqb cmd UnityExecute) eqn:Ec; [by apply cmd_eqb_spec in Ec|done]. }
  destruct (local_commands_reply (ins 0%nat) cmd key ch params s2 _ text I2) as (s3 & E3 & Hi3 & T3 & _).
  { eexists. cbn. apply lookup_insert_eq. }
  { by rewrite (local_text_tables _ _ _ _ _ T2). }
  unfold run_command. rewrite M_bind_eq. unfold try_, on_srv at 1, zoom. cbn [ct_srv]. rewrite E3.
  rewrite (M_bind_eq (spawn _)). unfold spawn, modify. cbn [mret M_ret ct_srv ct_rd ct_spawned option_list serve_all].
  rewrite M_bind_eq. unfold finish_client. rewrite M_bind_eq. unfold on_srv, zoom. cbn [ct_srv]. rewrite on_shost_eq.
  eexists. split; [reflexivity|]. cbn [ct_srv ct_spawned]. split_and!; [|by eapply same_tables_trans; [exact T2|]|by rewrite app_nil_r].
  rewrite <- spec_answered by done. exact (finish_implements ch _ _ Hi3).
Qed.

(** *** The client's side *)

(** What the tool prints of the server's answer, for the commands that are sent as typed. *)
Definition printed (cmd : HdcCommand) (n : nat) (text : bytes) : option bytes :=
  match cmd with
  | KernelTargetList | KernelTargetConnect | UnityHilog | KernelCheckDevice | FileRecvInit | UnityReboot | UnityRemount
  | FlashdUpdateInit | FlashdFlashInit | FlashdErase | FlashdFormat | ForwardList | ForwardRportList | JdwpList | JdwpTrack
  | SpawnSub => Some text
  | UnityRunmode | UnityExecute => if (2 <=? n)%nat then Some text else None
  | ForwardInit | ForwardRportInit => if (3 <=? n)%nat then Some text else None
  | AppUninstall | ClientVersion => Some (text ++ [10])
  | KernelCheckServer => Some (lit "client " ++ get_version ++ lit ", server " ++ get_version ++ [10])
  | _ => None
  end.
Definition new_client (cmd : HdcCommand) (params : list bytes) (key : bytes) (rd : Stream) (disk : gmap bytes bytes) : Client :=
  mkClient cmd params key (Some (mkWriter [] None)) (Some rd) [] [] disk.
(** The command ended as it does when the server has closed the connection. *)
Definition over (r : Result Done) : Prop := r = Ok Returned \/ r = err ConnectionAborted "peer closed".

Lemma send_eq buf c out : cl_wr c = Some (mkWriter out None) -> send buf c = (Ok tt, set_wr (Some (mkWriter (out ++ channel_frame buf) None)) c).
Proof. intros E. unfold send. by rewrite E. Qed.
Lemma hello_head ch : slice 0 (len HANDSHAKE_MESSAGE) (hello ch) = Ok HANDSHAKE_MESSAGE.
Proof. by apply slice_prefix. Qed.
Lemma hello_len ch : len (hello ch) = 44.
Proof.
  unfold hello. rewrite !len_app. assert (len (to_le_bytes 4 ch) = 4) as ->; [|by vm_compute].
  unfold to_le_bytes, len. by rewrite length_reverse, length_to_be_bytes.
Qed.
Lemma handshake_done ch cmd params key rd disk ms buf :
  client_handshake key = Ok buf -> readable rd (hello ch :: ms) (new_client cmd params key rd disk) -> exists rd',
  handshake (new_client cmd params key rd disk) =
    (Ok tt, mkClient cmd params key (Some (mkWriter (channel_frame buf) None)) (Some rd') [] [] disk) /\
  readable rd' ms (mkClient cmd params key (Some (mkWriter (channel_frame buf) None)) (Some rd') [] [] disk).
Proof.
  intros Hb Hr. unfold handshake. destruct (recv_one _ _ _ _ Hr) as (rd' & E & Er). rewrite (M_bind_Ok _ _ _ _ _ E).
  rewrite M_bind_eq. unfold lift at 1. rewrite hello_head. rewrite from_utf8_valid by (by vm_compute).
  replace (negb (beq HANDSHAKE_MESSAGE HANDSHAKE_MESSAGE)) with false by (by vm_compute). cbn iota.
  rewrite M_bind_eq. cbn [get]. rewrite M_bind_eq. unfold lift. cbn [set_rd new_client cl_key]. rewrite Hb.
  exists rd'. by rewrite (send_eq _ _ []).
Qed.

(** The tasks that send the command as typed, when one message comes back. *)
Section Tasks.
Context (c : Client) (rd : Stream) (text : bytes) (sent : bytes).
Context (Hr : readable rd [text] c) (Hw : cl_wr c = Some (mkWriter sent None)).
Let line : bytes := join [32] (cl_params c).
Definition ended (shows : bytes) (r : Result unit * Client) : Prop :=
  (r.1 = Ok tt \/ r.1 = err ConnectionAborted "peer closed") /\
  shown shows (set_wr (Some (mkWriter (sent ++ channel_frame line) None)) c) r.2.
Lemma sent_params : send_params c = (Ok tt, set_wr (Some (mkWriter (sent ++ channel_frame line) None)) c).
Proof. unfold send_params. rewrite M_bind_eq. cbn [get]. by apply send_eq. Qed.
Lemma fuel_enough c' : cl_rd c' = Some rd -> (1 < recv_fuel c')%nat.
Proof.
  intros E. unfold recv_fuel, weight. rewrite E. destruct Hr as (_ & Hc & Ef & _). change (default [] (Some rd)) with rd.
  rewrite Ef. cbn [map concat].
  rewrite length_app. unfold channel_frame. rewrite length_app, length_to_be_bytes. lia.
Qed.
Lemma loop_task_ended : utf8_valid text = true -> ended text ((_ ← send_params; loop_recv) c).
Proof.
  intros Hv. rewrite (M_bind_Ok _ _ _ _ _ sent_params). unfold loop_recv. rewrite M_bind_eq. cbn [get].
  destruct (loop_recv_prints [text] ltac:(by constructor) (recv_fuel (set_wr (Some (mkWriter (sent ++ channel_frame line) None)) c))
    (set_wr (Some (mkWriter (sent ++ channel_frame line) None)) c) rd) as (c' & -> & Hs); [exact Hr|apply fuel_enough, Hr|].
  split; [by left|]. cbn [concat] in Hs. by rewrite app_nil_r in Hs.
Qed.
Lemma print_task_ended what suffix : utf8_valid text = true ->
  ended (text ++ suffix) ((_ ← send_params; c ← get; print_all (print_or what suffix) (recv_fuel c)) c).
Proof.
  intros Hv. rewrite (M_bind_Ok _ _ _ _ _ sent_params). rewrite M_bind_eq. cbn [get].
  destruct (print_all_prints what suffix [text] ltac:(by constructor) (recv_fuel (set_wr (Some (mkWriter (sent ++ channel_frame line) None)) c))
    (set_wr (Some (mkWriter (sent ++ channel_frame line) None)) c) rd) as (c' & -> & Hs); [exact Hr|apply fuel_enough, Hr|].
  split; [by right|]. cbn [map concat] in Hs. by rewrite app_nil_r in Hs.
Qed.
Lemma version_task_ended : utf8_valid text = true -> ended (text ++ [10]) (version_task c).
Proof.
  intros Hv. unfold version_task. rewrite (M_bind_Ok _ _ _ _ _ sent_params).
  destruct (recv_one text [] (set_wr (Some (mkWriter (sent ++ channel_frame line) None)) c) rd Hr) as (rd' & E & _).
  rewrite (M_bind_Ok _ _ _ _ _ E), from_utf8_valid by done. split; [by left|]. by exists rd'.
Qed.
Lemma check_task_ended :
  text = to_le_bytes 2 (as_u32 KernelCheckServer) ++ get_version ->
  ended (lit "client " ++ get_version ++ lit ", server " ++ get_version ++ [10]) (check_server_task c).
Proof.
  intros Et. unfold check_server_task. rewrite (M_bind_Ok _ _ _ _ _ sent_params).
  destruct (recv_one text [] (set_wr (Some (mkWriter (sent ++ channel_frame line) None)) c) rd Hr) as (rd' & E & _).
  rewrite (M_bind_Ok _ _ _ _ _ E). clear E Hr.
  assert ((len text <? 2) = false) as -> by (rewrite Et; by vm_compute).
  assert ((from_be_bytes (reverse (slice_raw 0 2 text)) =? as_u32 KernelCheckServer) = true) as -> by (rewrite Et; by vm_compute).
  assert (slice_raw 2 (len text) text = get_version) as -> by (rewrite Et; by vm_compute).
  rewrite from_utf8_valid by (by vm_compute). split; [by left|]. exists rd'. unfold println, print, modify.
  cbn [snd set_rd set_wr negb]. by rewrite <- !app_assoc.
Qed.
Lemma file_recv_task : cl_command c = FileRecvInit -> file_send_task c = (_ ← send_params; loop_recv) c.
Proof. intros Ec. unfold file_send_task. rewrite M_bind_eq. cbn [get]. rewrite Ec. done. Qed.
Lemma shell_task_eq : (length (cl_params c) <> 1)%nat -> shell_task c = returns (_ ← send_params; loop_recv) c.
Proof.
  intros Hn. unfold shell_task. rewrite M_bind_eq. cbn [get]. rewrite (proj2 (Nat.eqb_neq _ _)) by done.
  unfold returns. rewrite !M_bind_eq. by destruct (send_params c) as [[]].
Qed.
Lemma task_ended shows :
  (length (cl_params c) <> 1%nat \/ cl_command c <> UnityExecute) ->
  printed (cl_command c) (length (cl_params c)) text = Some shows -> utf8_valid text = true ->
  (cl_command c = KernelCheckServer -> text = to_le_bytes 2 (as_u32 KernelCheckServer) ++ get_version) ->
  over (execute_command c).1 /\ shown shows (set_wr (Some (mkWriter (sent ++ channel_frame line) None)) c) (execute_command c).2.
Proof.
  intros H1 Hp Hv Hck. unfold execute_command. rewrite M_bind_eq. cbn [get].
  assert (Hret : forall m, ended shows (m c) -> over (returns m c).1 /\
    shown shows (set_wr (Some (mkWriter (sent ++ channel_frame line) None)) c) (returns m c).2).
  { intros m [Hm Hs]. unfold returns. rewrite M_bind_eq. destruct (m c) as [r c']. cbn [fst snd] in *.
    destruct Hm as [->| ->]; [by split; [left|]|by split; [right|]]. }
  pose proof (loop_task_ended Hv) as Hloop. pose proof (fun what => print_task_ended what [] Hv) as Hprint. rewrite app_nil_r in Hprint.
  destruct (cl_command c) eqn:Ec; cbn [printed] in Hp; try discriminate Hp;
    repeat match type of Hp with context [if ?b then _ else _] => destruct b eqn:Hn; [|discriminate Hp] end; injection Hp as <-;
    rewrite ?Nat.ltb_antisym, ?Hn; cbn [negb];
    lazymatch goal with
    | |- context [returns general_task] => apply Hret, Hprint
    | |- context [returns version_task] => by apply Hret, version_task_ended
    | |- context [returns check_server_task] => by apply Hret, check_task_ended, Hck
    | |- context [returns app_uninstall_task] => by apply Hret, print_task_ended
    | |- context [returns file_send_task] => apply Hret; rewrite file_recv_task; done
    | |- context [returns forward_task] => 
        by apply Hret; unfold forward_task; rewrite M_bind_eq; cbn [get]; rewrite Ec, ?Nat.ltb_antisym, ?Hn; cbn [cmd_eqb negb andb orb]
    | |- context [shell_task] => rewrite shell_task_eq; [by apply Hret|by destruct H1]
    | |- _ => by apply Hret
    end.
Qed.
End Tasks.

(** The device a client asks for, as its handshake gives it to the server. *)
Definition asked_key (p : ParsedCommand) (cmd : HdcCommand) : bytes :=
  let key := auto_connect_key (Parser.connect_key p) cmd in match key with [] => lit "any" | _ => key end.
Lemma asked_handshake args p cmd :
  parse_command args = Ok p -> plain_word (Parser.connect_key p) -> exists buf,
  client_handshake (auto_connect_key (Parser.connect_key p) cmd) = Ok buf /\ len buf = BANNER_SIZE + KEY_MAX_SIZE /\
  first_message buf = Ok (asked_key p cmd, None).
Proof.
  intros Hp (Hv & _ & H0). unfold asked_key. apply handshake_understood.
  - unfold auto_connect_key. destruct (Parser.connect_key p), cmd; done.
  - intros Hin. revert Hin. unfold auto_connect_key. destruct (Parser.connect_key p) eqn:E, cmd; try done; apply (bool_decide_unpack _); done.
  - pose proof (proj1 (parse_command_bounded args p Hp)) as Hl. unfold auto_connect_key.
    destruct (Parser.connect_key p) eqn:E, cmd; try done; by vm_compute.
Qed.

(** C5: a command that the server answers itself, from the command line to the terminal.  What
    the client writes makes the server send its greeting and the one text of [local_text],
    start nothing and close the channel; and what the server writes makes the client print
    exactly that text and stop.  Either side may get the bytes in pieces of any size. *)
Theorem local_command_answered ins args p cmd text shows ch s a :
  Forall plain_word args -> parse_command args = Ok p -> pc_command p = Some cmd -> plain_word (Parser.connect_key p) ->
  tcp_connect_error (server_addr p) = None ->
  implements (srv_host s) a -> ChannelSpec.open a !! ch = None -> (ch ∉ ChannelSpec.kept a) ->
  local_text (srv_host s) cmd (asked_key p cmd) (pc_parameters p) = Some text ->
  printed cmd (length (pc_parameters p)) text = Some shows ->
  utf8_valid text = true -> u32 (len text) -> u32 (len (join [32] (pc_parameters p))) -> exists out,
  (forall rd disk, clean rd -> flat rd = concat (map channel_frame [hello ch; text]) -> exists c,
     Client_new p (mkWriter [] None) rd disk = Ok c /\
     let '(r, c') := (_ ← handshake; execute_command) c in
     over r /\ cl_wr c' = Some (mkWriter out None) /\ cl_stdout c' = shows /\ cl_stderr c' = [] /\ cl_disk c' = disk) /\
  (forall rd sp, clean rd -> flat rd = out -> exists t',
     handle_client ins ch (mkWriter [] None) (mkClientTask s rd sp) = (Ok None, t') /\
     implements (srv_host (ct_srv t')) (answered ch text a) /\ same_tables (srv_host s) (srv_host (ct_srv t')) /\ ct_spawned t' = sp).
Proof.
  intros Ha Hp Hc Hk Hcon Hi Hch Hkept Ht Hsh Hv Hl Hll. set (line := join [32] (pc_parameters p)) in *.
  destruct (asked_handshake args p cmd Hp Hk) as (buf & Hb & Hbl & Hf).
  assert (H1 : (length (pc_parameters p) <> 1)%nat \/ cmd <> UnityExecute).
  { destruct cmd; try (by right). left. intros E. by rewrite E in Hsh. }
  exists (channel_frame buf ++ channel_frame line). split.
  - intros rd disk Hcl Ef. unfold Client_new. rewrite Hc, Hcon. eexists. split; [reflexivity|].
    destruct (handshake_done ch cmd (pc_parameters p) _ rd disk [text] buf Hb) as (rd' & E & Hr).
    { split_and!; try done. constructor; [rewrite hello_len; by vm_compute|by constructor]. }
    unfold new_client in E. rewrite (M_bind_Ok _ _ _ _ _ E).
    destruct (task_ended _ rd' text (channel_frame buf) Hr eq_refl shows) as [Ho Hs]; try done.
    { cbn. intros ->. cbn in Ht. by injection Ht as <-. }
    destruct (execute_command _) as [r c']. cbn [fst snd] in *. destruct Hs as (rd2 & ->). done.
  - intros rd sp Hcl Ef.
    pose proof (client_agrees ins ch (mkWriter [] None) s rd sp buf (asked_key p cmd) None [line]) as H.
    destruct (server_answers ins ch (asked_key p cmd) line cmd (pc_parameters p) s a sp text) as (t1 & E1 & Hi1 & T1 & S1); try done.
    { by apply (command_line_understood args). }
    { destruct H1; [by right|by left]. }
    change (option_list None ++ [line]) with [line] in H. rewrite E1 in H.
    destruct (handle_client ins ch _ _) as [r t2]. destruct H as (Hs & Hsp & Hr & _).
    { constructor; [rewrite Hbl; by vm_compute|by constructor]. } { done. } { cbn [map concat]. by rewrite app_nil_r. } { done. }
    cbn [fst snd] in *. exists t2. rewrite Hr, Hs, Hsp. done.
Qed.
End Answered.

(** ** Files named on the command line *)

(** The file of [file send].  The words the client sends for it, with its current directory
    put in, are a [file send] for the server, and the paths the server takes from them are the
    directory with the local path behind it, and the remote path.  The directory is put in
    front of an absolute path too. *)
Theorem file_send_paths {CE : ClientEnv} dir local remote :
  current_dir = Ok dir -> main_separator = 47 -> plain_word dir -> plain_word local -> plain_word remote -> exists words,
  insert_cwd 2 [lit "file"; lit "send"; local; remote] = Ok words /\
  request (join [32] words) = mkParsed [] (Some FileInit) words /\
  resolve_file_paths words = Ok (trim_end_matches 47 dir ++ [47] ++ strip_quotes local, strip_quotes remote).
Proof.
  intros Hd Hs (Hd1 & Hd2 & Hd3) Hl Hr. unfold insert_cwd. rewrite Hd, bind_Ok, Hs. eexists. split; [reflexivity|].
  cbn [take drop app Nat.add]. split.
  - rewrite request_words; [|done|].
    + apply split_at_head; [right|done]. set (input := _ :: _).
      change (window input 0 1) with (CMD_MAP_get (lit "file")). change (window input 0 2) with (CMD_MAP_get (lit "file send")).
      by split; vm_compute.
    + repeat constructor; try done; try apply Hl; try apply Hr; try (by apply (bool_decide_unpack _); vm_compute).
      * rewrite utf8_valid_app by done. by vm_compute.
      * rewrite elem_of_app, list_elem_of_singleton. by intros [?|?].
      * rewrite elem_of_app, list_elem_of_singleton. by intros [?|?].
  - unfold resolve_file_paths. cbn [length Nat.ltb Nat.leb nth Nat.add]. replace (beq (lit "-cwd") (lit "-cwd")) with true by (by vm_compute).
    cbn [andb]. rewrite bool_decide_false by (by destruct dir). do 3 f_equal.
    unfold trim_end_matches, drop_while_end. rewrite reverse_snoc. done.
Qed.

(** ** The server's process *)

(** Values of options are passed over when they are looked at as options. *)
Definition value_word (w : bytes) : Prop := ascii w /\ match w with b :: _ => b <> 45 | [] => False end.
Lemma value_skipped w t p : value_word w -> global_params_loop (w :: t) p = global_params_loop t p.
Proof.
  intros [Ha Hb]. destruct w as [|b w]; [done|]. cbn [global_params_loop].
  assert (Hd : forall c, starts_with (45 :: c) (b :: w) = false).
  { intros c. unfold starts_with, beq. apply bool_decide_false. cbn. intros [= E _]. lia. }
  assert (exists arg, (if 2 <? len (b :: w) then str_from 2 (b :: w) else Ok (match t with next :: _ => next | [] => [] end)) = Ok arg) as [arg ->].
  { destruct (Z.ltb_spec 2 (len (b :: w))); [|eauto]. unfold str_from. rewrite str_slice_ascii by (done || lia). eauto. }
  rewrite bind_Ok. cbv zeta. change (lit "-h") with (45 :: lit "h"). change (lit "-v") with (45 :: lit "v"). change (lit "-l") with (45 :: lit "l").
  change (lit "-m") with (45 :: lit "m"). change (lit "-p") with (45 :: lit "p"). change (lit "-t") with (45 :: lit "t").
  change (lit "-s") with (45 :: lit "s"). change (lit "-e") with (45 :: lit "e"). change (lit "-b") with (45 :: lit "b"). by rewrite !Hd.
Qed.
Lemma opt_b t p : global_params_loop (lit "-b" :: t) p = global_params_loop t (mkParsedCommand (run_in_server p) (launch_server p) true
  (Parser.connect_key p) (log_level p) (server_addr p) (forward_listen_ip p) (pc_command p) (pc_parameters p)).
Proof. done. Qed.
Lemma opt_m t p : global_params_loop (lit "-m" :: t) p = global_params_loop t (mkParsedCommand true (launch_server p) (spawned_server p)
  (Parser.connect_key p) (log_level p) (server_addr p) (forward_listen_ip p) (pc_command p) (pc_parameters p)).
Proof. done. Qed.
Lemma opt_l v t p lvl : parse_uint 64 v = inr lvl -> lvl < 7 ->
  global_params_loop (lit "-l" :: v :: t) p = global_params_loop (v :: t) (mkParsedCommand (run_in_server p) (launch_server p) (spawned_server p)
  (Parser.connect_key p) lvl (server_addr p) (forward_listen_ip p) (pc_command p) (pc_parameters p)).
Proof.
  intros E Hl. transitivity (match parse_uint 64 v with
    | inr level => if level <? 7 then global_params_loop (v :: t) (mkParsedCommand (run_in_server p) (launch_server p) (spawned_server p)
        (Parser.connect_key p) level (server_addr p) (forward_listen_ip p) (pc_command p) (pc_parameters p))
        else Err (mkError InvalidInput (lit "-l content loglevel incorrect" ++ [10; 10] ++ usage))
    | inl _ => Err (mkError InvalidInput (lit "-l content loglevel incorrect" ++ [10; 10] ++ usage)) end); [done|].
  rewrite E. by tests.
Qed.
Lemma opt_s v t p addr : parse_server_listen_string v = Ok addr ->
  global_params_loop (lit "-s" :: v :: t) p = global_params_loop (v :: t) (mkParsedCommand (run_in_server p) (launch_server p) (spawned_server p)
  (Parser.connect_key p) (log_level p) addr (forward_listen_ip p) (pc_command p) (pc_parameters p)).
Proof.
  intros E. transitivity (addr ← parse_server_listen_string v; global_params_loop (v :: t) (mkParsedCommand (run_in_server p) (launch_server p)
    (spawned_server p) (Parser.connect_key p) (log_level p) addr (forward_listen_ip p) (pc_command p) (pc_parameters p))); [done|].
  by rewrite E.
Qed.
Lemma opt_e v t p ip : parse_ip v = Some ip ->
  global_params_loop (lit "-e" :: v :: t) p = global_params_loop (v :: t) (mkParsedCommand (run_in_server p) (launch_server p) (spawned_server p)
  (Parser.connect_key p) (log_level p) (server_addr p) v (pc_command p) (pc_parameters p)).
Proof.
  intros E. transitivity (match parse_ip v with Some _ => global_params_loop (v :: t) (mkParsedCommand (run_in_server p) (launch_server p)
    (spawned_server p) (Parser.connect_key p) (log_level p) (server_addr p) v (pc_command p) (pc_parameters p))
    | None => err InvalidInput "-e content IP incorrect" end); [done|]. by rewrite E.
Qed.
(** Addresses and numbers are such values, and no words of commands. *)
Lemma addr_value w : addr_text w -> w <> [] -> value_word w /\ no_command_word w = true.
Proof.
  intros Hw Hn. split; [split; [by apply addr_text_ascii|]|]; destruct Hw as [|b w Hb Hw]; try done.
  - by intros ->.
  - cbn [no_command_word]. apply orb_true_iff. right. cbn [forallb]. rewrite Hb. apply List.forallb_forall. intros x Hx.
    rewrite Forall_forall in Hw. by apply Hw, list_elem_of_In.
Qed.
Lemma digits_addr s : digits s -> addr_text s.
Proof. intros H. eapply Forall_impl; [exact H|]. cbn. intros b Hb. unfold addr_char, in_rng. by replace ((48 <=? b) && (b <=? 57)) with true by lia. Qed.

(** A server that the client starts runs as it was asked to: the arguments given to the new
    process make it a server, started by a client, with the log level, the address and the
    listening address of the client's command line. *)
Lemma server_args addr lvl ip exe :
  0 <= lvl < 7 -> is_Some (parse_socket_addr addr) -> parse_server_listen_string addr = Ok addr -> is_Some (parse_ip ip) ->
  parse_command (exe :: fork_args addr lvl ip) = Ok (mkParsedCommand true true true [] lvl addr ip None []).
Proof.
  intros Hlvl [sa Ha] Hs [i Hi].
  destruct (addr_value addr) as [Hal Hac]; [by eapply parse_socket_text|by intros ->|].
  destruct (addr_value ip) as [Hil Hic]; [by eapply parse_ip_text|by intros ->|].
  destruct (addr_value (fmt_dec lvl)) as [Hll Hlc]; [apply digits_addr, fmt_dec_digits; lia|apply fmt_dec_nonempty|].
  assert (Hlp : parse_uint 64 (fmt_dec lvl) = inr lvl) by (apply parse_fmt_dec; lia).
  unfold parse_command, fork_args. cbn [drop]. rewrite drop_0. rewrite no_command; cbn [options Parser.command parameters].
  - unfold extract_global_params. cbn [app]. rewrite opt_b, opt_m, (opt_l _ _ _ lvl), value_skipped by (done || lia).
    rewrite (opt_s _ _ _ addr), value_skipped by done. cbn [run_in_server launch_server spawned_server connect_key log_level server_addr
      forward_listen_ip pc_command pc_parameters]. unfold beq. case_bool_decide as E1; [by rewrite E1|]. cbn [negb andb].
    rewrite bool_decide_false by (by intros ->). cbn [negb app].
    by rewrite (opt_e _ _ _ i), value_skipped.
  - cbn [app forallb]. rewrite Hlc, Hac. cbn [andb]. destruct (negb _ && negb _); [|done]. cbn [forallb]. by rewrite Hic.
Qed.

(** ** The terminal of an interactive shell *)

(** Runs in which the terminal takes everything and no reading of a message is dropped. *)
Definition undisturbed (es : list TEvent) : Prop :=
  Forall (fun e => match e with TServer fails => fails = false | TTyped _ lost => lost = 0%nat end) es.
Definition typed_texts (es : list TEvent) : list bytes := omap (fun e => match e with TTyped d _ => Some d | _ => None end) es.
Definition server_turns (es : list TEvent) : nat := length (omap (fun e => match e with TServer _ => Some tt | _ => None end) es).

Lemma skip_nothing rd : clean rd -> skip_bytes 0 rd = rd.
Proof. destruct 1 as [|[b|e] rd Hb Hrd]; [done| |done]. cbn. destruct b; [done|]. cbn. done. Qed.
(** The terminal of an interactive shell.  In a run in which no reading is interrupted, the
    user sees the messages of the server in order and whole, the server gets what was typed in
    order, each piece framed, and the loop goes on. *)
Theorem terminal_relays es t ms :
  undisturbed es -> tm_ended t = false -> clean (tm_rd t) -> flat (tm_rd t) = concat (map channel_frame ms) -> fit ms ->
  w_limit (tm_wr t) = None -> (server_turns es <= length ms)%nat ->
  let t' := interactive_shell_loop es t in
  tm_ended t' = false /\ tm_out t' = tm_out t ++ concat (take (server_turns es) ms) /\
  tm_wr t' = mkWriter (w_out (tm_wr t) ++ concat (map channel_frame (typed_texts es))) None /\
  clean (tm_rd t') /\ flat (tm_rd t') = concat (map channel_frame (drop (server_turns es) ms)).
Proof.
  intros Hes. revert t ms; induction Hes as [|e es He Hes IH]; intros t ms Hend Hc Ef Hm Hw Hn.
  - cbn. rewrite !app_nil_r. destruct t as [rd [o l] out en]. cbn in *. by subst.
  - cbn [interactive_shell_loop foldl]. rewrite Hend. destruct e as [fails|data lost]; subst; cbn [terminal_step].
    + unfold server_turns in Hn |- *. cbn [omap list_omap length] in Hn |- *. destruct ms as [|m ms]; [cbn in Hn; lia|].
      apply Forall_cons in Hm as [Hm Hms]. cbn [map concat] in Ef.
      destruct (recv_message m _ (tm_rd t) Hm Hc Ef) as (rd' & E & Hc' & Ef'). rewrite E.
      destruct (IH (mkTerminal rd' (tm_wr t) (tm_out t ++ m) false) ms) as (H1 & H2 & H3 & H4 & H5); try done; [unfold server_turns; cbn in Hn; lia|].
      split_and!; try done. cbn [tm_out] in H2. cbn [take concat]. rewrite app_assoc. exact H2.
    + destruct (tm_wr t) as [out lim] eqn:Et. cbn in Hw. subst lim. cbn [write_all w_limit w_out is_ok negb]. rewrite skip_nothing by done.
      destruct (IH (mkTerminal (tm_rd t) (mkWriter (out ++ channel_frame data) None) (tm_out t) false) ms) as (H1 & H2 & H3 & H4 & H5); try done.
      split_and!; try done. cbn [tm_wr w_out] in H3. rewrite <- app_assoc in H3. exact H3.
Qed.
(** What is typed while a message is being read makes the loop lose the part that was read:
    here the user sees neither message, and the loop ends. *)
Lemma typing_loses_output :
  let t := interactive_shell_loop [TTyped (lit "x") 2; TServer false]
             (mkTerminal [Data (channel_frame (lit "one")); Data (channel_frame (lit "two"))] (mkWriter [] None) [] false) in
  tm_out t = [] /\ tm_ended t = true.
Proof. by vm_compute. Qed.

Module PlainEnv.
#[export] Instance env : ClientEnv := {
  current_dir := Ok (lit "/home/u"); main_separator := 47; current_exe := Ok (lit "hdc"); file_create_error _ := None;
  file_write_error _ _ := None; on_windows := false; tasklist := None; process_id := 1; spawn_error _ := false
}.
#[export] Instance sys : HostSys := { host_env _ := None; tcp_connect_error _ := None }.
End PlainEnv.

Section AnsweredWitness.
#[local] Existing Instance ToyAead.aead.
#[local] Existing Instance SomeOrder.order.
#[local] Existing Instance ToyRsa.rsa.
#[local] Existing Instance ToyRsa.files.
#[local] Existing Instance CalmDisk.disk.
#[local] Existing Instance NoZip.zip.
#[local] Existing Instance OpenNet.net.
#[local] Existing Instance PlainEnv.env.
#[local] Existing Instance PlainEnv.sys.

(** [hdc list targets] with one device. *)
Definition one_device : ConnectMap.t := {[lit "K" := DaemonInfo.mk 7 Tcp Connected [] []]}.
Definition one_device_server : Srv := mkSrv (mkTask (set_connect_map one_device new_host) [] ∅) ∅.
Definition no_inputs (n : nat) : Inputs := mkInputs (Ok []) [] 0 1%positive [] (fun _ => false) None 0 0 [].
Definition list_targets : list bytes := [lit "hdc"; lit "list"; lit "targets"].
Definition listing : ParsedCommand :=
  match parse_command list_targets with Ok p => p | _ => mkParsedCommand false false false [] 0 [] [] None [] end.
Lemma local_command_answered_witness : exists out c,
  Client_new listing (mkWriter [] None) [Data (concat (map channel_frame [hello 5; lit "K" ++ crlf]))] ∅ = Ok c /\
  cl_stdout ((_ ← handshake; execute_command) c).2 = lit "K" ++ crlf /\
  cl_wr ((_ ← handshake; execute_command) c).2 = Some (mkWriter out None) /\
  forall rd, clean rd -> flat rd = out -> exists t',
  handle_client no_inputs 5 (mkWriter [] None) (mkClientTask one_device_server rd []) = (Ok None, t') /\
  implements (srv_host (ct_srv t')) (answered 5 (lit "K" ++ crlf) ChannelSpec.init).
Proof.
  destruct (local_command_answered no_inputs list_targets listing KernelTargetList (lit "K" ++ crlf) (lit "K" ++ crlf) 5
    one_device_server ChannelSpec.init) as (out & Hc & Hs).
  - by apply (bool_decide_unpack _); vm_compute.
  - by vm_compute.
  - by vm_compute.
  - by apply (bool_decide_unpack _); vm_compute.
  - done.
  - by split_and!.
  - done.
  - by apply not_elem_of_empty.
  - by vm_compute.
  - by vm_compute.
  - by vm_compute.
  - by vm_compute.
  - by vm_compute.
  - exists out.
    destruct (Hc [Data (concat (map channel_frame [hello 5; lit "K" ++ crlf]))] ∅) as (c & E & H).
    + by apply (bool_decide_unpack _); vm_compute.
    + by vm_compute.
    + exists c. destruct ((_ ← handshake; execute_command) c) as [r c']. destruct H as (_ & Hw & Ho & _). split_and!; try done.
      intros rd H1 H2. destruct (Hs rd [] H1 H2) as (t' & E1 & E2 & _). by exists t'.
Defined.

Lemma file_send_paths_witness : exists words,
  insert_cwd 2 [lit "file"; lit "send"; lit "/tmp/x"; lit "/data/x"] = Ok words /\
  resolve_file_paths words = Ok (lit "/home/u//tmp/x", lit "/data/x").
Proof.
  destruct (file_send_paths (lit "/home/u") (lit "/tmp/x") (lit "/data/x")) as (words & E & _ & H);
    [done|done|by apply (bool_decide_unpack _); vm_compute..|]. by exists words.
Defined.
Lemma terminal_relays_witness :
  tm_out (interactive_shell_loop [TServer false; TTyped (lit "ls") 0; TServer false]
    (mkTerminal [Data (channel_frame (lit "$ ")); Data (channel_frame (lit "a.txt"))] (mkWriter [] None) [] false)) = lit "$ a.txt".
Proof.
  refine (proj1 (proj2 (terminal_relays [TServer false; TTyped (lit "ls") 0; TServer false]
    (mkTerminal [Data (channel_frame (lit "$ ")); Data (channel_frame (lit "a.txt"))] (mkWriter [] None) [] false) [lit "$ "; lit "a.txt"] _ _ _ _ _ _ _)));
    try done; try (by repeat constructor); try (by apply (bool_decide_unpack _); vm_compute).
Defined.
End AnsweredWitness.
