(* ===== verification/HostConsole.v ===== *)
(** * Host: the console during an interactive shell

    [ConsoleModeGuard] of [src/hdc/src/client.rs], for both systems, around the loop of
    [interactive_shell_loop]: the mode the console has while the loop runs, and the one it is
    left in.  The flags are those of the system's headers, so they are parameters, as are the
    modes the system refuses. *)

From S2P Require Import Prelude RustStr Config Transport HostCommand HostClient.

(** [!x] of a [u32]. *)
Definition not32 (x : Z) : Z := Z.lxor x (Z.ones 32).

(** ** A terminal *)

Class UnixConsole := {
  ECHO : Z; ICANON : Z; ISIG : Z; VMIN : nat; VTIME : nat
}.
Record termios := mkTermios { c_iflag : Z; c_oflag : Z; c_cflag : Z; c_lflag : Z; c_cc : list Z }.
(** Standard input is a terminal with attributes, or it is none. *)
Definition Tty := option termios.

Section Unix.
Context {UC : UnixConsole}.
Definition local_flags : Z := Z.lor (Z.lor ECHO ICANON) ISIG.
Definition raw_termios (t : termios) : termios :=
  mkTermios (c_iflag t) (c_oflag t) (c_cflag t) (Z.land (c_lflag t) (not32 local_flags)) (<[VTIME := 0]> (<[VMIN := 1]> (c_cc t))).
Definition unix_guard_new : M Tty (option termios) := fun tty =>
  match tty with
  | None => (Ok None, tty)
  | Some original => (Ok (Some original), Some (raw_termios original))
  end.
Definition unix_guard_drop (guard : option termios) : M Tty unit := fun tty =>
  match guard, tty with Some original, Some _ => (Ok tt, Some original) | _, _ => (Ok tt, tty) end.
End Unix.

(** ** A console of Windows *)

Class WindowsConsole := {
  ENABLE_ECHO_INPUT : Z; ENABLE_LINE_INPUT : Z; ENABLE_PROCESSED_INPUT : Z; ENABLE_VIRTUAL_TERMINAL_INPUT : Z;
  mode_refused : Z -> bool
}.
Definition Console := option Z.
Section Windows.
Context {WC : WindowsConsole}.
Definition input_flags : Z := Z.lor (Z.lor ENABLE_ECHO_INPUT ENABLE_LINE_INPUT) ENABLE_PROCESSED_INPUT.
(** [SetConsoleMode]; the value says whether the mode was set. *)
Definition set_console_mode (mode : Z) : M Console bool := fun c =>
  match c with
  | None => (Ok false, c)
  | Some _ => if mode_refused mode then (Ok false, c) else (Ok true, Some mode)
  end.
Definition windows_guard_new : M Console (option Z) := fun c =>
  match c with
  | None => (Ok None, c)
  | Some original_mode =>
      let raw_mode := Z.land original_mode (not32 input_flags) in
      let vt_mode := Z.lor raw_mode ENABLE_VIRTUAL_TERMINAL_INPUT in
      let modes : M Console (option Z) :=
        ok ← set_console_mode vt_mode;
        _ ← (if ok : bool then mret true else set_console_mode raw_mode);
        mret (Some original_mode) in
      modes c
  end.
Definition windows_guard_drop (guard : option Z) : M Console unit :=
  match guard with Some original_mode => _ ← set_console_mode original_mode; mret tt | None => mret tt end.
End Windows.

(** ** The loop with its guard *)

(** Does the loop end because the server's side is closed? *)
Fixpoint server_closed (es : list TEvent) (t : Terminal) : bool :=
  match es with
  | [] => false
  | e :: es =>
      if tm_ended t then false
      else
        match e with
        | TServer _ => match (recv_channel_message (tm_rd t)).1 with Ok _ => server_closed es (terminal_step e t) | _ => true end
        | TTyped _ _ => server_closed es (terminal_step e t)
        end
  end.
(** [interactive_shell_loop] and the console it leaves.  On Windows a closed server is
    answered with [std::process::exit(0)], and nothing is dropped. *)
Definition unix_shell {UC : UnixConsole} (es : list TEvent) (t : Terminal) : M Tty Terminal :=
  guard ← unix_guard_new;
  let t' := interactive_shell_loop es t in
  _ ← unix_guard_drop guard;
  mret t'.
Definition windows_shell {WC : WindowsConsole} (es : list TEvent) (t : Terminal) : M Console (option Terminal) :=
  guard ← windows_guard_new;
  let t' := interactive_shell_loop es t in
  if server_closed es t then mret None
  else _ ← windows_guard_drop guard; mret (Some t').

(** ** What is kept *)

Lemma high_bit f n : 0 <= f < 2 ^ 32 -> 32 <= n -> Z.testbit f n = false.
Proof. intros Hf Hn. rewrite <- (Z.mod_small f (2 ^ 32)) by lia. apply Z.mod_pow2_bits_high. lia. Qed.
Lemma cleared m f n : 0 <= f < 2 ^ 32 -> 0 <= n -> Z.testbit (Z.land m (not32 f)) n = Z.testbit m n && negb (Z.testbit f n) && (n <? 32).
Proof.
  intros Hf Hn. unfold not32. rewrite Z.land_spec, Z.lxor_spec, Z.testbit_ones by lia. destruct (Z.ltb_spec n 32).
  - rewrite (proj2 (Z.leb_le _ _)) by lia. by destruct (Z.testbit m n), (Z.testbit f n).
  - rewrite (high_bit f n) by lia. cbn [xorb negb]. by rewrite !andb_false_r.
Qed.

Section UnixFacts.
Context {UC : UnixConsole}.
(** A terminal gets its attributes back however the loop ends; while it runs, the three
    flags are off, every other flag is as it was, and a read returns with one byte. *)
Theorem unix_console_restored (es : list TEvent) (term : Terminal) (t : termios) :
  0 <= local_flags < 2 ^ 32 -> 0 <= c_lflag t < 2 ^ 32 -> (VMIN < length (c_cc t))%nat -> (VTIME < length (c_cc t))%nat -> VMIN <> VTIME ->
  unix_shell es term (Some t) = (Ok (interactive_shell_loop es term), Some t) /\
  exists raw, unix_guard_new (Some t) = (Ok (Some t), Some raw) /\
    (forall n, 0 <= n -> Z.testbit (c_lflag raw) n = Z.testbit (c_lflag t) n && negb (Z.testbit local_flags n)) /\
    c_cc raw !! VMIN = Some 1 /\ c_cc raw !! VTIME = Some 0 /\ (forall i, i <> VMIN -> i <> VTIME -> c_cc raw !! i = c_cc t !! i).
Proof.
  intros Hf Hl H1 H2 Hne. split; [done|]. exists (raw_termios t). split; [done|]. cbn [raw_termios c_lflag c_cc]. split_and!.
  - intros n Hn. rewrite cleared by done. destruct (Z.ltb_spec n 32); [by rewrite andb_true_r|]. by rewrite (high_bit _ _ Hl) by lia.
  - rewrite list_lookup_insert_ne by done. by apply list_lookup_insert_eq.
  - apply list_lookup_insert_eq. by rewrite length_insert.
  - intros i Hi1 Hi2. by rewrite !list_lookup_insert_ne by done.
Qed.
End UnixFacts.

Section WindowsFacts.
Context {WC : WindowsConsole}.
(** A console gets its mode back when the loop ends at the client's side.  When the server
    closes, as it does at the end of every shell, the process exits without it: the console
    stays without echo, lines and signals. *)
Theorem windows_console_left_raw (es : list TEvent) (term : Terminal) (mode : Z) :
  0 <= input_flags < 2 ^ 32 -> Z.land ENABLE_VIRTUAL_TERMINAL_INPUT input_flags = 0 -> (forall m, mode_refused m = false) ->
  if server_closed es term then
    exists mode', windows_shell es term (Some mode) = (Ok None, Some mode') /\ Z.land mode' input_flags = 0
  else windows_shell es term (Some mode) = (Ok (Some (interactive_shell_loop es term)), Some mode).
Proof.
  intros Hf Hvt Hr. set (vt := Z.lor (Z.land mode (not32 input_flags)) ENABLE_VIRTUAL_TERMINAL_INPUT).
  assert (E : windows_guard_new (Some mode) = (Ok (Some mode), Some vt)).
  { unfold windows_guard_new. cbv zeta. fold vt. rewrite M_bind_eq. unfold set_console_mode at 1. rewrite Hr. done. }
  unfold windows_shell. rewrite (M_bind_Ok _ _ _ _ _ E). cbv zeta. destruct (server_closed es term).
  - exists vt. split; [done|]. unfold vt. rewrite Z.land_lor_distr_l, Hvt, Z.lor_0_r. apply Z.bits_inj'. intros n Hn.
    rewrite Z.land_spec, cleared, Z.bits_0 by done. by destruct (Z.testbit input_flags n); rewrite ?andb_false_r.
  - unfold windows_guard_drop, set_console_mode. rewrite !M_bind_eq. by rewrite Hr.
Qed.
End WindowsFacts.

(** The values of Linux and of Windows. *)
Module Consoles.
#[export] Instance linux : UnixConsole := { ECHO := 8; ICANON := 2; ISIG := 1; VMIN := 6; VTIME := 5 }.
#[export] Instance windows : WindowsConsole :=
  { ENABLE_ECHO_INPUT := 4; ENABLE_LINE_INPUT := 2; ENABLE_PROCESSED_INPUT := 1; ENABLE_VIRTUAL_TERMINAL_INPUT := 512; mode_refused _ := false }.
End Consoles.
Section ConsoleExamples.
#[local] Existing Instance Consoles.linux.
#[local] Existing Instance Consoles.windows.
(** A shell whose server closes at once. *)
Definition closed_terminal : Terminal := mkTerminal [] (mkWriter [] None) [] false.
Lemma unix_console_restored_witness : unix_shell [TServer false] closed_terminal (Some (mkTermios 0 0 0 35387 (replicate 32 0))) =
  (Ok (interactive_shell_loop [TServer false] closed_terminal), Some (mkTermios 0 0 0 35387 (replicate 32 0))).
Proof. refine (proj1 (unix_console_restored [TServer false] closed_terminal _ _ _ _ _ _)); try done; cbn; lia. Defined.
Lemma windows_console_left_raw_witness : exists mode',
  windows_shell [TServer false] closed_terminal (Some 503) = (Ok None, Some mode') /\ Z.land mode' 7 = 0.
Proof. by refine (windows_console_left_raw [TServer false] closed_terminal 503 _ _ _). Defined.
End ConsoleExamples.
