(* ===== verification/HostMain.v ===== *)
(** * The host tool's process

    [main] of [src/hdc/src/main.rs] and [run_server_mode] of [src/hdc/src/server.rs]: the command
    line decides between a server and a client; the server listens, and gives each
    connection to the task for its kind of client.  What the sockets do is an argument. *)

From S2P Require Import Parser.
From S2P Require Import Prelude RustStr NetAddr Config Tlv Serializer Encrypt Transport Reading RsaAuth HostMaps HostChannels HostSession HostTask.
From S2P Require Import HostFile HostApp HostForward HostCommand HostDeveco HostClient.

(** ** The server *)

(** Failures of the steps that lead to a listening socket. *)
Record Sockets := mkSockets {
  new_socket_error : option Error; reuseaddr_error : option Error; bind_error_at : SocketAddr -> option Error; listen_error : option Error
}.
(** An accepted connection: what can be seen of it within 800 ms, and what its task is given. *)
Record Connection := mkConnection {
  c_peeked : option bytes; c_rd : Stream; c_wr : Writer; c_channel : Z; c_inputs : nat -> Inputs; c_loop : nat -> LoopInputs
}.
Inductive Accepted := DevecoClient (c : Connection) | HdcClient (c : Connection).
(** A running server: its address, the address rules listen at, and the tasks it has started. *)
Record Server := mkServer { srv_addr : SocketAddr; srv_listen_ip : bytes; srv_tasks : list Accepted; srv_failed : option Error }.

Definition or_err (e : option Error) : Result unit := match e with Some e => Err e | None => Ok tt end.
Definition listen_at (sk : Sockets) (addr_str : bytes) : Result SocketAddr :=
  match parse_socket_addr (normalize_listen_addr addr_str) with
  | None => err InvalidInput "Invalid server address: invalid socket address syntax"
  | Some addr =>
      _ ← or_err (new_socket_error sk); _ ← or_err (reuseaddr_error sk); _ ← or_err (bind_error_at sk addr);
      _ ← or_err (listen_error sk); Ok addr
  end.
Definition accept (c : Connection) : Accepted := if is_deveco (c_peeked c) then DevecoClient c else HdcClient c.
(** The loop runs until [accept] fails; the end of the list is the present. *)
Fixpoint accept_loop (accepts : list (Error + Connection)) : list Accepted * option Error :=
  match accepts with
  | [] => ([], None)
  | inl e :: _ => ([], Some e)
  | inr c :: t => let '(tasks, e) := accept_loop t in (accept c :: tasks, e)
  end.
Definition run_server_mode (sk : Sockets) (listen_ip addr_str : bytes) (accepts : list (Error + Connection)) : Result Server :=
  addr ← listen_at sk addr_str;
  let '(tasks, e) := accept_loop accepts in
  Ok (mkServer addr listen_ip tasks e).

(** The task of a connection. *)
Section Task.
Context {HA : Aead} {HI : HashIter} {HR : Rsa} {HF : HostFs} {HS : HostSys} {HD : HostDisk} {HZ : Zip} {HN : HostNet}.

Definition client_task (a : Accepted) (s : Srv) : ClientTask :=
  match a with
  | DevecoClient c => (handle_deveco_client (c_loop c) (c_wr c) (mkClientTask s (c_rd c) [])).2
  | HdcClient c => (handle_client (c_inputs c) (c_channel c) (c_wr c) (mkClientTask s (c_rd c) [])).2
  end.
End Task.

(** ** The process *)

(** What the process meets: the sockets of a server and the connections to it; for a client whether a
    server answers, the seed for new keys, the connection to the server and the files. *)
Record World := mkWorld {
  sockets : Sockets; accepts : list (Error + Connection);
  probe : option Error; key_seed : Z; server_wr : Writer; server_rd : Stream; disk : gmap bytes bytes
}.
Inductive Outcome := Printed | Served (r : Result Server) | Asked (r : Result (option (Done * Client))).

Section Main.
Context {HR : Rsa} {HF : HostFs} {HS : HostSys} {CE : ClientEnv}.

Definition main (w : World) (args : list bytes) : M Proc Outcome :=
  match parse_command args with
  | Panic => lift Panic
  | Err e =>
      _ ← (if bool_decide (err_kind e = OtherError) then out (err_msg e) else eout (lit "Parse error: " ++ err_msg e));
      mret Printed
  | Ok parsed_cmd =>
      if run_in_server parsed_cmd then
        mret (Served (run_server_mode (sockets w) (forward_listen_ip parsed_cmd) (server_addr parsed_cmd) (accepts w)))
      else
        match pc_command parsed_cmd with
        | None => _ ← out (lit "Unknown operation command..."); _ ← out usage; mret Printed
        | Some _ =>
            r ← try_ (run_client_mode (probe w) (key_seed w) (server_wr w) (server_rd w) (disk w) parsed_cmd);
            match r with
            | Err e => _ ← (if bool_decide (err_kind e = OtherError) then out (lit "[Fail]" ++ err_msg e) else mret tt); mret (Asked r)
            | Ok _ => mret (Asked r)
            | Panic => lift Panic
            end
        end
  end.
End Main.

(** ** Facts *)

Lemma accept_all cs : accept_loop (map inr cs) = (map accept cs, None).
Proof. induction cs as [|c cs IH]; [done|]. cbn. by rewrite IH. Qed.

(** Commands for which the client asks the server. *)
Definition asks_server (cmd : HdcCommand) : bool :=
  match cmd with KernelServerStart | KernelServerKill | KernelHelp | ClientKeyGenerate => false | _ => true end.
(** Sockets that work. *)
Definition no_socket_error : Sockets := mkSockets None None (fun _ => None) None.

Section Started.
Context {HR : Rsa} {HF : HostFs} {HS : HostSys} {CE : ClientEnv}.

(** The processes a client's process has started. *)
Lemma client_started w p cmd exe er proc :
  pc_command p = Some cmd -> asks_server cmd = true -> launch_server p = true -> probe w = Some er -> current_exe = Ok exe ->
  let args := fork_args (server_addr p) (log_level p) (forward_listen_ip p) in
  spawn_error args = false ->
  pr_started (run_client_mode (probe w) (key_seed w) (server_wr w) (server_rd w) (disk w) p proc).2 = pr_started proc ++ [(exe, args)] /\
  pr_killed (run_client_mode (probe w) (key_seed w) (server_wr w) (server_rd w) (disk w) p proc).2 = pr_killed proc.
Proof.
  intros Hc Ha Hl Hp Hx args Hs.
  assert (Hm : run_client_mode (probe w) (key_seed w) (server_wr w) (server_rd w) (disk w) p =
    (_ ← server_fork (server_addr p) (log_level p) (forward_listen_ip p);
     client ← lift (Client_new p (server_wr w) (server_rd w) (disk w));
     r ← run_client (_ ← handshake; execute_command) client; mret (Some r))).
  { unfold run_client_mode. rewrite Hc, Hl, Hp. by destruct cmd. }
  rewrite Hm, M_bind_eq. unfold server_fork. rewrite Hx. fold args. rewrite Hs. rewrite M_bind_eq. unfold lift.
  destruct (Client_new p _ _ _) as [c|e|]; [|done..]. rewrite M_bind_eq. unfold run_client.
  destruct ((_ ← handshake; execute_command) c) as [[r|e|] c']; done.
Qed.
Lemma main_client w args p cmd proc :
  parse_command args = Ok p -> run_in_server p = false -> pc_command p = Some cmd -> forall q,
  (run_client_mode (probe w) (key_seed w) (server_wr w) (server_rd w) (disk w) p proc).2 = q ->
  pr_started (main w args proc).2 = pr_started q /\ pr_killed (main w args proc).2 = pr_killed q.
Proof.
  intros Hp Hr Hc q Hq. unfold main. rewrite Hp, Hr, Hc, M_bind_eq. unfold try_.
  destruct (run_client_mode _ _ _ _ _ _ proc) as [[r|e|] q']; cbn in Hq; subst q'; [done| |done].
  rewrite M_bind_eq. by case_bool_decide.
Qed.

(** C14: a client that finds no server.  Its process starts exactly one process, the tool itself
    with arguments that make it a server: a process started with them listens at the address
    the client connects to, whenever that is the address of a socket (IPv4 or IPv6), uses the client's
    listening address for rules, and gives every connection to the handler of its kind; nothing is
    killed. *)
Theorem launched_server_listens w args p cmd exe er proc sa :
  parse_command args = Ok p -> run_in_server p = false -> launch_server p = true -> pc_command p = Some cmd -> asks_server cmd = true ->
  probe w = Some er -> current_exe = Ok exe -> (forall args, spawn_error args = false) ->
  parse_socket_addr (server_addr p) = Some sa -> exists args',
  pr_started (main w args proc).2 = pr_started proc ++ [(exe, args')] /\ pr_killed (main w args proc).2 = pr_killed proc /\
  forall w' conns proc', sockets w' = no_socket_error -> accepts w' = map inr conns ->
  main w' (exe :: args') proc' =
    (Ok (Served (Ok (mkServer sa (forward_listen_ip p) (map accept conns) None))), proc').
Proof.
  intros Hp Hr Hl Hc Ha Hpr Hx Hs Hsa.
  destruct (client_started w p cmd exe er proc Hc Ha Hl Hpr Hx (Hs _)) as [Hst Hk].
  destruct (main_client w args p cmd proc Hp Hr Hc _ eq_refl) as [M1 M2].
  eexists. split_and!; [by rewrite M1, Hst|by rewrite M2, Hk|]. intros w' conns proc' Hso Hac.
  pose proof (proj2 (parse_command_bounded args p Hp)) as Hlv. destruct (parse_command_addrs args p Hp) as [Hip Hself].
  unfold main. rewrite server_args by eauto. cbn [run_in_server forward_listen_ip server_addr]. rewrite Hso, Hac. unfold run_server_mode, listen_at.
  unfold normalize_listen_addr. rewrite Hsa, Hsa. cbn [no_socket_error new_socket_error reuseaddr_error bind_error_at listen_error or_err].
  by rewrite accept_all.
Qed.
End Started.

Section StartedWitness.
#[local] Existing Instance ToyRsa.rsa.
#[local] Existing Instance ToyRsa.files.
#[local] Existing Instance PlainEnv.env.
#[local] Existing Instance PlainEnv.sys.
(** [hdc list targets] without a server. *)
Definition no_server : World :=
  mkWorld no_socket_error [] (Some (mkError OtherError (lit "refused"))) 0 (mkWriter [] None) [] ∅.
Definition fresh_process : Proc := mkProc [] [] ∅ [] [].
Lemma launched_server_listens_witness : exists args',
  pr_started (main no_server list_targets fresh_process).2 = [(lit "hdc", args')] /\
  main no_server (lit "hdc" :: args') fresh_process =
    (Ok (Served (Ok (mkServer (SockV4 (V4 127 0 0 1) 8710) (lit "127.0.0.1") [] None))), fresh_process).
Proof.
  destruct (launched_server_listens no_server list_targets listing KernelTargetList (lit "hdc") (mkError OtherError (lit "refused"))
    fresh_process (SockV4 (V4 127 0 0 1) 8710)) as (args' & E1 & _ & E2).
  all: cycle -1.
  { exists args'. split; [exact E1|]. rewrite (E2 no_server [] fresh_process) by reflexivity.
    by replace (forward_listen_ip listing) with (lit "127.0.0.1") by (by vm_compute). }
  all: by vm_compute.
Defined.
End StartedWitness.
