(* ===== verification/Interop.v ===== *)
(** * Host and daemon: transfers

    The host's [file send], [file recv] and [install] speak the protocol of another
    daemon: against the daemon of this repository each of them ends at its first
    message, and the client is told so.  The commands of both sides are those of
    [HostCommand], with the handlers of [HostFile] and [HostApp], and of [DaemonTask]. *)

From S2P Require Import Prelude RustStr Config Tlv Serializer Encrypt Transport.
From S2P Require Import Daemon DaemonFile DaemonTask RsaAuth HostMaps HostChannels HostSession HostTask HostFile HostApp HostForward HostCommand.

Section Refusal.
Context {HA : Aead} {HL : AeadLaws HA} {OS : Os}.

(** The daemon answers a message with one line for the client, and does nothing else. *)
Definition refuses (sid : Z) (m : TaskMessage) (text : string) : Prop := forall w, link_open sid (link w) -> exists w',
  DaemonTask.dispatch_task m sid (mkSharedWriter sid) w = (Ok tt, w') /\
  sends sid [echo_message (channel_id m) (lit text) MessageLevel.LFail] w w'.
Lemma refuses_intro sid m text :
  (forall w, DaemonTask.dispatch_task m sid (mkSharedWriter sid) w = echo_client (channel_id m) (mkSharedWriter sid) (lit text) MessageLevel.LFail w) ->
  u32 (channel_id m) -> bytes_ok (lit text) -> len (lit text) <= 100 -> refuses sid m text.
Proof.
  intros H Hc Ht Hl w Ho. rewrite H. unfold echo_client. apply (send_shared_sends (mkSharedWriter sid)); [done|].
  apply small_sendable; [done| |].
  - cbn [level_prefix]. constructor; [by vm_compute|]. rewrite !bytes_ok_app. split_and!; [by apply (bool_decide_unpack _); vm_compute|done|].
    by apply (bool_decide_unpack _); vm_compute.
  - rewrite len_cons, !len_app.
    assert (len (level_prefix MessageLevel.LFail) <= 100) by (by vm_compute). change (len [13; 10]) with 2. lia.
Qed.
End Refusal.

(** ** The host's side *)

(** The queue has a line of the daemon where the handler waits for another message. *)
Definition line_of (ch : Z) (text : string) : TaskMessage := echo_message ch (lit text) MessageLevel.LFail.

(** A package that is only announced. *)
Definition announced (path content : bytes) : Package := mkPackage path content [] 1 0 [].

Section HostSide.
Context {HA : Aead} {HL : AeadLaws HA} {HI : HashIter} {HD : HostDisk} {HZ : Zip}.
Context (sid ch : Z) (a : ChannelSpec.t).
Hypothesis Hch : u32 ch.

(** The handler ended with the error, having said only these messages, and neither the
    disk nor the clients saw anything. *)
Definition stops_with {A} (r : Result A * Task) (what : string) (ms : list TaskMessage) (evs : list RxEvent) (t : Task) : Prop :=
  exists t', r = (Err (mkError InvalidData (lit "Expected " ++ lit what ++ lit ", got KernelEcho")), t') /\ finished sid ch ms a evs (t_fs t) t t'.
Lemma stops_with_intro {A} (body : M Task A) what ms evs t :
  ready sid (t_host t) -> implements (t_host t) a ->
  (forall h0 t1, in_talk sid h0 [] a (t_rx t) (t_fs t) t1 ->
     wp body (fun _ _ => False) (fun e t' => e = mkError InvalidData (expected what KernelEcho) /\ in_talk sid h0 ms a evs (t_fs t) t') t1) ->
  stops_with (with_queue sid ch body t) what ms evs t.
Proof.
  intros Hr Hi Hb. destruct (with_queue_err sid ch body a t (fun e ms' a' evs' fs => e = mkError InvalidData (expected what KernelEcho) /\
    ms' = ms /\ a' = a /\ evs' = evs /\ fs = t_fs t)) as (e & t' & ? & ? & ? & ? & E & Hf & -> & -> & -> & -> & ->); [done..| |by exists t'].
  intros h0 t1 Ht. eapply wp_mono; [by apply (Hb h0)|done|]. intros e t' [-> Ht']. by eexists _, _, _, _.
Qed.

Lemma empty_sendable cmd : sendable (mkTaskMessage ch cmd []).
Proof using Hch. apply small_sendable; [done|constructor|done]. Qed.

Lemma file_send_given_line params local remote content text evs t :
  resolve_file_paths params = Ok (local, remote) -> t_fs t !! local = Some content ->
  sendable (file_check ch (len content) remote []) -> contains (lit "illegal operation on a directory") (from_utf8_lossy (payload (line_of ch text))) = false ->
  ready sid (t_host t) -> implements (t_host t) a -> t_rx t = RxMsg (line_of ch text) :: evs ->
  stops_with (handle_server_file_send sid ch params t) "FileBegin"
    [mkTaskMessage ch KernelWakeupSlavetask []; file_check ch (len content) remote []] evs t.
Proof using HL Hch.
  intros Hp Hc Hs Hd Hr Hi Hev. unfold handle_server_file_send. rewrite Hp, M_bind_eq. cbn [lift]. rewrite M_bind_eq. cbn [get].
  unfold metadata. rewrite Hc. apply stops_with_intro; [done..|]. intros h0 t1 Ht. rewrite Hev in Ht. unfold file_send_body.
  talk (by apply (to_daemon_talk sid h0 _ _ _ _ _ _ Ht), empty_sendable) as Ht2. talk by apply (to_daemon_talk sid h0 _ _ _ _ _ _ Ht2) as Ht3.
  apply wp_bind, wp_get, wp_bind. unfold rx_fuel at 1. cbn [await_file_begin]. apply wp_bind.
  eapply rx_recv_talk; [exact Ht3|]. intros t4 Ht4; cbv beta iota. rewrite Hd. cbn [line_of echo_message command andb].
  change (cmd_eqb KernelEcho FileBegin) with false. cbn iota. by split.
Qed.

Lemma file_recv_given_line params remote local text evs t :
  resolve_file_paths params = Ok (remote, local) -> sendable (mkTaskMessage ch FileInit (lit "recv " ++ remote ++ [32] ++ local)) ->
  ready sid (t_host t) -> implements (t_host t) a -> t_rx t = RxMsg (line_of ch text) :: evs ->
  stops_with (handle_server_file_recv sid ch params t) "FileCheck"
    [mkTaskMessage ch FileInit (lit "recv " ++ remote ++ [32] ++ local)] evs t.
Proof using HL.
  intros Hp Hs Hr Hi Hev. unfold handle_server_file_recv. rewrite Hp, M_bind_eq. cbn [lift].
  apply stops_with_intro; [done..|]. intros h0 t1 Ht. rewrite Hev in Ht. unfold file_recv_body.
  talk by apply (to_daemon_talk sid h0 _ _ _ _ _ _ Ht) as Ht2.
  apply wp_bind, wp_get, wp_bind. unfold rx_fuel at 1. cbn [await_file_check]. apply wp_bind.
  eapply rx_recv_talk; [exact Ht2|]. intros t4 Ht4; cbv beta iota. cbn [line_of echo_message command].
  change (cmd_eqb KernelEcho KernelWakeupSlavetask) with false. change (cmd_eqb KernelEcho FileCheck) with false. cbn iota. by split.
Qed.

Lemma install_given_line rnd params pk rest content text evs t :
  let args := install_args (tail params) (mkInstallArgs [] [] []) in
  let path := package_path (client_cwd args) pk in
  packages args = pk :: rest -> is_app_pack path = false -> t_fs t !! path = Some content ->
  sendable (pkg_check ch (install_options args) (announced path content)) ->
  ready sid (t_host t) -> implements (t_host t) a -> t_rx t = RxMsg (line_of ch text) :: evs ->
  stops_with (handle_server_app_install rnd sid ch params t) "AppBegin"
    [mkTaskMessage ch AppInit []; pkg_check ch (install_options args) (announced path content)] evs t.
Proof using HL Hch.
  intros args path Hpk Happ Hc Hs Hr Hi Hev. unfold handle_server_app_install. fold args. rewrite Hpk.
  destruct (with_queue_ok sid ch (install_packages sid ch rnd (client_cwd args) (install_options args) (pk :: rest) []) a t
    (fun r ms a2 evs2 fs => r = ([], Err (mkError InvalidData (expected "AppBegin" KernelEcho))) /\
      ms = [mkTaskMessage ch AppInit []; pkg_check ch (install_options args) (announced path content)] /\
      a2 = a /\ evs2 = evs /\ fs = t_fs t))
    as (r & t' & ? & ? & ? & ? & E & Hf & -> & -> & -> & -> & ->); [done..| |].
  - intros h0 t1 Ht. rewrite Hev in Ht. cbn [install_packages]. cbv zeta. fold path. unfold unpack_package. rewrite Happ.
    apply wp_bind, wp_try, wp_ret. apply wp_bind, wp_try. cbn [install_haps]. apply wp_bind. unfold install_single_hap. apply wp_bind, wp_get.
    assert (Hfs : t_fs t1 = t_fs t) by (by destruct Ht as (_&_&_&_&_&->)). unfold metadata. rewrite Hfs, Hc.
    talk (by apply (to_daemon_talk sid h0 _ _ _ _ _ _ Ht), empty_sendable) as Ht2. talk by apply (to_daemon_talk sid h0 _ _ _ _ _ _ Ht2) as Ht3.
    apply wp_bind, wp_get, wp_bind. unfold rx_fuel at 1. cbn [await_app_begin]. apply wp_bind.
    eapply rx_recv_talk; [exact Ht3|]. intros t4 Ht4; cbv beta iota. cbn [line_of echo_message command].
    change (cmd_eqb KernelEcho KernelWakeupSlavetask) with false. change (cmd_eqb KernelEcho AppBegin) with false. cbn iota.
    apply wp_ret. eexists _, _, _, _. split; [exact Ht4|]. by split_and!.
  - exists t'. rewrite (M_bind_Ok _ _ _ _ _ E). by split.
Qed.

(** The command is carried out for the device's session: these messages went out, and the client
    of the channel was told that another message than [what] came; its channel ends, the
    queue is not registered any more, and the disk, the devices and the rules are the same. *)
Context {HR : Rsa} {HF : HostFs} {HS : HostSys} {HN : HostNet}.
Definition reports (r : Result (option Spawned) * Srv) (what : string) (ms : list TaskMessage) (evs : list RxEvent) (s : Srv) : Prop :=
  exists s', r = (Ok None, s') /\ said sid ms (srv_host s) (srv_host s') /\
    implements (srv_host s') (end_of ch (tell ch (fail_line (mkError InvalidData (lit "Expected " ++ lit what ++ lit ", got KernelEcho"))) a)) /\
    t_rx (sv_task s') = evs /\ t_fs (sv_task s') = t_fs (sv_task s) /\ sv_files s' = sv_files s /\
    connect_map (srv_host s') = connect_map (srv_host s) /\ forward_map (srv_host s') = forward_map (srv_host s) /\
    UsbMap.response_channels (usb_map (srv_host s')) = delete (sid, ch) (UsbMap.response_channels (usb_map (srv_host s))).
Lemma stops_reports key actual (body : Z -> M Task unit) what ms evs s :
  resolve_connect_key (connect_map (srv_host s)) key = Ok actual -> ConnectMap.get_session_id actual (connect_map (srv_host s)) = Some sid ->
  listening ch a -> stops_with (body sid (sv_task s)) what ms evs (sv_task s) ->
  reports (with_device key ch (fun _ sid => plain (body sid)) s) what ms evs s.
Proof.
  intros Hk Hsid Hl (t' & E & (l & l' & S1 & S2 & S3) & _ & Fi & Fr & Ff & Fc & Fw & Fq).
  destruct (answer_ok_told ch (fail_line (mkError InvalidData (expected what KernelEcho))) (mkSrv t' (sv_files s)) a Fi Hl)
    as (s' & Ea & Ti & (T1 & T2 & T3 & _) & T5 & T6 & T7 & T8).
  exists s'. split.
  - unfold with_device. rewrite M_bind_eq. cbn [get]. rewrite Hk, Hsid. rewrite M_bind_eq. unfold try_, plain. rewrite M_bind_eq.
    unfold on_task, zoom. rewrite E. exact Ea.
  - split_and!; [|exact Ti|by rewrite T6|by rewrite T7|exact T8|by rewrite T1|by rewrite T3|by rewrite T2]. exists l, l'. by rewrite T5.
Qed.
End HostSide.

(** ** The two together *)

(** C21: the host's transfers against the daemon of this repository: the daemon answers the
    first message of each with a line of text and changes nothing, and with that line the
    host's command ends: [file send] does not know the wake-up, [file recv] writes one word less
    than the daemon reads, and [install] of a package file, relative to the client's directory or not,
    names no package.  The client is told that another message was expected, its channel is
    closed unless it is kept, and nothing is stored on either side. *)
Theorem transfers_refused {HA : Aead} {HL : AeadLaws HA} {OS : Os} {HI : HashIter} {HR : Rsa} {HF : HostFs} {HS : HostSys}
    {HD : HostDisk} {HZ : Zip} {HN : HostNet}
    (i : Inputs) (key actual : bytes) (sid ch : Z) (send_params recv_params install_params : list bytes)
    (local remote content from to pk : bytes) (rest : list bytes)
    (evs : list RxEvent) (a : ChannelSpec.t) (h : Host) (fs : gmap bytes bytes) (files : Files) :
  let args := install_args (tail install_params) (mkInstallArgs [] [] []) in
  let path := package_path (client_cwd args) pk in
  u32 ch -> ready sid h -> implements h a -> listening ch a ->
  resolve_connect_key (connect_map h) key = Ok actual -> ConnectMap.get_session_id actual (connect_map h) = Some sid ->
  resolve_file_paths send_params = Ok (local, remote) -> fs !! local = Some content -> sendable (file_check ch (len content) remote []) ->
  resolve_file_paths recv_params = Ok (from, to) -> sendable (mkTaskMessage ch FileInit (lit "recv " ++ from ++ [32] ++ to)) ->
  utf8_valid (lit "recv " ++ from ++ [32] ++ to) = true -> 32 ∉ from -> 32 ∉ to ->
  packages args = pk :: rest -> is_app_pack path = false -> fs !! path = Some content ->
  sendable (pkg_check ch (install_options args) (announced path content)) ->
  let with_line text := mkSrv (mkTask h (RxMsg (line_of ch text) :: evs) fs) files in
  (refuses sid (mkTaskMessage ch KernelWakeupSlavetask []) "Command not implemented" /\
   reports sid ch a (HostCommand.dispatch_task i FileInit key ch send_params (with_line "Command not implemented"%string)) "FileBegin"
     [mkTaskMessage ch KernelWakeupSlavetask []; file_check ch (len content) remote []] evs (with_line "Command not implemented"%string)) /\
  (refuses sid (mkTaskMessage ch FileInit (lit "recv " ++ from ++ [32] ++ to)) "Invalid file init parameters" /\
   reports sid ch a (HostCommand.dispatch_task i FileRecvInit key ch recv_params (with_line "Invalid file init parameters"%string)) "FileCheck"
     [mkTaskMessage ch FileInit (lit "recv " ++ from ++ [32] ++ to)] evs (with_line "Invalid file init parameters"%string)) /\
  (refuses sid (mkTaskMessage ch AppInit []) "Missing app path" /\
   reports sid ch a (HostCommand.dispatch_task i AppInit key ch install_params (with_line "Missing app path"%string)) "AppBegin"
     [mkTaskMessage ch AppInit []; pkg_check ch (install_options args) (announced path content)] evs (with_line "Missing app path"%string)).
Proof.
  intros args path Hch Hr Hi Hlis Hk Hsid Hsp Hl Hs1 Hrp Hs2 Hu Hsf Hst Hpk Happ Hl2 Hs3 with_line.
  assert (Hdev : forall (body : Z -> M Task unit) what ms text,
    stops_with sid ch a (body sid (sv_task (with_line text))) what ms evs (sv_task (with_line text)) ->
    reports sid ch a (with_device key ch (fun _ sid => plain (body sid)) (with_line text)) what ms evs (with_line text)).
  { intros body what ms text. by apply (stops_reports sid ch a key actual). }
  split; [|split]; split.
  - by apply refuses_intro; [| |apply lit_ok|vm_compute].
  - apply (Hdev (fun sid => handle_server_file_send sid ch send_params)).
    by apply (file_send_given_line sid ch a Hch send_params local remote content "Command not implemented"); [..|by vm_compute| | |].
  - apply refuses_intro; [|done|apply lit_ok|by vm_compute]. intros w. unfold DaemonTask.dispatch_task. cbn [command].
    unfold handle_file_task, handle_file_init, parse_file_paths. cbn [command payload]. rewrite from_utf8_lossy_valid by done.
    change (lit "recv " ++ from ++ [32] ++ to) with (lit "recv" ++ 32 :: (from ++ 32 :: to)).
    rewrite split_on_app by (by apply (bool_decide_unpack _); vm_compute). rewrite split_on_app, split_on_free by done. done.
  - apply (Hdev (fun sid => handle_server_file_recv sid ch recv_params)).
    by apply (file_recv_given_line sid ch a recv_params from to "Invalid file init parameters").
  - by apply refuses_intro; [| |apply lit_ok|vm_compute].
  - apply (Hdev (fun sid => handle_server_app_install (rnd i) sid ch install_params)).
    by apply (install_given_line sid ch a Hch (rnd i) install_params pk rest content "Missing app path").
Qed.

Section InteropWitness.
#[local] Existing Instance ToyAead.aead.
#[local] Existing Instance ToyAead.laws.
#[local] Existing Instance SomeOrder.order.
#[local] Existing Instance ToyRsa.rsa.
#[local] Existing Instance ToyRsa.files.
#[local] Existing Instance CalmDisk.disk.
#[local] Existing Instance NoZip.zip.
#[local] Existing Instance OpenNet.net.
#[local] Existing Instance CalmOs.os.
#[local] Instance no_env : HostSys := { host_env _ := None; tcp_connect_error _ := None }.
Definition one_file : gmap bytes bytes := {[lit "/a/x.hap" := lit "hello"]}.
Definition phone_host : Host := set_connect_map {[lit "K" := DaemonInfo.mk 7 Tcp Connected [] []]} device_host.
Definition idle_inputs : Inputs := mkInputs (Ok []) [] 0 1%positive [] (fun _ => false) None 0 0 [].
Definition phone_server (text : string) : Srv := mkSrv (mkTask phone_host [RxMsg (line_of 5 text)] one_file) ∅.
Lemma transfers_refused_witness :
  refuses 7 (mkTaskMessage 5 AppInit []) "Missing app path" /\
  reports 7 5 one_client
    (HostCommand.dispatch_task idle_inputs AppInit (lit "any") 5 (map lit ["install"; "-cwd"; "/a/"; "x.hap"]%string) (phone_server "Missing app path")) "AppBegin"
    [mkTaskMessage 5 AppInit []; pkg_check 5 [] (announced (lit "/a/x.hap") (lit "hello"))] [] (phone_server "Missing app path").
Proof.
  destruct (transfers_refused idle_inputs (lit "any") (lit "K") 7 5 (map lit ["file"; "send"; "/a/x.hap"; "/data/x"]%string) recv_words
    (map lit ["install"; "-cwd"; "/a/"; "x.hap"]%string) (lit "/a/x.hap") (lit "/data/x") (lit "hello") (lit "/data/x") (lit "/b/y") (lit "x.hap") []
    [] one_client phone_host one_file ∅) as (_ & _ & H).
  - by vm_compute.
  - apply device_ready.
  - apply client_listens.
  - apply client_listens.
  - by vm_compute.
  - by vm_compute.
  - by vm_compute.
  - by vm_compute.
  - by apply (bool_decide_unpack _); vm_compute.
  - by vm_compute.
  - by apply (bool_decide_unpack _); vm_compute.
  - by vm_compute.
  - by apply (bool_decide_unpack _); vm_compute.
  - by apply (bool_decide_unpack _); vm_compute.
  - by vm_compute.
  - by vm_compute.
  - by vm_compute.
  - by apply (bool_decide_unpack _); vm_compute.
  - exact H.
Defined.
End InteropWitness.
