(* ===== verification/EndToEnd.v ===== *)
(** * A shell command, from the terminal to the device and back

    The server's task of a client ([HostCommand]), the daemon's dispatcher ([DaemonTask]), the
    reader of the session ([HostSession]) and the client ([HostClient]) put together: what a
    user sees of [hdc shell ...]. *)

From S2P Require Import Parser.
From S2P Require Import Prelude RustStr NetAddr Config Tlv Serializer Encrypt Transport Reading RsaAuth Daemon DaemonTask HostMaps HostChannels HostSession HostTask.
From S2P Require Import HostFile HostApp HostForward HostCommand HostClient.

Section Shell.
Context {HA : Aead} {HL : AeadLaws HA} {OS : Os} {HI : HashIter} {HR : Rsa} {HF : HostFs} {HS : HostSys} {HD : HostDisk} {HZ : Zip} {HN : HostNet} {CE : ClientEnv}.

(** What a shell command gives on the device: the texts for the user. *)
Definition shell_texts (cmd : bytes) : list bytes :=
  match command_output (lit "sh") [lit "-c"; trim_quotation_for_cmd cmd] with
  | inr out => filter (fun t => t <> []) [from_utf8_lossy (cmd_stdout out); from_utf8_lossy (cmd_stderr out)]
  | inl e => [level_prefix MessageLevel.LFail ++ (lit "Execute failed: " ++ e) ++ [13; 10]]
  end.
Definition shell_replies (ch : Z) (cmd : bytes) : list TaskMessage :=
  match command_output (lit "sh") [lit "-c"; trim_quotation_for_cmd cmd] with
  | inr out => map (echo_raw ch) (filter (fun t => t <> []) [from_utf8_lossy (cmd_stdout out); from_utf8_lossy (cmd_stderr out)])
  | inl e => [echo_message ch (lit "Execute failed: " ++ e) MessageLevel.LFail]
  end ++ [channel_close ch].
Lemma shell_replies_commands ch cmd : Forall (fun m => command m <> KernelHandshake) (shell_replies ch cmd).
Proof.
  unfold shell_replies. apply Forall_app. split; [|by constructor]. case_match; [by constructor|].
  apply Forall_fmap, Forall_forall. by intros x _.
Qed.
(** The client of the channel gets the texts, and then the channel ends. *)
Lemma shell_ops registered ch cmd :
  registered ch = false ->
  flat_map (client_ops registered) (shell_replies ch cmd) = map (ChannelSpec.Message ch) (shell_texts cmd) ++ [ChannelSpec.Finish ch].
Proof.
  intros Hr. unfold shell_replies, shell_texts. rewrite flat_map_app. f_equal.
  - case_match; [cbn [flat_map]; unfold client_ops, echo_message; cbn [command channel_id payload]; by rewrite Hr|].
    generalize (filter (fun t => t <> []) [from_utf8_lossy (cmd_stdout c); from_utf8_lossy (cmd_stderr c)]).
    intros l. induction l as [|x l IH]; [done|]. cbn [map flat_map]. rewrite IH. unfold client_ops, echo_raw. cbn [command channel_id payload].
    by rewrite Hr.
  - cbn [flat_map]. unfold client_ops, channel_close. cbn [command channel_id payload]. by rewrite Hr.
Qed.
Lemma messages_steps ch texts a old :
  ChannelSpec.open a !! ch = Some old ->
  (ChannelSpec.steps (map (ChannelSpec.Message ch) texts ++ [ChannelSpec.Finish ch]) a).2 =
  ChannelSpec.mk (delete ch (ChannelSpec.open a)) (ChannelSpec.owner a) (ChannelSpec.kept a ∖ {[ch]}) (ChannelSpec.closed a ++ [old ++ texts]).
Proof.
  revert a old; induction texts as [|x texts IH]; intros a old Ho.
  - cbn. unfold ChannelSpec.finish. by rewrite Ho, app_nil_r.
  - cbn [map app ChannelSpec.steps ChannelSpec.step]. rewrite Ho.
    specialize (IH (ChannelSpec.mk (<[ch := old ++ [x]]> (ChannelSpec.open a)) (ChannelSpec.owner a) (ChannelSpec.kept a) (ChannelSpec.closed a))
      (old ++ [x]) (lookup_insert_eq _ _ _)). destruct (ChannelSpec.steps _ _) as [bs a2]. cbn [snd] in *. rewrite IH. cbn.
    by rewrite delete_insert_eq, <- app_assoc.
Qed.
Lemma shell_texts_valid cmd :
  (forall e, command_output (lit "sh") [lit "-c"; trim_quotation_for_cmd cmd] = inl e -> utf8_valid e = true) ->
  Forall (fun t => utf8_valid t = true) (shell_texts cmd).
Proof.
  intros He. unfold shell_texts. destruct (command_output _ _) as [e|out]; [|].
  - constructor; [|constructor]. rewrite utf8_valid_app by (by vm_compute). rewrite <- app_assoc, utf8_valid_app by (by vm_compute).
    by rewrite utf8_valid_app by (by apply He).
  - apply Forall_forall. intros t [_ Ht]%list_elem_of_filter.
    apply elem_of_cons in Ht as [->|[->|[]%not_elem_of_nil]%elem_of_cons]; apply from_utf8_lossy_is_valid.
Qed.
Lemma shell_request words :
  words <> [] -> Forall plain_word words ->
  request (join [32] (lit "shell" :: words)) = mkParsed [] (Some UnityExecute) (lit "shell" :: words).
Proof.
  intros Hne Hw. rewrite request_words; [|done|by constructor; [apply (bool_decide_unpack _); vm_compute|]].
  apply split_at_head; [left|done]. change (window (lit "shell" :: words) 0 1) with (CMD_MAP_get (lit "shell")). by vm_compute.
Qed.
End Shell.

(** C3: [hdc shell] with a command, all parties together.  The client's request makes the server
    send one message over the device's session, which the daemon receives with the words as
    typed; the daemon runs them and answers; of the answers the reader of the session gives the
    client of the channel exactly the output and the error output (or why the command could not
    be run), and closes the channel; and the client prints exactly those texts. *)
Theorem shell_command_end_to_end {HA : Aead} {HL : AeadLaws HA} {OS : Os} {HI : HashIter} {HR : Rsa} {HF : HostFs} {HS : HostSys}
    {HD : HostDisk} {HZ : Zip} {HN : HostNet}
    i key ch sid words t a old :
  let cmd := join [32] words in
  let m := mkTaskMessage ch UnityExecute cmd in
  let h := srv_host (ct_srv t) in
  words <> [] -> Forall plain_word words ->
  resolve_session_id (connect_map h) key = Ok sid -> ready sid h -> implements h a -> ChannelSpec.open a !! ch = Some old ->
  waiting sid h ch = false -> sendable m -> Forall sendable (shell_replies ch cmd) ->
  (forall e, command_output (lit "sh") [lit "-c"; trim_quotation_for_cmd cmd] = inl e -> utf8_valid e = true) ->
  exists t', serve_request i key ch (join [32] (lit "shell" :: words)) t = (Ok Again, t') /\
  let h' := srv_host (ct_srv t') in
  said sid [m] h h' /\
  (forall w, link_open sid (link w) -> exists w',
     DaemonTask.dispatch_task m sid (mkSharedWriter sid) w = (Ok tt, w') /\ sends sid (shell_replies ch cmd) w w') /\
  (forall seed cs rd files, clean rd -> sender_ok (cs !! sid) -> agree (cs !! sid) (TcpMap.session_ciphers (tcp_map h') !! sid) ->
     flat rd = w_out (link_wr (send_all sid (shell_replies ch cmd) (mkLink cs [] (mkWriter [] None))).2) -> exists s',
     reader_loop (S (length (shell_replies ch cmd))) seed sid key (mkSession h' rd files) = (Ok tt, s') /\
     implements (s_host s') (ChannelSpec.mk (delete ch (ChannelSpec.open a)) (<[ch := sid]> (ChannelSpec.owner a)) (ChannelSpec.kept a ∖ {[ch]})
       (ChannelSpec.closed a ++ [old ++ shell_texts cmd]))) /\
  (forall c rd, readable rd (shell_texts cmd) c -> exists c', loop_recv c = (Ok tt, c') /\ shown (concat (shell_texts cmd)) c c').
Proof.
  intros cmd m h Hne Hw Hr Hrd Hi Ho Hwt Hm Hs He.
  destruct (forwarded_sent i UnityExecute key ch (lit "shell" :: words) (ct_srv t) a sid eq_refl Hr Hrd Hi Hm) as (s' & E & Hsaid & _ & Hi' & Ht).
  exists (mkClientTask s' (ct_rd t) (ct_spawned t)). split.
  { unfold serve_request. rewrite shell_request by done. cbn [Parser.command parameters length].
    rewrite (proj2 (Nat.eqb_neq _ 1)) by (destruct words; [done|cbn; lia]). rewrite andb_false_r. unfold run_command. rewrite M_bind_eq.
    unfold try_, on_srv, zoom. rewrite E. unfold spawn. rewrite M_bind_eq. cbn. by rewrite app_nil_r. }
  cbv zeta. cbn [ct_srv]. split_and!.
  - exact Hsaid.
  - intros w Hl. destruct Hm as [Hwf _].
    exact (shell_command_replies m sid (mkSharedWriter sid) w cmd (or_introl eq_refl) Hl (proj1 Hwf) (from_utf8_valid _ (join_valid _ Hw)) Hs).
  - intros seed cs rd files Hc Hso Hag Ef.
    destruct (reader_delivers (S (length (shell_replies ch cmd))) seed sid key (shell_replies ch cmd) (mkLink cs [] (mkWriter [] None)) [] (flat rd)
      (mkSession (srv_host s') rd files) _ Hs (shell_replies_commands ch cmd) eq_refl Hso (eq_sym Ef) Hc eq_refl Hag Hi' ltac:(lia)) as (s2 & E2 & Hi2 & _).
    exists s2. split; [exact E2|]. rewrite shell_ops in Hi2.
    + by rewrite (messages_steps ch _ _ old) in Hi2.
    + unfold waiting. cbn [s_host]. destruct Ht as (_ & -> & _). exact Hwt.
  - intros c rd Hrd'. unfold loop_recv. rewrite M_bind_eq. cbn [get].
    apply (loop_recv_prints _ (shell_texts_valid _ He) _ _ rd Hrd'). destruct Hrd' as (Erd & _ & Ef & _).
    unfold recv_fuel, weight. rewrite Erd. change (default [] (Some rd)) with rd. rewrite Ef. pose proof (frames_long (shell_texts cmd)). lia.
Qed.

Section ShellWitness.
#[local] Existing Instance ToyAead.aead.
#[local] Existing Instance ToyAead.laws.
#[local] Existing Instance SomeOrder.order.
#[local] Existing Instance ToyRsa.rsa.
#[local] Existing Instance ToyRsa.files.
#[local] Existing Instance CalmDisk.disk.
#[local] Existing Instance NoZip.zip.
#[local] Existing Instance OpenNet.net.
#[local] Existing Instance PlainEnv.sys.
(** A device on which every command prints "hi". *)
#[local] Instance greeting : Os := {
  create_error _ := None; open_error _ := None; stat_other _ := inl (lit "No such file");
  read_error _ _ := None; read_amount _ _ n := n; write_error _ _ _ := None;
  command_output _ _ := inr (mkCmdOutput (lit "hi") [] true);
  connect_error _ := None; bind_error _ := None; env_var _ := None
}.
Definition shell_task : ClientTask :=
  mkClientTask (mkSrv (mkTask (set_connect_map one_device device_host) [] ∅) ∅) [] [].
Lemma shell_command_end_to_end_witness : exists t',
  serve_request (no_inputs 0) (lit "any") 5 (lit "shell echo hi") shell_task = (Ok Again, t') /\
  said 7 [mkTaskMessage 5 UnityExecute (lit "echo hi")] (srv_host (ct_srv shell_task)) (srv_host (ct_srv t')) /\
  exists w', DaemonTask.dispatch_task (mkTaskMessage 5 UnityExecute (lit "echo hi")) 7 (mkSharedWriter 7) start_world = (Ok tt, w') /\
  sends 7 [echo_raw 5 (lit "hi"); channel_close 5] start_world w'.
Proof.
  destruct (shell_command_end_to_end (no_inputs 0) (lit "any") 5 7 [lit "echo"; lit "hi"] shell_task one_client [])
    as (t' & E & Hs & Hd & _).
  - done.
  - by apply (bool_decide_unpack _); vm_compute.
  - by vm_compute.
  - apply device_ready.
  - apply client_listens.
  - done.
  - done.
  - by apply (bool_decide_unpack _); vm_compute.
  - by apply (bool_decide_unpack _); vm_compute.
  - done.
  - exists t'. split; [exact E|]. split; [exact Hs|]. apply (Hd start_world), start_open.
Defined.
End ShellWitness.
