(* ===== verification/InteropRport.v ===== *)
(** * Host and daemon: a connection of a reverse rule

    The task of an accepted connection on the device ([DaemonForward.conn_step]), the listener's
    dispatcher ([DaemonForward.listener_step]) and the host's bridge ([HostBridge.run_rport_bridge])
    put together.  Messages of each side arrive at the other in order and whenever they like, between
    messages of other connections of the rule; the sockets give and take bytes at any time. *)

From S2P Require Import Prelude RustStr Config Tlv Serializer Encrypt Transport Daemon DaemonForward.
From S2P Require Import HostMaps HostChannels HostTask HostFile HostForward HostBridge.

(** ** What the two ends have said *)

Section Said.
Context (ch id : Z) (local : bytes).

Definition conn_said (p : CPhase) (es : list CEvent) : list TaskMessage :=
  (match p with COpening => [] | _ => [active_slave (new_conn ch id local)] end) ++
  map (forward_data ch id) (DaemonForward.reads es) ++ (match p with CClosed => [forward_free ch id] | _ => [] end).
Definition host_said (p : Phase) (es : list Event) : list TaskMessage := bridge_said ch None id p es.

(** What a message of the host is for the connection's task. *)
Definition conn_msg (m : TaskMessage) : option RportConnMsg :=
  match to_listener m with
  | Some (Ok (Some (ActiveMaster _))) => Some CActiveMaster
  | Some (Ok (Some (FwdData _ d))) => Some (CData d)
  | _ => None
  end.
End Said.

(** ** The system

    Both sides with their histories, how many messages of each side have arrived, and how many
    items the connection's task has taken from its queue. *)
Record Sys := mkSys {
  y_ces : list CEvent; y_conn : Conn; y_world : World; y_taken : nat;
  y_lst : Listener;
  y_hes : list Event; y_bridge : Bridge; y_fwd : Fwd;
  y_down : nat; y_up : nat
}.

Section System.
Context {HA : Aead} {OS : Os} {HN : HostNet}.
(** The rule's channel and session, the connection, its queues on both sides. *)
Context (wr : SharedWriter) (sid ch id : Z) (local : bytes) (q : positive) (hq : positive).

Definition conn_queue (l : Listener) : list RportConnMsg := default [] (l_queues l !! q).
(** The task of a connection removes its entry when it ends. *)
Definition after_conn (c : Conn) (l : Listener) : Listener := if c_entry c then l else set_conns (delete id (l_conns l)) l.
Definition to_host (y : Sys) : list TaskMessage := conn_said ch id local (c_phase (y_conn y)) (y_ces y).
Definition to_device (y : Sys) : list TaskMessage := host_said ch id (b_phase (y_bridge y)) (y_hes y).

(** What a step of the connection's task needs besides its own state. *)
Definition conn_can (e : CEvent) (y : Sys) : Prop :=
  match e with
  | CMsg m => conn_queue (y_lst y) !! y_taken y = Some m
  | CQueueClosed => l_conns (y_lst y) !! id = None /\ y_taken y = length (conn_queue (y_lst y))
  | CRead d => bytes_ok d
  | _ => True
  end.
Definition takes (e : CEvent) : nat := match e with CMsg _ => 1 | _ => 0 end.
(** The bridge is started by the first message of the connection, once the local port that
    message names is connected. *)
Definition opened_spec : bytes := trim_end_matches 0 (from_utf8_lossy (drop 12 (payload (active_slave (new_conn ch id local))))).
Definition bridge_can (e : Event) (y : Sys) : Prop :=
  match e with
  | EDispatch _ => False
  | EStart => (0 < y_down y)%nat /\ exists s, rport_connect sid ch id opened_spec (y_fwd y) = (Ok true, s)
  | ERead d => bytes_ok d
  | _ => True
  end.
(** Events of the listener that concern other connections. *)
Definition other (e : LEvent) : Prop :=
  match e with
  | LMsg (ActiveMaster i) | LMsg (FwdData i _) | LMsg (FreeContext i) | LAccept i | LConnGone i => i <> id
  | LMsg (CheckResult _ _) => True
  | _ => False
  end.

Inductive moves : Sys -> Sys -> Prop :=
  | move_conn y e c' w' :
      conn_can e y -> conn_enabled e (y_conn y) = true -> conn_step wr e (y_conn y) (y_world y) = (Ok c', w') ->
      moves y (mkSys (y_ces y ++ [e]) c' w' (y_taken y + takes e) (after_conn c' (y_lst y)) (y_hes y) (y_bridge y) (y_fwd y) (y_down y) (y_up y))
  | move_first y m spec s' :
      to_host y !! y_down y = Some m -> rport_dispatch sid ch m (y_fwd y) = (Ok (Some (id, spec)), s') ->
      moves y (mkSys (y_ces y) (y_conn y) (y_world y) (y_taken y) (y_lst y) (y_hes y) (y_bridge y) s' (S (y_down y)) (y_up y))
  | move_down y m b' s' :
      to_host y !! y_down y = Some m -> command m <> ForwardActiveSlave ->
      run_rport_bridge sid ch (EDispatch m) (y_bridge y) (y_fwd y) = (Ok b', s') ->
      moves y (mkSys (y_ces y) (y_conn y) (y_world y) (y_taken y) (y_lst y) (y_hes y ++ [EDispatch m]) b' s' (S (y_down y)) (y_up y))
  | move_bridge y e b' s' :
      bridge_can e y -> bridge_enabled e (y_bridge y) = true -> run_rport_bridge sid ch e (y_bridge y) (y_fwd y) = (Ok b', s') ->
      moves y (mkSys (y_ces y) (y_conn y) (y_world y) (y_taken y) (y_lst y) (y_hes y ++ [e]) b' s' (y_down y) (y_up y))
  | move_up y m r l' w' :
      to_device y !! y_up y = Some m -> to_listener m = Some (Ok (Some r)) -> listener_step wr (LMsg r) (y_lst y) (y_world y) = (Ok l', w') ->
      moves y (mkSys (y_ces y) (y_conn y) w' (y_taken y) l' (y_hes y) (y_bridge y) (y_fwd y) (y_down y) (S (y_up y)))
  | move_other_host y m b' s' :
      payload_id (payload m) <> id -> run_rport_bridge sid ch (EDispatch m) (y_bridge y) (y_fwd y) = (Ok b', s') ->
      moves y (mkSys (y_ces y) (y_conn y) (y_world y) (y_taken y) (y_lst y) (y_hes y ++ [EDispatch m]) b' s' (y_down y) (y_up y))
  | move_other_device y e l' w' :
      other e -> listener_enabled e (y_lst y) = true -> listener_step wr e (y_lst y) (y_world y) = (Ok l', w') ->
      moves y (mkSys (y_ces y) (y_conn y) w' (y_taken y) l' (y_hes y) (y_bridge y) (y_fwd y) (y_down y) (y_up y)).

(** The moves as a function. *)
Inductive Move := MConn (e : CEvent) | MFirst | MDown | MBridge (e : Event) | MUp.
Definition conn_canb (e : CEvent) (y : Sys) : bool :=
  match e with
  | CMsg m => bool_decide (conn_queue (y_lst y) !! y_taken y = Some m)
  | CQueueClosed => bool_decide (l_conns (y_lst y) !! id = None /\ y_taken y = length (conn_queue (y_lst y)))
  | CRead d => bool_decide (bytes_ok d)
  | _ => true
  end.
Definition bridge_canb (e : Event) (y : Sys) : bool :=
  match e with
  | EDispatch _ => false
  | EStart => bool_decide (0 < y_down y)%nat && match rport_connect sid ch id opened_spec (y_fwd y) with (Ok true, _) => true | _ => false end
  | ERead d => bool_decide (bytes_ok d)
  | _ => true
  end.
Definition move (mv : Move) (y : Sys) : option Sys :=
  match mv with
  | MConn e =>
      if conn_canb e y && conn_enabled e (y_conn y) then
        match conn_step wr e (y_conn y) (y_world y) with
        | (Ok c', w') => Some (mkSys (y_ces y ++ [e]) c' w' (y_taken y + takes e) (after_conn c' (y_lst y)) (y_hes y) (y_bridge y) (y_fwd y) (y_down y) (y_up y))
        | _ => None
        end
      else None
  | MFirst =>
      m ← to_host y !! y_down y;
      match rport_dispatch sid ch m (y_fwd y) with
      | (Ok (Some (i, _)), s') =>
          if i =? id then Some (mkSys (y_ces y) (y_conn y) (y_world y) (y_taken y) (y_lst y) (y_hes y) (y_bridge y) s' (S (y_down y)) (y_up y)) else None
      | _ => None
      end
  | MDown =>
      m ← to_host y !! y_down y;
      match command m, run_rport_bridge sid ch (EDispatch m) (y_bridge y) (y_fwd y) with
      | ForwardActiveSlave, _ => None
      | _, (Ok b', s') => Some (mkSys (y_ces y) (y_conn y) (y_world y) (y_taken y) (y_lst y) (y_hes y ++ [EDispatch m]) b' s' (S (y_down y)) (y_up y))
      | _, _ => None
      end
  | MBridge e =>
      if bridge_canb e y && bridge_enabled e (y_bridge y) then
        match run_rport_bridge sid ch e (y_bridge y) (y_fwd y) with
        | (Ok b', s') => Some (mkSys (y_ces y) (y_conn y) (y_world y) (y_taken y) (y_lst y) (y_hes y ++ [e]) b' s' (y_down y) (y_up y))
        | _ => None
        end
      else None
  | MUp =>
      m ← to_device y !! y_up y;
      match to_listener m with
      | Some (Ok (Some r)) =>
          match listener_step wr (LMsg r) (y_lst y) (y_world y) with
          | (Ok l', w') => Some (mkSys (y_ces y) (y_conn y) w' (y_taken y) l' (y_hes y) (y_bridge y) (y_fwd y) (y_down y) (S (y_up y)))
          | _ => None
          end
      | _ => None
      end
  end.
Lemma move_moves mv y y' : move mv y = Some y' -> moves y y'.
Proof.
  destruct mv as [e| | |e|]; cbn [move].
  - destruct (conn_canb e y && _) eqn:E; [|done]. apply andb_prop in E as [E1 E2]. destruct (conn_step _ _ _ _) as [[c'|?|] w'] eqn:Es; [|done..].
    intros [= <-]. apply move_conn; try done. destruct e; try done; by apply bool_decide_eq_true in E1.
  - intros (m & Hm & H)%bind_Some. destruct (rport_dispatch _ _ _ _) as [[[[i spec]|]|?|] s'] eqn:Ed; [|done..].
    destruct (Z.eqb_spec i id) as [->|]; [|done]. injection H as <-. by eapply move_first.
  - intros (m & Hm & H)%bind_Some. destruct (run_rport_bridge _ _ _ _ _) as [[b'|?|] s'] eqn:Eb; [|by destruct (command m)..].
    assert (Hc : command m <> ForwardActiveSlave) by (intros E; by rewrite E in H). destruct (command m) eqn:Em; try done; injection H as <-; apply move_down; congruence.
  - destruct (bridge_canb e y && _) eqn:E; [|done]. apply andb_prop in E as [E1 E2]. destruct (run_rport_bridge _ _ _ _ _) as [[b'|?|] s'] eqn:Es; [|done..].
    intros [= <-]. apply move_bridge; try done. destruct e; try done; [|by apply bool_decide_eq_true in E1].
    apply andb_prop in E1 as [E0 E1]. apply bool_decide_eq_true in E0. split; [done|].
    destruct (rport_connect _ _ _ _ _) as [[[]|?|] s1] eqn:Ec; [|done..]. by exists s1.
  - intros (m & Hm & H)%bind_Some. destruct (to_listener m) as [[[r|]| |]|] eqn:Er; [|done..].
    destruct (listener_step _ _ _ _) as [[l'|?|] w'] eqn:Es; [|done..]. injection H as <-. by eapply move_up.
Qed.
Definition move_all (mvs : list Move) (y : Sys) : option Sys := foldl (fun o mv => y ← o; move mv y) (Some y) mvs.
Lemma move_all_moves mvs y y' : move_all mvs y = Some y' -> rtc moves y y'.
Proof.
  unfold move_all. revert y'. induction mvs as [|mv mvs IH] using rev_ind; cbn; intros y'; [by intros [= <-]|].
  rewrite foldl_app. cbn. intros (y1 & E & H)%bind_Some. eapply rtc_r; [by apply IH|by eapply move_moves].
Qed.

(** The listener has just accepted the connection, and the rule is up on both sides. *)
Definition accepted_by (l : Listener) : Prop :=
  l_phase l = LAccepting true /\ l_conns l !! id = Some q /\ l_queues l !! q = Some [] /\ forall i, l_conns l !! i = Some q -> i = id.
Definition start_sys (w : World) (l : Listener) (s : Fwd) : Sys := mkSys [] (new_conn ch id local) w 0 l [] (new_bridge id hq) s 0 0.
End System.

(** ** Facts about the two sides *)

Section Sides.
Context {HA : Aead} {HL : AeadLaws HA} {OS : Os} {HN : HostNet}.
Context (wr : SharedWriter) (sid ch id : Z) (local : bytes) (q hq : positive).
Hypothesis Hch : u32 ch.
Hypothesis Hid : u32 id.
Hypothesis Hlocal : spec_ok local.

Abbreviation send := (fun m => send_to_session sid (concat_pack m)).
Abbreviation conn0 := (new_conn ch id local).
Abbreviation hinv := (bridge_inv (HC := session_courier sid) ch None id hq).

(** What a side has said, it has said. *)
Lemma conn_said_grows w0 es c w e c' w' :
  conn_inv conn0 w0 es (sw_session_id wr) c w -> conn_enabled e c = true -> conn_inv conn0 w0 (es ++ [e]) (sw_session_id wr) c' w' ->
  conn_said ch id local (c_phase c) es `prefix_of` conn_said ch id local (c_phase c') (es ++ [e]).
Proof.
  intros (_ & _ & _ & _ & _ & _ & _ & Hp) Hen (_ & _ & _ & _ & _ & _ & _ & Hp'). unfold conn_said. rewrite DaemonForward.reads_snoc.
  assert (Hc' : c_phase c' <> COpening) by (intros E; rewrite E in Hp'; by destruct es).
  assert (Hn : (match c_phase c' with COpening => [] | _ => [active_slave conn0] end) = [active_slave conn0]) by (by destruct (c_phase c')).
  rewrite Hn. unfold conn_enabled in Hen. destruct (c_phase c); [subst es; apply prefix_nil| | |done];
    rewrite app_nil_r, map_app, <- !app_assoc; apply prefix_app, prefix_app_r; done.
Qed.
Lemma bridge_phase_kept e b s b' s' :
  b_phase b <> POpen -> bridge_step send ch None e b s = (Ok b', s') -> b_phase b' <> POpen.
Proof.
  intros Hb Est. unfold bridge_step, leave in Est. destruct (b_phase b) as [| |[] []|] eqn:Ep; [done|..]; destruct e;
    repeat (rewrite ?M_bind_eq in Est; cbn in Est; first
      [done | (injection Est as <- <-; cbn; congruence) | match type of Est with context [match ?x with _ => _ end] => destruct x end]).
  rewrite M_bind_eq in Est. cbn [conns_remove modify] in Est. rewrite M_bind_eq in Est.
  destruct (try_ _ _) as [[r|?|] s1]; [|done..]. by injection Est as <- <-.
Qed.
Lemma host_said_grows s0 es b s e b' s' :
  hinv s0 es b s -> bridge_enabled e b = true -> bridge_step send ch None e b s = (Ok b', s') ->
  host_said ch id (b_phase b) es `prefix_of` host_said ch id (b_phase b') (es ++ [e]).
Proof.
  intros (_ & _ & _ & _ & taken & _ & Hp) Hen Est. unfold host_said, bridge_said. rewrite host_reads_snoc, has_joined_snoc.
  pose proof (bridge_phase_kept e b s b' s') as Hk. unfold bridge_enabled in Hen.
  destruct (b_phase b) as [| |rd wrt|] eqn:Ep; cbn [phase_inv] in Hp.
  - destruct Hp as (_ & _ & -> & -> & _). apply prefix_nil.
  - by destruct Hp as (_ & _ & [? ?] & _).
  - destruct Hp as (_ & _ & -> & _). specialize (Hk ltac:(done) Est). rewrite app_nil_r.
    replace (match b_phase b' with POpen => [] | _ => [first_message ch None id] end) with [first_message ch None id] by (by destruct (b_phase b')).
    rewrite map_app, <- !app_assoc. apply prefix_app, prefix_app_r. done.
  - destruct e; try done. cbn [joined]. rewrite orb_false_r, app_nil_r. unfold bridge_step in Est. rewrite Ep, M_bind_eq in Est.
    destruct (conn_dispatch _ m s) as [[|?|] ?]; [|done..]. injection Est as <- <-. by rewrite Ep.
Qed.

(** The messages one by one. *)
Lemma id_of_be : id_of (to_be_bytes 4 id) = Ok id.
Proof using Hid. rewrite <- (app_nil_r (to_be_bytes 4 id)). by apply id_of_to. Qed.
Lemma conn_said_lookup p es k m :
  (p = COpening -> es = []) -> conn_said ch id local p es !! k = Some m ->
  (k = 0%nat /\ m = active_slave conn0) \/
  (exists j d, k = S j /\ DaemonForward.reads es !! j = Some d /\ m = forward_data ch id d) \/
  (p = CClosed /\ k = S (length (DaemonForward.reads es)) /\ m = forward_free ch id).
Proof.
  intros Hp. unfold conn_said. assert (p = COpening \/ p <> COpening) as [->|Hn] by (destruct p; [by left|by right..]); [by rewrite (Hp eq_refl)|].
  replace (match p with COpening => [] | _ => [active_slave conn0] end) with [active_slave conn0] by (by destruct p).
  destruct k as [|k]; cbn [app lookup list_lookup]; [intros [= <-]; by left|]. intros [H|[Hk H]]%lookup_app_Some; right; [left|right].
  - rewrite list_lookup_fmap in H. destruct (DaemonForward.reads es !! k) as [d|] eqn:E; [|done]. injection H as <-. by exists k, d.
  - rewrite length_map in Hk, H. destruct p; try done. destruct (k - length (DaemonForward.reads es))%nat eqn:Ek; [|done].
    injection H as <-. split_and!; [done|f_equal; lia|done].
Qed.
Lemma conn_said_length p es : (p = COpening -> es = []) ->
  length (conn_said ch id local p es) =
  (match p with COpening => 0 | CClosed => S (S (length (DaemonForward.reads es))) | _ => S (length (DaemonForward.reads es)) end)%nat.
Proof. intros Hp. unfold conn_said. destruct p; rewrite ?(Hp eq_refl); cbn; rewrite ?length_app, ?length_map; cbn; lia. Qed.

Definition conn_msgs (p : Phase) (es : list Event) : list RportConnMsg :=
  (match p with POpen => [] | _ => [CActiveMaster] end) ++ map CData (HostBridge.reads es).
Lemma conn_msg_data d : conn_msg (HostBridge.data_message ch id d) = Some (CData d).
Proof.
  unfold conn_msg, to_listener, HostBridge.data_message. cbn [command payload].
  assert (Hl : 4 <= len (to_be_bytes 4 id ++ d)) by (rewrite len_app, len_to_be_bytes; pose proof (len_nonneg d); lia).
  rewrite (proj2 (Z.leb_le _ _) Hl), id_of_to, bind_Ok, slice_from_ok by done. rewrite bind_Ok. by rewrite drop_app_length' by (by rewrite length_to_be_bytes).
Qed.
Lemma conn_msgs_of p es k : omap conn_msg (take k (host_said ch id p es)) = take k (conn_msgs p es).
Proof.
  unfold host_said, bridge_said, conn_msgs. rewrite app_assoc.
  set (A := _ ++ map _ _). set (B := _ ++ map CData _).
  assert (HA' : map conn_msg A = map Some B).
  { unfold A, B. rewrite !map_app. f_equal; [by destruct p|]. rewrite !map_map. apply map_ext, conn_msg_data. }
  assert (Hk : forall k, omap conn_msg (take k A) = take k B).
  { clear k. revert HA'. generalize A B. intros A'. induction A' as [|x A' IH]; intros [|y B'] H [|k]; try done.
    injection H as H1 H2. cbn. rewrite H1. f_equal. by apply IH. }
  rewrite take_app, omap_app, Hk. replace (omap conn_msg (take _ (if has_joined es then _ else _))) with (@nil RportConnMsg); [by rewrite app_nil_r|].
  destruct (has_joined es), (k - length A)%nat as [|n]; [done| |done..].
  assert (Hf : conn_msg (free_message ch id) = None) by (unfold conn_msg, to_listener, free_message; cbn [command payload]; rewrite id_of_be; by destruct (_ <=? _)).
  symmetry. transitivity (match conn_msg (free_message ch id) with Some x => [x] | None => [] end); [by destruct n|by rewrite Hf].
Qed.

Lemma conn_msgs_short p es : (length (conn_msgs p es) <= length (host_said ch id p es))%nat.
Proof. unfold conn_msgs, host_said, bridge_said. rewrite !length_app, !length_map. destruct p; cbn; lia. Qed.

(** What the bridge has said so far stays what it said, and the start of a bridge succeeds. *)
Lemma conn_msgs_kept p es p' es' k :
  (k <= length (host_said ch id p es))%nat -> host_said ch id p es `prefix_of` host_said ch id p' es' ->
  take k (conn_msgs p' es') = take k (conn_msgs p es).
Proof using Hid.
  intros Hk [x Hx]. by rewrite <- !conn_msgs_of, Hx, take_app_le.
Qed.
Lemma rport_started s0 es b s b' s' :
  hinv s0 es b s -> b_phase b = POpen -> bridge_step send ch None EStart b s = (Ok b', s') -> b_phase b' = PRunning true true.
Proof using Hch.
  intros (_ & _ & Hu & _) Ep Est. unfold bridge_step in Est. rewrite Ep, M_bind_eq in Est. cbn [conns_insert modify] in Est.
  match type of Est with (_ ≫= _) ?s1 = _ => destruct (fsend (HC := session_courier sid) (first_message ch None (b_id b)) s1 Hu) as (h' & E & _) end.
  { by apply (first_sendable ch None). }
  rewrite (M_bind_Ok _ _ _ _ _ E) in Est. by injection Est as <- <-.
Qed.

(** ** The invariant *)

Definition conn_took (es : list CEvent) : list RportConnMsg := omap (fun e => match e with CMsg m => Some m | _ => None end) es.
Lemma took_no_activation es : conn_took es = [] -> ~ activated es.
Proof.
  intros Ht Ha. assert (CActiveMaster ∈ conn_took es) as H by (apply list_elem_of_omap; by exists (CMsg CActiveMaster)).
  rewrite Ht in H. by apply not_elem_of_nil in H.
Qed.
Record sys_inv (w0 : World) (s0 : Fwd) (y : Sys) : Prop := {
  v_conn : conn_inv conn0 w0 (y_ces y) (sw_session_id wr) (y_conn y) (y_world y);
  v_host : hinv s0 (y_hes y) (y_bridge y) (y_fwd y);
  v_phase : l_phase (y_lst y) = LAccepting true;
  v_entry : l_conns (y_lst y) !! id = if c_entry (y_conn y) then Some q else None;
  v_only i : l_conns (y_lst y) !! i = Some q -> i = id;
  v_queue : exists Q, l_queues (y_lst y) !! q = Some Q /\ (y_taken y <= length Q)%nat /\ conn_took (y_ces y) = take (y_taken y) Q /\
    Q `prefix_of` take (y_up y) (conn_msgs (b_phase (y_bridge y)) (y_hes y)) /\
    (c_entry (y_conn y) = true -> Q = take (y_up y) (conn_msgs (b_phase (y_bridge y)) (y_hes y)));
  v_down : (y_down y <= length (to_host ch id local y))%nat;
  v_up : (y_up y <= length (to_device ch id y))%nat;
  v_arr : b_phase (y_bridge y) <> POpen -> (1 <= y_down y)%nat /\
    (arrivals id false (y_hes y)).2 = take (y_down y - 1) (DaemonForward.reads (y_ces y)) /\
    ((arrivals id false (y_hes y)).1 = false -> c_phase (y_conn y) = CClosed /\ y_down y = length (to_host ch id local y));
  v_ended : b_phase (y_bridge y) = PEnded -> has_joined (y_hes y) = true;
  v_live : match c_phase (y_conn y) with CBridging _ wt => wt = true | CClosed => ~ activated (y_ces y) | _ => True end
}.

(** Until the bridge starts, the device is not told to go on and nothing is read there. *)
Lemma not_activated w0 s0 y : sys_inv w0 s0 y -> b_phase (y_bridge y) = POpen -> ~ activated (y_ces y).
Proof using Hid.
  intros V Ep. destruct (v_queue _ _ _ V) as (Q & _ & _ & Ht & Hp & _). pose proof (v_host _ _ _ V) as (_ & _ & _ & _ & taken & _ & Hph).
  rewrite Ep in *. destruct Hph as (_ & _ & Er & _).
  assert (Hm : conn_msgs POpen (y_hes y) = []) by (unfold conn_msgs; by rewrite Er). rewrite Hm, take_nil in Hp. apply prefix_nil_inv in Hp. subst Q.
  rewrite take_nil in Ht. by apply took_no_activation.
Qed.
Lemma unread w0 s0 y : sys_inv w0 s0 y -> b_phase (y_bridge y) = POpen -> DaemonForward.reads (y_ces y) = [].
Proof using Hid.
  intros V Ep. pose proof (not_activated _ _ _ V Ep). destruct (v_conn _ _ _ V) as (_ & _ & _ & _ & _ & _ & _ & Hc).
  destruct (c_phase (y_conn y)); [by rewrite Hc|tauto..].
Qed.
(** The host's bridge joins only when the device's connection has closed. *)
Lemma joined_closed w0 s0 y : sys_inv w0 s0 y -> has_joined (y_hes y) = true -> c_phase (y_conn y) = CClosed.
Proof.
  intros V Hj. pose proof (v_host _ _ _ V) as (_ & _ & _ & _ & taken & _ & Hph). destruct (v_arr _ _ _ V) as (_ & _ & Ha).
  - intros Ep. rewrite Ep in Hph. destruct Hph as (_ & _ & _ & Hf & _). congruence.
  - apply Ha. destruct (b_phase (y_bridge y)) as [| |rd wt|]; cbn in Hph.
    + destruct Hph as (_ & _ & _ & Hf & _). congruence.
    + destruct Hph as (_ & _ & [] & _). done.
    + destruct Hph as (_ & _ & Hf & _). congruence.
    + destruct Hph as (_ & _ & _ & Hf). by destruct (Hf Hj).
Qed.

(** *** Moves of the device's connection *)

Definition live (p : CPhase) (es : list CEvent) : Prop :=
  match p with CBridging _ wt => wt = true | CClosed => ~ activated es | _ => True end.
Lemma conn_free_closes c w c' w' : conn_free wr c w = (Ok c', w') -> c_phase c' = CClosed.
Proof. unfold conn_free. rewrite M_bind_eq. destruct (try_ _ w) as [[r|?|] w1]; [|done..]. by intros [= <- _]. Qed.
Lemma conn_live es c w e c' w' o :
  conn_step wr e c w = (Ok c', w') -> conn_enabled e c = true -> c_out c = mkWriter o None ->
  live (c_phase c) es -> (midway (c_phase c) -> c_phase c <> CWaiting -> e <> CQueueClosed) ->
  (c_phase c = COpening -> es = []) -> (c_phase c = CWaiting -> ~ activated es) -> e <> CMsg CShutdown -> live (c_phase c') (es ++ [e]).
Proof.
  intros Est Hen Ho Hl Hq Hes Hw Hs. destruct c as [k i lo ph out en]. unfold conn_step, conn_enabled in *.
  cbn [c_phase c_out c_channel c_id c_local c_entry midway live] in *. subst out.
  assert (Hc : ~ activated es -> e <> CMsg CActiveMaster -> ~ activated (es ++ [e])) by (rewrite activated_snoc; tauto).
  destruct ph as [| |rd wt|]; [| |cbn in Hl; subst wt|by destruct e].
  - destruct e; try done. rewrite M_bind_eq in Est. destruct (try_ _ w) as [[[?|?|]|?|] w1]; [..|done|done];
      injection Est as <- _; try done. all: cbn; rewrite (Hes eq_refl); unfold activated; set_solver.
  - assert (Hfree : forall c', c_phase c' = CClosed -> e <> CMsg CActiveMaster -> live (c_phase c') (es ++ [e])) by (intros ? -> ?; by apply Hc; [apply Hw|]).
    destruct e as [|[]| | | | |]; try done; [by injection Est as <- _..| |]; apply conn_free_closes in Est; by apply Hfree.
  - destruct e as [|[]| | |d| |], rd; try done; try (by injection Est as <- _); try (by destruct (Hq I ltac:(done))).
    rewrite M_bind_eq in Est. by destruct (try_ _ w) as [[[?|?|]|?|] w1]; [..|done|done]; injection Est as <- _.
Qed.

Lemma after_conn_frame c l : l_phase (after_conn id c l) = l_phase l /\ l_queues (after_conn id c l) = l_queues l /\
  (forall i p, l_conns (after_conn id c l) !! i = Some p -> l_conns l !! i = Some p).
Proof. unfold after_conn. destruct (c_entry c); [done|]. split_and!; [done..|]. intros i p. cbn. by intros [_ H]%lookup_delete_Some. Qed.
Lemma conn_enabled_open w0 es c w e :
  conn_inv conn0 w0 es (sw_session_id wr) c w -> conn_enabled e c = true -> c_entry c = true /\ c_phase c <> CClosed.
Proof. intros (_ & _ & _ & _ & _ & _ & -> & _). unfold conn_enabled. by destruct (c_phase c). Qed.
Lemma conn_said_read w0 es c w k :
  conn_inv conn0 w0 es (sw_session_id wr) c w -> c_phase c <> CClosed -> (k <= length (conn_said ch id local (c_phase c) es))%nat ->
  (k - 1 <= length (DaemonForward.reads es))%nat.
Proof.
  intros (_ & _ & _ & _ & _ & _ & _ & Hp) Hc. rewrite conn_said_length; [|by intros E; rewrite E in Hp]. destruct (c_phase c); lia || done.
Qed.
Lemma no_shutdown p es : CShutdown ∉ conn_msgs p es.
Proof. unfold conn_msgs. rewrite elem_of_app. intros [H|(d & ? & _)%list_elem_of_fmap]; [|done]. destruct p; set_solver. Qed.
Lemma conn_said_all w0 es c w :
  conn_inv conn0 w0 es (sw_session_id wr) c w -> (length (DaemonForward.reads es) <= length (conn_said ch id local (c_phase c) es) - 1)%nat.
Proof.
  intros (_ & _ & _ & _ & _ & _ & _ & Hp). rewrite conn_said_length; [|by intros E; rewrite E in Hp]. destruct (c_phase c); [subst es; cbn|..]; lia.
Qed.
(** What the task takes is what the bridge said: it is never told to shut down, and its
    queue is not closed while it bridges. *)
Lemma conn_events w0 s0 y e :
  sys_inv w0 s0 y -> conn_can id q e y -> conn_enabled e (y_conn y) = true -> e <> CMsg CShutdown /\ e <> CQueueClosed.
Proof.
  intros V Hcan Hen. destruct (v_queue _ _ _ V) as (Q & EQ & _ & _ & HQ & _). destruct (conn_enabled_open _ _ _ _ _ (v_conn _ _ _ V) Hen) as [Hc _].
  split; intros ->; cbn in Hcan.
  - unfold conn_queue in Hcan. rewrite EQ in Hcan. cbn in Hcan. eapply prefix_lookup_Some in Hcan; [|exact HQ].
    apply lookup_take_Some in Hcan as [Hcan%list_elem_of_lookup_2 _]. by apply no_shutdown in Hcan.
  - rewrite (v_entry _ _ _ V), Hc in Hcan. by destruct Hcan.
Qed.

Lemma move_conn_inv w0 s0 y e c' w' :
  sys_inv w0 s0 y -> conn_can id q e y -> conn_enabled e (y_conn y) = true -> conn_step wr e (y_conn y) (y_world y) = (Ok c', w') ->
  sys_inv w0 s0 (mkSys (y_ces y ++ [e]) c' w' (y_taken y + takes e) (after_conn id c' (y_lst y)) (y_hes y) (y_bridge y) (y_fwd y) (y_down y) (y_up y)).
Proof.
  intros V Hcan Hen Est. pose proof (v_conn _ _ _ V) as Hi. destruct (conn_enabled_open _ _ _ _ _ Hi Hen) as [Hc Hnc].
  destruct (conn_events _ _ _ _ V Hcan Hen) as [Hs Hq]. destruct (after_conn_frame c' (y_lst y)) as (Fp & Fq & Fc).
  assert (Hi' : conn_inv conn0 w0 (y_ces y ++ [e]) (sw_session_id wr) c' w').
  { eapply conn_step_inv; try done. by destruct e. }
  pose proof (conn_said_grows _ _ _ _ _ _ _ Hi Hen Hi') as Hg.
  split; cbn [y_ces y_conn y_world y_taken y_lst y_hes y_bridge y_fwd y_down y_up].
  - exact Hi'.
  - apply V.
  - rewrite Fp. apply V.
  - pose proof (v_entry _ _ _ V) as He. rewrite Hc in He. unfold after_conn. destruct (c_entry c'); [done|]. apply lookup_delete_eq.
  - intros i Hl. by apply (v_only _ _ _ V), Fc.
  - destruct (v_queue _ _ _ V) as (Q & EQ & Ht & Hto & HQ & HQ'). exists Q. rewrite Fq. split_and!; [done| | |done|by intros; apply HQ'].
    + destruct e; cbn; try lia. cbn in Hcan. unfold conn_queue in Hcan. rewrite EQ in Hcan. cbn in Hcan. apply lookup_lt_Some in Hcan. lia.
    + unfold conn_took. rewrite omap_app. fold (conn_took (y_ces y)). rewrite Hto. destruct e; cbn; rewrite ?Nat.add_0_r, ?app_nil_r; try done.
      cbn in Hcan. unfold conn_queue in Hcan. rewrite EQ in Hcan. cbn in Hcan. by rewrite Nat.add_1_r, (take_S_r _ _ _ Hcan).
  - etransitivity; [apply V|]. by apply prefix_length.
  - apply V.
  - intros Hb. destruct (v_arr _ _ _ V Hb) as (H1 & H2 & H3). split_and!; [done| |by intros [? _]%H3].
    rewrite H2, DaemonForward.reads_snoc, take_app_le; [done|]. by eapply conn_said_read; [..|apply V].
  - apply V.
  - destruct Hi as (_ & _ & _ & _ & _ & Ho & _ & Hp). eapply conn_live; try done; [apply V|intros E; rewrite E in Hp; tauto..].
Qed.

(** *** Moves of the host's bridge *)

Lemma dispatch_enabled m b : bridge_enabled (EDispatch m) b = true.
Proof. unfold bridge_enabled. by destruct (b_phase b) as [| |[] []|]. Qed.
Lemma dispatch_same m b s b' s' : bridge_step send ch None (EDispatch m) b s = (Ok b', s') -> b' = b.
Proof.
  intros Est. assert (Est' : (_ ← conn_dispatch false m; mret b) s = (Ok b', s')) by (unfold bridge_step in Est; by destruct (b_phase b) as [| |[] []|]).
  rewrite M_bind_eq in Est'. destruct (conn_dispatch _ m s) as [[|?|] ?]; [|done..]. by injection Est' as <- _.
Qed.
Lemma ended_joined s0 es b s e b' s' :
  hinv s0 es b s -> bridge_enabled e b = true -> bridge_step send ch None e b s = (Ok b', s') ->
  (b_phase b = PEnded -> has_joined es = true) -> b_phase b' = PEnded -> has_joined (es ++ [e]) = true.
Proof using Hch.
  intros Hi Hen Est Hj Ep'. rewrite has_joined_snoc. destruct e as [m| | | | | |]; try (by rewrite orb_true_r).
  1: apply dispatch_same in Est; subst b'; by rewrite Hj.
  all: destruct (b_phase b) as [| |rd wt|] eqn:Ep; unfold bridge_enabled in Hen; rewrite Ep in Hen; try done; try (by destruct rd, wt).
  all: try (destruct Hi as (_ & _ & _ & _ & taken & _ & Hp); rewrite Ep in Hp; by destruct Hp as (_ & _ & [? ?] & _)).
  1: by rewrite (rport_started _ _ _ _ _ _ Hi Ep Est) in Ep'.
  all: unfold bridge_step in Est; rewrite Ep in Est; destruct rd, wt; try done.
  all: exfalso; repeat (rewrite ?M_bind_eq in Est; cbn in Est; first
      [done | (injection Est as <- <-; cbn in Ep'; congruence) | match type of Est with context [match ?x with _ => _ end] => destruct x end]).
Qed.
Lemma bridge_move w0 s0 y e b' s' d :
  sys_inv w0 s0 y -> match e with ERead d => bytes_ok d | _ => True end -> bridge_enabled e (y_bridge y) = true ->
  run_rport_bridge sid ch e (y_bridge y) (y_fwd y) = (Ok b', s') -> (d <= length (to_host ch id local y))%nat ->
  (b_phase b' <> POpen -> (1 <= d)%nat /\ (arrivals id false (y_hes y ++ [e])).2 = take (d - 1) (DaemonForward.reads (y_ces y)) /\
    ((arrivals id false (y_hes y ++ [e])).1 = false -> c_phase (y_conn y) = CClosed /\ d = length (to_host ch id local y))) ->
  sys_inv w0 s0 (mkSys (y_ces y) (y_conn y) (y_world y) (y_taken y) (y_lst y) (y_hes y ++ [e]) b' s' d (y_up y)).
Proof.
  intros V He Hen Est Hd Ha. pose proof (v_host _ _ _ V) as Hi. unfold run_rport_bridge in Est.
  pose proof (host_said_grows _ _ _ _ _ _ _ Hi Hen Est) as Hg. pose proof (conn_msgs_kept _ _ _ _ _ (v_up _ _ _ V) Hg) as Hk.
  split; cbn [y_ces y_conn y_world y_taken y_lst y_hes y_bridge y_fwd y_down y_up]; try (by apply V).
  - by eapply (host_bridge_step_inv (HC := session_courier sid)).
  - rewrite Hk. apply V.
  - exact Hd.
  - etransitivity; [apply V|]. by apply prefix_length.
  - exact Ha.
  - by eapply ended_joined; [..|apply V].
Qed.

(** The message that opens the connection is the first, and the dispatcher changes nothing for it. *)
Lemma move_first_inv w0 s0 y m spec s' :
  sys_inv w0 s0 y -> to_host ch id local y !! y_down y = Some m -> rport_dispatch sid ch m (y_fwd y) = (Ok (Some (id, spec)), s') ->
  sys_inv w0 s0 (mkSys (y_ces y) (y_conn y) (y_world y) (y_taken y) (y_lst y) (y_hes y) (y_bridge y) s' (S (y_down y)) (y_up y)).
Proof.
  intros V Hm Ed. pose proof (lookup_lt_Some _ _ _ Hm) as Hlt. destruct (v_conn _ _ _ V) as (_ & _ & _ & _ & _ & _ & _ & Hp).
  apply conn_said_lookup in Hm; [|by intros E; rewrite E in Hp].
  assert (Hno : forall m, command m <> ForwardActiveSlave -> rport_dispatch sid ch m (y_fwd y) <> (Ok (Some (id, spec)), s')).
  { clear. intros m Hc. unfold rport_dispatch. destruct (command m) eqn:E; try done; rewrite M_bind_eq.
    - destruct (check_reply ch (payload m)); [rewrite M_bind_eq; destruct (try_ _ _) as [[]]|]; done.
    - by destruct (conn_dispatch _ _ _) as [[]].
    - by destruct (conn_dispatch _ _ _) as [[]]. }
  destruct Hm as [[Hd ->]|[(j & d & _ & _ & ->)|(_ & _ & ->)]]; [|by apply Hno in Ed..].
  assert (s' = y_fwd y) as -> by (unfold rport_dispatch in Ed; cbn [command active_slave] in Ed; destruct (13 <=? _); by injection Ed as _ <-).
  split; cbn [y_ces y_conn y_world y_taken y_lst y_hes y_bridge y_fwd y_down y_up]; try (by apply V).
  - exact Hlt.
  - intros Hb. destruct (v_arr _ _ _ V Hb). lia.
Qed.
(** Another message of the connection arrives at the host. *)
Lemma move_down_inv w0 s0 y m b' s' :
  sys_inv w0 s0 y -> to_host ch id local y !! y_down y = Some m -> command m <> ForwardActiveSlave ->
  run_rport_bridge sid ch (EDispatch m) (y_bridge y) (y_fwd y) = (Ok b', s') ->
  sys_inv w0 s0 (mkSys (y_ces y) (y_conn y) (y_world y) (y_taken y) (y_lst y) (y_hes y ++ [EDispatch m]) b' s' (S (y_down y)) (y_up y)).
Proof.
  intros V Hm Hc Est. pose proof (lookup_lt_Some _ _ _ Hm) as Hlt. destruct (v_conn _ _ _ V) as (_ & _ & _ & _ & _ & _ & _ & Hp).
  assert (Hop : c_phase (y_conn y) = COpening -> y_ces y = []) by (by intros E; rewrite E in Hp). apply conn_said_lookup in Hm; [|done].
  apply bridge_move; try done; [apply dispatch_enabled|].
  apply dispatch_same in Est. subst b'. intros Hb. destruct (v_arr _ _ _ V Hb) as (H1 & H2 & H3).
  destruct (arrivals id false (y_hes y)) as [reg items] eqn:Ea. cbn [fst snd] in *. rewrite arrivals_snoc, Ea. cbn [arrive fst].
  destruct reg; [|destruct (H3 eq_refl); lia]. destruct Hm as [[_ ->]|[(j & d & Ej & Hj & ->)|(Ecl & Ej & ->)]]; [done|..].
  - cbn [command payload forward_data]. rewrite (proj2 (Z.ltb_ge _ _)), (payload_id_to _ _ Hid), Z.eqb_refl by (rewrite len_app, len_to_be_bytes; pose proof (len_nonneg d); lia).
    cbn [andb negb fst snd]. split_and!; [lia| |done]. rewrite H2, Ej, drop_app_length'; [|by rewrite length_to_be_bytes].
    replace (S (S j) - 1)%nat with (S j) by lia. replace (S j - 1)%nat with j by lia. by rewrite (take_S_r _ _ _ Hj).
  - cbn [command payload forward_free]. rewrite (proj2 (Z.ltb_ge _ _)) by (by rewrite len_to_be_bytes).
    rewrite <- (app_nil_r (to_be_bytes 4 id)), (payload_id_to _ _ Hid), Z.eqb_refl. cbn [andb negb fst snd]. split_and!; [lia| |].
    + rewrite H2, Ej, !take_ge by lia. done.
    + intros _. split; [done|]. unfold to_host. rewrite conn_said_length, Ecl by done. lia.
Qed.
(** A message of another connection, and the bridge's own steps. *)
Lemma move_other_host_inv w0 s0 y m b' s' :
  sys_inv w0 s0 y -> payload_id (payload m) <> id -> run_rport_bridge sid ch (EDispatch m) (y_bridge y) (y_fwd y) = (Ok b', s') ->
  sys_inv w0 s0 (mkSys (y_ces y) (y_conn y) (y_world y) (y_taken y) (y_lst y) (y_hes y ++ [EDispatch m]) b' s' (y_down y) (y_up y)).
Proof.
  intros V Hm Est. apply bridge_move; try done; [apply dispatch_enabled|apply V|].
  apply dispatch_same in Est. subst b'. intros Hb. rewrite arrivals_snoc. cbn [arrive]. rewrite (proj2 (Z.eqb_neq _ _) Hm), andb_false_r. by apply V.
Qed.
Lemma move_bridge_inv w0 s0 y e b' s' :
  sys_inv w0 s0 y -> bridge_can sid ch id local e y -> bridge_enabled e (y_bridge y) = true ->
  run_rport_bridge sid ch e (y_bridge y) (y_fwd y) = (Ok b', s') ->
  sys_inv w0 s0 (mkSys (y_ces y) (y_conn y) (y_world y) (y_taken y) (y_lst y) (y_hes y ++ [e]) b' s' (y_down y) (y_up y)).
Proof.
  intros V Hcan Hen Est. apply bridge_move; try done; [by destruct e|apply V|]. intros Hb. rewrite arrivals_snoc.
  destruct (b_phase (y_bridge y)) eqn:Ep.
  - assert (e = EStart) as -> by (unfold bridge_enabled in Hen; rewrite Ep in Hen; by destruct e). cbn. rewrite (unread _ _ _ V Ep), take_nil.
    destruct Hcan. by split_and!.
  - assert (Hn : e <> EStart) by (intros ->; unfold bridge_enabled in Hen; by rewrite Ep in Hen). destruct e; try done; apply V; by rewrite Ep.
  - assert (Hn : e <> EStart) by (intros ->; unfold bridge_enabled in Hen; rewrite Ep in Hen; by destruct rd, wr0). destruct e; try done; apply V; by rewrite Ep.
  - unfold bridge_enabled in Hen. rewrite Ep in Hen. by destruct e.
Qed.

(** *** Moves of the listener *)

Lemma listener_other w0 s0 y e l' w' :
  sys_inv w0 s0 y -> other id e -> listener_step wr e (y_lst y) (y_world y) = (Ok l', w') ->
  w' = y_world y /\ l_phase l' = LAccepting true /\ l_conns l' !! id = l_conns (y_lst y) !! id /\
  (forall i, l_conns l' !! i = Some q -> i = id) /\ l_queues l' !! q = l_queues (y_lst y) !! q.
Proof.
  intros V Ho Est. pose proof (v_phase _ _ _ V) as Hp. pose proof (v_only _ _ _ V) as Hu. destruct (v_queue _ _ _ V) as (Q & EQ & _).
  unfold listener_step in Est. rewrite Hp in Est.
  assert (Hsend : forall i m, i <> id -> l_queues (send_conn i m (y_lst y)) !! q = l_queues (y_lst y) !! q).
  { intros i m Hi. unfold send_conn. destruct (l_conns (y_lst y) !! i) as [q'|] eqn:Ei; [|done]. cbn. apply lookup_alter_ne.
    intros <-. by apply Hi, Hu. }
  assert (Hdel : forall i, i <> id -> delete i (l_conns (y_lst y)) !! id = l_conns (y_lst y) !! id) by (intros; by apply lookup_delete_ne).
  assert (Hdu : forall i j, delete j (l_conns (y_lst y)) !! i = Some q -> i = id) by (intros i j [_ H]%lookup_delete_Some; by apply Hu).
  destruct e as [|[i ok|i|i d|i|]| |i| | |i]; try done; injection Est as <- <-; cbn [other] in Ho; cbn [listener_dispatch l_phase l_conns l_queues set_conns];
    rewrite ?send_conn_phase, ?send_conn_conns; split_and!; try done; try (by apply Hsend); try (by apply Hdel); try (by intros ? H; eapply Hdu).
  - cbn. by rewrite lookup_insert_ne.
  - intros j. unfold listener_accept. cbn. rewrite lookup_insert_Some. intros [[_ Ef]|[_ H]]; [|by apply Hu].
    exfalso. apply (is_fresh (dom (l_queues (y_lst y)))). rewrite Ef. apply elem_of_dom. by rewrite EQ.
  - unfold listener_accept. cbn. rewrite lookup_insert_ne; [done|]. intros Ef. apply (is_fresh (dom (l_queues (y_lst y)))).
    rewrite Ef. apply elem_of_dom. by rewrite EQ.
Qed.
Lemma move_other_device_inv w0 s0 y e l' w' :
  sys_inv w0 s0 y -> other id e -> listener_step wr e (y_lst y) (y_world y) = (Ok l', w') ->
  sys_inv w0 s0 (mkSys (y_ces y) (y_conn y) w' (y_taken y) l' (y_hes y) (y_bridge y) (y_fwd y) (y_down y) (y_up y)).
Proof.
  intros V Ho Est. destruct (listener_other _ _ _ _ _ _ V Ho Est) as (-> & F1 & F2 & F3 & F4).
  split; cbn [y_ces y_conn y_world y_taken y_lst y_hes y_bridge y_fwd y_down y_up]; try (by apply V); [done|by rewrite F2; apply V|done|by rewrite F4; apply V].
Qed.
(** What a message of the bridge is for the listener. *)
Lemma host_said_lookup p es k m r :
  host_said ch id p es !! k = Some m -> to_listener m = Some (Ok (Some r)) ->
  (exists x, conn_msg m = Some x /\ listener_dispatch r = send_conn id x) \/ (has_joined es = true /\ conn_msg m = None /\ r = FreeContext id).
Proof.
  intros Hm Hr. unfold conn_msg. rewrite Hr. unfold host_said, bridge_said in Hm. apply list_elem_of_lookup_2 in Hm.
  rewrite !elem_of_app in Hm. destruct Hm as [H|[(d & -> & _)%list_elem_of_fmap|H]].
  - left. assert (m = mkTaskMessage ch ForwardActiveMaster (to_be_bytes 4 id)) as -> by (destruct p; set_solver).
    unfold to_listener in Hr. cbn [command payload] in Hr. destruct (4 <=? _); [|done]. rewrite id_of_be in Hr. injection Hr as <-. by exists CActiveMaster.
  - left. unfold to_listener, HostBridge.data_message in Hr. cbn [command payload] in Hr. destruct (4 <=? _); [|done].
    rewrite id_of_to, bind_Ok in Hr by done. destruct (slice_from _ _); [|done..]. injection Hr as <-. by eexists.
  - right. destruct (has_joined es); [|by apply not_elem_of_nil in H]. apply list_elem_of_singleton in H. subst m. split; [done|].
    unfold to_listener, free_message in Hr. cbn [command payload] in Hr. destruct (4 <=? _); [|done]. rewrite id_of_be in Hr. by injection Hr as <-.
Qed.
Lemma move_up_inv w0 s0 y m r l' w' :
  sys_inv w0 s0 y -> to_device ch id y !! y_up y = Some m -> to_listener m = Some (Ok (Some r)) ->
  listener_step wr (LMsg r) (y_lst y) (y_world y) = (Ok l', w') ->
  sys_inv w0 s0 (mkSys (y_ces y) (y_conn y) w' (y_taken y) l' (y_hes y) (y_bridge y) (y_fwd y) (y_down y) (S (y_up y))).
Proof.
  intros V Hm Hr Est. pose proof (lookup_lt_Some _ _ _ Hm) as Hlt. unfold to_device in Hm. unfold listener_step in Est. rewrite (v_phase _ _ _ V) in Est. injection Est as <- <-.
  assert (Hk : take (S (y_up y)) (conn_msgs (b_phase (y_bridge y)) (y_hes y)) =
    take (y_up y) (conn_msgs (b_phase (y_bridge y)) (y_hes y)) ++ match conn_msg m with Some x => [x] | None => [] end).
  { rewrite <- !conn_msgs_of, (take_S_r _ _ _ Hm), omap_app. cbn. by destruct (conn_msg m). }
  destruct (v_queue _ _ _ V) as (Q & EQ & Ht & Hto & HQ & HQ'). pose proof (v_entry _ _ _ V) as He.
  split; cbn [y_ces y_conn y_world y_taken y_lst y_hes y_bridge y_fwd y_down y_up]; try (by apply V); try done.
  all: destruct (host_said_lookup _ _ _ _ _ Hm Hr) as [(x & Ex & ->)|(Hj & Ex & ->)]; rewrite ?send_conn_phase, ?send_conn_conns; try (by apply V).
  all: try (assert (Hc : c_entry (y_conn y) = false) by (destruct (v_conn _ _ _ V) as (_ & _ & _ & _ & _ & _ & -> & _); by rewrite (joined_closed _ _ _ V Hj)));
    cbn [listener_dispatch l_conns l_queues set_conns].
  - rewrite lookup_delete_eq, Hc. done.
  - intros i [_ H]%lookup_delete_Some. by apply (v_only _ _ _ V).
  - rewrite Hk, Ex. unfold send_conn. rewrite He. destruct (c_entry (y_conn y)) eqn:Hc.
    + exists (Q ++ [x]). cbn. rewrite lookup_alter_eq, EQ. rewrite (HQ' eq_refl) in *. split_and!; [done|rewrite length_app; lia| |done|done].
      by rewrite take_app_le.
    + exists Q. split_and!; try done. by apply prefix_app_r.
  - rewrite Hk, Ex, app_nil_r. exists Q. rewrite Hc. by split_and!.
Qed.

(** Every move keeps the invariant. *)
Lemma moves_inv w0 s0 y y' : sys_inv w0 s0 y -> moves wr sid ch id local q y y' -> sys_inv w0 s0 y'.
Proof.
  intros V Hm. revert V. destruct Hm; intros V.
  - by apply move_conn_inv.
  - by eapply move_first_inv.
  - by apply move_down_inv.
  - by apply move_bridge_inv.
  - by eapply move_up_inv.
  - by apply move_other_host_inv.
  - by eapply move_other_device_inv.
Qed.
Lemma start_inv_sys w0 l0 s0 :
  link_open (sw_session_id wr) (link w0) -> accepted_by id q l0 -> ready sid (f_host s0) -> (forall i, f_conns s0 !! i <> Some hq) ->
  sys_inv w0 s0 (start_sys ch id local hq w0 l0 s0).
Proof.
  intros Ho (A1 & A2 & A3 & A4) Hr Hq. split; cbn; try done.
  - refine (conj eq_refl (conj eq_refl (conj Hr (conj _ _)))); [by apply (carried_nil (Courier := session_courier sid))|]. exists []. by split_and!.
  - by exists [].
Qed.
Lemma reachable_inv w0 l0 s0 y :
  link_open (sw_session_id wr) (link w0) -> accepted_by id q l0 -> ready sid (f_host s0) -> (forall i, f_conns s0 !! i <> Some hq) ->
  rtc (moves wr sid ch id local q) (start_sys ch id local hq w0 l0 s0) y -> sys_inv w0 s0 y.
Proof.
  intros Ho Ha Hr Hq Hrun. pose proof (start_inv_sys w0 l0 s0 Ho Ha Hr Hq) as V. revert V.
  induction Hrun as [|y1 y2 y3 Hm _ IH]; intros V; [done|]. by eapply IH, moves_inv.
Qed.

(** ** What the ends have written *)

Lemma took_nothing es : conn_took es = [] -> writes es = [].
Proof. unfold writes. induction es as [|[|[]| | | | |] es IH]; try done; by intros H; apply IH. Qed.
Lemma took_data es ds : conn_took es = map CData ds -> omap (fun e => match e with CMsg (CData d) => Some d | _ => None end) es = ds.
Proof.
  revert ds. induction es as [|[|[]| | | | |] es IH]; intros ds; try (by intros H; apply IH); destruct ds as [|d' ds]; try done.
  intros [= <- H]. cbn. f_equal. by apply IH.
Qed.
Lemma took_writes es ds : conn_took es = CActiveMaster :: map CData ds -> writes es = ds.
Proof.
  unfold writes. induction es as [|[|[]| | | | |] es IH]; try done; try (by intros H; apply IH). intros [= H]. by apply took_data.
Qed.
Lemma concat_prefix (xs ys : list bytes) : xs `prefix_of` ys -> concat xs `prefix_of` concat ys.
Proof. intros [zs ->]. rewrite concat_app. by eexists. Qed.

(** The device's socket: a prefix of what the host has read. *)
Lemma device_written w0 s0 y : sys_inv w0 s0 y -> exists ds, w_out (c_out (y_conn y)) = concat ds /\ ds `prefix_of` HostBridge.reads (y_hes y) /\
  (activated (y_ces y) -> c_entry (y_conn y) = true -> y_up y = length (to_device ch id y) -> y_taken y = length (conn_queue q (y_lst y)) ->
   ds = HostBridge.reads (y_hes y)).
Proof.
  intros V. destruct (v_conn _ _ _ V) as (_ & _ & _ & _ & _ & -> & _). destruct (v_queue _ _ _ V) as (Q & EQ & Ht & Hto & HQ & HQ').
  exists (writes (y_ces y)). split; [done|]. unfold conn_queue. rewrite EQ. cbn [default from_option].
  assert (Hp : conn_took (y_ces y) `prefix_of` conn_msgs (b_phase (y_bridge y)) (y_hes y)).
  { rewrite Hto. etransitivity; [apply prefix_take|]. etransitivity; [exact HQ|]. apply prefix_take. }
  destruct (conn_took (y_ces y)) as [|x ms] eqn:Em.
  - rewrite (took_nothing _ Em). split; [apply prefix_nil|]. by intros ?%took_no_activation.
  - assert (Hm : conn_msgs (b_phase (y_bridge y)) (y_hes y) = CActiveMaster :: map CData (HostBridge.reads (y_hes y))).
    { destruct (v_host _ _ _ V) as (_ & _ & _ & _ & taken & _ & Hph). unfold conn_msgs in *. destruct (b_phase (y_bridge y)); try done.
      destruct Hph as (_ & _ & Er & _). rewrite Er in Hp. by apply prefix_nil_inv in Hp. }
    rewrite Hm in Hp. pose proof (prefix_cons_inv_1 _ _ _ _ Hp) as ->. apply prefix_cons_inv_2 in Hp. destruct Hp as [rest Hrest].
    assert (ms = map CData (take (length ms) (HostBridge.reads (y_hes y)))) as Hms.
    { rewrite <- firstn_map, Hrest. by rewrite take_app_length. }
    rewrite Hms in Em. rewrite (took_writes _ _ Em). split; [apply prefix_take|]. intros _ Hc Hu Hk. apply take_ge.
    apply (f_equal length) in Hto. rewrite length_take, Hk, Nat.min_id, (HQ' Hc), Hm, take_ge in Hto;
      [cbn in Hto; rewrite length_map in Hto; lia|]. rewrite Hu, <- Hm. apply conn_msgs_short.
Qed.
(** The host's socket: a prefix of what the device has read. *)
Lemma host_written w0 s0 y : sys_inv w0 s0 y -> exists ds, w_out (b_out (y_bridge y)) = concat ds /\ ds `prefix_of` DaemonForward.reads (y_ces y) /\
  (y_down y = length (to_host ch id local y) -> f_queues (y_fwd y) !! hq = Some [] -> ds = DaemonForward.reads (y_ces y)).
Proof.
  intros V. pose proof (v_host _ _ _ V) as (_ & _ & _ & _ & taken & -> & Hph). exists taken. split; [done|].
  destruct (b_phase (y_bridge y)) as [| |rd wt|] eqn:Ep; cbn [phase_inv] in Hph.
  - destruct Hph as (_ & -> & _). split; [apply prefix_nil|]. by rewrite (unread _ _ _ V Ep).
  - by destruct Hph as (_ & _ & [? ?] & _).
  - destruct Hph as ((pending & Hp & Ha & _) & _). destruct (v_arr _ _ _ V) as (_ & Har & _); [by rewrite Ep|]. change (bool_decide (is_Some None)) with false in Ha.
    rewrite Ha in Har. split; [eapply prefix_app_l; rewrite Har; apply prefix_take|]. intros Hd Hq. rewrite Hp in Hq. injection Hq as ->.
    rewrite app_nil_r in Har. rewrite Har. apply take_ge. rewrite Hd. exact (conn_said_all _ _ _ _ (v_conn _ _ _ V)).
  - destruct (v_arr _ _ _ V) as (_ & Har & _); [by rewrite Ep|]. destruct Hph as (_ & Hpre & _ & Hj).
    destruct (Hj (v_ended _ _ _ V Ep)) as (_ & ->). change (bool_decide (is_Some None)) with false in *. rewrite Har. split; [apply prefix_take|].
    intros Hd _. apply take_ge. rewrite Hd. exact (conn_said_all _ _ _ _ (v_conn _ _ _ V)).
Qed.
(** An activated connection is at work on both sides. *)
Lemma activated_open w0 s0 y : sys_inv w0 s0 y -> activated (y_ces y) ->
  (exists rd, c_phase (y_conn y) = CBridging rd true) /\ (exists rd, b_phase (y_bridge y) = PRunning rd true) /\ has_joined (y_hes y) = false.
Proof.
  intros V Ha. assert (Hc : exists rd, c_phase (y_conn y) = CBridging rd true).
  { pose proof (v_live _ _ _ V) as Hl. destruct (v_conn _ _ _ V) as (_ & _ & _ & _ & _ & _ & _ & Hp).
    destruct (c_phase (y_conn y)) as [| |rd wt|]; [by rewrite Hp in Ha; apply not_elem_of_nil in Ha|tauto|subst wt; by eexists|done]. }
  destruct Hc as [rd Hc]. assert (Hj : has_joined (y_hes y) = false).
  { destruct (has_joined (y_hes y)) eqn:Hj; [|done]. by rewrite (joined_closed _ _ _ V Hj) in Hc. }
  split; [by eexists|]. split; [|done]. pose proof (v_host _ _ _ V) as (_ & _ & _ & _ & taken & _ & Hph).
  destruct (b_phase (y_bridge y)) as [| |rd' wt|] eqn:Ep.
  - by apply (not_activated _ _ _ V) in Ha.
  - by destruct Hph as (_ & _ & [? ?] & _).
  - exists rd'. destruct wt; [done|]. destruct Hph as (_ & _ & _ & Hw). destruct (Hw eq_refl) as [Hr _].
    destruct (v_arr _ _ _ V) as (_ & _ & Hcl); [by rewrite Ep|]. destruct (Hcl Hr). congruence.
  - rewrite (v_ended _ _ _ V Ep) in Hj. done.
Qed.
End Sides.

(** C19: a connection of a reverse rule, end to end: the device's task, the listener's
    dispatcher and the host's bridge in every interleaving, with messages of other
    connections between theirs.  The host's socket gets a prefix of the bytes the device
    read, the device's socket a prefix of the bytes the host read, in order and nothing
    else; and all of them once the messages have arrived and the queues are empty. *)
Theorem rport_bytes_end_to_end {HA : Aead} {HL : AeadLaws HA} {OS : Os} {HN : HostNet}
    (wr : SharedWriter) (sid ch id : Z) (local : bytes) (q hq : positive) (w0 : World) (l0 : Listener) (s0 : Fwd) (y : Sys) :
  u32 ch -> u32 id -> spec_ok local ->
  link_open (sw_session_id wr) (link w0) -> accepted_by id q l0 -> ready sid (f_host s0) -> (forall i, f_conns s0 !! i <> Some hq) ->
  rtc (moves wr sid ch id local q) (start_sys ch id local hq w0 l0 s0) y ->
  w_out (b_out (y_bridge y)) `prefix_of` concat (DaemonForward.reads (y_ces y)) /\
  w_out (c_out (y_conn y)) `prefix_of` concat (HostBridge.reads (y_hes y)) /\
  (y_down y = length (to_host ch id local y) -> f_queues (y_fwd y) !! hq = Some [] ->
   w_out (b_out (y_bridge y)) = concat (DaemonForward.reads (y_ces y))) /\
  (activated (y_ces y) -> y_up y = length (to_device ch id y) -> y_taken y = length (conn_queue q (y_lst y)) ->
   w_out (c_out (y_conn y)) = concat (HostBridge.reads (y_hes y))).
Proof.
  intros Hch Hid Hlocal Ho Ha Hr Hq Hrun. assert (V : sys_inv wr sid ch id local q hq w0 s0 y) by (by eapply reachable_inv).
  pose proof V as Vh. apply host_written in Vh as (ds & -> & Hd & Hd'); [|done..].
  pose proof V as Vd. apply device_written in Vd as (us & -> & Hu & Hu'); [|done..].
  split_and!; [by apply concat_prefix..|intros; f_equal; by apply Hd'|]. intros Hact Hup Hk. f_equal. apply Hu'; try done.
  pose proof V as Vo. apply activated_open in Vo as ([rd E] & _); [|done..].
  destruct (v_conn _ _ _ _ _ _ _ _ _ _ V) as (_ & _ & _ & _ & _ & _ & -> & _). by rewrite E.
Qed.

(** C23: an activated connection of a reverse rule never ends by itself.  Each side frees
    the context when both its directions have ended, and the direction to the socket ends
    when the other side has freed the context (all writes succeed here): so in every run
    both tasks still wait, also when both sockets are at their end, neither side has sent
    the message that frees the context, and the listener keeps the entry. *)
Theorem rport_connection_lingers {HA : Aead} {HL : AeadLaws HA} {OS : Os} {HN : HostNet}
    (wr : SharedWriter) (sid ch id : Z) (local : bytes) (q hq : positive) (w0 : World) (l0 : Listener) (s0 : Fwd) (y : Sys) :
  u32 ch -> u32 id -> spec_ok local ->
  link_open (sw_session_id wr) (link w0) -> accepted_by id q l0 -> ready sid (f_host s0) -> (forall i, f_conns s0 !! i <> Some hq) ->
  rtc (moves wr sid ch id local q) (start_sys ch id local hq w0 l0 s0) y -> activated (y_ces y) ->
  (exists rd, c_phase (y_conn y) = CBridging rd true) /\ (exists rd, b_phase (y_bridge y) = PRunning rd true) /\
  l_conns (y_lst y) !! id = Some q /\
  (forward_free ch id ∉ to_host ch id local y) /\ (free_message ch id ∉ to_device ch id y).
Proof.
  intros Hch Hid Hlocal Ho Ha Hr Hq Hrun Hact. assert (V : sys_inv wr sid ch id local q hq w0 s0 y) by (by eapply reachable_inv).
  pose proof V as Vo. apply activated_open in Vo as ([rd E] & Hb & Hj); [|done..]. split_and!; [by eexists|done|..].
  - rewrite (v_entry _ _ _ _ _ _ _ _ _ _ V). destruct (v_conn _ _ _ _ _ _ _ _ _ _ V) as (_ & _ & _ & _ & _ & _ & -> & _). by rewrite E.
  - unfold to_host, conn_said. rewrite E, app_nil_r, elem_of_app. by intros [?%list_elem_of_singleton|(d & ? & _)%list_elem_of_fmap].
  - unfold to_device, host_said, bridge_said. rewrite Hj, app_nil_r, elem_of_app. destruct Hb as [rd' ->].
    by intros [?%list_elem_of_singleton|(d & ? & _)%list_elem_of_fmap].
Qed.

Section Witness.
#[local] Existing Instance ToyAead.aead.
#[local] Existing Instance ToyAead.laws.
#[local] Existing Instance CalmOs.os.
#[local] Existing Instance OpenNet.net.

(** Connection 9 of a rule on channel 5: it is opened, the device's client says "hi" and
    closes, the host's server answers "ok" and closes. *)
Definition rport_listener : Listener := mkListener 5 (lit "tcp:1") (lit "tcp:80") 4 (LAccepting true) {[9 := 1%positive]} {[1%positive := []]}.
Definition rport_start : Sys := start_sys 5 9 (lit "tcp:80") 1 start_world rport_listener (mkFwd device_host ∅ ∅).
Lemma rport_listener_accepted : accepted_by 9 1 rport_listener.
Proof. split_and!; [done..|]. intros i. cbn. by intros [<- _]%lookup_singleton_Some. Qed.
Definition rport_moves : list Move :=
  [MConn CRun; MFirst; MBridge EStart; MUp; MConn (CMsg CActiveMaster); MConn (CRead (lit "hi")); MConn CReadEnd; MDown; MBridge ERecv;
   MBridge (ERead (lit "ok")); MBridge EReadEnd; MUp; MConn (CMsg (CData (lit "ok")))].
Definition rport_end : option Sys := move_all (mkSharedWriter 3) 7 5 9 (lit "tcp:80") 1 rport_moves rport_start.
(** What holds of the state this run ends in. *)
Definition rport_facts (y : Sys) : bool :=
  bool_decide (y_ces y = [CRun; CMsg CActiveMaster; CRead (lit "hi"); CReadEnd; CMsg (CData (lit "ok"))]) &&
  bool_decide (HostBridge.reads (y_hes y) = [lit "ok"]) && bool_decide (y_down y = length (to_host 5 9 (lit "tcp:80") y)) &&
  bool_decide (f_queues (y_fwd y) !! 1%positive = Some []) && bool_decide (y_up y = length (to_device 5 9 y)) &&
  bool_decide (y_taken y = length (conn_queue 1 (y_lst y))).
Lemma rport_end_facts : exists y, rport_end = Some y /\ rport_facts y = true.
Proof.
  destruct rport_end as [y|] eqn:E; [|by vm_compute in E]. exists y. split; [done|].
  assert (E' : rport_facts <$> rport_end = Some true) by (by vm_compute). rewrite E in E'. by injection E' as ->.
Qed.
Lemma rport_bytes_end_to_end_witness : exists y,
  rport_end = Some y /\ w_out (b_out (y_bridge y)) = lit "hi" /\ w_out (c_out (y_conn y)) = lit "ok".
Proof.
  destruct rport_end_facts as (y & E & F). exists y. split; [done|]. unfold rport_facts in F. rewrite !andb_true_iff, !bool_decide_eq_true in F.
  destruct F as (((((F1 & F2) & F3) & F4) & F5) & F6).
  destruct (rport_bytes_end_to_end (mkSharedWriter 3) 7 5 9 (lit "tcp:80") 1 1 start_world rport_listener (mkFwd device_host ∅ ∅) y) as (_ & _ & H1 & H2).
  - ulia.
  - ulia.
  - split; [apply lit_ok|vm_compute; discriminate].
  - split; [done|]. by vm_compute.
  - apply rport_listener_accepted.
  - apply device_ready.
  - intros i. cbn. by rewrite lookup_empty.
  - by eapply move_all_moves.
  - specialize (H1 F3 F4). assert (Ha : activated (y_ces y)) by (unfold activated; rewrite F1; apply list_elem_of_further, list_elem_of_here).
    specialize (H2 Ha F5 F6). rewrite F1 in H1. rewrite F2 in H2. exact (conj H1 H2).
Defined.
Lemma rport_connection_lingers_witness : exists y rd rd',
  rport_end = Some y /\ CReadEnd ∈ y_ces y /\ c_phase (y_conn y) = CBridging rd true /\ b_phase (y_bridge y) = PRunning rd' true.
Proof.
  destruct rport_end_facts as (y & E & F). unfold rport_facts in F. rewrite !andb_true_iff, !bool_decide_eq_true in F.
  destruct F as (((((F1 & _) & _) & _) & _) & _).
  destruct (rport_connection_lingers (mkSharedWriter 3) 7 5 9 (lit "tcp:80") 1 1 start_world rport_listener (mkFwd device_host ∅ ∅) y)
    as ([rd H1] & [rd' H2] & _).
  - ulia.
  - ulia.
  - split; [apply lit_ok|vm_compute; discriminate].
  - split; [done|]. by vm_compute.
  - apply rport_listener_accepted.
  - apply device_ready.
  - intros i. cbn. by rewrite lookup_empty.
  - by eapply move_all_moves.
  - unfold activated. rewrite F1. apply list_elem_of_further, list_elem_of_here.
  - exists y, rd, rd'. split; [exact E|]. split; [rewrite F1; do 3 apply list_elem_of_further; apply list_elem_of_here|exact (conj H1 H2)].
Defined.
End Witness.
