(* ===== verification/InteropSetup.v ===== *)
(** * Host and daemon: setting up a reverse rule

    [handle_server_rport] on the host and, on the device, [handle_forward_task] for its first
    message and the listener's task up to the host's answer, put together: each side is given
    the messages the other one sends. *)

From S2P Require Import Prelude RustStr Config Tlv Serializer Encrypt Transport Daemon DaemonForward.
From S2P Require Import HostMaps HostChannels HostTask HostFile HostForward HostBridge HostClient InteropRport.

(** A node as it is typed: one word of visible ASCII characters. *)
Definition node (s : bytes) : Prop := s <> [] /\ Forall (fun b => 32 < b < 127) s.
#[global] Instance node_dec s : Decision (node s).
Proof. unfold node. apply _. Defined.

Lemma node_ascii s : node s -> ascii s.
Proof. intros [_ H]. eapply Forall_impl; [exact H|]. cbn. lia. Qed.
Lemma node_no_zero s : node s -> 0 ∉ s.
Proof. intros [_ H] Hin. rewrite Forall_forall in H. apply H in Hin. lia. Qed.
Lemma split_word cur s rest : Forall (fun b => 32 < b < 127) s ->
  split_ws_go cur (map (fun b => [b]) s ++ rest) = split_ws_go (cur ++ s) rest.
Proof.
  intros H. revert cur. induction H as [|b s Hb _ IH]; intros cur; [by rewrite app_nil_r|]. cbn [map app split_ws_go].
  assert (is_ws [b] = false) as -> by (cbn; unfold in_rng; by tests). by rewrite IH, <- app_assoc.
Qed.
Lemma split_two a b : node a -> node b -> split_whitespace (from_utf8_lossy (a ++ [32] ++ b)) = [a; b].
Proof.
  intros Ha Hb. assert (Hs : ascii (a ++ [32] ++ b)).
  { apply Forall_app. split; [by apply node_ascii|]. constructor; [lia|by apply node_ascii]. }
  rewrite from_utf8_lossy_valid by (by apply ascii_utf8). unfold split_whitespace. rewrite chars_ascii by done.
  rewrite !map_app, split_word by apply Ha. cbn [map app split_ws_go]. change (is_ws [32]) with true. cbn iota.
  rewrite bool_decide_false by apply Ha. f_equal. rewrite <- (app_nil_r (map _ b)), split_word by apply Hb. cbn. rewrite bool_decide_false by apply Hb. done.
Qed.
Lemma node_sent ch id local : node local -> opened_spec ch id local = local.
Proof.
  intros Hl. unfold opened_spec, active_slave, spec_payload. cbn [payload c_id c_local new_conn].
  rewrite app_assoc, drop_app_length' by (by rewrite length_app, length_to_be_bytes, length_replicate).
  rewrite from_utf8_lossy_valid.
  - unfold trim_end_matches. change [0] with (replicate 1 0). rewrite drop_while_end_spaces by done. by apply trim_zeros_free, node_no_zero.
  - apply ascii_utf8, Forall_app. split; [by apply node_ascii|]. constructor; [lia|constructor].
Qed.

Section Setup.
Context {HA : Aead} {HL : AeadLaws HA} {OS : Os} {HN : HostNet}.
Context (wr : SharedWriter) (ch lid : Z) (remote local : bytes).
Hypothesis Hch : u32 ch.
Hypothesis Hlid : u32 lid.
Hypothesis Hremote : node remote.
Hypothesis Hlocal : node local.
Hypothesis Hlen : len remote + len local <= 2 ^ 19.

Abbreviation l0 := (new_listener ch remote local lid).
Definition rport_init : TaskMessage := mkTaskMessage ch ForwardInit (remote ++ [32] ++ local).
Definition check_answer : TaskMessage := mkTaskMessage ch ForwardCheckResult (to_be_bytes 4 lid ++ [reachable_flag local]).

(** The host's answer to the listener's check, and what the daemon makes of it. *)
Lemma host_answers : reply_to ch (check_request l0) = Some check_answer.
Proof using Hlid Hlocal.
  unfold reply_to, check_request, check_reply. cbn [command payload l_id l_local new_listener]. rewrite (proj2 (Z.leb_le _ _)) by (rewrite len_spec_payload; pose proof (len_nonneg local); lia).
  cbv zeta. pose proof (node_sent ch lid local Hlocal) as Hs. unfold opened_spec, active_slave in Hs. cbn [payload c_id c_local new_conn] in Hs. rewrite Hs.
  unfold check_answer, spec_payload. by rewrite payload_id_to.
Qed.
Lemma answer_routed : to_listener check_answer = Some (Ok (Some (CheckResult lid (reachable_flag local =? 1)))).
Proof using Hlid.
  unfold to_listener, check_answer. cbn [command payload]. rewrite (proj2 (Z.leb_le _ _)) by (rewrite len_app, len_to_be_bytes; done).
  rewrite id_of_to, bind_Ok, (index_within _ _ 0) by (done || rewrite length_app, length_to_be_bytes; cbn; lia).
  rewrite bind_Ok, app_nth2 by (rewrite length_to_be_bytes; cbn; lia). rewrite length_to_be_bytes. cbn.
  unfold reachable_flag. by repeat case_match.
Qed.

(** The daemon registers a listener for the channel, and hands it the answer. *)
Lemma daemon_registers sid' w addr : start_listener remote = Ok addr -> rport_listeners (fwd w) !! ch = None ->
  exists w1 qd, handle_forward_task rport_init sid' wr w = (Ok tt, w1) /\ link w1 = link w /\ rport_listeners (fwd w1) !! ch = Some qd /\
    rport_tasks (fwd w1) !! qd = Some (mkRportTask ch remote local false) /\ rport_queues (fwd w1) !! qd = Some [].
Proof using Hlocal Hremote.
  intros Hs Hn. unfold handle_forward_task. rewrite M_bind_eq. cbn [get rport_init channel_id command]. rewrite Hn. unfold handle_rport_init, rport_init_spawn.
  cbn [payload channel_id rport_init]. rewrite (split_two _ _ Hremote Hlocal). cbn [length Nat.ltb Nat.leb]. cbv zeta.
  change (index 0 [remote; local]) with (Ok remote). change (index 1 [remote; local]) with (Ok local).
  rewrite M_bind_eq, !M_bind_lift, Hs. eexists _, _. split; [reflexivity|].
  cbn. by rewrite !lookup_insert_eq.
Qed.
Lemma answer_delivered sid' w qd : rport_listeners (fwd w) !! ch = Some qd -> rport_queues (fwd w) !! qd = Some [] ->
  exists w', handle_forward_task check_answer sid' wr w = (Ok tt, w') /\ rport_queues (fwd w') !! qd = Some [CheckResult lid (reachable_flag local =? 1)].
Proof using Hlid.
  intros Hl Hq. unfold handle_forward_task. rewrite M_bind_eq. cbn [get]. change (channel_id check_answer) with ch. rewrite Hl, answer_routed.
  eexists. split; [reflexivity|]. cbn. by rewrite lookup_alter_eq, Hq.
Qed.
(** The listener's task asks the host, and is given its answer. *)
Lemma listener_asks w : link_open (sw_session_id wr) (link w) -> exists w1,
  lrun wr l0 w [LRun] (DaemonForward.set_phase LChecking l0) w1 /\ puts (sw_session_id wr) [check_request l0] w w1 /\ fwd w1 = fwd w.
Proof using Hch Hlocal Hlen HL.
  intros Ho. pose proof (len_nonneg remote). assert (Hl : spec_ok local) by (split; [by apply ascii_bytes_ok, node_ascii|lia]).
  destruct (try_send wr (check_request l0) w Ho) as (w1 & E1 & P1 & F1); [by apply spec_sendable|]. exists w1. split; [|done].
  apply (run_snoc _ _ _ _ [] l0 w LRun); [constructor|done|]. unfold listener_step. cbn [l_phase new_listener].
  change (mkTaskMessage (l_channel l0) ForwardCheck _) with (check_request l0). by rewrite (M_bind_Ok _ _ _ _ _ E1).
Qed.
Lemma listener_told w ok : link_open (sw_session_id wr) (link w) -> exists l w',
  lrun wr l0 w [LRun; LMsg (CheckResult lid ok)] l w' /\
  puts (sw_session_id wr) (check_request l0 :: if ok then [success_notice l0] else []) w w' /\
  if ok then l_phase l = LAccepting true /\ l_conns l = ∅ /\ l_queues l = ∅ /\ fwd w' = fwd w
  else l_phase l = LEnded /\ rport_listeners (fwd w') !! ch = None.
Proof using Hch Hlocal Hremote Hlen HL.
  intros Ho. destruct (listener_asks w Ho) as (w1 & Hrun & P1 & F1). pose proof (len_nonneg remote). pose proof (len_nonneg local).
  assert (Hgo : forall l w', listener_check wr (CheckResult lid ok) (DaemonForward.set_phase LChecking l0) w1 = (Ok l, w') ->
    lrun wr l0 w [LRun; LMsg (CheckResult lid ok)] l w') by (intros; by eapply (run_snoc _ _ _ _ [LRun])).
  unfold listener_check in Hgo. cbn [l_id DaemonForward.set_phase new_listener] in Hgo. rewrite Z.eqb_refl in Hgo. destruct ok.
  - destruct (try_send wr (success_notice l0) w1) as (w2 & E2 & P2 & F2); [apply P1| |].
    { apply small_sendable; [done| |]; cbn [payload success_notice l_remote l_local new_listener].
      - rewrite !bytes_ok_app. split_and!; try apply lit_ok; by apply ascii_bytes_ok, node_ascii.
      - rewrite !len_app. change (len (lit "0|")) with 2. change (len (lit " ")) with 1. lia. }
    exists (DaemonForward.set_phase (LAccepting true) (DaemonForward.set_phase LChecking l0)), w2. split; [apply Hgo; by rewrite (M_bind_Ok _ _ _ _ _ E2)|].
    split; [by eapply (puts_app _ [_] [_])|]. split_and!; try done. congruence.
  - eexists _, _. split; [by apply Hgo|]. split; [done|]. split; [done|]. apply lookup_delete_eq.
Qed.
End Setup.

(** C20: setting up a reverse rule, host and daemon together.  The host's first message
    makes the daemon register a listener for the channel; the listener's check is answered
    by the host with whether the local port can be reached, and the daemon hands that
    answer to the listener.  If the port can be reached, the listener goes on to accept
    connections, its notice makes the host register the rule, and each accepted connection
    starts with an empty queue of its own.  If not, the listener ends without a word, its
    registration is gone, and the host waits until its time is over and has no rule. *)
Theorem rport_established {HA : Aead} {HL : AeadLaws HA} {OS : Os} {HI : HashIter} {HN : HostNet}
    (wr : SharedWriter) (sid sid' ch lid port : Z) (word remote local addr key : bytes) (words : list bytes)
    (rest : list RxEvent) (a : ChannelSpec.t) (t : Task) (w : World) :
  let l0 := new_listener ch remote local lid in
  let reached := bool_decide (local_connect_error (lit "127.0.0.1:" ++ fmt_dec port) = None) in
  let task := remote ++ [32] ++ local in
  u32 ch -> u32 lid -> node remote -> node local -> len remote + len local <= 2 ^ 19 ->
  parse_forward_port local = Ok port -> start_listener remote = Ok addr ->
  rport_listeners (fwd w) !! ch = None -> link_open (sw_session_id wr) (link w) ->
  ready sid (t_host t) -> implements (t_host t) a -> listening ch a ->
  t_rx t = RxMsg (check_request l0) :: (if reached then RxMsg (success_notice l0) else RxTimeout) :: rest ->
  exists w1 qd w2 l w3 r t',
    handle_forward_task (rport_init ch remote local) sid' wr w = (Ok tt, w1) /\
    rport_listeners (fwd w1) !! ch = Some qd /\ rport_tasks (fwd w1) !! qd = Some (mkRportTask ch remote local false) /\
    handle_forward_task (check_answer ch lid local) sid' wr w1 = (Ok tt, w2) /\ rport_queues (fwd w2) !! qd = Some [CheckResult lid reached] /\
    lrun wr l0 w1 [LRun; LMsg (CheckResult lid reached)] l w3 /\
    puts (sw_session_id wr) (check_request l0 :: if reached then [success_notice l0] else []) w1 w3 /\
    handle_server_rport key sid ch (word :: remote :: local :: words) t = (r, t') /\
    said sid [rport_init ch remote local; check_answer ch lid local] (t_host t) (t_host t') /\
    if reached then
      (exists tx, r = Ok (mkRule tx remote)) /\
      forward_map (t_host t') = <[task := ForwardEntry.mk ch sid key Reverse task None]> (forward_map (t_host t)) /\
      rport_listeners (fwd w3) !! ch = Some qd /\ forall id, accepted_by id (fresh (dom (l_queues l))) (listener_accept id l)
    else
      r = err TimedOut "Timeout waiting for ForwardSuccess" /\ forward_map (t_host t') = forward_map (t_host t) /\
      l_phase l = LEnded /\ rport_listeners (fwd w3) !! ch = None.
Proof.
  intros l0 reached task Hch Hlid Hre Hlo Hlen Hp Hs Hn Ho Hr Hi Hls Hrx.
  assert (Hf : (reachable_flag local =? 1) = reached) by (unfold reachable_flag, reached; rewrite Hp; by destruct (local_connect_error _)).
  destruct (daemon_registers wr ch remote local Hre Hlo sid' w addr Hs Hn) as (w1 & qd & E1 & Ew & Eq & Et & Eqq).
  destruct (answer_delivered wr ch lid local Hlid sid' w1 qd Eq Eqq) as (w2 & E2 & Eq2). rewrite Hf in Eq2.
  destruct (listener_told wr ch lid remote local Hch Hre Hlo Hlen w1 reached) as (l & w3 & Hrun & Hputs & Hl); [by rewrite Ew|].
  destruct (rport_rule_protocol key sid ch port word remote local words [check_request l0] (if reached then RxMsg (success_notice l0) else RxTimeout)
    (if reached then Ok tt else err TimedOut "Timeout waiting for ForwardSuccess") rest a t) as (r & t' & E & Hsaid & _ & Hout); try done.
  { apply small_sendable; [done| |].
    - rewrite !bytes_ok_app. split_and!; [by apply ascii_bytes_ok, node_ascii|repeat constructor; ulia|by apply ascii_bytes_ok, node_ascii].
    - cbn [payload]. rewrite !len_app. change (len [32]) with 1. lia. }
  { by repeat constructor. }
  { by destruct reached. }
  unfold l0 in Hsaid. rewrite omap_cons_list, host_answers in Hsaid by done. exists w1, qd, w2, l, w3, r, t'. split_and!; try done. destruct reached.
  - destruct Hout as (tx & -> & _ & Ef & _). destruct Hl as (Hph & Hc & Hq & Hfw). split_and!; [by eexists|done|by rewrite Hfw|].
    intros id. unfold accepted_by, listener_accept. cbn. rewrite !lookup_insert_eq, Hc. split_and!; try done.
    intros i. rewrite lookup_insert_Some, lookup_empty. by intros [[? _]|[_ ?]].
  - destruct Hout as ((er & [= <-] & ->) & _ & Ef & _). by destruct Hl.
Qed.

Section SetupWitness.
#[local] Existing Instance ToyAead.aead.
#[local] Existing Instance ToyAead.laws.
#[local] Existing Instance CalmOs.os.
#[local] Existing Instance SomeOrder.order.
#[local] Existing Instance OpenNet.net.

Definition setup_listener : Listener := new_listener 5 (lit "tcp:8080") (lit "tcp:80") 9.
Definition setup_task : Task := mkTask device_host [RxMsg (check_request setup_listener); RxMsg (success_notice setup_listener)] ∅.
Lemma rport_established_witness : exists l w1 w3 tx t',
  lrun (mkSharedWriter 3) setup_listener w1 [LRun; LMsg (CheckResult 9 true)] l w3 /\
  handle_server_rport (lit "k") 7 5 (map lit ["rport"; "tcp:8080"; "tcp:80"]%string) setup_task = (Ok (mkRule tx (lit "tcp:8080")), t') /\
  said 7 [rport_init 5 (lit "tcp:8080") (lit "tcp:80"); mkTaskMessage 5 ForwardCheckResult [0; 0; 0; 9; 1]] device_host (t_host t').
Proof.
  destruct (rport_established (mkSharedWriter 3) 7 3 5 9 80 (lit "rport") (lit "tcp:8080") (lit "tcp:80") (lit "0.0.0.0:8080") (lit "k") [] []
    one_client setup_task start_world) as (w1 & qd & w2 & l & w3 & r & t' & _ & _ & _ & _ & _ & Hrun & _ & E & Hs & [tx ->] & _).
  - ulia.
  - ulia.
  - by apply (bool_decide_unpack _); vm_compute.
  - by apply (bool_decide_unpack _); vm_compute.
  - by vm_compute.
  - by vm_compute.
  - by vm_compute.
  - done.
  - split; [done|]. by vm_compute.
  - apply device_ready.
  - apply client_listens.
  - apply client_listens.
  - done.
  - exists l, w1, w3, tx, t'. split; [exact Hrun|]. split; [exact E|exact Hs].
Defined.
End SetupWitness.
