(* ===== verification/InteropFport.v ===== *)
(** * Host and daemon: an [fport] rule

    [handle_server_forward] over a TCP session against the daemon's [handle_forward_task] and
    the listener it starts: each side is given the messages the other one sends. *)

From S2P Require Import Prelude RustStr Config Tlv Serializer Encrypt Transport Daemon DaemonForward.
From S2P Require Import HostMaps HostChannels HostTask HostFile HostForward HostBridge HostClient InteropRport InteropSetup.

Section Fport.
Context {HA : Aead} {HL : AeadLaws HA} {OS : Os} {HI : HashIter} {HN : HostNet}.
Context (wr : SharedWriter) (sid ch ctx lid port : Z) (local remote : bytes).
Hypothesis Hch : u32 ch.
Hypothesis Hctx : u32 ctx.
Hypothesis Hlocal : node local.
Hypothesis Hremote : node remote.
Hypothesis Hlen : len local + len remote <= 2 ^ 19.

(** The host's first message, and the daemon's answer. *)
Definition fport_check : TaskMessage := mkTaskMessage ch ForwardCheck (context_payload ctx remote).
Definition fport_result : TaskMessage :=
  mkTaskMessage ch ForwardCheckResult (to_be_bytes 4 ctx ++ replicate 8 0 ++ [match connect_remote remote with Ok _ => 1 | _ => 0 end]).
Lemma zero_ends s : node s -> parse_null_terminated (s ++ [0]) = s.
Proof.
  intros Hs. pose proof (node_no_zero s Hs) as Hz. unfold parse_null_terminated.
  rewrite (split_once_app _ _ [] Hz).
  by apply from_utf8_lossy_valid, ascii_utf8, node_ascii.
Qed.
Lemma context_drop id spec : drop 12 (context_payload id spec) = spec ++ [0].
Proof. unfold context_payload. by rewrite app_assoc, drop_app_length' by (by rewrite length_app, length_to_be_bytes, length_replicate). Qed.
Lemma len_context id spec : len (context_payload id spec) = 13 + len spec.
Proof. exact (len_spec_payload id spec). Qed.
Lemma fport_result_sendable : sendable fport_result.
Proof using Hch.
  clear Hlen Hlocal Hremote. apply small_sendable; [done| |]; cbn [payload fport_result].
  - rewrite !bytes_ok_app. split_and!; [apply to_be_bytes_ok|repeat constructor; ulia|]. constructor; [|constructor]. destruct (connect_remote _); ulia.
  - rewrite !len_app, len_to_be_bytes. by cbn.
Qed.
Lemma daemon_checks sid' w : rport_listeners (fwd w) !! ch = None -> link_open (sw_session_id wr) (link w) ->
  exists w1, handle_forward_task fport_check sid' wr w = (Ok tt, w1) /\ puts (sw_session_id wr) [fport_result] w w1 /\ fwd w1 = fwd w.
Proof using Hch Hctx Hremote HL.
  intros Hn Ho. unfold handle_forward_task. rewrite M_bind_eq. cbn [get fport_check channel_id command payload]. rewrite Hn, len_context.
  rewrite (proj2 (Z.ltb_ge _ _)) by (pose proof (len_nonneg remote); lia). rewrite slice_from_ok by (rewrite len_context; pose proof (len_nonneg remote); lia).
  change (Z.to_nat 12) with 12%nat. rewrite context_drop. unfold context_payload. rewrite id_of_to, !M_bind_lift by done. rewrite (zero_ends _ Hremote). cbv zeta. unfold check_remote_reachable.
  destruct (send_shared_sends wr fport_result w Ho fport_result_sendable) as (w1 & E & l & El & -> & Hl).
  exists (set_link l w). split; [exact E|]. by split.
Qed.

(** ** The host *)

(** The daemon's answer refuses, whatever it says: its flag is behind the byte the host reads. *)
Lemma check_flow_refused tx h0 a rest fs t :
  is_debug remote = false -> host_bind_error 0 (get_forward_listen_ip ++ [58] ++ fmt_dec port) = None ->
  in_talk sid h0 [] a (RxMsg fport_result :: rest) fs t ->
  exists e h1 t', check_flow sid ch port ctx tx remote t = (Err e, t') /\ in_talk sid h1 [fport_check] a rest fs t' /\
    said sid [] (t_host t) h1 /\ forward_map h1 = forward_map (t_host t) /\
    UsbMap.session_senders (usb_map h1) = UsbMap.session_senders (usb_map (t_host t)).
Proof using Hch Hctx Hremote Hlen HL.
  intros Hd Hb Ht. unfold check_flow. rewrite Hd. unfold bind. rewrite Hb, M_bind_eq. cbn [mret M_ret].
  rewrite M_bind_eq. cbn [on_host on_usb zoom UsbMap.register_response_channel modify].
  set (um := UsbMap.set_response_channels _ _). set (t1 := mkTask _ _ _).
  pose proof (rebase sid h0 a _ fs t um Ht) as Ht1. change (in_talk sid (t_host t1) [] a (RxMsg fport_result :: rest) fs t1) in Ht1.
  assert (H : wp (_ ← to_daemon sid fport_check; t ← get; ok ← await_check_result (rx_fuel t) ctx;
      if negb ok then throw ConnectionRefused "Daemon rejected ForwardCheck" else _ ← forward_ok ch; mret (ctx, remote))
    (fun _ _ => False) (fun _ => in_talk sid (t_host t1) [fport_check] a rest fs) t1).
  { talk (by apply (to_daemon_talk sid (t_host t1) _ _ _ _ _ _ Ht1), context_sendable; [|apply ascii_bytes_ok, node_ascii|pose proof (len_nonneg local); lia]) as Ht2.
    apply wp_bind, wp_get, wp_bind.
    unfold rx_fuel at 1. cbn [await_check_result]. apply wp_bind. eapply rx_recv_talk; [exact Ht2|]. intros t3 Ht3; cbv beta iota. cbn [command payload fport_result].
    rewrite payload_id_to, Z.eqb_refl by done. rewrite !len_app, len_to_be_bytes. change (5 <=? _) with true. cbn [andb].
    apply wp_ret. unfold nth_byte. rewrite app_nth2 by (rewrite length_to_be_bytes; cbn; lia). rewrite length_to_be_bytes. done. }
  unfold wp in H. change (mkTaskMessage ch ForwardCheck (context_payload ctx remote)) with fport_check.
  destruct ((_ ← to_daemon _ _; _) t1) as [[r|e|] t'] eqn:E; [done| |done]. exists e, (t_host t1), t'. split_and!; try done.
  destruct Ht as (_ & Hr & _). exact (said_nil sid (t_host t) Hr).
Qed.
(** The fallback gets as far as the answer to the daemon's check, which goes over USB. *)
Lemma init_flow_fails ms h0 a rest fs t :
  host_bind_error 1 (get_forward_listen_ip ++ [58] ++ fmt_dec port) = None -> UsbMap.session_senders (usb_map h0) !! sid = None ->
  in_talk sid h0 ms a (RxMsg (check_request (new_listener ch local remote lid)) :: rest) fs t ->
  wp (init_flow sid ch port local remote) (fun _ _ => False)
    (fun e t' => e = mkError NotFound (lit "usb session not found") /\ in_talk sid h0 (ms ++ [rport_init ch local remote]) a rest fs t') t.
Proof using Hch Hremote Hlocal Hlen HL.
  intros Hb Hn Ht. unfold init_flow. pose proof (len_nonneg local). pose proof (len_nonneg remote).
  talk (apply (to_daemon_talk sid h0 _ _ _ _ _ _ Ht)) as Ht2.
  { apply small_sendable; [done| |]; cbn [payload].
    - rewrite !bytes_ok_app. split_and!; [by apply ascii_bytes_ok, node_ascii|repeat constructor; ulia|by apply ascii_bytes_ok, node_ascii].
    - rewrite !len_app. change (len [32]) with 1. lia. }
  apply wp_bind, wp_get, wp_bind. unfold rx_fuel at 1. cbn [await_forward_check]. apply wp_bind. eapply rx_recv_talk; [exact Ht2|]. intros t3 Ht3; cbv beta iota.
  cbn [command payload check_request l_id l_local new_listener]. rewrite len_spec_payload, (proj2 (Z.ltb_ge _ _)) by lia. apply wp_ret.
  cbv beta iota. apply wp_bind, wp_try. unfold bind. rewrite Hb. apply wp_ret. apply wp_bind.
  unfold send_forward_check_result, to_usb, wp, on_host, on_usb, zoom, UsbMap.send_to_session.
  destruct Ht3 as (S3 & R3 & I3 & (T1 & T2 & T3 & T4) & E3 & F3). rewrite T2, Hn. split; [done|]. split_and!; try done.
Qed.
End Fport.

(** C22: [fport] between the host and the daemon of this repository, over TCP.  The daemon answers
    the host's check with its flag at the last of thirteen bytes, the host reads the fifth,
    which is zero: the rule is refused also when the remote node can be reached.  The host
    then falls back to the message with which the daemon begins a reverse rule: the daemon
    listens on its own side at the port that was meant for the host and asks the host, whose
    answer can only go over USB.  So the command fails without a rule, and the daemon is
    left with a listener that waits for an answer. *)
Theorem fport_refused {HA : Aead} {HL : AeadLaws HA} {OS : Os} {HI : HashIter} {HN : HostNet}
    (wr : SharedWriter) (sid sid' ch ctx lid port : Z) (handle : positive) (word local remote addr key : bytes) (words : list bytes)
    (rest : list RxEvent) (a : ChannelSpec.t) (t : Task) (w : World) :
  let l0 := new_listener ch local remote lid in
  u32 ch -> u32 ctx -> node local -> node remote -> len local + len remote <= 2 ^ 19 ->
  starts_with (lit "tcp:") local = true -> parse_forward_port local = Ok port -> known_remote remote = true -> is_debug remote = false ->
  (forall n, host_bind_error n (get_forward_listen_ip ++ [58] ++ fmt_dec port) = None) -> start_listener local = Ok addr ->
  rport_listeners (fwd w) !! ch = None -> link_open (sw_session_id wr) (link w) ->
  ready sid (t_host t) -> UsbMap.session_senders (usb_map (t_host t)) !! sid = None -> implements (t_host t) a ->
  t_rx t = RxMsg (fport_result ch ctx remote) :: RxMsg (check_request l0) :: rest ->
  exists w1 w2 qd w3 t',
    handle_forward_task (fport_check ch ctx remote) sid' wr w = (Ok tt, w1) /\
    puts (sw_session_id wr) [fport_result ch ctx remote] w w1 /\
    handle_forward_task (rport_init ch local remote) sid' wr w1 = (Ok tt, w2) /\
    rport_tasks (fwd w2) !! qd = Some (mkRportTask ch local remote false) /\
    lrun wr l0 w2 [LRun] (DaemonForward.set_phase LChecking l0) w3 /\ puts (sw_session_id wr) [check_request l0] w2 w3 /\
    rport_listeners (fwd w3) !! ch = Some qd /\
    handle_server_forward ctx handle key sid ch (word :: local :: remote :: words) t = (Err (mkError NotFound (lit "usb session not found")), t') /\
    said sid [fport_check ch ctx remote; rport_init ch local remote] (t_host t) (t_host t') /\
    forward_map (t_host t') = forward_map (t_host t).
Proof.
  intros l0 Hch Hctx Hlo Hre Hlen Htcp Hp Hk Hd Hb Hs Hn Ho Hr Hno Hi Hrx.
  destruct (daemon_checks wr ch ctx remote Hch Hctx Hre sid' w Hn Ho) as (w1 & E1 & P1 & F1).
  destruct (daemon_registers wr ch local remote Hlo Hre sid' w1 addr Hs ltac:(by rewrite F1)) as (w2 & qd & E2 & L2 & Eq & Et & _).
  destruct (listener_asks wr ch lid local remote Hch Hre Hlen w2 ltac:(rewrite L2; apply P1)) as (w3 & Hrun & P3 & F3).
  destruct (register_talk sid ch a t Hr Hi) as (tx & t1 & E & Ht & Hs0 & _ & Ef & _ & _).
  assert (Es : UsbMap.session_senders (usb_map (t_host t1)) = UsbMap.session_senders (usb_map (t_host t))) by (by injection E as _ <-).
  rewrite Hrx in Ht. destruct (check_flow_refused sid ch ctx port local remote Hch Hctx Hre Hlen tx _ a _ _ t1 Hd (Hb 0%nat) Ht)
    as (e & h1 & t2 & Ec & Ht2 & Hs1 & Ef1 & Es1).
  pose proof (init_flow_fails sid ch lid port local remote Hch Hlo Hre Hlen _ _ a _ _ t2 (Hb 1%nat) ltac:(by rewrite Es1, Es) Ht2) as Hf.
  unfold wp in Hf. destruct (init_flow sid ch port local remote t2) as [[v|e2|] t3] eqn:Ei; [done| |done].
  destruct Hf as (-> & S3 & _ & _ & (_ & _ & T3 & _) & _).
  exists w1, w2, qd, w3, (drop_receiver tx t3).2. split_and!; try done; [by rewrite F3| | |].
  - unfold handle_server_forward. rewrite Htcp. cbn [negb]. rewrite Hp, M_bind_eq. cbn [lift]. rewrite Hk. cbn [negb]. rewrite (M_bind_Ok _ _ _ _ _ E).
    assert (Et' : try_ (check_flow sid ch port ctx tx remote) t1 = (Ok (Err e), t2)) by (unfold try_; by rewrite Ec).
    match goal with |- (or_drop tx ?m ≫= _) t1 = _ => assert (Eo : or_drop tx m t1 = (Err (mkError NotFound (lit "usb session not found")), (drop_receiver tx t3).2)) end.
    { unfold or_drop. erewrite M_bind_Ok; [|unfold try_ at 1; rewrite (M_bind_Ok _ _ _ _ _ Et'), Ei; reflexivity]. done. }
    rewrite M_bind_eq, Eo. done.
  - exact (said_trans sid [] _ _ _ _ Hs0 (said_trans sid [] _ _ _ _ Hs1 S3)).
  - cbn. by rewrite T3, Ef1, Ef.
Qed.

Section FportWitness.
#[local] Existing Instance ToyAead.aead.
#[local] Existing Instance ToyAead.laws.
#[local] Existing Instance CalmOs.os.
#[local] Existing Instance SomeOrder.order.
#[local] Existing Instance OpenNet.net.

Definition refused_task : Task :=
  mkTask device_host [RxMsg (fport_result 5 9 (lit "tcp:90")); RxMsg (check_request (new_listener 5 (lit "tcp:80") (lit "tcp:90") 4))] ∅.
Lemma fport_refused_witness : exists t' w3 qd,
  handle_server_forward 9 4 (lit "k") 7 5 (map lit ["fport"; "tcp:80"; "tcp:90"]%string) refused_task =
    (Err (mkError NotFound (lit "usb session not found")), t') /\
  rport_listeners (fwd w3) !! 5 = Some qd.
Proof.
  destruct (fport_refused (mkSharedWriter 3) 7 3 5 9 4 80 4 (lit "fport") (lit "tcp:80") (lit "tcp:90") (lit "0.0.0.0:80") (lit "k") [] []
    one_client refused_task start_world) as (w1 & w2 & qd & w3 & t' & _ & _ & _ & _ & _ & _ & Hl & E & _).
  - ulia.
  - ulia.
  - by apply (bool_decide_unpack _); vm_compute.
  - by apply (bool_decide_unpack _); vm_compute.
  - by vm_compute.
  - by vm_compute.
  - by vm_compute.
  - by vm_compute.
  - by vm_compute.
  - done.
  - by vm_compute.
  - done.
  - split; [done|]. by vm_compute.
  - apply device_ready.
  - done.
  - apply client_listens.
  - done.
  - exists t', w3, qd. split; [exact E|exact Hl].
Defined.
End FportWitness.
